(* ===== verification/_CoqProject ===== *)
-Q . S2P
Prelude.v
GoStd.v
GoNum.v
GoText.v
GoCodec.v
GoMux.v
GoJSON.v
Api.v
NodeIndex.v
PoolKeys.v
SandboxView.v
Inventory.v
KubeInventory.v
MeshInventory.v
FirstHit.v
Client.v
StoreRead.v
StoreWatch.v
WatchRun.v
StoreClaim.v
StoreLifecycle.v
Store.v
KubeCache.v
LogBridge.v
Sandboxd.v
WarmPool.v
ApiServer.v
ApiGroup.v
Memory.v
DeepCopy.v
StaticMemory.v
SandboxId.v
E2bServer.v
E2bGuest.v
E2bTemplates.v
E2bSandboxes.v
PortRelay.v
EnvdRoute.v
EnvdResolver.v
EnvdEdge.v
BuildRecords.v
BuildRun.v
E2bUploads.v
E2bBuildGuest.v
E2bBuilds.v
E2bApi.v
E2bWire.v
E2bFlags.v
ServeDrain.v
Commands.v
CommandLine.v
Walkthrough.v
WalkRoutes.v
