(* ===== verification/Prelude.v ===== *)
(** * sandbox-operator: verification library (root file)

    The program hands out microVM sandboxes from warm pools that every node
    keeps.  No per-sandbox object is stored: each node publishes an inventory of
    its pools and claims, and everything else is computed from these inventories
    and from the nodes themselves.

    ** Parts and how they interact

    - _Inventory sources_ hold what the nodes published.  pkg/scale has an
      in-memory one, pkg/scale/kubeinventory reads NodeInventory objects through
      an informer, pkg/scale/meshinventory polls the sandboxd mesh.
    - _The store_ (pkg/scale) answers reads from an inventory source and, when
      that misses, from the nodes; it routes a claim to a node with warm capacity
      and a verb to the node that owns a sandbox.  It remembers where it found
      things in a bounded index.
    - _The sandboxd client_ (pkg/sandboxd) is how the store, the warm-pool driver
      and the mesh source talk to a node, and how a port of a guest is reached.
    - _The warm-pool driver_ (pkg/scale/warmpool) spreads the pools' replicas over
      the nodes.
    - _The aggregated apiserver_ (pkg/scale/apiserver), _the e2b surface_
      (pkg/e2bcompat), _the edge proxy_ (pkg/envdproxy) and _the build executor_
      (pkg/e2bbuild) are the store's clients.
    - _The commands_ (cmd) put these together into three binaries.

    ** Files

    The library is layered; a file requires only files listed before it.

    Foundations
    - [Prelude]: errors, results, the state-passing monad [io], lists, automation.
    - [GoStd], [GoNum], [GoText], [GoCodec], [GoMux]: the parts of Go's standard
      library the program computes with: strings, net.SplitHostPort, RFC 3339 time,
      FNV; strconv, float64 rounding, durations; UTF-8, trimming, splitting, paths;
      URL escapes and queries, base64, streams; net/http's request multiplexer.
    - [GoJSON]: encoding/json on trees: a type's codec, a struct as the table of its
      fields and tags, and which values come back as they were.
    - [Api]: the records of src/api/v1beta1, src/pkg/sandboxd and src/pkg/scale.

    The fleet as it is read
    - [NodeIndex]: src/pkg/scale/nodeindex.go.  State [nodeIndex], operations
      [lookup] and [remember].
    - [PoolKeys]: src/pkg/scale/poolkey.go.
    - [SandboxView]: how an inventory entry or a node's row becomes a sandbox
      (src/pkg/scale/sandboxstore_impl.go, sandboxstore_live.go).
    - [Inventory]: the interface [InventorySource] with its laws, and the in-memory
      source.
    - [KubeInventory]: src/pkg/scale/kubeinventory/source.go.  State [Source];
      [put] and [drop] are the informer's handlers.  [KubeCache] (after [Store]):
      cache.go and applier.go of the same package, what starts the informer and what
      publishes an inventory.
    - [MeshInventory]: src/pkg/scale/meshinventory/source.go.  State [Source];
      [tick] is one poll of the mesh, [run] the goroutine that polls.

    The objects in memory
    - [Memory]: Go's pointers, slices and maps over one memory, what a value reads as
      ([view]) and what it reaches.  [DeepCopy]: src/api/v1beta1 with its pointers, and
      the copies of zz_generated.deepcopy.go.  [StaticMemory]: the in-memory source of
      [Inventory] once more, sharing that memory with its callers, who may write to it.
      Elsewhere a value is copied when it is bound; these files show where the code
      makes that true.

    The store
    - [FirstHit]: the bounded fan-out as a step relation over goroutines, and its
      sequential reading.
    - [Client]: the interface [SandboxdClient], and clients that record calls.
    - [StoreRead], [StoreWatch], [WatchRun], [StoreClaim], [StoreLifecycle]:
      src/pkg/scale/sandboxstore_impl.go and sandboxstore_lifecycle.go.  The state
      of an operation is the index paired with the world.  [StoreWatch] is what a
      tick of a watch finds, [WatchRun] the goroutine that emits it.
    - [Store]: the contract of src/pkg/scale/sandboxstore.go as a type class with
      laws, discharged by the scatter-gather store; and [emits], the postcondition
      of a computation that records what it does.
    - [Sandboxd]: src/pkg/sandboxd/client.go and lifecycle.go, the HTTP client that
      implements [Client.SandboxdClient] over a transport.
    - [PortRelay]: src/pkg/sandboxd/ports.go, the dial of a guest port over a network.
    - [LogBridge]: src/pkg/logbridge/logbridge.go.

    The clients of the store
    - [WarmPool]: src/pkg/scale/warmpool/driver.go.
    - [ApiServer]: src/pkg/scale/apiserver/storage.go and lifecycle_storage.go.
      [ApiGroup]: apiserver.go, scheme.go and openapi.go beside them, which storages
      the group installs, with which verbs, and the types and models behind them.
    - [SandboxId]: src/pkg/e2bcompat/sandboxid.go.
    - [EnvdRoute], [EnvdResolver], [EnvdEdge]: src/pkg/envdproxy.  The first decides
      where a request goes, the second finds and authorizes, the third is the handler
      and the transport around them.
    - [BuildRecords], [BuildRun]: src/pkg/e2bbuild.
    - [E2bServer], [E2bGuest], [E2bTemplates], [E2bSandboxes], [E2bUploads],
      [E2bBuildGuest], [E2bBuilds], [E2bApi], [E2bFlags]: src/pkg/e2bcompat.  The
      server's configuration, keys and views; the calls into a guest; templates; the
      sandbox handlers; uploaded archives; a build's process stream; builds; the whole
      surface behind its routes; the options its flags give.  [E2bWire]: types.go as
      tables of fields, the documents of every body and reply.
    - [ServeDrain]: the serving goroutines of src/pkg/envdproxy/flags.go and
      src/pkg/e2bcompat/server.go, as a step relation [server_step].
    - [Commands]: src/cmd, what each binary puts together.  [CommandLine]: the flags
      each registers (AddFlags and main) and what a command line makes of them.
    - [Walkthrough]: src/examples/lifecycle/example.go, a client of both surfaces, and
      the [protocol] it keeps to.  [WalkRoutes]: the same requests at the server's routes.

    ** Conventions

    - A method that changes state is a function [io S A = S → A * S], composed with
      [←] in the order of the code.  [W] and [S] stand for the world: the nodes, the
      network and whatever else may happen during a call.
    - A Go error is a value of [error] that keeps the chain of wrapped errors, since
      that chain is all the code inspects; a message is kept as its format and
      arguments.  A cancelled context or a timeout surfaces as the error of the call
      it cut short.
    - What the code takes from outside is an argument: clock readings, random draws,
      generated names, a limiter's answer, admission, when a consumer leaves, the
      order in which a Go map is ranged over or a fan-out's nodes answer ([ord]).
      Theorems hold for every value of these.  A draw is within its range ([in_range])
      and an order is a permutation ([fair]), as the language and its libraries
      document.
    - Fan-outs are read sequentially in some order; [FirstHit.FirstHit_sequential]
      justifies this for the concurrent code.
    - Third-party code is a type class: Kubernetes quantities and selectors, JSON
      codecs, the HTTP transport and the network under it, Unicode case mapping, envd
      in the guest, the hashes of access tokens and signatures, the bucket and the
      directory of uploads, the files of the flags, the host a command runs on.
    - Statements about what is done to the outside run the code over a recording
      instance of such a class and speak of the log.
    - Integers are [Z], with the wrap-around written where the code can reach it
      (nanosecond differences, the FNV hash, the parsed integers' ranges).  Go's
      unstable sorts are read as [merge_sort], one of their admissible results.

    ** What the theorems show

    - Claims: at most one node delivers, an outcome that is not known to be harmless
      ends the claim, and only advertised nodes are asked ([StoreClaim]).
    - Reads: [Get] finds exactly what an inventory or a node holds, whatever the
      index remembers; lists are sound, complete and stay in their namespace
      ([StoreRead]).  A watch's events replay to what the watch knows ([StoreWatch]),
      over any number of ticks and for a client that leaves at any event ([WatchRun]).
    - The fan-out is equivalent to a sequential scan, within its limit, and always
      ends ([FirstHit]).
    - The sources meet the contract of [Inventory] and forget silent nodes
      ([KubeInventory], [MeshInventory]); the index refines a bounded map
      ([NodeIndex]).
    - Verbs make one call on the owning node or none ([StoreLifecycle], [ApiServer]),
      and a Delete releases exactly the claim of the sandbox it resolved, from the
      API down to the node.
    - The edge relays a request only with the credential of the sandbox it names, over
      every history of requests ([EnvdResolver]), on one connection dialed to that
      sandbox's node, and says nothing of the fleet ([EnvdEdge]); hosts and ids
      round-trip ([EnvdRoute], [SandboxId]).  A relayed connection is closed exactly
      when its dial fails and loses no byte of the guest's ([PortRelay]).
    - The driver sends every node its whole pool set and shares the warm counts out
      without inventing any ([WarmPool]); it provisions the key the API claims with.
    - A build releases its sandbox exactly once, never exceeds its slots in any
      interleaving, and its shell lines quote what they are given ([BuildRecords],
      [BuildRun]); its process stream is read as it was framed ([E2bBuildGuest]), its
      publish leaves one newest copy and its polls resume where they stopped
      ([E2bBuilds]).
    - The e2b surface serves a key only within its namespace ([E2bSandboxes],
      [E2bApi]); a create hands out a sandbox or gives it back, a fork all children or
      none; an upload is authorized by its signature and appears whole or not at all
      ([E2bUploads]), and a link that is handed out is served ([E2bApi]).
    - The flags give the server what it requires and the keys their namespaces
      ([E2bFlags]); the all-in-one binary serves an edge that takes what its e2b
      surface hands out ([Commands]).  No binary registers a flag twice, a variable
      holds the last setting of its flag, and a default where there is none; what the
      flags say is what is served ([CommandLine]).
    - A server that returns without an error has closed its listener and has drained
      or run out of its grace, and once its context has ended it can always return,
      in any order of the goroutines ([ServeDrain]).
    - A source is built only on an inventory that has synced in time, and an applied
      inventory is served as it was written ([KubeCache]).
    - The API group answers each verb as its storage implements it, calls the store
      only for these, and its models are closed under reference ([ApiGroup]).
    - A deep copy reads as its original and shares nothing with it ([DeepCopy]), so the
      in-memory source keeps its promise whatever its callers write to what they passed
      in or were handed ([StaticMemory]).
    - What the e2b surface replies with is read back under the tags of its types
      ([E2bWire]).
    - The walk-through makes the requests of its protocol and no other, goes on only
      from an answer that meets a verb's contract, and cleans up what it was told the
      id of ([Walkthrough]); the server routes each of these to its verb ([WalkRoutes]).
    - Every call of the logger records one line, and an error is never dropped
      ([LogBridge]).

    ** Fuel and bounds

    - [StoreClaim.claim_loop] takes the number of candidates as fuel: every round
      removes at least the candidate it picked, so it never runs out
      ([StoreClaim.Claim_once]).
    - [PortRelay.read_line] takes one more than the bytes the reader may still take,
      and [PortRelay.read_lines] one more than these and the bytes held: every fill
      takes a byte and every line uses one up ([PortRelay.relay_terminates]).
    - [E2bBuildGuest.read_stream] takes one more than the bytes of the stream: every
      frame uses five ([E2bBuildGuest.read_events_fuel]).
    - [BuildRun.awaitReady] takes the number of polls before the build's timeout,
      which is what ends the loop in the code.
    - [WarmPool.top_up] takes the left-over as fuel and hands out one per step.
    - The remaining recursion is structural; [FirstHit.FirstHit_bounded] bounds the
      steps of the goroutines by 5n+1.

    ** What is not modelled

    Library code, declarations, and programs around the system without logic of
    their own:
    - the copying of bytes by httputil.ReverseProxy, and inside net/http anything
      but accepting, draining and closing;
    - the parsing of arguments by pflag, informers and the server-side apply call
      behind [KubeCache.Cluster], the generic apiserver's routing, the AWS client;
    - the copies of ObjectMeta and ListMeta, which are the API machinery's;
    - the configuration of OpenAPI V3, the conversion to tables and the version
      strings;
    - the text of JSON: a document is a tree, its rendering and parsing encoding/json's;
    - the smoke tests and the benchmark of src/test. *)

From Stdlib Require Ascii.
From stdpp Require Export prelude strings gmap list sorting pretty.
Export Stdlib.Strings.Ascii (ascii(..), N_of_ascii, ascii_of_N).
Export (notations) Stdlib.Strings.Ascii.

(** ** Errors *)

(** A Go [error] value.  The text of a message is kept as its format and its
    arguments; what the code inspects is the chain of wrapped errors.

    - [ErrText]: [errors.New] and [fmt.Errorf] without [%w];
    - [ErrWrap]: [fmt.Errorf] with [%w], which keeps the wrapped error visible
      to [errors.Is] and [errors.As];
    - [ErrSentinel]: a package-level error variable, by its qualified name;
    - [ErrHTTP]: a [*sandboxd.HTTPError] (status code and decoded message);
    - [ErrRedirect]: a [*sandboxd.RedirectError] (the warm peers named);
    - [ErrNetOp]: a [*net.OpError] (its [Op] field);
    - [ErrStatus]: an API status error, by its HTTP code and its message;
    - [ErrJoin]: [errors.Join] of two errors;
    - [ErrPanic]: a run-time panic of the goroutine (index out of range). *)
Inductive error : Type :=
| ErrText (fmt : string) (args : list string)
| ErrWrap (fmt : string) (args : list string) (inner : error)
| ErrSentinel (name : string)
| ErrHTTP (code : Z) (msg : string)
| ErrRedirect (targets : list string)
| ErrNetOp (op : string)
| ErrStatus (code : Z) (msg : list string)
| ErrJoin (first next : error)
| ErrPanic (what : string).

#[export] Instance error_eq_dec : EqDecision error.
Proof. solve_decision. Defined.

(** The errors [errors.Is] and [errors.As] walk: the error, then what it wraps, in
    depth-first order. *)
Fixpoint unwrap_all (e : error) : list error :=
  e :: match e with ErrWrap _ _ i => unwrap_all i | ErrJoin a b => unwrap_all a ++ unwrap_all b | _ => [] end.

(** [errors.Is] of a package-level variable, or [errors.As] of a type that is only
    recognised. *)
Definition errors_is (e target : error) : bool := bool_decide (target ∈ unwrap_all e).

(** [errors.As]: the first error of the chain that [f] recognises. *)
Definition errors_as {A} (f : error → option A) (e : error) : option A :=
  head (omap f (unwrap_all e)).

Definition http_of (e : error) : option (Z * string) :=
  match e with ErrHTTP c m => Some (c, m) | _ => None end.
Definition redirect_of (e : error) : option (list string) :=
  match e with ErrRedirect t => Some t | _ => None end.
Definition netop_of (e : error) : option string :=
  match e with ErrNetOp o => Some o | _ => None end.
Definition status_of (e : error) : option (Z * list string) :=
  match e with ErrStatus c m => Some (c, m) | _ => None end.

(** The words of an error's text ([err.Error()]): formats and arguments from the
    outside in. *)
Fixpoint error_text (e : error) : list string :=
  match e with
  | ErrText f args => f :: args
  | ErrWrap f args i => f :: args ++ error_text i
  | ErrSentinel name => [name]
  | ErrHTTP _ msg => [msg]
  | ErrRedirect targets => targets
  | ErrNetOp op => [op]
  | ErrStatus _ msg => msg
  | ErrJoin a b => error_text a ++ error_text b
  | ErrPanic what => [what]
  end.

(** The API-machinery constructors the code calls, by their HTTP status. *)
Definition NewNotFound (res name : string) : error := ErrStatus 404 [res; name].
Definition NewBadRequest (msg : list string) : error := ErrStatus 400 msg.
Definition NewServiceUnavailable (msg : list string) : error := ErrStatus 503 msg.
Definition NewInternalError (msg : list string) : error := ErrStatus 500 msg.

Definition status_code (e : error) : option Z := fst <$> errors_as status_of e.
Definition IsNotFound (e : error) : bool := bool_decide (status_code e = Some 404%Z).
Definition IsConflict (e : error) : bool := bool_decide (status_code e = Some 409%Z).

(** ** Fallible and stateful computations *)

(** The [(T, error)] pair of a Go function: exactly one of the two is meant. *)
Inductive result (A : Type) : Type :=
| Ok (a : A)
| Err (e : error).
Arguments Ok {A} a.
Arguments Err {A} e.

#[export] Instance result_eq_dec `{EqDecision A} : EqDecision (result A).
Proof. solve_decision. Defined.

#[export] Instance result_ret : MRet result := λ A, Ok.
#[export] Instance result_bind : MBind result := λ A B f m,
  match m with Ok a => f a | Err e => Err e end.
#[export] Instance result_fmap : FMap result := λ A B f m,
  match m with Ok a => Ok (f a) | Err e => Err e end.

Definition is_ok {A} (r : result A) : bool :=
  match r with Ok _ => true | Err _ => false end.

Definition map_err {A} (f : error → error) (r : result A) : result A :=
  match r with Ok a => Ok a | Err e => Err (f e) end.

(** [io S A]: a computation over a state [S] (a component's own mutable
    fields, or the world its calls act on) that returns an [A]. *)
Definition io (S A : Type) : Type := S → A * S.

#[export] Instance io_ret {S} : MRet (io S) := λ A a s, (a, s).
#[export] Instance io_bind {S} : MBind (io S) := λ A B f m s,
  let '(a, s') := m s in f a s'.

(** [errors.Join] of two results without values. *)
Definition errors_join (a b : result unit) : result unit :=
  match a, b with
  | Err e, Err e' => Err (ErrJoin e e')
  | Err e, Ok _ | Ok _, Err e => Err e
  | Ok _, Ok _ => Ok tt
  end.

(** [try m k]: run [m]; on an error return it, otherwise go on with [k]: the
    [if err != nil { return ..., err }] of the source. *)
Definition try {S A B} (m : io S (result A)) (k : A → io S (result B)) : io S (result B) :=
  a ← m; match a with Ok x => k x | Err e => mret (Err e) end.

(** Read the state without changing it. *)
Definition gets {S A} (f : S → A) : io S A := λ s, (f s, s).
Definition modify {S} (f : S → S) : io S unit := λ s, (tt, f s).

Declare Scope go_scope.
Delimit Scope go_scope with go.
Notation "x <-? m ;; k" := (try m (λ x, k))
  (at level 100, m at next level, right associativity) : go_scope.
Open Scope go_scope.

(** ** Small helpers of the Go standard library on values *)

(** [cmp.Or] on strings: the first that is not the zero value. *)
Definition str_or (a b : string) : string := if decide (a = "") then b else a.

(** [cmp.Or] on integers. *)
Definition z_or (a b : Z) : Z := if decide (a = 0)%Z then b else a.

(** [slices.IndexFunc]: the first index at which [p] holds, with its element. *)
Fixpoint find_first {A} (p : A → bool) (l : list A) : option A :=
  match l with
  | [] => None
  | x :: l => if p x then Some x else find_first p l
  end.

(** [slices.ContainsFunc] *)
Definition contains_func {A} (p : A → bool) (l : list A) : bool := existsb p l.

(** [slices.DeleteFunc]: drop the elements on which [p] holds, in order. *)
Definition delete_func {A} (p : A → bool) (l : list A) : list A :=
  List.filter (λ x, negb (p x)) l.

(** The keys of a map in increasing order: [slices.Sorted(maps.Keys(m))]. *)
Definition sorted_keys {A} (m : gmap string A) : list string :=
  merge_sort String.le (map_to_list m).*1.

(** ** Variables inside structs *)

(** A pointer to a variable of type [T] inside [O]. *)
Record variable (O T : Type) := mkVar { var_get : O → T; var_put : T → O → O }.
Arguments mkVar {O T} _ _.
Arguments var_get {O T} _ _.
Arguments var_put {O T} _ _ _.

(** [&o.Outer.Inner] *)
Definition within_var {O P T} (outer : variable O P) (inner : variable P T) : variable O T :=
  mkVar (λ o, var_get inner (var_get outer o)) (λ v o, var_put outer (var_put inner v (var_get outer o)) o).

(** A field's variable, from the record's eta rule. *)
Ltac put_field eta getter :=
  let e := eval cbv delta [eta] in eta in
  lazymatch eval pattern getter in e with ?F _ => exact (λ v, F (λ _, v)) end.
Notation "& e ->> g" := (mkVar g ltac:(put_field e g)) (at level 8, e at level 0, g at level 0, only parsing).

(** ** Tactics *)

(** Split the innermost [match] of the goal or of a hypothesis. *)
Ltac destr_match :=
  match goal with
  | |- context [match ?x with _ => _ end] =>
      lazymatch x with context [match _ with _ => _ end] => fail | _ => destruct x eqn:? end
  | H : context [match ?x with _ => _ end] |- _ =>
      lazymatch x with context [match _ with _ => _ end] => fail | _ => destruct x eqn:? end
  end.

(** Case analysis to the end, closing what computation and equalities close. *)
Ltac go_cases := repeat (simplify_eq/=; try done; destr_match); simplify_eq/=; try done.

(** ** Lemmas *)

Lemma bind_run {S A B} (m : io S A) (k : A → io S B) s : (a ← m; k a) s = k (m s).1 (m s).2.
Proof. unfold mbind, io_bind. by destruct (m s). Qed.

Lemma str_or_nonempty a b : a ≠ "" → str_or a b = a.
Proof. intros. unfold str_or. by rewrite decide_False. Qed.

Lemma str_or_empty b : str_or "" b = b.
Proof. done. Qed.

Lemma errors_as_wrap {A} (f : error → option A) fm args e :
  f (ErrWrap fm args e) = None → errors_as f (ErrWrap fm args e) = errors_as f e.
Proof. unfold errors_as. simpl. by intros ->. Qed.

Lemma find_first_Some {A} (p : A → bool) l x :
  find_first p l = Some x → x ∈ l ∧ p x = true.
Proof.
  induction l as [|y l IH]; simpl; [done|].
  destruct (p y) eqn:Hp; intros ?; simplify_eq.
  - split; [constructor|done].
  - destruct IH; [done|]. split; [by constructor|done].
Qed.

Lemma find_first_None {A} (p : A → bool) l :
  find_first p l = None ↔ ∀ x, x ∈ l → p x = false.
Proof.
  induction l as [|y l IH]; simpl; [split; [intros _ x Hx; inversion Hx|done]|].
  destruct (p y) eqn:Hp; split.
  - done.
  - intros H. specialize (H y). rewrite H in Hp; [done|constructor].
  - intros H x [->|Hx]%elem_of_cons; [done|]. by apply IH.
  - intros H. apply IH. intros x Hx. apply H. by constructor.
Qed.

Lemma elem_of_delete_func {A} (p : A → bool) l x :
  x ∈ delete_func p l ↔ x ∈ l ∧ p x = false.
Proof.
  unfold delete_func. rewrite list_elem_of_In, filter_In, <-list_elem_of_In.
  by rewrite negb_true_iff.
Qed.

Lemma length_delete_func_le {A} (p : A → bool) l :
  length (delete_func p l) ≤ length l.
Proof. unfold delete_func. induction l as [|y l]; simpl; [done|]. destruct (p y); simpl; lia. Qed.

Lemma length_delete_func_lt {A} (p : A → bool) l x :
  x ∈ l → p x = true → length (delete_func p l) < length l.
Proof.
  intros Hx Hp. induction l as [|y l IH]; [by apply not_elem_of_nil in Hx|].
  unfold delete_func in *. simpl. apply elem_of_cons in Hx as [<-|Hx].
  - rewrite Hp. simpl. pose proof (length_delete_func_le p l). unfold delete_func in *. lia.
  - specialize (IH Hx). destruct (p y); simpl; lia.
Qed.

Lemma elem_of_snoc {A} (l : list A) (x y : A) : y ∈ l ++ [x] ↔ y ∈ l ∨ y = x.
Proof. by rewrite elem_of_app, list_elem_of_singleton. Qed.

Lemma elem_of_snoc_l {A} (l : list A) (x y : A) : y ∈ l → y ∈ l ++ [x].
Proof. rewrite elem_of_snoc. auto. Qed.

Lemma elem_of_snoc_r {A} (l : list A) (x : A) : x ∈ l ++ [x].
Proof. rewrite elem_of_snoc. auto. Qed.

Lemma not_elem_of_snoc {A} (l : list A) (x y : A) : y ∉ l ++ [x] ↔ (y ∉ l) ∧ y ≠ x.
Proof. rewrite elem_of_snoc. tauto. Qed.

Lemma elem_of_concat {A} (ls : list (list A)) x : x ∈ concat ls ↔ ∃ l, x ∈ l ∧ l ∈ ls.
Proof.
  rewrite list_elem_of_In, in_concat. split.
  - intros (l & ? & ?). exists l. by rewrite !list_elem_of_In.
  - intros (l & ? & ?). exists l. by rewrite <-!list_elem_of_In.
Qed.

(** Induction along a left fold: [P] holds of the consumed prefix and the state. *)
Lemma fold_left_inv {A B} (f : A → B → A) (P : list B → A → Prop) (l : list B) (a : A) :
  P [] a →
  (∀ pre x suf b, l = pre ++ x :: suf → P pre b → P (pre ++ [x]) (f b x)) →
  P l (fold_left f l a).
Proof.
  intros H0 Hs.
  assert (∀ suf pre b, l = pre ++ suf → P pre b → P l (fold_left f suf b)) as H.
  { induction suf as [|x suf IH]; intros pre b Hl Hb; simpl.
    - by rewrite app_nil_r in Hl; subst.
    - apply (IH (pre ++ [x])); [by rewrite <-app_assoc|]. by eapply Hs. }
  by apply (H l []).
Qed.

Lemma sorted_keys_sorted {A} (m : gmap string A) : Sorted String.le (sorted_keys m).
Proof. apply Sorted_merge_sort, _. Qed.

Lemma elem_of_sorted_keys {A} (m : gmap string A) k :
  k ∈ sorted_keys m ↔ is_Some (m !! k).
Proof.
  unfold sorted_keys. rewrite merge_sort_Permutation, list_elem_of_fmap. split.
  - intros [[k' v] [-> Hin%elem_of_map_to_list]]. eauto.
  - intros [v Hv]. exists (k, v). split; [done|]. by apply elem_of_map_to_list.
Qed.

Lemma sorted_keys_NoDup {A} (m : gmap string A) : NoDup (sorted_keys m).
Proof. unfold sorted_keys. rewrite merge_sort_Permutation. apply NoDup_fst_map_to_list. Qed.

Create HintDb go.
#[export] Hint Resolve sorted_keys_sorted sorted_keys_NoDup elem_of_snoc_l elem_of_snoc_r : go.
