(* ===== verification/GoStd.v ===== *)
(** * The parts of the Go standard library the program computes with

    [strings] (cut, prefixes, suffixes, ASCII case), [net.SplitHostPort],
    [strconv] formatting, [time.Time] in UTC with its RFC 3339 rendering, and
    [hash/fnv].  A Go string is a sequence of bytes, here a [string]. *)

From S2P Require Import Prelude.

(** ** strings *)

(** [strings.CutPrefix] *)
Fixpoint cut_prefix (p s : string) : option string :=
  match p, s with
  | "", _ => Some s
  | String a p', String b s' => if decide (a = b) then cut_prefix p' s' else None
  | String _ _, "" => None
  end.

Definition has_prefix (p s : string) : bool := bool_decide (is_Some (cut_prefix p s)).

(** [strings.CutSuffix] *)
Definition cut_suffix (suf s : string) : option string :=
  String.rev <$> cut_prefix (String.rev suf) (String.rev s).

(** [strings.Cut]: split around the first instance of [sep]. *)
Fixpoint str_cut (sep s : string) : option (string * string) :=
  match cut_prefix sep s with
  | Some rest => Some ("", rest)
  | None =>
      match s with
      | "" => None
      | String c s' => (λ '(a, b), (String c a, b)) <$> str_cut sep s'
      end
  end.

(** [strings.Contains] *)
Definition str_contains (s sub : string) : bool := bool_decide (is_Some (str_cut sub s)).

(** Does the byte occur in the string? ([strings.IndexByte(s, c) >= 0]) *)
Fixpoint has_byte (c : ascii) (s : string) : bool :=
  match s with
  | "" => false
  | String d s => bool_decide (c = d) || has_byte c s
  end.

(** [strings.IndexByte], [strings.LastIndexByte] *)
Fixpoint index_byte (c : ascii) (s : string) : option nat :=
  match s with
  | "" => None
  | String d s => if decide (c = d) then Some 0 else S <$> index_byte c s
  end.
Fixpoint last_index_byte (c : ascii) (s : string) : option nat :=
  match s with
  | "" => None
  | String d s =>
      match last_index_byte c s with
      | Some i => Some (S i)
      | None => if decide (c = d) then Some 0 else None
      end
  end.

(** [s[n:]] and [s[:n]] *)
Fixpoint str_drop (n : nat) (s : string) : string :=
  match n, s with
  | S n, String _ s => str_drop n s
  | _, _ => s
  end.
Fixpoint str_take (n : nat) (s : string) : string :=
  match n, s with
  | S n, String c s => String c (str_take n s)
  | _, _ => ""
  end.

(** The value of a byte. *)
Definition byte_val (c : ascii) : Z := Z.of_N (N_of_ascii c).

(** Lower-casing of the ASCII letters; other bytes are kept. *)
Definition lower_byte (c : ascii) : ascii :=
  let n := N_of_ascii c in
  if decide (65 ≤ n ∧ n ≤ 90)%N then ascii_of_N (n + 32) else c.
Fixpoint str_map (f : ascii → ascii) (s : string) : string :=
  match s with
  | "" => ""
  | String c s => String (f c) (str_map f s)
  end.

(** [strings.EqualFold(s, t)] for an ASCII [t]: Unicode simple folding puts
    U+017F (bytes C5 BF) in the class of [s] and U+212A (bytes E2 84 AA) in the
    class of [k], and no other non-ASCII rune in the class of an ASCII letter. *)
Fixpoint fold_ascii (s : string) : string :=
  match s with
  | "" => ""
  | String c s' =>
      let n := N_of_ascii c in
      match s' with
      | String d s'' =>
          if decide (n = 197 ∧ N_of_ascii d = 191)%N then String "s" (fold_ascii s'')
          else match s'' with
               | String e s''' =>
                   if decide (n = 226 ∧ N_of_ascii d = 132 ∧ N_of_ascii e = 170)%N
                   then String "k" (fold_ascii s''')
                   else String (lower_byte c) (fold_ascii s')
               | "" => String (lower_byte c) (fold_ascii s')
               end
      | "" => String (lower_byte c) ""
      end
  end.
Definition equal_fold_ascii (s t : string) : bool := bool_decide (fold_ascii s = str_map lower_byte t).

(** ** strconv *)

(** [strconv.FormatInt(n, 10)], [strconv.FormatUint(n, 10)], [strconv.Itoa] *)
Definition format_int (n : Z) : string := pretty n.

(** ** net *)

(** [net.SplitHostPort]: the host and the port of a [host:port] or
    [[host]:port] address. *)
Definition split_host_port (hp : string) : option (string * string) :=
  match last_index_byte ":" hp with
  | None => None
  | Some i =>
      let tail j k host :=
        if has_byte "[" (str_drop j hp) then None
        else if has_byte "]" (str_drop k hp) then None
        else Some (host, str_drop (S i) hp) in
      match hp with
      | String "[" _ =>
          match index_byte "]" hp with
          | None => None
          | Some e => if decide (S e = i) then tail 1 (S e) (str_take (e - 1) (str_drop 1 hp)) else None
          end
      | _ =>
          let host := str_take i hp in
          if has_byte ":" host then None else tail 0 0 host
      end
  end.

(** ** time *)

(** A [time.Time]: nanoseconds since the Unix epoch. *)
Definition time : Type := Z.
Definition second : Z := 1000000000.

(** The zero [time.Time] is January 1, year 1, 00:00:00 UTC. *)
Definition zero_time : time := (-62135596800 * second)%Z.
Definition time_is_zero (t : time) : bool := bool_decide (t = zero_time).

(** [t.Unix()] *)
Definition unix_seconds (t : time) : Z := (t / second)%Z.

(** Two's complement reduction to a signed 64-bit integer. *)
Definition int64_wrap (z : Z) : Z := ((z + 2 ^ 63) mod 2 ^ 64 - 2 ^ 63)%Z.

(** [t.UnixNano()] *)
Definition unix_nano (t : time) : Z := int64_wrap t.

(** The proleptic Gregorian date of a day number counted from 1970-01-01. *)
Definition civil_of_days (days : Z) : Z * Z * Z :=
  (let z := days + 719468 in
   let era := z / 146097 in
   let doe := z - era * 146097 in
   let yoe := (doe - doe / 1460 + doe / 36524 - doe / 146096) / 365 in
   let doy := doe - (365 * yoe + yoe / 4 - yoe / 100) in
   let mp := (5 * doy + 2) / 153 in
   let d := doy - (153 * mp + 2) / 5 + 1 in
   let m := if decide (mp < 10) then mp + 3 else mp - 9 in
   let y := yoe + era * 400 + (if decide (m <= 2) then 1 else 0) in
   (y, m, d))%Z.

Fixpoint zeros (n : nat) : string :=
  match n with 0 => "" | S n => String "0" (zeros n) end.

(** Decimal digits, zero-padded on the left to [w]. *)
Definition pad_int (w : nat) (n : Z) : string :=
  let ds := format_int (Z.abs n) in
  (if decide (n < 0)%Z then "-" else "") +:+ zeros (w - String.length ds) +:+ ds.

(** [t.UTC().Format(time.RFC3339)] *)
Definition format_rfc3339 (t : time) : string :=
  let sec := unix_seconds t in
  let '(y, m, d) := civil_of_days (sec / 86400)%Z in
  let sod := (sec mod 86400)%Z in
  pad_int 4 y +:+ "-" +:+ pad_int 2 m +:+ "-" +:+ pad_int 2 d +:+ "T" +:+
  pad_int 2 (sod / 3600) +:+ ":" +:+ pad_int 2 (sod / 60 mod 60) +:+ ":" +:+ pad_int 2 (sod mod 60) +:+ "Z".

(** ** hash/fnv *)

(** [fnv.New64a] over the bytes of a string: FNV-1a, 64 bits. *)
Definition fnv64a_offset : Z := 14695981039346656037.
Definition fnv64a_prime : Z := 1099511628211.
Fixpoint fnv64a_from (h : Z) (s : string) : Z :=
  match s with
  | "" => h
  | String c s => fnv64a_from ((Z.lxor h (byte_val c) * fnv64a_prime) mod 2 ^ 64) s
  end.
Definition fnv64a (s : string) : Z := fnv64a_from fnv64a_offset s.

(** ** Lemmas *)

Lemma cut_prefix_Some p s r : cut_prefix p s = Some r ↔ s = p +:+ r.
Proof.
  revert s. induction p as [|a p IH]; intros s; simpl.
  - split; [by intros [= ->]|by intros ->].
  - destruct s as [|b s]; [done|]. case_decide as Hab; subst.
    + rewrite IH. unfold String.app; simpl. split; [by intros ->|by intros [= ->]].
    + split; [done|]. unfold String.app; simpl. by intros [= -> ->].
Qed.

Lemma cut_prefix_app p s : cut_prefix p (p +:+ s) = Some s.
Proof. by apply cut_prefix_Some. Qed.

Lemma has_prefix_spec p s : has_prefix p s = true ↔ ∃ r, s = p +:+ r.
Proof.
  unfold has_prefix. rewrite bool_decide_eq_true. split.
  - intros [r Hr%cut_prefix_Some]. eauto.
  - intros [r ->]. exists r. apply cut_prefix_app.
Qed.

Lemma str_cut_Some sep s a b : str_cut sep s = Some (a, b) → s = a +:+ sep +:+ b.
Proof.
  revert a b. induction s as [|c s IH]; intros a b; simpl.
  - destruct (cut_prefix sep "") eqn:Hp; intros; simplify_eq.
    by apply cut_prefix_Some in Hp.
  - destruct (cut_prefix sep (String c s)) eqn:Hp; intros H; simplify_eq.
    + by apply cut_prefix_Some in Hp.
    + apply fmap_Some in H as ([a' b'] & Hc & [= -> ->]).
      apply IH in Hc. by rewrite Hc at 1.
Qed.

(** Cutting at a byte the first part does not hold gives the two parts back. *)
Lemma str_cut_byte (c : ascii) a b :
  has_byte c a = false → str_cut (String c "") (a +:+ String c b) = Some (a, b).
Proof.
  induction a as [|d a IH]; simpl.
  - intros _. unfold String.app; simpl. by rewrite decide_True.
  - intros [Hne Ha]%orb_false_iff. apply bool_decide_eq_false in Hne.
    unfold String.app in *; simpl in *. rewrite decide_False by done. by rewrite IH.
Qed.

Lemma str_cut_byte_None (c : ascii) s :
  str_cut (String c "") s = None ↔ has_byte c s = false.
Proof.
  induction s as [|d s IH]; simpl; [done|].
  rewrite orb_false_iff, bool_decide_eq_false, <-IH. destruct (decide (c = d)); simpl.
  - split; [done|by intros [? _]].
  - rewrite fmap_None. tauto.
Qed.

Lemma str_cut_byte_Some (c : ascii) s a b :
  str_cut (String c "") s = Some (a, b) → s = a +:+ String c b ∧ has_byte c a = false.
Proof.
  revert a b. induction s as [|d s IH]; simpl; [done|].
  intros a b. destruct (decide (c = d)) as [->|Hne]; simpl.
  - by intros [= <- <-].
  - intros ([a' b'] & Hc & [= -> ->])%fmap_Some. apply IH in Hc as [-> Ha].
    split; [done|]. simpl. by rewrite bool_decide_eq_false_2.
Qed.

Lemma has_byte_app c a b : has_byte c (a +:+ b) = has_byte c a || has_byte c b.
Proof.
  induction a as [|d a IH]; simpl; [done|].
  unfold String.app in *; simpl. by rewrite IH, orb_assoc.
Qed.

Lemma str_app_assoc (a b c : string) : (a +:+ b) +:+ c = a +:+ b +:+ c.
Proof. induction a as [|d a IH]; [done|]. unfold String.app in *; simpl. by rewrite IH. Qed.

Lemma str_app_nil_r (a : string) : a +:+ "" = a.
Proof. induction a as [|d a IH]; [done|]. unfold String.app in *; simpl. by rewrite IH. Qed.

Lemma str_length_app (a b : string) :
  String.length (a +:+ b) = String.length a + String.length b.
Proof. induction a as [|d a IH]; [done|]. unfold String.app in *; simpl. by rewrite IH. Qed.

Lemma fnv64a_range s : (0 ≤ fnv64a s < 2 ^ 64)%Z.
Proof.
  unfold fnv64a. assert (0 ≤ fnv64a_offset < 2 ^ 64)%Z as H by (vm_compute; split; congruence).
  revert H. generalize fnv64a_offset. induction s as [|c s IH]; intros h Hh; simpl; [done|].
  apply IH. by apply Z.mod_pos_bound.
Qed.

Lemma int64_wrap_id z : (- 2 ^ 63 ≤ z < 2 ^ 63)%Z → int64_wrap z = z.
Proof. intros. unfold int64_wrap. rewrite Z.mod_small; lia. Qed.

#[export] Hint Resolve cut_prefix_app : go.
