(* ===== verification/GoNum.v ===== *)
(** * Go numbers: strconv parsing, float64 rounding and durations

    [strconv.Atoi] and [strconv.ParseUint], the part of binary64 arithmetic that
    [time.Duration.Seconds] and [math.Ceil] need, and [time.Time.Sub]. *)

From S2P Require Import Prelude GoStd.

Local Open Scope Z_scope.

(** ** strconv *)

Definition digit_val (c : ascii) : option Z :=
  let n := byte_val c in if decide (48 ≤ n ≤ 57) then Some (n - 48) else None.

(** Decimal digits to the end of the string, after the value [acc]. *)
Fixpoint parse_digits (acc : Z) (s : string) : option Z :=
  match s with
  | "" => Some acc
  | String c s => d ← digit_val c; parse_digits (10 * acc + d) s
  end.

(** [strconv.ParseUint(s, 10, bits)]: digits only, at least one, in range. *)
Definition parse_uint (bits : Z) (s : string) : option Z :=
  if decide (s = "") then None
  else n ← parse_digits 0 s; if decide (n < 2 ^ bits) then Some n else None.

(** [strconv.Atoi]: an optional sign, then digits, within int64. *)
Definition atoi (s : string) : option Z :=
  let '(sign, body) := match s with
                       | String "-" s => (-1, s)
                       | String "+" s => (1, s)
                       | _ => (1, s)
                       end in
  if decide (body = "") then None
  else n ← parse_digits 0 body;
       if decide (- 2 ^ 63 ≤ sign * n < 2 ^ 63) then Some (sign * n) else None.

(** ** float64 *)

(** A finite binary64 value [m * 2^e] with [0 ≤ m]. *)
Record float64 := mkFloat { f_m : Z; f_e : Z }.

(** Round [n / d] half to even on the grid of unit [2^e]. *)
Definition round_at (n d e : Z) : Z :=
  let n' := if decide (e < 0) then n * 2 ^ (- e) else n in
  let d' := if decide (e < 0) then d else d * 2 ^ e in
  let q := n' / d' in
  let r := 2 * (n' mod d') in
  if decide (r < d' ∨ (r = d' ∧ Z.even q = true)) then q else q + 1.

(** The binary64 value nearest to [n / d], for [0 ≤ n], [0 < d] and a quotient in
    the normal range: 53 significant bits. *)
Definition round64 (n d : Z) : float64 :=
  if decide (n = 0) then mkFloat 0 0
  else
    let k := Z.log2 n - Z.log2 d in
    let below := if decide (0 ≤ k) then n <? d * 2 ^ k else n * 2 ^ (- k) <? d in
    let e := (if below then k - 1 else k) - 52 in
    mkFloat (round_at n d e) e.

(** The sum of two non-negative floats, exactly on the finer grid and rounded. *)
Definition add64 (a b : float64) : float64 :=
  let e := Z.min (f_e a) (f_e b) in
  let m := f_m a * 2 ^ (f_e a - e) + f_m b * 2 ^ (f_e b - e) in
  if decide (e < 0) then round64 m (2 ^ (- e)) else round64 (m * 2 ^ e) 1.

(** [math.Ceil], as an integer. *)
Definition ceil64 (a : float64) : Z :=
  if decide (f_e a < 0) then - ((- f_m a) / 2 ^ (- f_e a)) else f_m a * 2 ^ f_e a.

(** ** time *)

(** A [time.Duration] is an int64 count of nanoseconds; [t.Sub(u)] saturates. *)
Definition maxDuration : Z := 2 ^ 63 - 1.
Definition minDuration : Z := - 2 ^ 63.
Definition time_sub (t u : time) : Z := Z.max minDuration (Z.min maxDuration (t - u)).

(** [d.Seconds()] of a positive duration: whole seconds plus the rest over 10^9,
    each operation rounded. *)
Definition seconds64 (d : Z) : float64 :=
  add64 (round64 (d / second) 1) (round64 (d mod second) second).

(** [int(math.Ceil(d.Seconds()))] *)
Definition ceil_seconds (d : Z) : Z := ceil64 (seconds64 d).

(** ** Lemmas *)

Lemma digit_val_range c d : digit_val c = Some d → 0 ≤ d ≤ 9.
Proof. unfold digit_val. case_decide; [|done]. intros [= <-]. lia. Qed.

Lemma parse_digits_ge acc s n : 0 ≤ acc → parse_digits acc s = Some n → acc ≤ n.
Proof.
  revert acc. induction s as [|c s IH]; intros acc Ha; simpl; [by intros [= ->]|].
  destruct (digit_val c) as [d|] eqn:Hd; simpl; [|done]. apply digit_val_range in Hd.
  intros H%IH; lia.
Qed.

Lemma parse_uint_range bits s n : parse_uint bits s = Some n → 0 ≤ n < 2 ^ bits.
Proof.
  unfold parse_uint. case_decide; [done|]. destruct (parse_digits 0 s) as [m|] eqn:Hp; simpl; [|done].
  case_decide; [|done]. intros [= <-]. apply parse_digits_ge in Hp; lia.
Qed.

Lemma atoi_range s n : atoi s = Some n → - 2 ^ 63 ≤ n < 2 ^ 63.
Proof.
  unfold atoi. destruct (match s with String _ _ => _ | _ => _ end) as [sign body].
  case_decide; [done|]. destruct (parse_digits 0 body) as [m|]; simpl; [|done].
  case_decide; [|done]. by intros [= <-].
Qed.

(** Rounding on a grid finer than 1 is within half a unit ... *)
Lemma round_at_near n d e : 0 ≤ n → 0 < d → e < 0 →
  2 * round_at n d e * d ≤ 2 * (n * 2 ^ (- e)) + d ∧ 2 * (n * 2 ^ (- e)) ≤ 2 * round_at n d e * d + d.
Proof.
  intros Hn Hd He. unfold round_at. destruct (decide (e < 0)); [|done]. set (n' := n * 2 ^ (- e)).
  pose proof (Z.div_mod n' d ltac:(lia)) as Hdm. pose proof (Z.mod_pos_bound n' d Hd) as Hm.
  set (q := n' / d) in *. set (r := n' mod d) in *.
  case_decide as Hc; split; nia.
Qed.

(** ... so it does not cross a point of the grid. *)
Lemma round_at_le n d e g : 0 ≤ n → 0 < d → e < 0 → n * 2 ^ (- e) ≤ g * d → round_at n d e ≤ g.
Proof. intros Hn Hd He Hg. destruct (round_at_near n d e Hn Hd He). nia. Qed.
Lemma round_at_ge n d e g : 0 ≤ n → 0 < d → e < 0 → g * d ≤ n * 2 ^ (- e) → g ≤ round_at n d e.
Proof. intros Hn Hd He Hg. destruct (round_at_near n d e Hn Hd He). nia. Qed.

(** The grid of a value below [2^j]. *)
Lemma round64_grid n d j : 0 < n → 0 < d → 0 ≤ j ≤ 52 → n < d * 2 ^ j →
  f_m (round64 n d) = round_at n d (f_e (round64 n d)) ∧ f_e (round64 n d) ≤ j - 53.
Proof.
  intros Hn Hd Hj Hlt. unfold round64. rewrite decide_False by lia.
  set (k := Z.log2 n - Z.log2 d). split; [done|]. simpl.
  assert (k ≤ j) as Hk.
  { pose proof (Z.log2_le_mono n (d * 2 ^ j) ltac:(lia)) as Hl. rewrite <-Z.shiftl_mul_pow2, Z.log2_shiftl in Hl by lia. lia. }
  destruct (decide (0 ≤ k)) as [H0|H0].
  - destruct (n <? d * 2 ^ k) eqn:Hb; [lia|]. apply Z.ltb_ge in Hb.
    assert (k ≠ j) by (intros ->; lia). lia.
  - destruct (n * 2 ^ (- k) <? d); lia.
Qed.

Lemma pow2_split a b : 0 ≤ a → 0 ≤ b → 2 ^ (a + b) = 2 ^ a * 2 ^ b.
Proof. intros. by apply Z.pow_add_r. Qed.

(** An integer below [2^24] is a float. *)
Lemma round64_int n : 0 ≤ n < 2 ^ 24 → -52 ≤ f_e (round64 n 1) ≤ 0 ∧
  f_m (round64 n 1) = n * 2 ^ (- f_e (round64 n 1)) ∧ (0 < n → f_e (round64 n 1) < 0).
Proof.
  intros Hn. destruct (decide (n = 0)) as [->|H0]; [done|].
  destruct (round64_grid n 1 24 ltac:(lia) ltac:(lia) ltac:(lia) ltac:(lia)) as [Hm He].
  set (e := f_e (round64 n 1)) in *. split_and!; [|lia| |lia].
  - unfold e, round64. rewrite decide_False by done. simpl. pose proof (Z.log2_nonneg n).
    rewrite decide_True by lia. destruct (n <? _) eqn:Hb; [|lia].
    apply Z.ltb_lt in Hb. pose proof (Z.log2_spec n ltac:(lia)). rewrite Z.sub_0_r in Hb. lia.
  - rewrite Hm.
    pose proof (round_at_le n 1 e (n * 2 ^ (- e)) ltac:(lia) ltac:(lia) ltac:(lia) ltac:(lia)).
    pose proof (round_at_ge n 1 e (n * 2 ^ (- e)) ltac:(lia) ltac:(lia) ltac:(lia) ltac:(lia)). lia.
Qed.

Lemma ceil64_between a n : f_e a < 0 → (n - 1) * 2 ^ (- f_e a) < f_m a ≤ n * 2 ^ (- f_e a) → ceil64 a = n.
Proof.
  intros He Hb. unfold ceil64. rewrite decide_True by done. set (p := 2 ^ (- f_e a)) in *.
  assert (0 < p) by (apply Z.pow_pos_nonneg; lia).
  assert ((- f_m a) / p = - n); [|lia]. symmetry. apply Z.div_unique with (r := n * p - f_m a); [|lia].
  left. lia.
Qed.

(** Rounding [s + m / 2^E] up to the next second is exact when the fraction is
    at least a rounding step of the sum. *)
Lemma ceil64_round_sum (s m ex : Z) :
  0 ≤ s < 2 ^ 24 - 1 → 0 < m ≤ 2 ^ ex → 0 ≤ ex → 2 ^ ex < m * 2 ^ 30 →
  ceil64 (round64 (s * 2 ^ ex + m) (2 ^ ex)) = s + 1.
Proof.
  intros Hs Hm Hex Hbig. assert (0 < 2 ^ ex) as Hp by (apply Z.pow_pos_nonneg; lia).
  destruct (round64_grid (s * 2 ^ ex + m) (2 ^ ex) 24) as [Hfm He]; [nia|done|lia|nia|].
  set (r := round64 _ _) in *. set (e := f_e r) in *. apply ceil64_between; [lia|]. rewrite Hfm. fold e.
  assert (2 ^ (- e) = 2 ^ 29 * 2 ^ (- e - 29)) as Hsplit by (rewrite <-pow2_split; [f_equal|..]; lia).
  assert (0 < 2 ^ (- e - 29)) by (apply Z.pow_pos_nonneg; lia).
  destruct (round_at_near (s * 2 ^ ex + m) (2 ^ ex) e) as [_ Hlow]; [nia|done|lia|]. split.
  - set (q := round_at _ _ _) in *. set (f := 2 ^ (- e)) in *.
    assert (2 ^ ex < 2 * m * f) by (change (2 ^ 30) with (2 * 2 ^ 29) in Hbig; nia). nia.
  - apply round_at_le; [nia|done|lia|]. nia.
Qed.

Lemma ceil64_round_exact (s ex : Z) : 0 < s < 2 ^ 24 → 0 ≤ ex → ceil64 (round64 (s * 2 ^ ex) (2 ^ ex)) = s.
Proof.
  intros Hs Hex. assert (0 < 2 ^ ex) as Hp by (apply Z.pow_pos_nonneg; lia).
  destruct (round64_grid (s * 2 ^ ex) (2 ^ ex) 24) as [Hfm He]; [nia|done|lia|nia|].
  set (r := round64 _ _) in *. set (e := f_e r) in *. assert (0 < 2 ^ (- e)) by (apply Z.pow_pos_nonneg; lia).
  apply ceil64_between; [lia|]. rewrite Hfm. fold e. split.
  - pose proof (round_at_ge (s * 2 ^ ex) (2 ^ ex) e (s * 2 ^ (- e)) ltac:(nia) Hp ltac:(lia) ltac:(nia)). nia.
  - apply round_at_le; [nia|done|lia|nia].
Qed.

(** Below 2^24 seconds the rounded arithmetic gives the exact ceiling. *)
Lemma ceil_seconds_exact d : 0 < d < (2 ^ 24 - 1) * second → ceil_seconds d = (d + second - 1) / second.
Proof.
  intros Hd. unfold ceil_seconds, seconds64. pose proof (Z.div_mod d second ltac:(done)) as Hdm.
  pose proof (Z.mod_pos_bound d second ltac:(done)) as Hm. set (s := d / second) in *. set (n := d mod second) in *.
  assert (0 ≤ s < 2 ^ 24 - 1) as Hs by (unfold second in *; lia).
  assert ((d + second - 1) / second = if decide (n = 0) then s else s + 1) as ->.
  { symmetry. case_decide; [apply Z.div_unique with (r := second - 1)|apply Z.div_unique with (r := n - 1)]; unfold second in *; lia. }
  unfold add64. destruct (round64_int s ltac:(lia)) as (He1 & Hf1 & Hneg1).
  set (e := f_e (round64 s 1)) in *. destruct (decide (n = 0)) as [Hn|Hn].
  - rewrite Hn. simpl. rewrite Z.min_l, decide_True by (unfold second in *; lia).
    rewrite Z.sub_diag, Z.mul_1_r, Z.add_0_r, Hf1. apply ceil64_round_exact; unfold second in *; lia.
  - destruct (round64_grid n second 0) as [Hfm He]; [lia|done|lia|lia|].
    set (b := round64 n second) in *. set (eb := f_e b) in *.
    assert (0 < 2 ^ (- eb - 53)) by (apply Z.pow_pos_nonneg; lia).
    assert (2 ^ (- eb) = 2 ^ 53 * 2 ^ (- eb - 53)) as Hsplit by (rewrite <-pow2_split; [f_equal|..]; lia).
    assert (f_m b ≤ 2 ^ (- eb)) as Hup by (rewrite Hfm; apply round_at_le; [lia|done|lia|fold eb; nia]).
    destruct (round_at_near n second eb) as [_ Hlow]; [lia|done|lia|]. rewrite <-Hfm in Hlow.
    rewrite Z.min_r, decide_True by lia. rewrite Z.sub_diag, Z.mul_1_r, Hf1, <-Z.mul_assoc, <-pow2_split by lia.
    replace (- e + (e - eb)) with (- eb) by lia. unfold second in *.
    apply ceil64_round_sum; [lia|nia|lia|nia].
Qed.

(** ** Decimal round trip *)

Lemma digit_val_pretty d : (d < 10)%N → digit_val (pretty_N_char d) = Some (Z.of_N d).
Proof.
  intros Hd. assert (d ∈ [0; 1; 2; 3; 4; 5; 6; 7; 8; 9]%N) as Hin.
  { rewrite !elem_of_cons. lia. }
  repeat (apply elem_of_cons in Hin as [->|Hin]; [done|]). by apply not_elem_of_nil in Hin.
Qed.

Lemma parse_digits_pretty n s : parse_digits 0 (pretty_N_go n s) = parse_digits (Z.of_N n) s.
Proof.
  revert s. induction (N.lt_wf_0 n) as [n _ IH]. intros s. destruct (decide (n = 0%N)) as [->|Hn]; [by rewrite pretty_N_go_0|].
  rewrite pretty_N_go_step by lia. rewrite IH by (apply N.div_lt; lia). simpl.
  rewrite digit_val_pretty by (apply N.mod_lt; lia). simpl. f_equal.
  pose proof (N.div_mod n 10 ltac:(done)). lia.
Qed.

Lemma pretty_N_go_nonempty n s : (0 < n)%N → pretty_N_go n s ≠ "".
Proof.
  revert s. induction (N.lt_wf_0 n) as [n _ IH]. intros s Hn. rewrite pretty_N_go_step by done.
  destruct (decide (n / 10 = 0)%N) as [->|Hd]; [by rewrite pretty_N_go_0|].
  apply IH; [by apply N.div_lt|]. by apply N.neq_0_lt_0.
Qed.

(** The digits of a number satisfy whatever all decimal digits do. *)
Lemma pretty_N_go_bytes (P : string → Prop) n s :
  (∀ d s, (d < 10)%N → P s → P (String (pretty_N_char d) s)) → P s → P (pretty_N_go n s).
Proof.
  intros Hd. revert s. induction (N.lt_wf_0 n) as [n _ IH]. intros s Hs.
  destruct (decide (n = 0%N)) as [->|Hn]; [by rewrite pretty_N_go_0|].
  rewrite pretty_N_go_step by lia. apply IH; [apply N.div_lt; lia|]. apply Hd; [apply N.mod_lt; lia|done].
Qed.

Lemma format_int_pos n : 0 < n → format_int n = pretty_N_go (Z.to_N n) "".
Proof. intros Hn. destruct n as [|p|p]; [lia| |lia]. done. Qed.

Lemma parse_uint_format bits n : 0 < n < 2 ^ bits → parse_uint bits (format_int n) = Some n.
Proof.
  intros Hn. rewrite format_int_pos by lia. unfold parse_uint.
  rewrite decide_False by (apply pretty_N_go_nonempty; lia).
  rewrite parse_digits_pretty. simpl. rewrite decide_True by lia. f_equal. lia.
Qed.

Lemma time_sub_pos t now : (0 < time_sub t now)%Z ↔ (now < t)%Z.
Proof. unfold time_sub, minDuration, maxDuration. lia. Qed.

Lemma time_sub_small t now : (0 < t - now < (2 ^ 24 - 1) * second)%Z → time_sub t now = (t - now)%Z.
Proof. unfold time_sub, minDuration, maxDuration, second. lia. Qed.
