(* ===== verification/GoText.v ===== *)
(** * Go text: UTF-8, white space, trimming, splitting and paths

    The parts of [unicode/utf8], [strings] and [path] the edge and the build
    executor compute with.  Unicode case mapping is a parameter with its law on
    ASCII. *)

From S2P Require Import Prelude GoStd.

(** ** Trimming one byte *)

Fixpoint drop_leading (c : ascii) (s : string) : string :=
  match s with
  | "" => ""
  | String d s' => if decide (c = d) then drop_leading c s' else s
  end.

(** [strings.TrimRight(s, c)] and [strings.Trim(s, c)] for a one-byte cut set. *)
Definition trim_right (c : ascii) (s : string) : string := String.rev (drop_leading c (String.rev s)).
Definition trim_byte (c : ascii) (s : string) : string := trim_right c (drop_leading c s).

(** ** White space: [strings.TrimSpace] *)

Definition code (c : ascii) : N := N_of_ascii c.

(** The white-space runes of [unicode.IsSpace], by their UTF-8 bytes. *)
Definition space1 (a : ascii) : bool := bool_decide (9 ≤ code a ≤ 13 ∨ code a = 32)%N.
Definition space2 (a b : ascii) : bool := bool_decide (code a = 194 ∧ (code b = 133 ∨ code b = 160))%N.
Definition space3 (a b c : ascii) : bool :=
  bool_decide ((code a = 225 ∧ code b = 154 ∧ code c = 128) ∨
               (code a = 226 ∧ code b = 128 ∧ (128 ≤ code c ≤ 138 ∨ code c = 168 ∨ code c = 169 ∨ code c = 175)) ∨
               (code a = 226 ∧ code b = 129 ∧ code c = 159) ∨
               (code a = 227 ∧ code b = 128 ∧ code c = 128))%N.

Fixpoint drop_space (s2 : ascii → ascii → bool) (s3 : ascii → ascii → ascii → bool) (s : string) : string :=
  match s with
  | String a r1 =>
      if space1 a then drop_space s2 s3 r1
      else match r1 with
           | String b r2 =>
               if s2 a b then drop_space s2 s3 r2
               else match r2 with
                    | String c r3 => if s3 a b c then drop_space s2 s3 r3 else s
                    | "" => s
                    end
           | "" => s
           end
  | "" => ""
  end.

Definition trim_space (s : string) : string :=
  let s := drop_space space2 space3 s in
  String.rev (drop_space (λ b a, space2 a b) (λ c b a, space3 a b c) (String.rev s)).

(** ** UTF-8 *)

Definition is_ascii (c : ascii) : bool := bool_decide (code c < 128)%N.
Fixpoint all_bytes (p : ascii → bool) (s : string) : bool :=
  match s with "" => true | String c s => p c && all_bytes p s end.

Definition within (lo hi : N) (c : ascii) : bool := bool_decide (lo ≤ code c ≤ hi)%N.
Definition cont (c : ascii) : bool := within 128 191 c.

(** The multi-byte sequences [utf8.DecodeRune] accepts; any other byte outside
    ASCII decodes alone, as the replacement rune. *)
Definition rune2 (a b : ascii) : bool := within 194 223 a && cont b.
Definition rune3 (a b c : ascii) : bool :=
  ((within 224 224 a && within 160 191 b) || (within 225 236 a && cont b) ||
   (within 237 237 a && within 128 159 b) || (within 238 239 a && cont b)) && cont c.
Definition rune4 (a b c d : ascii) : bool :=
  ((within 240 240 a && within 144 191 b) || (within 241 243 a && cont b) || (within 244 244 a && within 128 143 b)) &&
  cont c && cont d.

(** [strings.Map] of a mapping that sends an ASCII rune to an ASCII rune by [f]
    and every other rune to [other]. *)
Fixpoint map_runes (f : ascii → ascii) (other : ascii) (s : string) : string :=
  match s with
  | "" => ""
  | String a r1 =>
      if is_ascii a then String (f a) (map_runes f other r1)
      else match r1 with
           | "" => String other ""
           | String b r2 =>
               if rune2 a b then String other (map_runes f other r2)
               else match r2 with
                    | "" => String other (map_runes f other r1)
                    | String c r3 =>
                        if rune3 a b c then String other (map_runes f other r3)
                        else match r3 with
                             | "" => String other (map_runes f other r1)
                             | String d r4 =>
                                 if rune4 a b c d then String other (map_runes f other r4)
                                 else String other (map_runes f other r1)
                             end
                    end
           end
  end.

(** [strings.ToLower], by Unicode's tables. *)
Class CaseMap := { to_lower : string → string }.
(** On ASCII it lowers the letters and keeps the rest. *)
Class CaseMapLaws (U : CaseMap) := {
  to_lower_ascii s : all_bytes is_ascii s = true → to_lower s = str_map lower_byte s;
}.

(** ** Splitting and joining *)

(** [strings.Split(s, c)] for a one-byte separator; never empty. *)
Fixpoint split_byte (c : ascii) (s : string) : list string :=
  match s with
  | "" => [""]
  | String d s =>
      if decide (c = d) then "" :: split_byte c s
      else match split_byte c s with
           | [] => [String d ""]
           | w :: ws => String d w :: ws
           end
  end.

(** [strings.Join] *)
Fixpoint join (sep : string) (ws : list string) : string :=
  match ws with
  | [] => ""
  | [w] => w
  | w :: ws => w +:+ sep +:+ join sep ws
  end.

(** [strings.TrimSuffix], [strings.TrimPrefix] *)
Definition trim_suffix (suf s : string) : string := default s (cut_suffix suf s).

(** [strings.ContainsAny] for a cut set of ASCII bytes. *)
Definition contains_any (cs s : string) : bool := negb (all_bytes (λ c, negb (has_byte c cs)) s).

(** [strings.ReplaceAll(s, c, r)] for a one-byte pattern. *)
Fixpoint replace_byte (c : ascii) (r s : string) : string :=
  match s with
  | "" => ""
  | String d s => (if decide (c = d) then r else String d "") +:+ replace_byte c r s
  end.

(** ** Paths *)

(** [path.Clean]: the elements kept, newest first; [..] drops one, or stays at the
    front of a relative path. *)
Fixpoint clean_elems (rooted : bool) (kept : list string) (ws : list string) : list string :=
  match ws with
  | [] => kept
  | w :: ws =>
      if decide (w = "" ∨ w = ".") then clean_elems rooted kept ws
      else if decide (w = "..") then
        match kept with
        | k :: rest => if decide (k = "..") then clean_elems rooted (w :: kept) ws else clean_elems rooted rest ws
        | [] => clean_elems rooted (if rooted then [] else [w]) ws
        end
      else clean_elems rooted (w :: kept) ws
  end.

Definition is_abs (p : string) : bool := has_prefix "/" p.

Definition path_clean (p : string) : string :=
  if decide (p = "") then "."
  else
    let body := join "/" (reverse (clean_elems (is_abs p) [] (split_byte "/" p))) in
    if is_abs p then "/" +:+ body else if decide (body = "") then "." else body.

(** [path.Dir] *)
Definition path_dir (p : string) : string :=
  path_clean (match last_index_byte "/" p with Some i => str_take (S i) p | None => "" end).

(** [path.Join]: the non-empty elements joined and cleaned. *)
Definition path_join (ws : list string) : string :=
  let ws := List.filter (λ w, negb (bool_decide (w = ""))) ws in
  match ws with [] => "" | _ => path_clean (join "/" ws) end.

(** ** Lemmas *)

(** An element that cleaning keeps. *)
Definition plain_elem (w : string) : Prop := w ≠ "" ∧ w ≠ "." ∧ w ≠ ".." ∧ has_byte "/" w = false.

Lemma clean_elems_plain rooted kept ws tl : Forall plain_elem ws → clean_elems rooted kept (ws ++ tl) = clean_elems rooted (reverse ws ++ kept) tl.
Proof.
  revert kept. induction ws as [|w ws IH]; intros kept Hall; [done|]. apply Forall_cons in Hall as [(H1 & H2 & H3 & _) Hall].
  cbn [clean_elems app]. rewrite decide_False by tauto. rewrite decide_False by done. rewrite IH by done.
  by rewrite reverse_cons, <-app_assoc.
Qed.

Lemma all_bytes_app p a b : all_bytes p (a +:+ b) = all_bytes p a && all_bytes p b.
Proof. induction a as [|c a IH]; [done|]. unfold String.app in *; simpl. by rewrite IH, andb_assoc. Qed.

Lemma all_bytes_impl p q s : (∀ c, p c = true → q c = true) → all_bytes p s = true → all_bytes q s = true.
Proof. intros H. induction s as [|c s IH]; simpl; [done|]. rewrite !andb_true_iff. intros [??]. auto. Qed.

Lemma has_byte_all c p s : all_bytes p s = true → p c = false → has_byte c s = false.
Proof.
  intros Hs Hc. induction s as [|d s IH]; simpl in *; [done|]. apply andb_true_iff in Hs as [Hd Hs].
  rewrite IH by done. rewrite bool_decide_eq_false_2; [done|]. congruence.
Qed.

(** One step: the rune's rendering and what is left of the string. *)
Lemma map_runes_step f other a r :
  ∃ c r', map_runes f other (String a r) = String c (map_runes f other r') ∧
    (c = other ∨ c = f a) ∧ String.length r' ≤ String.length r.
Proof.
  cbn [map_runes]. fold (map_runes f other).
  destruct (is_ascii a); [by exists (f a), r; auto|].
  destruct r as [|b r2]; [exists other, ""; auto|].
  destruct (rune2 a b); [exists other, r2; simpl; auto with lia|].
  destruct r2 as [|c r3]; [exists other, (String b ""); auto|].
  destruct (rune3 a b c); [exists other, r3; simpl; auto with lia|].
  destruct r3 as [|d r4]; [exists other, (String b (String c "")); auto|].
  destruct (rune4 a b c d); [exists other, r4; simpl; auto with lia|]. exists other, (String b (String c (String d r4))). auto.
Qed.

Lemma map_runes_all (p : ascii → bool) f other s :
  (∀ c, p (f c) = true) → p other = true → all_bytes p (map_runes f other s) = true.
Proof.
  intros Hf Ho. remember (String.length s) as n eqn:Hn. revert s Hn.
  induction (lt_wf n) as [n _ IH]. intros [|a r] ->; [done|].
  destruct (map_runes_step f other a r) as (c & r' & -> & Hc & Hl). cbn [all_bytes].
  rewrite (IH (String.length r')); [|simpl; lia|done]. destruct Hc as [->| ->]; by rewrite ?Hf, ?Ho.
Qed.

Lemma map_runes_ascii f other s : all_bytes is_ascii s = true → map_runes f other s = str_map f s.
Proof.
  induction s as [|a s IH]; [done|]. intros Hs. simpl in Hs. apply andb_true_iff in Hs as [Ha Hs].
  cbn [map_runes str_map]. by rewrite Ha, IH.
Qed.

Lemma str_map_id f s p : all_bytes p s = true → (∀ c, p c = true → f c = c) → str_map f s = s.
Proof.
  intros Hs Hf. induction s as [|c s IH]; [done|]. simpl in *. apply andb_true_iff in Hs as [Hc Hs]. by rewrite Hf, IH.
Qed.

Lemma str_map_map f g s : str_map f (str_map g s) = str_map (λ c, f (g c)) s.
Proof. induction s as [|c s IH]; [done|]. simpl. by rewrite IH. Qed.

Lemma str_map_app f a b : str_map f (a +:+ b) = str_map f a +:+ str_map f b.
Proof. induction a as [|c a IH]; [done|]. unfold String.app in *; simpl. by rewrite IH. Qed.

Lemma split_byte_none c s : has_byte c s = false → split_byte c s = [s].
Proof.
  induction s as [|d s IH]; [done|]. simpl. rewrite orb_false_iff, bool_decide_eq_false. intros [Hd Hs].
  rewrite decide_False by done. by rewrite IH.
Qed.

Lemma split_byte_app c a b : has_byte c a = false → split_byte c (a +:+ String c b) = a :: split_byte c b.
Proof.
  induction a as [|d a IH]; [by intros _; simpl; rewrite decide_True|]. simpl has_byte. intros [Hd Ha]%orb_false_iff.
  apply bool_decide_eq_false in Hd. change (String d a +:+ String c b) with (String d (a +:+ String c b)). cbn [split_byte].
  rewrite decide_False by congruence. by rewrite IH.
Qed.

(** Splitting undoes joining of words that hold no separator. *)
Lemma split_byte_join c ws : ws ≠ [] → Forall (λ w, has_byte c w = false) ws → split_byte c (join (String c "") ws) = ws.
Proof.
  induction ws as [|w [|w' ws] IH]; intros Hne Hall; [done| |]; apply Forall_cons in Hall as [Hw Hall]; [by apply split_byte_none|].
  change (join (String c "") (w :: w' :: ws)) with (w +:+ String c (join (String c "") (w' :: ws))).
  by rewrite split_byte_app, IH.
Qed.

Lemma join_snoc sep ws w : ws ≠ [] → join sep (ws ++ [w]) = join sep ws +:+ sep +:+ w.
Proof.
  induction ws as [|v [|v' ws] IH]; intros Hne; [done|done|]. change ((v :: v' :: ws) ++ [w]) with (v :: (v' :: ws) ++ [w]).
  change (join sep (v :: v' :: ws)) with (v +:+ sep +:+ join sep (v' :: ws)).
  change (join sep (v :: (v' :: ws) ++ [w])) with (v +:+ sep +:+ join sep ((v' :: ws) ++ [w])). by rewrite IH, !str_app_assoc.
Qed.

(** A path of plain elements is clean, also with a slash after it. *)
Lemma path_clean_elems ws tl : ws ≠ [] → Forall plain_elem ws → tl = [] ∨ tl = [""] → path_clean (join "/" (ws ++ tl)) = join "/" ws.
Proof.
  intros Hne Hall Htl. assert (Forall (λ w, has_byte "/" w = false) (ws ++ tl)) as Hs.
  { apply Forall_app. split; [by eapply Forall_impl; [exact Hall|intros w (_ & _ & _ & ?)]|]. by destruct Htl as [->| ->]; repeat constructor. }
  assert (∀ ws', ws ++ ws' ≠ [] → Forall plain_elem ws → ∃ c r, join "/" (ws ++ ws') = String c r ∧ c ≠ "/"%char) as Hhead.
  { intros ws' _ _. destruct ws as [|w ws]; [done|]. apply Forall_cons in Hall as [(Hw & _ & _ & Hw') _]. destruct w as [|c w]; [done|].
    simpl in Hw'. apply orb_false_iff in Hw' as [Hc%bool_decide_eq_false _]. exists c. simpl.
    destruct (ws ++ ws') as [|w' l]; [by exists w|]. by exists (w +:+ "/" +:+ join "/" (w' :: l)). }
  destruct (Hhead tl) as (c & r & Hj & Hc); [by destruct ws|done|]. destruct (Hhead []) as (c' & r' & Hj' & _); [by destruct ws|done|].
  rewrite app_nil_r in Hj'. unfold path_clean. rewrite decide_False by (by rewrite Hj). assert (is_abs (join "/" (ws ++ tl)) = false) as ->.
  { rewrite Hj. unfold is_abs, has_prefix. simpl. rewrite decide_False by congruence. done. }
  change "/" with (String "/" "") at 1 3. rewrite split_byte_join; [|by destruct ws|done]. rewrite clean_elems_plain, app_nil_r by done.
  assert (clean_elems false (reverse ws) tl = reverse ws) as -> by by destruct Htl as [->| ->].
  rewrite reverse_involutive. change (String "/" "") with "/". rewrite Hj'. by rewrite decide_False.
Qed.

Lemma path_clean_plain ws : ws ≠ [] → Forall plain_elem ws → path_clean (join "/" ws) = join "/" ws.
Proof. intros. rewrite <-(app_nil_r ws) at 1. apply path_clean_elems; auto. Qed.

(** So is a rooted one. *)
Lemma path_clean_rooted ws : ws ≠ [] → Forall plain_elem ws → path_clean ("/" +:+ join "/" ws) = "/" +:+ join "/" ws.
Proof.
  intros Hne Hall. assert ("/" +:+ join "/" ws = join "/" ("" :: ws)) as Hj by by destruct ws.
  unfold path_clean. assert (is_abs ("/" +:+ join "/" ws) = true) as Habs by done. rewrite Habs, decide_False by done.
  rewrite Hj at 1. change "/" with (String "/" "") at 2. rewrite split_byte_join; [|done|].
  2:{ constructor; [done|]. eapply Forall_impl; [exact Hall|]. by intros w (_ & _ & _ & ?). }
  cbn [clean_elems]. rewrite decide_True by by left. rewrite <-(app_nil_r ws) at 1. rewrite clean_elems_plain by done.
  cbn [clean_elems]. by rewrite app_nil_r, reverse_involutive.
Qed.

(** ** Reversal, suffixes and trimming *)

Lemma rev_app_app a b : String.rev_app a b = String.rev a +:+ b.
Proof.
  unfold String.rev. revert b. induction a as [|c a IH]; intros b; [done|]. simpl.
  rewrite IH, (IH (String c "")), str_app_assoc. done.
Qed.

Lemma str_rev_app a b : String.rev (a +:+ b) = String.rev b +:+ String.rev a.
Proof.
  induction a as [|c a IH]; [by rewrite str_app_nil_r|].
  change (String c a +:+ b) with (String c (a +:+ b)). unfold String.rev in *. simpl.
  rewrite !(rev_app_app _ (String c "")). unfold String.rev. rewrite IH, str_app_assoc. done.
Qed.

Lemma str_rev_rev a : String.rev (String.rev a) = a.
Proof.
  induction a as [|c a IH]; [done|]. unfold String.rev at 2. simpl. rewrite rev_app_app, str_rev_app, IH. done.
Qed.

Lemma cut_suffix_app a suf : cut_suffix suf (a +:+ suf) = Some a.
Proof. unfold cut_suffix. rewrite str_rev_app, cut_prefix_app. simpl. by rewrite str_rev_rev. Qed.

Lemma cut_suffix_Some suf s r : cut_suffix suf s = Some r → s = r +:+ suf.
Proof.
  unfold cut_suffix. intros (t & Ht%cut_prefix_Some & ->)%fmap_Some.
  rewrite <-(str_rev_rev s), Ht, str_rev_app, str_rev_rev. done.
Qed.

Lemma all_bytes_rev p s : all_bytes p (String.rev s) = all_bytes p s.
Proof.
  induction s as [|c s IH]; [done|]. unfold String.rev. simpl. rewrite rev_app_app, all_bytes_app, IH. simpl.
  by rewrite andb_true_r, andb_comm.
Qed.

(** Visible ASCII is left alone by [trim_space]. *)
Definition visible (c : ascii) : bool := within 33 126 c.

Lemma drop_space_visible s2 s3 s :
  (∀ a b, is_ascii a = true → s2 a b = false) → (∀ a b c, is_ascii a = true → s3 a b c = false) →
  all_bytes visible s = true → drop_space s2 s3 s = s.
Proof.
  intros H2 H3 Hs. destruct s as [|a s]; [done|]. simpl in Hs. apply andb_true_iff in Hs as [Ha Hs].
  unfold visible, within in Ha. apply bool_decide_eq_true in Ha. simpl.
  assert (space1 a = false) as -> by (apply bool_decide_eq_false; lia).
  assert (is_ascii a = true) as Hasc by (apply bool_decide_eq_true; lia).
  destruct s as [|b s]; [done|]. rewrite H2 by done. destruct s as [|c s]; [done|]. by rewrite H3.
Qed.

Lemma space2_ascii a b : is_ascii a = true ∨ is_ascii b = true → space2 a b = false.
Proof. unfold is_ascii. rewrite !bool_decide_eq_true. intros H. apply bool_decide_eq_false. lia. Qed.
Lemma space3_ascii a b c : is_ascii a = true ∨ is_ascii c = true → space3 a b c = false.
Proof. unfold is_ascii. rewrite !bool_decide_eq_true. intros H. apply bool_decide_eq_false. lia. Qed.

Lemma trim_space_visible s : all_bytes visible s = true → trim_space s = s.
Proof.
  intros Hs. unfold trim_space. rewrite (drop_space_visible space2 space3 s); [|auto using space2_ascii, space3_ascii..].
  rewrite drop_space_visible; [apply str_rev_rev|auto using space2_ascii, space3_ascii..|by rewrite all_bytes_rev].
Qed.

Lemma str_contains_byte s c : str_contains s (String c "") = has_byte c s.
Proof.
  unfold str_contains. destruct (has_byte c s) eqn:Hb.
  - apply bool_decide_eq_true_2. destruct (str_cut _ s) eqn:Hc; [eauto|]. apply str_cut_byte_None in Hc. congruence.
  - apply bool_decide_eq_false_2. apply str_cut_byte_None in Hb. rewrite Hb. intros [? ?]. done.
Qed.

(** ** Host and port *)

Lemma last_index_none c s : has_byte c s = false → last_index_byte c s = None.
Proof.
  induction s as [|d s IH]; [done|]. simpl. rewrite orb_false_iff, bool_decide_eq_false. intros [Hd Hs].
  rewrite IH by done. by rewrite decide_False.
Qed.

Lemma last_index_app c a b : has_byte c b = false → last_index_byte c (a +:+ String c b) = Some (String.length a).
Proof.
  intros Hb. induction a as [|d a IH].
  - unfold String.app. simpl. rewrite last_index_none by done. by rewrite decide_True.
  - change (String d a +:+ String c b) with (String d (a +:+ String c b)). simpl. by rewrite IH.
Qed.

Lemma str_take_app a b : str_take (String.length a) (a +:+ b) = a.
Proof. induction a as [|d a IH]; [done|]. unfold String.app in *. simpl. by rewrite IH. Qed.

Lemma str_drop_app c a b : str_drop (S (String.length a)) (a +:+ String c b) = b.
Proof. induction a as [|d a IH]; [done|]. unfold String.app in *. simpl in *. done. Qed.

Lemma str_drop_prefix a b : str_drop (String.length a) (a +:+ b) = b.
Proof. induction a as [|c a IH]; [done|]. exact IH. Qed.

Lemma str_take_drop n s : n ≤ String.length s → s = str_take n s +:+ str_drop n s ∧ String.length (str_take n s) = n.
Proof.
  revert s. induction n as [|n IH]; intros s Hn; [by destruct s|]. destruct s as [|c s]; simpl in Hn; [lia|].
  destruct (IH s ltac:(lia)) as [He Hl]. split; [|simpl; by rewrite Hl].
  change (String c s = String c (str_take n s +:+ str_drop n s)). by f_equal.
Qed.

Lemma path_dir_join ws w : ws ≠ [] → Forall plain_elem ws → has_byte "/" w = false → path_dir (join "/" (ws ++ [w])) = join "/" ws.
Proof.
  intros Hne Hall Hw. unfold path_dir. rewrite join_snoc by done. change ("/" +:+ w) with (String "/" w).
  rewrite last_index_app by done. assert (str_take (S (String.length (join "/" ws))) (join "/" ws +:+ String "/" w) = join "/" (ws ++ [""])) as ->.
  { rewrite join_snoc by done. generalize (join "/" ws). intros p. induction p as [|c p IH]; [done|].
    change (String c (str_take (S (String.length p)) (p +:+ String "/" w)) = String c (p +:+ "/" +:+ "")). by rewrite IH. }
  apply path_clean_elems; auto.
Qed.

Lemma split_host_port_none s : has_byte ":" s = false → split_host_port s = None.
Proof. intros Hs. unfold split_host_port. by rewrite last_index_none. Qed.

Lemma split_host_port_app a b :
  has_byte ":" a = false → has_byte ":" b = false →
  has_byte "[" (a +:+ String ":" b) = false → has_byte "]" (a +:+ String ":" b) = false →
  split_host_port (a +:+ String ":" b) = Some (a, b).
Proof.
  intros Ha Hb Hl Hr. unfold split_host_port. rewrite last_index_app by done.
  assert ((let tail (j k : nat) (host : string) :=
             if has_byte "[" (str_drop j (a +:+ String ":" b)) then None
             else if has_byte "]" (str_drop k (a +:+ String ":" b)) then None
             else Some (host, str_drop (S (String.length a)) (a +:+ String ":" b)) in
           if has_byte ":" (str_take (String.length a) (a +:+ String ":" b)) then None
           else tail 0 0 (str_take (String.length a) (a +:+ String ":" b))) = Some (a, b)) as Hgoal.
  { cbv zeta. rewrite str_take_app, str_drop_app, Ha. simpl str_drop. by rewrite Hl, Hr. }
  destruct a as [|c a]; [done|]. change (String c a +:+ String ":" b) with (String c (a +:+ String ":" b)) in *.
  destruct (decide (c = "["%char)) as [->|Hc]; [discriminate Hl|].
  destruct c as [[] [] [] [] [] [] [] []]; try exact Hgoal. done.
Qed.
