(* ===== verification/GoCodec.v ===== *)
(** * Go codecs: fields, URL escapes, base64 and RFC 3339

    The parts of [strings.Fields], [net/url] (escaping and query strings),
    [encoding/base64], [strconv.ParseInt], [time.Parse] and [time.Format] that the
    clients and the e2b surface compute with. *)

From S2P Require Import Prelude GoStd GoNum GoText.

(** ** strings.Fields *)

Definition push_byte (c : ascii) (ws : list string) : list string :=
  match ws with [] => [String c ""] | w :: ws => String c w :: ws end.

(** The runs between white-space runes, empty ones included. *)
Fixpoint split_space (s : string) : list string :=
  match s with
  | "" => [""]
  | String a r1 =>
      if space1 a then "" :: split_space r1
      else match r1 with
           | String b r2 =>
               if space2 a b then "" :: split_space r2
               else match r2 with
                    | String c r3 => if space3 a b c then "" :: split_space r3 else push_byte a (split_space r1)
                    | "" => push_byte a (split_space r1)
                    end
           | "" => push_byte a (split_space r1)
           end
  end.

Definition fields (s : string) : list string := List.filter (λ w, negb (bool_decide (w = ""))) (split_space s).

(** ** net/url: unescaping *)

Definition hex_val (c : ascii) : option N :=
  let n := code c in
  if decide (48 ≤ n ≤ 57)%N then Some (n - 48)%N
  else if decide (97 ≤ n ≤ 102)%N then Some (n - 87)%N
  else if decide (65 ≤ n ≤ 70)%N then Some (n - 55)%N
  else None.

(** [url.QueryUnescape] ([plus]: a [+] is a space) and [url.PathUnescape]; [None]
    is a malformed escape. *)
Fixpoint url_unescape (plus : bool) (s : string) : option string :=
  match s with
  | "" => Some ""
  | String c r =>
      if decide (c = "%"%char) then
        match r with
        | String a (String b r') =>
            x ← hex_val a; y ← hex_val b;
            String (ascii_of_N (16 * x + y)) <$> url_unescape plus r'
        | _ => None
        end
      else if plus && bool_decide (c = "+"%char) then String " " <$> url_unescape plus r
      else String c <$> url_unescape plus r
  end.

Definition QueryUnescape : string → option string := url_unescape true.
Definition PathUnescape : string → option string := url_unescape false.

(** ** net/url: escaping *)

Definition is_unreserved (c : ascii) : bool :=
  let n := N_of_ascii c in
  bool_decide (48 ≤ n ∧ n ≤ 57)%N || bool_decide (65 ≤ n ∧ n ≤ 90)%N || bool_decide (97 ≤ n ∧ n ≤ 122)%N ||
  bool_decide (c ∈ (["-"; "_"; "."; "~"]%char : list ascii)).

Definition hex_digit (n : N) : ascii :=
  if decide (n < 10)%N then ascii_of_N (48 + n) else ascii_of_N (55 + n).
Definition percent (c : ascii) : string :=
  let n := N_of_ascii c in String "%" (String (hex_digit (n / 16)) (String (hex_digit (n mod 16)) "")).

(** [url.PathEscape] keeps the unreserved bytes and [$ & + : = @]. *)
Definition path_byte (c : ascii) : bool :=
  is_unreserved c || bool_decide (c ∈ (["$"; "&"; "+"; ":"; "="; "@"]%char : list ascii)).
Fixpoint path_escape (s : string) : string :=
  match s with
  | "" => ""
  | String c s => (if path_byte c then String c "" else percent c) +:+ path_escape s
  end.

(** [url.QueryEscape] keeps the unreserved bytes and writes a space as [+]. *)
Fixpoint query_escape (s : string) : string :=
  match s with
  | "" => ""
  | String c s => (if is_unreserved c then String c "" else if decide (c = " "%char) then "+" else percent c) +:+ query_escape s
  end.

(** [url.Values.Encode]: sorted by key. *)
Definition values_encode (q : gmap string string) : string :=
  join "&" ((λ k, query_escape k +:+ "=" +:+ query_escape (default "" (q !! k))) <$> sorted_keys q).

(** [url.ParseQuery] as [r.URL.Query] uses it: a malformed pair is skipped. *)
Definition query_pair (pair : string) : option (string * string) :=
  if has_byte ";" pair || bool_decide (pair = "") then None
  else
    let '(k, v) := default (pair, "") (str_cut "=" pair) in
    k ← QueryUnescape k; v ← QueryUnescape v; Some (k, v).
Definition parse_query (q : string) : gmap string (list string) :=
  fold_left (λ m pair, match query_pair pair with
                       | Some (k, v) => <[k := default [] (m !! k) ++ [v]]> m
                       | None => m
                       end) (split_byte "&" q) ∅.

(** ** Bodies *)

(** A body as a reader sees it: the bytes that arrive, and the error that ends them
    short. *)
Record stream := mkStream { st_bytes : string; st_broken : option error }.

Definition ErrMaxBytes : error := ErrSentinel "http.MaxBytesError".
(** [http.MaxBytesReader] *)
Definition MaxBytesReader (max : Z) (b : stream) : stream :=
  if decide (Z.max 0 max < Z.of_nat (String.length (st_bytes b)))%Z
  then mkStream (str_take (Z.to_nat max) (st_bytes b)) (Some ErrMaxBytes) else b.

(** ** encoding/base64: RawURLEncoding *)

Definition b64_alphabet : string := "ABCDEFGHIJKLMNOPQRSTUVWXYZabcdefghijklmnopqrstuvwxyz0123456789-_".
Definition b64_char (n : N) : ascii := default "A"%char (String.get (N.to_nat n) b64_alphabet).
Definition b64_val (c : ascii) : option N := N.of_nat <$> index_byte c b64_alphabet.

Fixpoint b64_encode (s : string) : string :=
  match s with
  | String a (String b (String c r)) =>
      let n := (65536 * code a + 256 * code b + code c)%N in
      String (b64_char (n / 262144)) (String (b64_char (n / 4096 mod 64)) (String (b64_char (n / 64 mod 64)) (String (b64_char (n mod 64)) (b64_encode r))))
  | String a (String b "") =>
      let n := (256 * code a + code b)%N in
      String (b64_char (n / 1024)) (String (b64_char (n / 16 mod 64)) (String (b64_char (n mod 16 * 4)) ""))
  | String a "" => String (b64_char (code a / 4)) (String (b64_char (code a mod 4 * 16)) "")
  | "" => ""
  end.

(** Decoding ignores line breaks and the unused bits of the last character. *)
Definition b64_ignored (c : ascii) : bool := bool_decide (code c = 10 ∨ code c = 13)%N.
Fixpoint b64_digits (s : string) : option (list N) :=
  match s with
  | "" => Some []
  | String c r => if b64_ignored c then b64_digits r else v ← b64_val c; cons v <$> b64_digits r
  end.
Fixpoint b64_bytes (ds : list N) : option string :=
  match ds with
  | w :: x :: y :: z :: ds =>
      let n := (262144 * w + 4096 * x + 64 * y + z)%N in
      (λ s, String (ascii_of_N (n / 65536)) (String (ascii_of_N (n / 256 mod 256)) (String (ascii_of_N (n mod 256)) s))) <$> b64_bytes ds
  | [w; x; y] =>
      let n := (4096 * w + 64 * x + y)%N in
      Some (String (ascii_of_N (n / 1024)) (String (ascii_of_N (n / 4 mod 256)) ""))
  | [w; x] => Some (String (ascii_of_N ((64 * w + x) / 16)) "")
  | [_] => None
  | [] => Some ""
  end.
Definition b64_decode (s : string) : option string := b64_digits s ≫= b64_bytes.

(** ** strconv.ParseInt, its value even on an error *)

(** The value of [strconv.ParseInt(s, 10, 64)]: clamped when out of range, 0 when
    malformed. *)
Definition parse_int_value (s : string) : Z :=
  let '(sign, body) := match s with
                       | String "-" s => ((-1)%Z, s)
                       | String "+" s => (1%Z, s)
                       | _ => (1%Z, s)
                       end in
  if decide (body = "") then 0%Z
  else match parse_digits 0 body with
       | Some n => Z.max minDuration (Z.min maxDuration (sign * n)%Z)
       | None => 0%Z
       end.

(** ** time.Parse with the RFC 3339 layout *)

(** A number of exactly two digits at the front of a string. *)
Definition two_digits (s : string) : option (Z * string) :=
  match s with
  | String a (String b r) => x ← digit_val a; y ← digit_val b; Some ((10 * x + y)%Z, r)
  | _ => None
  end.
(** One digit or two, as the hour may be written. *)
Definition one_or_two_digits (s : string) : option (Z * string) :=
  match two_digits s with
  | Some p => Some p
  | None => match s with String a r => x ← digit_val a; Some (x, r) | "" => None end
  end.
Definition four_digits (s : string) : option (Z * string) :=
  '(a, r) ← two_digits s; '(b, r) ← two_digits r; Some ((100 * a + b)%Z, r).
Definition expect (c : ascii) (s : string) : option string :=
  match s with String d r => if decide (d = c) then Some r else None | "" => None end.

(** The run of digits at the front. *)
Fixpoint digit_run (s : string) : string * string :=
  match s with
  | String c r => match digit_val c with Some _ => let '(ds, r') := digit_run r in (String c ds, r') | None => ("", s) end
  | "" => ("", "")
  end.

(** The nanoseconds of a fraction, which a full stop or a comma introduces and
    whose digits beyond the ninth are dropped. *)
Definition fraction (s : string) : Z * string :=
  match s with
  | String c r =>
      if decide (c = "."%char ∨ c = ","%char) then
        match digit_run r with
        | ("", _) => (0%Z, s)
        | (ds, r') =>
            let ds := str_take 9 ds in
            (default 0%Z (parse_digits 0 (ds +:+ zeros (9 - String.length ds))), r')
        end
      else (0%Z, s)
  | "" => (0%Z, "")
  end.

(** The offset from UTC in seconds. *)
Definition zone_offset (s : string) : option (Z * string) :=
  match s with
  | String c r =>
      if decide (c = "Z"%char) then Some (0%Z, r)
      else if decide (c = "+"%char ∨ c = "-"%char) then
        '(h, r) ← two_digits r; r ← expect ":" r; '(m, r) ← two_digits r;
        if decide (h ≤ 24 ∧ m ≤ 60)%Z
        then Some ((if decide (c = "-"%char) then - (3600 * h + 60 * m) else 3600 * h + 60 * m)%Z, r) else None
      else None
  | "" => None
  end.

Definition is_leap (y : Z) : bool := bool_decide (y mod 4 = 0 ∧ (y mod 100 ≠ 0 ∨ y mod 400 = 0))%Z.
Definition days_in (m y : Z) : Z :=
  if decide (m = 2)%Z then (if is_leap y then 29 else 28)
  else if decide (m ∈ [4; 6; 9; 11])%Z then 30 else 31.

(** The day number of a date, counted from 1970-01-01. *)
Definition days_of_civil (y m d : Z) : Z :=
  (let y := if decide (m <= 2) then y - 1 else y in
   let era := y / 400 in
   let yoe := y - era * 400 in
   let doy := (153 * (if decide (2 < m) then m - 3 else m + 9) + 2) / 5 + d - 1 in
   let doe := yoe * 365 + yoe / 4 - yoe / 100 + doy in
   era * 146097 + doe - 719468)%Z.

Definition parse_rfc3339 (s : string) : option time :=
  '(y, r) ← four_digits s; r ← expect "-" r;
  '(m, r) ← two_digits r; r ← expect "-" r;
  '(d, r) ← two_digits r; r ← expect "T" r;
  '(hh, r) ← one_or_two_digits r; r ← expect ":" r;
  '(mm, r) ← two_digits r; r ← expect ":" r;
  '(ss, r) ← two_digits r;
  let '(ns, r) := fraction r in
  '(off, r) ← zone_offset r;
  if decide (r = "" ∧ 1 ≤ m ≤ 12 ∧ 1 ≤ d ≤ days_in m y ∧ hh < 24 ∧ mm < 60 ∧ ss < 60)%Z
  then Some (((days_of_civil y m d * 86400 + hh * 3600 + mm * 60 + ss - off) * second + ns)%Z)
  else None.

(** [t.UTC().Format(time.RFC3339Nano)]: a fraction without its trailing zeros. *)
Definition format_rfc3339_nano (t : time) : string :=
  let frac := trim_right "0" (pad_int 9 (t mod second)%Z) in
  trim_suffix "Z" (format_rfc3339 t) +:+ (if decide (frac = "") then "" else "." +:+ frac) +:+ "Z".

(** [t.Truncate(time.Second)] *)
Definition truncate_second (t : time) : time := (t / second * second)%Z.

(** ** Lemmas: URLs *)

Definition escape_byte (c : ascii) : string := if path_byte c then String c "" else percent c.

Lemma escape_byte_decodes c s : PathUnescape (escape_byte c +:+ s) = String c <$> PathUnescape s.
Proof. by destruct c as [[] [] [] [] [] [] [] []]. Qed.

Lemma escape_byte_safe c :
  has_byte "/" (escape_byte c) = false ∧ has_byte "?" (escape_byte c) = false ∧ has_byte "#" (escape_byte c) = false.
Proof. by destruct c as [[] [] [] [] [] [] [] []]. Qed.

Lemma unescape_path_escape s : PathUnescape (path_escape s) = Some s.
Proof.
  induction s as [|c s IH]; [done|]. change (path_escape (String c s)) with (escape_byte c +:+ path_escape s).
  by rewrite escape_byte_decodes, IH.
Qed.

Lemma path_escape_safe s :
  has_byte "/" (path_escape s) = false ∧ has_byte "?" (path_escape s) = false ∧ has_byte "#" (path_escape s) = false.
Proof.
  induction s as [|c s (IH1 & IH2 & IH3)]; [done|]. change (path_escape (String c s)) with (escape_byte c +:+ path_escape s).
  rewrite !has_byte_app. destruct (escape_byte_safe c) as (-> & -> & ->). by rewrite IH1, IH2, IH3.
Qed.

Definition query_byte (c : ascii) : string :=
  if is_unreserved c then String c "" else if decide (c = " "%char) then "+" else percent c.

Lemma query_byte_decodes c s : QueryUnescape (query_byte c +:+ s) = String c <$> QueryUnescape s.
Proof. by destruct c as [[] [] [] [] [] [] [] []]. Qed.

Lemma unescape_query_escape s : QueryUnescape (query_escape s) = Some s.
Proof.
  induction s as [|c s IH]; [done|]. change (query_escape (String c s)) with (query_byte c +:+ query_escape s).
  by rewrite query_byte_decodes, IH.
Qed.

(** What an escaped query holds no unescaped form of. *)
Definition query_delims : list ascii := ["&"; "="; ";"; "/"; "?"; "#"]%char.

Lemma query_byte_safe c d : d ∈ query_delims → has_byte d (query_byte c) = false.
Proof.
  intros Hd. unfold query_delims in Hd. rewrite !elem_of_cons, elem_of_nil in Hd.
  destruct Hd as [->|[->|[->|[->|[->|[->|[]]]]]]]; by destruct c as [[] [] [] [] [] [] [] []].
Qed.

Lemma query_escape_safe d s : d ∈ query_delims → has_byte d (query_escape s) = false.
Proof.
  intros Hd. induction s as [|c s IH]; [done|]. change (query_escape (String c s)) with (query_byte c +:+ query_escape s).
  by rewrite has_byte_app, query_byte_safe, IH.
Qed.

Definition encode_pair (k v : string) : string := query_escape k +:+ "=" +:+ query_escape v.

Lemma encode_pair_safe d k v : d ∈ query_delims → d ≠ "="%char → has_byte d (encode_pair k v) = false.
Proof.
  intros Hd Hne. unfold encode_pair. rewrite !has_byte_app, !query_escape_safe by done. simpl. by rewrite bool_decide_eq_false_2 by congruence.
Qed.

Lemma query_pair_encode k v : query_pair (encode_pair k v) = Some (k, v).
Proof.
  unfold query_pair. rewrite encode_pair_safe by (done || (unfold query_delims; set_solver)).
  rewrite bool_decide_eq_false_2.
  - unfold encode_pair. change ("=" +:+ query_escape v) with (String "=" (query_escape v)).
    rewrite str_cut_byte by (apply query_escape_safe; unfold query_delims; set_solver). simpl.
    by rewrite !unescape_query_escape.
  - unfold encode_pair. intros H. apply (f_equal String.length) in H. rewrite !str_length_app in H. simpl in H. lia.
Qed.

Definition add_value (m : gmap string (list string)) (pair : string) : gmap string (list string) :=
  match query_pair pair with
  | Some (k, v) => <[k := default [] (m !! k) ++ [v]]> m
  | None => m
  end.

Lemma add_values_lookup (v : string → string) ks m k : NoDup ks → (∀ k, k ∈ ks → m !! k = None) →
  fold_left add_value ((λ k, encode_pair k (v k)) <$> ks) m !! k = if decide (k ∈ ks) then Some [v k] else m !! k.
Proof.
  revert m. induction ks as [|k0 ks IH]; intros m Hnd Hm; [done|]. apply NoDup_cons in Hnd as [Hk0 Hnd]. csimpl.
  unfold add_value at 2. rewrite query_pair_encode, (Hm k0) by constructor. simpl. rewrite IH; [|done|].
  - destruct (decide (k = k0)) as [->|Hne].
    + rewrite decide_False, decide_True by (done || constructor). by rewrite lookup_insert_eq.
    + rewrite lookup_insert_ne by done. destruct (decide (k ∈ ks)); [by rewrite decide_True by by constructor|].
      rewrite decide_False; [done|]. by apply not_elem_of_cons.
  - intros k' Hk'. rewrite lookup_insert_ne by (by intros ->). apply Hm. by constructor.
Qed.

(** A query parses to the values it was encoded from. *)
Lemma parse_values_encode (q : gmap string string) : parse_query (values_encode q) = (λ v, [v]) <$> q.
Proof.
  unfold parse_query, values_encode. change "&" with (String "&" "").
  destruct (decide (sorted_keys q = [])) as [He|Hne].
  - rewrite He. simpl. apply map_eq. intros k. rewrite lookup_empty, lookup_fmap. destruct (q !! k) as [v|] eqn:Hk; [|done].
    assert (k ∈ sorted_keys q) as Hin by (apply elem_of_sorted_keys; eauto). rewrite He in Hin. by apply not_elem_of_nil in Hin.
  - rewrite split_byte_join.
    + apply map_eq. intros k. change (fold_left _ ?l ∅) with (fold_left add_value ((λ k, encode_pair k (default "" (q !! k))) <$> sorted_keys q) ∅).
      rewrite (add_values_lookup (λ k, default "" (q !! k))); [|apply sorted_keys_NoDup|intros; apply lookup_empty].
      rewrite lookup_fmap. case_decide as Hk; rewrite elem_of_sorted_keys in Hk.
      * destruct Hk as [v ->]. done.
      * apply eq_None_not_Some in Hk. by rewrite Hk, lookup_empty.
    + by intros ?%fmap_nil_inv.
    + apply Forall_fmap, Forall_forall. intros k _. apply encode_pair_safe; [constructor|done].
Qed.

(** ** Lemmas: base64 *)

Lemma b64_val_char n : (n < 64)%N → b64_val (b64_char n) = Some n.
Proof.
  intros Hn. assert (N.to_nat n < 64) as Hlt by lia. rewrite <-(N2Nat.id n) at 2.
  unfold b64_char. revert Hlt. generalize (N.to_nat n). clear.
  intros k Hk. do 64 (destruct k as [|k]; [vm_compute; reflexivity|]). lia.
Qed.

Lemma b64_char_kept n : (n < 64)%N → b64_ignored (b64_char n) = false.
Proof.
  intros Hn. assert (N.to_nat n < 64) as Hlt by lia. unfold b64_char. revert Hlt. generalize (N.to_nat n). clear.
  intros k Hk. do 64 (destruct k as [|k]; [vm_compute; reflexivity|]). lia.
Qed.

Lemma b64_digit n r : (n < 64)%N → b64_digits (String (b64_char n) r) = cons n <$> b64_digits r.
Proof. intros Hn. cbn [b64_digits]. by rewrite b64_char_kept, b64_val_char. Qed.

Lemma code_lt c : (code c < 256)%N.
Proof. apply Ascii.N_ascii_bounded. Qed.
Lemma ascii_code c n : n = code c → ascii_of_N n = c.
Proof. intros ->. apply Ascii.ascii_N_embedding. Qed.

Ltac n_arith := zify; Z.to_euclidean_division_equations; lia.

(** What is encoded decodes to itself. *)
Lemma b64_round_trip s : b64_decode (b64_encode s) = Some s.
Proof.
  unfold b64_decode. assert (∀ n s, String.length s ≤ n → b64_digits (b64_encode s) ≫= b64_bytes = Some s) as H; [|by eapply H].
  clear s. intros n. induction n as [|n IH]; intros s Hl; [by destruct s; simpl in *; [|lia]|].
  destruct s as [|a [|b [|c s]]]; [done|..]; cbn [b64_encode].
  - pose proof (code_lt a). rewrite !b64_digit by n_arith. simpl. do 2 f_equal. apply ascii_code. n_arith.
  - pose proof (code_lt a). pose proof (code_lt b). rewrite !b64_digit by n_arith. simpl.
    do 2 f_equal; [apply ascii_code; n_arith|]. f_equal. apply ascii_code. n_arith.
  - pose proof (code_lt a). pose proof (code_lt b). pose proof (code_lt c). rewrite !b64_digit by n_arith.
    specialize (IH s ltac:(simpl in *; lia)). destruct (b64_digits (b64_encode s)) as [ds|]; [|done]. cbn [fmap option_fmap option_map mbind option_bind] in *.
    cbn [b64_bytes]. rewrite IH. simpl. do 2 f_equal; [apply ascii_code; n_arith|].
    f_equal; [apply ascii_code; n_arith|]. f_equal. apply ascii_code. n_arith.
Qed.

(** ** Lemmas: the bytes of numbers and times *)

Lemma format_int_bytes (p : ascii → bool) n :
  (∀ d, (d < 10)%N → p (pretty_N_char d) = true) → (0 < n)%Z → all_bytes p (format_int n) = true.
Proof.
  intros Hp Hn. rewrite format_int_pos by done.
  apply (pretty_N_go_bytes (λ s, all_bytes p s = true)); [|done]. intros d s Hd Hs. simpl. by rewrite Hp, Hs.
Qed.

Lemma digit_cases (P : ascii → Prop) :
  P "0"%char → P "1"%char → P "2"%char → P "3"%char → P "4"%char → P "5"%char → P "6"%char → P "7"%char → P "8"%char → P "9"%char →
  ∀ d, (d < 10)%N → P (pretty_N_char d).
Proof. intros ?????????? d Hd. unfold pretty_N_char. by repeat case_match. Qed.

(** What a rendered time is written with. *)
Definition time_byte (c : ascii) : bool := bool_decide (c ∈ ["0"; "1"; "2"; "3"; "4"; "5"; "6"; "7"; "8"; "9"; "-"; ":"; "T"; "Z"]%char).

Lemma pad_int_bytes w n : all_bytes time_byte (pad_int w n) = true.
Proof.
  unfold pad_int. rewrite !all_bytes_app. rewrite !andb_true_iff. split_and!.
  - by case_decide.
  - generalize (w - String.length (format_int (Z.abs n))) as k. intros k. induction k as [|k IH]; [done|]. simpl. by rewrite IH.
  - destruct (decide (Z.abs n = 0)%Z) as [->|Hn]; [done|]. apply format_int_bytes; [|lia].
    by apply (digit_cases (λ c, time_byte c = true)).
Qed.

Lemma format_rfc3339_bytes t : all_bytes time_byte (format_rfc3339 t) = true.
Proof.
  unfold format_rfc3339. destruct (civil_of_days _) as [[y m] d]. by rewrite !all_bytes_app, !pad_int_bytes.
Qed.

Lemma format_rfc3339_nonempty t : format_rfc3339 t ≠ "".
Proof.
  unfold format_rfc3339. destruct (civil_of_days _) as [[y m] d]. intros H. apply (f_equal String.length) in H.
  rewrite !str_length_app in H. simpl in H. lia.
Qed.
