(* ===== verification/GoMux.v ===== *)
(** * net/http: the request multiplexer

    [http.ServeMux] as the surfaces use it: patterns of a method and a path of
    literal segments and single-segment wildcards, without a host and without a
    trailing slash.  A request's path is cleaned first - one that is not clean is
    redirected - and then matched segment by segment, a literal before a wildcard,
    among the patterns of its method; HEAD falls back to the patterns of GET. *)

From S2P Require Import Prelude GoStd GoText GoCodec.

Inductive seg := Lit (s : string) | Wild (name : string).
#[export] Instance seg_eq_dec : EqDecision seg.
Proof. solve_decision. Defined.

(** A pattern's text: a method, a space and a path; a segment in braces is a
    wildcard. *)
Definition seg_of (w : string) : seg :=
  match cut_prefix "{" w with
  | Some rest => Wild (str_take (String.length rest - 1) rest)
  | None => Lit w
  end.
Definition pattern := (string * list seg)%type.
Definition pattern_of (text : string) : pattern :=
  let '(method, path) := default ("", text) (str_cut " " text) in
  (method, seg_of <$> tail (split_byte "/" path)).

(** The names a pattern binds. *)
Definition wild_names (p : list seg) : list string := omap (λ s, match s with Wild n => Some n | Lit _ => None end) p.

(** [cleanPath]: rooted and cleaned, a trailing slash kept. *)
Definition clean_path (p : string) : string :=
  let p := if is_abs p then p else "/" +:+ p in
  let np := path_clean p in
  if bool_decide (is_Some (GoStd.cut_suffix "/" p)) && negb (bool_decide (np = "/")) then np +:+ "/" else np.

(** The segments of a clean path, unescaped; a trailing slash is a segment of its
    own, and a malformed escape stays as it is. *)
Definition segments (path : string) : list string :=
  (λ w, if decide (w = "") then "/" else default w (PathUnescape w)) <$> tail (split_byte "/" path).

(** A node of the routing tree is what is left of the patterns that lead to it. *)
Definition under_lit {A} (x : string) (ps : list (list seg * A)) : list (list seg * A) :=
  omap (λ p, match p.1 with Lit y :: rest => if decide (y = x) then Some (rest, p.2) else None | _ => None end) ps.
Definition under_wild {A} (ps : list (list seg * A)) : list (list seg * A) :=
  omap (λ p, match p.1 with Wild _ :: rest => Some (rest, p.2) | _ => None end) ps.

(** [matchPath]: the pattern that takes a path, and what its wildcards matched. *)
Fixpoint match_path {A} (ps : list (list seg * A)) (path : list string) : option (A * list string) :=
  match path with
  | [] => (λ p, (p.2, [])) <$> find_first (λ p, bool_decide (p.1 = [])) ps
  | x :: path =>
      match match_path (under_lit x ps) path with
      | Some r => Some r
      | None => if decide (x = "/") then None else (λ r, (r.1, x :: r.2)) <$> match_path (under_wild ps) path
      end
  end.

(** What a mux makes of a request: a redirect to the clean path, 404, 405, or the
    handler with the values of its wildcards. *)
Inductive routed (A : Type) :=
| Redirected
| NotRouted
| NotAllowed
| Routed (a : A) (values : gmap string string).
Arguments Redirected {A}.
Arguments NotRouted {A}.
Arguments NotAllowed {A}.
Arguments Routed {A} a values.

Section mux.
Context {A : Type} (table : list (string * A)).

(** The patterns of a method, each with the names its wildcards bind. *)
Definition patterns : list (pattern * A) := (λ e, (pattern_of e.1, e.2)) <$> table.
Definition of_method (method : string) : list (list seg * (list string * A)) :=
  omap (λ e, if decide (e.1.1 = method) then Some (e.1.2, (wild_names e.1.2, e.2)) else None) patterns.

Definition match_method (method : string) (path : list string) : option ((list string * A) * list string) :=
  match match_path (of_method method) path with
  | Some r => Some r
  | None => if decide (method = "HEAD") then match_path (of_method "GET") path else None
  end.

Definition allowed (path : list string) : bool :=
  existsb (λ e, bool_decide (is_Some (match_path (of_method e.1.1) path))) patterns.

(** [ServeMux.findHandler]; [path] is the escaped path of the request. *)
Definition mux_route (method path : string) : routed A :=
  let clean := if decide (method = "CONNECT") then path else clean_path path in
  if decide (clean ≠ path) then Redirected
  else match match_method method (segments clean) with
       | Some ((names, a), values) => Routed a (list_to_map (zip names values))
       | None => if allowed (segments clean) then NotAllowed else NotRouted
       end.
End mux.

(** ** Specification: which patterns take a path *)

Inductive fits : list seg → list string → list string → Prop :=
| fits_nil : fits [] [] []
| fits_lit x p path ms : fits p path ms → fits (Lit x :: p) (x :: path) ms
| fits_wild n x p path ms : x ≠ "/" → fits p path ms → fits (Wild n :: p) (x :: path) (x :: ms).

(** A pattern goes before another when it has a literal where they first differ. *)
Inductive before : list seg → list seg → Prop :=
| before_nil : before [] []
| before_lit x n p q : before (Lit x :: p) (Wild n :: q)
| before_same_lit x p q : before p q → before (Lit x :: p) (Lit x :: q)
| before_same_wild n m p q : before p q → before (Wild n :: p) (Wild m :: q).

Section match_path.
Context {A : Type}.
Implicit Types (ps : list (list seg * A)).

Lemma elem_under_lit x ps p a : (p, a) ∈ under_lit x ps ↔ (Lit x :: p, a) ∈ ps.
Proof.
  unfold under_lit. rewrite list_elem_of_omap. split.
  - intros ([[|[y|n] rest] a'] & Hin & H); simpl in H; try done. case_decide; simplify_eq. done.
  - intros Hin. exists (Lit x :: p, a). split; [done|]. simpl. by rewrite decide_True.
Qed.
Lemma elem_under_wild ps p a : (p, a) ∈ under_wild ps ↔ ∃ n, (Wild n :: p, a) ∈ ps.
Proof.
  unfold under_wild. rewrite list_elem_of_omap. split.
  - intros ([[|[y|n] rest] a'] & Hin & H); simpl in H; simplify_eq. by exists n.
  - intros [n Hin]. by exists (Wild n :: p, a).
Qed.

Lemma match_path_complete ps path p a ms : (p, a) ∈ ps → fits p path ms → is_Some (match_path ps path).
Proof.
  intros Hin Hfit. revert ps Hin. induction Hfit as [|x p path ms Hfit IH|n x p path ms Hx Hfit IH]; intros ps Hin; cbn [match_path].
  - destruct (find_first _ ps) as [r|] eqn:Hf; [by eexists|]. by pose proof (proj1 (find_first_None _ _) Hf _ Hin).
  - destruct (IH (under_lit x ps)) as [r ->]; [by apply elem_under_lit|]. by eexists.
  - destruct (match_path (under_lit x ps) path); [by eexists|]. rewrite decide_False by done.
    destruct (IH (under_wild ps)) as [r ->]; [apply elem_under_wild; by exists n|]. by eexists.
Qed.

(** A match is a pattern of the table, and no pattern that takes the path goes
    before it. *)
Lemma match_path_sound ps path a ms : match_path ps path = Some (a, ms) →
  ∃ p, (p, a) ∈ ps ∧ fits p path ms ∧ ∀ q b ms', (q, b) ∈ ps → fits q path ms' → before p q.
Proof.
  revert ps ms. induction path as [|x path IH]; intros ps ms; cbn [match_path].
  - intros ([p a'] & Hf & [= -> ->])%fmap_Some. apply find_first_Some in Hf as [Hin Hp%bool_decide_eq_true]. simpl in Hp. subst p.
    exists []. split; [done|]. split; [constructor|]. intros q b ms' _ Hq. inversion Hq. constructor.
  - destruct (match_path (under_lit x ps) path) as [r|] eqn:Hl.
    + intros [= ->]. destruct (IH _ _ Hl) as (p & Hin & Hfit & Hbest). exists (Lit x :: p). split; [by apply elem_under_lit|].
      split; [by constructor|]. intros q b ms' Hq Hqf. inversion Hqf; subst; constructor. by eapply Hbest; [apply elem_under_lit|].
    + case_decide as Hx; [done|]. intros ([b ms1] & Hw & [= -> ->])%fmap_Some. destruct (IH _ _ Hw) as (p & Hin & Hfit & Hbest).
      apply elem_under_wild in Hin as [n Hin]. exists (Wild n :: p). split; [done|]. split; [by constructor|].
      intros q b' ms' Hq Hqf. inversion Hqf as [|y q' path' ms'' Hq'|]; subst.
      * destruct (match_path_complete (under_lit x ps) path q' b' ms') as [? Hs]; [by apply elem_under_lit|done|congruence].
      * constructor. eapply Hbest; [apply elem_under_wild; by eexists|done].
Qed.

Lemma match_path_unique ps path p a ms : (p, a) ∈ ps → fits p path ms →
  (∀ q b ms', (q, b) ∈ ps → fits q path ms' → b = a ∧ ms' = ms) → match_path ps path = Some (a, ms).
Proof.
  intros Hin Hfit Hall. destruct (match_path_complete ps path p a ms Hin Hfit) as [[b ms'] Hm].
  destruct (match_path_sound _ _ _ _ Hm) as (q & Hq & Hqf & _). by destruct (Hall q b ms' Hq Hqf) as [-> ->].
Qed.
End match_path.

(** A rooted path of plain elements is its own clean path. *)
Lemma clean_path_plain ws w : Forall plain_elem (ws ++ [w]) → clean_path ("/" +:+ join "/" (ws ++ [w])) = "/" +:+ join "/" (ws ++ [w]).
Proof.
  intros Hall. assert (ws ++ [w] ≠ []) as Hne by by destruct ws. unfold clean_path.
  assert (is_abs ("/" +:+ join "/" (ws ++ [w])) = true) as -> by done. cbv zeta. rewrite path_clean_rooted by done.
  rewrite bool_decide_eq_false_2; [done|]. intros [r Hr]. apply cut_suffix_Some in Hr.
  assert (split_byte "/" ("/" +:+ join "/" (ws ++ [w])) = "" :: ws ++ [w]) as Hs.
  { assert ("/" +:+ join "/" (ws ++ [w]) = join "/" ("" :: ws ++ [w])) as -> by by destruct ws.
    change "/" with (String "/" ""). apply split_byte_join; [done|]. constructor; [done|]. eapply Forall_impl; [exact Hall|]. by intros x (_ & _ & _ & ?). }
  rewrite Hr in Hs. apply (f_equal last) in Hs. rewrite app_comm_cons, last_snoc in Hs.
  assert (∀ s, last (split_byte "/" (s +:+ "/")) = Some "") as Hl.
  { intros s. enough (∃ x xs, split_byte "/" (s +:+ "/") = x :: xs ∧ last xs = Some "") as (x & xs & -> & Hx); [by destruct xs|].
    induction s as [|c s (x & xs & Hsp & Hx)]; [by exists "", [""]|]. change (String c s +:+ "/") with (String c (s +:+ "/")). cbn [split_byte].
    rewrite Hsp. case_decide; [exists "", (x :: xs)|by exists (String c x), xs]. by destruct xs. }
  rewrite Hl in Hs. simplify_eq. apply Forall_app in Hall as [_ [(? & _) _]%Forall_cons]. done.
Qed.
