(* ===== verification/GoJSON.v ===== *)
(** * encoding/json on trees

    A JSON document as a tree, and what encoding/json makes of Go's types: the fields
    of a struct under their names, [omitempty], pointers and null, integers within
    their width, keys matched whatever their case.  A type's [codec] encodes a value
    and decodes a tree on top of the value that was there; [readable] values come
    back as they were.  The text of a document is encoding/json's. *)

From S2P Require Import Prelude GoStd.

(** An integer, a float32 by its bits, a string kept as a format and its arguments,
    and a value kept as its text beside JSON's own. *)
#[warnings="-automation"]
Inductive json :=
| JNull
| JBool (b : bool)
| JInt (z : Z)
| JFloat32 (bits : Z)
| JString (s : string)
| JMessage (words : list string)
| JArray (l : list json)
| JObject (fields : list (string * json))
| JRaw (text : string).

Definition UnmarshalTypeError (type : string) : error := ErrText "json: cannot unmarshal value into Go value of type %s" [type].

(** A type: its zero value, what [omitempty] leaves out, its two directions. *)
Record codec (A : Type) := mkCodec {
  cd_zero : A;
  cd_empty : A → bool;
  cd_encode : A → json;
  cd_decode : A → json → result A;
}.
Arguments mkCodec {A} _ _ _ _.
Arguments cd_zero {A} _.
Arguments cd_empty {A} _ _.
Arguments cd_encode {A} _ _.
Arguments cd_decode {A} _ _ _.

(** ** Scalars: null leaves them as they were *)

Definition string_codec : codec string := mkCodec "" (λ s, bool_decide (s = "")) JString (λ old j,
  match j with JString s => Ok s | JNull => Ok old | _ => Err (UnmarshalTypeError "string") end).
Definition bool_codec : codec bool := mkCodec false negb JBool (λ old j,
  match j with JBool b => Ok b | JNull => Ok old | _ => Err (UnmarshalTypeError "bool") end).
Definition int_codec (width : Z) : codec Z := mkCodec 0%Z (λ z, bool_decide (z = 0%Z)) JInt (λ old j,
  match j with
  | JInt z => if decide (- 2 ^ (width - 1) ≤ z < 2 ^ (width - 1))%Z then Ok z else Err (UnmarshalTypeError "int")
  | JNull => Ok old
  | _ => Err (UnmarshalTypeError "int")
  end).
Definition int32_codec := int_codec 32.
Definition int64_codec := int_codec 64.
Definition float32_codec : codec Z := mkCodec 0%Z (λ z, bool_decide (z = 0%Z)) JFloat32 (λ old j,
  match j with JFloat32 b => Ok b | JNull => Ok old | _ => Err (UnmarshalTypeError "float32") end).
Definition message_codec : codec (list string) := mkCodec [] (λ ws, bool_decide (ws = [])) JMessage (λ old j,
  match j with JMessage ws => Ok ws | JNull => Ok old | _ => Err (UnmarshalTypeError "string") end).

(** ** Pointers, slices, maps *)

(** The text of a value, for [json.RawMessage]. *)
Class JSONText := {
  json_text : json → string;
  json_text_raw t : json_text (JRaw t) = t;
}.

(** A [json.RawMessage] keeps the text of any value, null too. *)
Definition raw_codec {T : JSONText} : codec string := mkCodec "" (λ t, bool_decide (t = ""))
  (λ t, if decide (t = "") then JNull else JRaw t) (λ _ j, Ok (json_text j)).

Section containers.
Context {A : Type} (c : codec A).

(** Null is the nil pointer; a value goes where the pointer points. *)
Definition ptr_codec : codec (option A) := mkCodec None (λ p, match p with None => true | Some _ => false end)
  (λ p, match p with None => JNull | Some a => cd_encode c a end)
  (λ old j, match j with JNull => Ok None | _ => Some <$> cd_decode c (default (cd_zero c) old) j end).

Fixpoint decode_all (l : list json) : result (list A) :=
  match l with
  | [] => Ok []
  | j :: l => a ← cd_decode c (cd_zero c) j; as_ ← decode_all l; Ok (a :: as_)
  end.
(** A list without elements is written as an empty array: the code makes the slices
    it encodes, where a nil one would be written as null. *)
Definition slice_codec : codec (list A) := mkCodec [] (λ l, match l with [] => true | _ => false end)
  (λ l, JArray (cd_encode c <$> l))
  (λ _ j, match j with JArray l => decode_all l | JNull => Ok [] | _ => Err (UnmarshalTypeError "slice") end).

(** Keys are added to the map that was there. *)
Fixpoint decode_entries (old : gmap string A) (kvs : list (string * json)) : result (gmap string A) :=
  match kvs with
  | [] => Ok old
  | (k, j) :: kvs => a ← cd_decode c (cd_zero c) j; decode_entries (<[k := a]> old) kvs
  end.
Definition sorted_entries (m : gmap string A) : list (string * A) := omap (λ k, pair k <$> m !! k) (sorted_keys m).
Definition map_codec : codec (gmap string A) := mkCodec ∅ (λ m, match map_to_list m with [] => true | _ => false end)
  (λ m, JObject (prod_map id (cd_encode c) <$> sorted_entries m))
  (λ old j, match j with JObject kvs => decode_entries old kvs | JNull => Ok ∅ | _ => Err (UnmarshalTypeError "map") end).
End containers.

(** The keys of a map whose values are not looked at, in order. *)
Definition keys_codec : codec (list string) := mkCodec [] (λ ks, match ks with [] => true | _ => false end)
  (λ ks, JObject ((λ k, (k, JRaw "{}")) <$> ks))
  (λ old j, match j with
            | JObject kvs => Ok (merge_sort String.le (remove_dups (old ++ kvs.*1)))
            | JNull => Ok []
            | _ => Err (UnmarshalTypeError "map")
            end).

(** ** Structs *)

(** A field with its tag: a variable of the struct, a value that is always written
    from the rest of it, or a variable without a tag, which stays out of JSON. *)
Inductive field (O : Type) :=
| Field {A} (name : string) (c : codec A) (p : variable O A) (omitempty : bool)
| Fixed (name : string) (value : O → json)
| Unexported {A} (p : variable O A).
Arguments Field {O A} _ _ _ _.
Arguments Fixed {O} _ _.
Arguments Unexported {O A} _.

Definition field_name {O} (f : field O) : string := match f with Field name _ _ _ | Fixed name _ => name | Unexported _ => "" end.

Definition write_field {O} (o : O) (f : field O) : option (string * json) :=
  match f with
  | Field name c p omitempty =>
      let v := var_get p o in if omitempty && cd_empty c v then None else Some (name, cd_encode c v)
  | Fixed name value => Some (name, value o)
  | Unexported _ => None
  end.
Definition read_field {O} (f : field O) (j : json) (o : O) : result O :=
  match f with
  | Field name c p _ => (λ v, var_put p v o) <$> cd_decode c (var_get p o) j
  | Fixed _ _ | Unexported _ => Ok o
  end.

Section structs.
Context {O : Type} (zero : O) (fields : list (field O)).

(** The field a key names: exactly, or else whatever its case. *)
Definition find_field (key : string) : option (field O) :=
  match find_first (λ f, bool_decide (field_name f = key)) fields with
  | Some f => Some f
  | None => find_first (λ f, equal_fold_ascii key (field_name f)) fields
  end.

Fixpoint read_fields (kvs : list (string * json)) (o : O) : result O :=
  match kvs with
  | [] => Ok o
  | (k, j) :: kvs => match find_field k with Some f => o ← read_field f j o; read_fields kvs o | None => read_fields kvs o end
  end.

Definition struct_codec : codec O := mkCodec zero (λ _, false)
  (λ o, JObject (omap (write_field o) fields))
  (λ old j, match j with JObject kvs => read_fields kvs old | JNull => Ok old | _ => Err (UnmarshalTypeError "struct") end).
End structs.

(** ** Specification *)

(** A value that comes back as it was. *)
Definition readable {A} (c : codec A) (a : A) : Prop := cd_decode c (cd_zero c) (cd_encode c a) = Ok a.

(** What [omitempty] leaves out is the zero value. *)
Definition sparing {A} (c : codec A) : Prop := ∀ a, cd_empty c a = true → a = cd_zero c.

(** A field is at its zero value in the zero struct, is spared only when it is zero,
    and its value in [o], when written, comes back. *)
Definition field_readable {O} (zero o : O) (f : field O) : Prop :=
  match f with
  | Field name c p omitempty => var_get p zero = cd_zero c ∧ (omitempty = true → sparing c) ∧
      (omitempty && cd_empty c (var_get p o) = false → readable c (var_get p o)) ∧
      ∀ v x, var_get p (var_put p v x) = v
  | Fixed _ _ => True
  | Unexported p => var_get p zero = var_get p o
  end.

(** A field's variable holds the same in both. *)
Definition field_agrees {O} (o o' : O) (f : field O) : Prop :=
  match f with Field _ _ p _ | Unexported p => var_get p o = var_get p o' | Fixed _ _ => True end.

(** Writing one field leaves another alone. *)
Definition field_apart {O} (f g : field O) : Prop :=
  match g with Field _ _ p _ => ∀ v x, field_agrees (var_put p v x) x f | Fixed _ _ | Unexported _ => True end.

Fixpoint fields_apart {O} (fs : list (field O)) : Prop :=
  match fs with [] => True | f :: fs => Forall (λ g, field_apart f g ∧ field_apart g f) fs ∧ fields_apart fs end.

(** ** Lemmas *)

Lemma readable_string s : readable string_codec s.
Proof. done. Qed.
Lemma readable_bool b : readable bool_codec b.
Proof. done. Qed.
Lemma readable_message ws : readable message_codec ws.
Proof. done. Qed.
Lemma readable_float32 z : readable float32_codec z.
Proof. done. Qed.
Lemma readable_int width z : (- 2 ^ (width - 1) ≤ z < 2 ^ (width - 1))%Z → readable (int_codec width) z.
Proof. intros Hz. unfold readable. cbn. by rewrite decide_True. Qed.
Lemma readable_raw {T : JSONText} t : t ≠ "" → readable raw_codec t.
Proof. intros Ht. unfold readable. cbn. rewrite decide_False by done. by rewrite json_text_raw. Qed.

Lemma readable_none {A} (c : codec A) : readable (ptr_codec c) None.
Proof. done. Qed.
Lemma readable_some {A} (c : codec A) a : readable c a → cd_encode c a ≠ JNull → readable (ptr_codec c) (Some a).
Proof. unfold readable. cbn. intros Ha Hn. rewrite Ha. by destruct (cd_encode c a). Qed.

Lemma readable_slice {A} (c : codec A) l : Forall (readable c) l → readable (slice_codec c) l.
Proof.
  intros Hl. unfold readable. cbn. induction Hl as [|a l Ha Hl IH]; [done|]. rewrite fmap_cons. cbn. unfold readable in Ha. rewrite Ha. cbn. by rewrite IH.
Qed.

Lemma readable_map {A} (c : codec A) (m : gmap string A) : map_Forall (λ _, readable c) m → readable (map_codec c) m.
Proof.
  intros Hm. unfold readable. cbn.
  assert (∀ ks (acc : gmap string A), decode_entries c acc (prod_map id (cd_encode c) <$> omap (λ k, pair k <$> m !! k) ks) =
    Ok (foldl (λ acc k, match m !! k with Some a => <[k := a]> acc | None => acc end) acc ks)) as Hgen.
  { induction ks as [|k ks IH]; intros acc; [done|]. csimpl. destruct (m !! k) as [a|] eqn:Ha; csimpl; [|apply IH].
    cbn. specialize (Hm k a Ha). unfold readable in Hm. rewrite Hm. cbn. apply IH. }
  unfold sorted_entries. rewrite Hgen. f_equal. apply map_eq. intros k.
  assert (∀ ks (acc : gmap string A), foldl (λ acc k, match m !! k with Some a => <[k := a]> acc | None => acc end) acc ks !! k =
    if decide (k ∈ ks) then (match m !! k with Some a => Some a | None => acc !! k end) else acc !! k) as Hk.
  { induction ks as [|k' ks IH]; intros acc; [by rewrite decide_False by apply not_elem_of_nil|]. cbn [foldl]. rewrite IH. clear IH.
    destruct (decide (k = k')) as [<-|Hne].
    - rewrite (decide_True (P := k ∈ k :: ks)) by by left. destruct (m !! k) as [a|]; [|by case_decide]. rewrite lookup_insert_eq. by case_decide.
    - assert ((match m !! k' with Some a => <[k' := a]> acc | None => acc end) !! k = acc !! k) as -> by (destruct (m !! k'); [by rewrite lookup_insert_ne|done]).
      destruct (decide (k ∈ ks)); [rewrite decide_True by by right|rewrite decide_False by by rewrite elem_of_cons; intros [|]]; done. }
  rewrite Hk, lookup_empty. destruct (m !! k) as [a|] eqn:Ha; [|by case_decide].
  rewrite decide_True; [done|]. apply elem_of_sorted_keys. by rewrite Ha.
Qed.

Lemma sparing_string : sparing string_codec.
Proof. intros s. cbn. by intros ?%bool_decide_eq_true. Qed.
Lemma sparing_int width : sparing (int_codec width).
Proof. intros z. cbn. by intros ?%bool_decide_eq_true. Qed.
Lemma sparing_bool : sparing bool_codec.
Proof. by intros []. Qed.
Lemma sparing_ptr {A} (c : codec A) : sparing (ptr_codec c).
Proof. by intros []. Qed.
Lemma sparing_slice {A} (c : codec A) : sparing (slice_codec c).
Proof. by intros []. Qed.
Lemma sparing_keys : sparing keys_codec.
Proof. by intros []. Qed.
Lemma sparing_map {A} (c : codec A) : sparing (map_codec c).
Proof. intros m. cbn. destruct (map_to_list m) eqn:Hm; [|done]. intros _. by apply map_to_list_empty_iff. Qed.
Lemma sparing_raw {T : JSONText} : sparing raw_codec.
Proof. intros t. cbn. by intros ?%bool_decide_eq_true. Qed.

Create HintDb json.
#[export] Hint Resolve readable_string readable_bool readable_message readable_float32 readable_int readable_none readable_slice readable_map : json.
#[export] Hint Resolve sparing_string sparing_int sparing_bool sparing_ptr sparing_slice sparing_keys sparing_map sparing_raw : json.

Section structs.
Context {O : Type} (zero o : O) (fields : list (field O)).

Lemma find_field_name f : NoDup (field_name <$> fields) → f ∈ fields → find_field fields (field_name f) = Some f.
Proof.
  intros Hnd Hf. unfold find_field. destruct (find_first _ _) as [g|] eqn:Hg.
  - apply find_first_Some in Hg as [Hg Hn%bool_decide_eq_true]. f_equal.
    apply list_elem_of_lookup in Hf as [i Hi]. apply list_elem_of_lookup in Hg as [j Hj].
    assert (i = j) as ->; [|congruence]. eapply (NoDup_lookup _ i j (field_name f)); [done|by rewrite list_lookup_fmap, Hi|by rewrite list_lookup_fmap, Hj; cbn; rewrite Hn].
  - exfalso. rewrite find_first_None in Hg. specialize (Hg f Hf). by rewrite bool_decide_eq_true_2 in Hg.
Qed.

Lemma fields_apart_in f g : fields_apart fields → f ∈ fields → g ∈ fields → f = g ∨ field_apart f g.
Proof.
  induction fields as [|h fs IH]; [by intros _ ?%not_elem_of_nil|].
  intros (Ha & Hs) [->|Hf]%elem_of_cons [->|Hg]%elem_of_cons; [by left| | |by apply IH].
  - right. by apply (proj1 (Forall_forall _ _) Ha g Hg).
  - right. by apply (proj1 (Forall_forall _ _) Ha f Hf).
Qed.

Lemma agrees_trans f (x y z : O) : field_agrees x y f → field_agrees y z f → field_agrees x z f.
Proof. destruct f; [|done|]; cbn; congruence. Qed.

(** Reading what was written, from the first fields on. *)
Lemma read_written : NoDup (field_name <$> fields) → fields_apart fields → Forall (field_readable zero o) fields →
  ∀ todo done x, fields = done ++ todo → Forall (field_agrees x o) done → Forall (field_agrees x zero) todo →
  ∃ x', read_fields fields (omap (write_field o) todo) x = Ok x' ∧ Forall (field_agrees x' o) fields.
Proof.
  intros Hnd Hap Hok. induction todo as [|f todo IH]; intros dn x Hsplit Hd Ht.
  { exists x. split; [done|]. by rewrite Hsplit, app_nil_r. }
  assert (f ∈ fields) as Hf by (rewrite Hsplit; apply elem_of_app; right; by left).
  assert (fields = (dn ++ [f]) ++ todo) as Hsplit' by by rewrite <- app_assoc.
  pose proof (find_field_name f Hnd Hf) as Hfind. pose proof (proj1 (Forall_forall _ _) Hok f Hf) as Hr.
  apply Forall_cons in Ht as [Hfx Ht]. cbn [omap list_omap]. destruct f as [A name c p om|name value|A p]; cbn [write_field field_name] in *.
  - destruct Hr as (Hz & Hsp & Hrd & Hown). cbn in Hfx.
    destruct (om && cd_empty c (var_get p o)) eqn:Hom.
    + apply andb_prop in Hom as [-> Hem]. apply (IH (dn ++ [Field name c p true]) x Hsplit'); [|done].
      apply Forall_app. split; [done|]. constructor; [|done]. cbn. rewrite Hfx, Hz. symmetry. by apply (Hsp eq_refl).
    + cbn [read_fields]. rewrite Hfind. cbn [read_field]. rewrite Hfx, Hz. specialize (Hrd eq_refl). unfold readable in Hrd. rewrite Hrd. cbn.
      apply (IH (dn ++ [Field name c p om]) (var_put p (var_get p o) x) Hsplit').
      * apply Forall_app. split; [|constructor; [|done]; cbn; apply Hown]. rewrite Forall_forall in Hd |- *. intros g Hg.
        destruct (fields_apart_in g (Field name c p om) Hap) as [->|Hga]; [rewrite Hsplit; apply elem_of_app; by left|done|cbn; apply Hown|].
        eapply agrees_trans; [apply Hga|by apply Hd].
      * rewrite Forall_forall in Ht |- *. intros g Hg.
        destruct (fields_apart_in g (Field name c p om) Hap) as [->|Hga]; [rewrite Hsplit; apply elem_of_app; right; by right|done| |].
        -- exfalso. rewrite Hsplit in Hnd. rewrite fmap_app, fmap_cons in Hnd. apply NoDup_app in Hnd as (_ & _ & Hnd).
           apply NoDup_cons in Hnd as [Hnot _]. apply Hnot. cbn. by apply (list_elem_of_fmap_2 field_name _ _ Hg).
        -- eapply agrees_trans; [apply Hga|by apply Ht].
  - cbn [read_fields]. rewrite Hfind. cbn. apply (IH (dn ++ [Fixed name value]) x Hsplit'); [|done]. apply Forall_app. split; [done|]. by constructor.
  - apply (IH (dn ++ [Unexported p]) x Hsplit'); [|done]. apply Forall_app. split; [done|]. constructor; [|done]. cbn in *. congruence.
Qed.

Lemma readable_struct : NoDup (field_name <$> fields) → fields_apart fields → Forall (field_readable zero o) fields →
  (∀ x, Forall (field_agrees x o) fields → x = o) → readable (struct_codec zero fields) o.
Proof.
  intros Hnd Hap Hok Hall. unfold readable. cbn.
  destruct (read_written Hnd Hap Hok fields [] zero eq_refl) as (x & -> & Hx); [done|by apply Forall_forall; intros []|]. by rewrite (Hall x Hx).
Qed.
End structs.

(** The conditions of [readable_struct], for a table of fields with its names given. *)
Ltac solve_apart :=
  lazymatch goal with
  | |- fields_apart [] => exact I
  | |- fields_apart (_ :: _) => split; [repeat constructor; intros; reflexivity|solve_apart]
  end.
