(* ===== verification/Api.v ===== *)
(** * The data of the program

    The [NodeInventory] custom resource (api/v1beta1), the sandboxd wire types
    (pkg/sandboxd) and the types of the store contract (pkg/scale).  A Go
    pointer or omitted field is an [option], a Go map with string keys a
    [gmap string], a Go integer a [Z]. *)

From S2P Require Import Prelude GoStd.

(** ** api/v1beta1: NodeInventory *)

Record PoolCapacity := mkPoolCapacity {
  pc_Template : string;
  pc_Net : string;
  pc_Size : string;
  pc_Warm : Z;
  pc_Target : Z;
}.

Record PromotedTemplate := mkPromotedTemplate {
  pt_Template : string;
  pt_Net : string;
  pt_Size : string;
  pt_ContentDigest : string;
  pt_Tenant : string;
  pt_CreatedAt : option time;
  pt_CPUCount : Z;
  pt_MemoryBytes : Z;
  pt_Labels : gmap string string;
}.

Record InventoryEntry := mkInventoryEntry {
  ie_Name : string;
  ie_ID : string;
  ie_Phase : string;
  ie_Template : string;
  ie_ClaimRef : string;
  ie_Address : string;
  ie_Deadline : option time;
  ie_ClaimedAt : option time;
  ie_Metadata : string;
  ie_CPUCount : Z;
  ie_MemoryBytes : Z;
}.

(** [ni_ObjName] is the object's [metadata.name], [ni_Node] its [node] field. *)
Record NodeInventory := mkNodeInventory {
  ni_ObjName : string;
  ni_Node : string;
  ni_Entries : list InventoryEntry;
  ni_Address : string;
  ni_Pools : list PoolCapacity;
  ni_Templates : list PromotedTemplate;
  ni_PublishedAt : time;
}.

(** ** pkg/sandboxd: wire types *)

Definition ExpireAction : Type := string.
Definition ExpireDestroy : ExpireAction := "destroy".
Definition ExpireArchive : ExpireAction := "archive".
Definition NetRouteRelay : string := "relay".
(** What points a guest process at its node's egress proxy. *)
Definition RelayEnv : gmap string string :=
  {[ "http_proxy" := "http://127.0.0.1:3128"; "https_proxy" := "http://127.0.0.1:3128";
     "no_proxy" := "localhost,127.0.0.1,::1,169.254.169.254" ]}.

(** [scale.PoolKey] and [sandboxd.PoolKey] have the same fields and are
    converted into each other by the code. *)
Record PoolKey := mkPoolKey {
  pk_Template : string;
  pk_Net : string;
  pk_Size : string;
}.

Record ClaimSpec := mkClaimSpec {
  cs_Template : string;
  cs_Net : string;
  cs_Size : string;
  cs_TTLSeconds : Z;
  cs_ClaimRef : string;
  cs_NoRedirect : bool;
  cs_Metadata : gmap string string;
  cs_OnExpire : ExpireAction;
  cs_RequirePromoted : bool;
  cs_Egress : option bool;
}.

Record ClaimResult := mkClaimResult {
  cr_ID : string;
  cr_Token : string;
  cr_Deadline : time;
  cr_OwnerAddr : string;
  cr_NetRoute : string;
  cr_Redirect : list string;
}.

Record PoolSpec := mkPoolSpec {
  ps_Template : string;
  ps_Net : string;
  ps_Size : string;
  ps_Warm : Z;
}.

Record NodePool := mkNodePool {
  np_Key : PoolKey;
  np_Warm : Z;
  np_Refilling : Z;
  np_Target : Z;
  np_Golden : bool;
}.

Record NodeTemplate := mkNodeTemplate {
  nt_Key : PoolKey;
  nt_ContentDigest : string;
  nt_Tenant : string;
  nt_CreatedAt : time;
  nt_CPUCount : Z;
  nt_MemTotalBytes : Z;
  nt_Labels : gmap string string;
}.

Record NodeInfo := mkNodeInfo {
  nf_Pools : list NodePool;
  nf_Templates : list NodeTemplate;
  nf_Claimed : Z;
  nf_Hibernated : Z;
  nf_Archived : Z;
  nf_AdvertiseAddr : string;
  nf_Peers : list string;
}.

Record ForkSpec := mkForkSpec {
  fs_Token : string;
  fs_Count : Z;
  fs_TTLSeconds : Z;
  fs_ClaimRefPrefix : string;
}.

Record ForkResult := mkForkResult { fr_Children : list ClaimResult }.

Record RenewSpec := mkRenewSpec {
  rs_TTLSeconds : Z;
  rs_OnExpire : ExpireAction;
}.

Record RenewResult := mkRenewResult { rr_Deadline : time }.

Record CheckpointSpec := mkCheckpointSpec {
  ks_Token : string;
  ks_Name : string;
}.

Record Checkpoint := mkCheckpoint {
  ck_ID : string;
  ck_Name : string;
  ck_SandboxID : string;
  ck_Key : PoolKey;
  ck_CreatedAt : time;
}.

Record SandboxSummary := mkSandboxSummary {
  ss_ID : string;
  ss_Key : PoolKey;
  ss_Deadline : time;
  ss_ClaimedAt : time;
  ss_Hibernated : bool;
  ss_Archived : bool;
  ss_ClaimRef : string;
  ss_Token : string;
  ss_Metadata : gmap string string;
  ss_CPUCount : Z;
  ss_MemTotalBytes : Z;
}.

(** ** pkg/scale: the store contract *)

Record ListOptions := mkListOptions {
  lo_Namespace : string;
  lo_LabelSelector : string;
  lo_FieldSelector : string;
  lo_WatchList : bool;
}.

Record ClaimOptions := mkClaimOptions {
  co_TTLSeconds : Z;
  co_Metadata : gmap string string;
  co_OnExpire : ExpireAction;
  co_NoEgress : bool;
  co_Promoted : bool;
}.

Record Assignment := mkAssignment {
  as_SandboxName : string;
  as_Node : string;
  as_Address : string;
  as_Token : string;
  as_Deadline : time;
  as_NetRoute : string;
}.

Record Snapshot := mkSnapshot {
  sn_ID : string;
  sn_Name : string;
  sn_SandboxID : string;
  sn_Pool : PoolKey;
  sn_CreatedAt : time;
  sn_Node : string;
}.

Record SandboxRecord := mkSandboxRecord {
  sr_Token : string;
  sr_Paused : bool;
  sr_Deadline : time;
}.

Record NodePools := mkNodePools {
  nps_Node : string;
  nps_Address : string;
  nps_Pools : list PoolCapacity;
  nps_Templates : list PromotedTemplate;
}.

(** The fields of an agents.x-k8s.io [Sandbox] object the program fills or
    reads; the type itself is upstream's.  Of its conditions the program keeps
    one, [Ready]. *)
Record Condition := mkCondition {
  cd_Type : string;
  cd_Status : string;
  cd_Reason : string;
  cd_Message : list string;
}.

Record Sandbox := mkSandbox {
  sb_Namespace : string;
  sb_Name : string;
  sb_Labels : gmap string string;
  sb_Annotations : gmap string string;
  sb_ResourceVersion : string;
  sb_CreationTimestamp : time;
  sb_NodeName : string;
  sb_PodIPs : list string;
  sb_Conditions : list Condition;
}.

(** ** Decidable equality *)

#[export] Instance PoolCapacity_eq_dec : EqDecision PoolCapacity.
Proof. solve_decision. Defined.
#[export] Instance PromotedTemplate_eq_dec : EqDecision PromotedTemplate.
Proof. solve_decision. Defined.
#[export] Instance InventoryEntry_eq_dec : EqDecision InventoryEntry.
Proof. solve_decision. Defined.
#[export] Instance NodeInventory_eq_dec : EqDecision NodeInventory.
Proof. solve_decision. Defined.
#[export] Instance PoolKey_eq_dec : EqDecision PoolKey.
Proof. solve_decision. Defined.
#[export] Instance ClaimSpec_eq_dec : EqDecision ClaimSpec.
Proof. solve_decision. Defined.
#[export] Instance ClaimResult_eq_dec : EqDecision ClaimResult.
Proof. solve_decision. Defined.
#[export] Instance NodePools_eq_dec : EqDecision NodePools.
Proof. solve_decision. Defined.
#[export] Instance Assignment_eq_dec : EqDecision Assignment.
Proof. solve_decision. Defined.
#[export] Instance Condition_eq_dec : EqDecision Condition.
Proof. solve_decision. Defined.
#[export] Instance Sandbox_eq_dec : EqDecision Sandbox.
Proof. solve_decision. Defined.

(** A pool key is a map key in the warm-pool driver. *)
#[export] Instance PoolKey_countable : Countable PoolKey.
Proof.
  apply (inj_countable'
    (λ k, (pk_Template k, pk_Net k, pk_Size k))
    (λ '(t, n, s), mkPoolKey t n s)).
  by intros [].
Defined.
