(* ===== verification/NodeIndex.v ===== *)
(** * The two-generation resolution index (pkg/scale/nodeindex.go)

    [nodeIndex] maps a lookup key to the node last seen holding it.  Both
    generations are bounded by [max] entries; when the current one is full it
    becomes the previous one and what the previous one held is forgotten. *)

From S2P Require Import Prelude GoStd.

(** ** State and operations *)

Definition nodeIndexMaxEntries : nat := Z.to_nat 8192.

Record nodeIndex := mkIndex {
  x_max : nat;
  x_cur : gmap string string;
  x_prev : gmap string string;
}.

Definition newNodeIndex (maxEntries : nat) : nodeIndex := mkIndex maxEntries ∅ ∅.

Definition storeLocked (key node : string) (x : nodeIndex) : nodeIndex :=
  let x := if decide (x_max x ≤ size (x_cur x)) then mkIndex (x_max x) ∅ (x_cur x) else x in
  mkIndex (x_max x) (<[key := node]> (x_cur x)) (x_prev x).

Definition lookup (key : string) (x : nodeIndex) : option string * nodeIndex :=
  match x_cur x !! key with
  | Some node => (Some node, x)
  | None =>
      match x_prev x !! key with
      | Some node => (Some node, storeLocked key node x)
      | None => (None, x)
      end
  end.

Definition remember (key node : string) (x : nodeIndex) : nodeIndex :=
  if decide (key = "" ∨ node = "") then x else storeLocked key node x.

Definition nameKey (namespace name : string) : string :=
  "name/" +:+ namespace +:+ "/" +:+ name.
Definition claimKey (namespace id : string) : string :=
  "claim/" +:+ namespace +:+ "/" +:+ id.

(** ** Specification: an unbounded map, of which the index may forget *)

(** What a lookup would answer. *)
Definition view (x : nodeIndex) (key : string) : option string :=
  match x_cur x !! key with Some n => Some n | None => x_prev x !! key end.

(** One call of the index. *)
Inductive index_op := OpLookup (key : string) | OpRemember (key node : string).

#[export] Instance index_op_eq_dec : EqDecision index_op.
Proof. solve_decision. Defined.

Definition run_op (o : index_op) (x : nodeIndex) : nodeIndex :=
  match o with
  | OpLookup k => (lookup k x).2
  | OpRemember k n => remember k n x
  end.
Definition run_ops (os : list index_op) (x : nodeIndex) : nodeIndex :=
  fold_left (λ x o, run_op o x) os x.

(** The specification remembers every binding, the last one wins. *)
Definition spec_op (o : index_op) (m : gmap string string) : gmap string string :=
  match o with
  | OpLookup _ => m
  | OpRemember k n => if decide (k = "" ∨ n = "") then m else <[k := n]> m
  end.
Definition spec_ops (os : list index_op) (m : gmap string string) : gmap string string :=
  fold_left (λ m o, spec_op o m) os m.

(** The index holds nothing the specification does not hold. *)
Definition refines (x : nodeIndex) (m : gmap string string) : Prop :=
  ∀ k n, view x k = Some n → m !! k = Some n.

(** Size invariant: each generation holds at most [max] keys (at least one
    fits, since a store empties a full generation before it inserts). *)
Definition bounded (x : nodeIndex) : Prop :=
  size (x_cur x) ≤ max 1 (x_max x) ∧ size (x_prev x) ≤ max 1 (x_max x).

(** ** Lemmas *)

Lemma view_storeLocked key node x k :
  view (storeLocked key node x) k =
  if decide (k = key) then Some node
  else if decide (x_max x ≤ size (x_cur x)) then x_cur x !! k else view x k.
Proof.
  unfold view, storeLocked. simpl.
  destruct (decide (x_max x ≤ size (x_cur x))); simpl;
    rewrite lookup_insert; repeat case_decide; simplify_eq; try done.
Qed.

Lemma refines_storeLocked key node x m :
  refines x m → refines (storeLocked key node x) (<[key := node]> m).
Proof.
  intros H k n. rewrite view_storeLocked, lookup_insert.
  repeat case_decide; simplify_eq; intros Hv; try done.
  - apply H. unfold view. by rewrite Hv.
  - by apply H.
Qed.

Lemma refines_promote key node x m :
  refines x m → view x key = Some node → refines (storeLocked key node x) m.
Proof.
  intros H Hk. rewrite <-(insert_id m key node) by by apply H.
  by apply refines_storeLocked.
Qed.

Lemma refines_op o x m : refines x m → refines (run_op o x) (spec_op o m).
Proof.
  intros H. destruct o as [k|k n]; simpl.
  - unfold lookup. destruct (x_cur x !! k) eqn:Hc; [done|].
    destruct (x_prev x !! k) eqn:Hp; [|done]. simpl.
    apply refines_promote; [done|]. unfold view. by rewrite Hc.
  - unfold remember. case_decide; [done|]. by apply refines_storeLocked.
Qed.

Lemma refines_ops os x m : refines x m → refines (run_ops os x) (spec_ops os m).
Proof.
  revert x m. induction os as [|o os IH]; intros x m H; [done|].
  apply IH. by apply refines_op.
Qed.

Lemma lookup_view k x : (lookup k x).1 = view x k.
Proof. unfold lookup, view. by repeat case_match. Qed.

Lemma storeLocked_max key node x : x_max (storeLocked key node x) = x_max x.
Proof. unfold storeLocked. by case_decide. Qed.

Lemma run_op_max o x : x_max (run_op o x) = x_max x.
Proof.
  destruct o; simpl; unfold lookup, remember; repeat case_match; try done;
    apply storeLocked_max.
Qed.

Lemma bounded_storeLocked key node x : bounded x → bounded (storeLocked key node x).
Proof.
  unfold bounded. rewrite storeLocked_max. intros [Hc Hp]. unfold storeLocked. case_decide; simpl.
  - rewrite insert_empty, map_size_singleton. lia.
  - rewrite map_size_insert. destruct (x_cur x !! key); simpl; lia.
Qed.

Lemma bounded_op o x : bounded x → bounded (run_op o x).
Proof.
  intros H. destruct o; simpl; unfold lookup, remember; repeat case_match; simpl; try done;
    by apply bounded_storeLocked.
Qed.

(** [k ↦ n] survives [b] more calls: it is in the current generation, or in the
    previous one with room for [b] insertions before the next turnover. *)
Definition survives (k n : string) (b : nat) (x : nodeIndex) : Prop :=
  b ≤ x_max x ∧
  (x_cur x !! k = Some n ∨
   x_cur x !! k = None ∧ x_prev x !! k = Some n ∧ b + size (x_cur x) ≤ x_max x).

Lemma survives_view k n b x : survives k n b x → view x k = Some n.
Proof. intros [_ [Hc|(Hc & Hp & _)]]; unfold view; by rewrite Hc. Qed.

Lemma survives_store k n b x key node :
  key ≠ k → survives k n (S b) x → survives k n b (storeLocked key node x).
Proof.
  intros Hne [Hb Hk]. unfold survives. rewrite storeLocked_max. split; [lia|].
  unfold storeLocked. case_decide; simpl.
  - destruct Hk as [Hc|(_ & _ & ?)]; [|lia]. right.
    rewrite insert_empty, map_size_singleton, lookup_singleton_ne by done. split_and!; [done..|lia].
  - rewrite lookup_insert_ne by done.
    destruct Hk as [Hc|(Hc & Hp & Hs)]; [by left|right]. split_and!; [done..|].
    rewrite map_size_insert. destruct (x_cur x !! key); simpl; lia.
Qed.

Lemma survives_op o k n b x :
  (∀ n', o ≠ OpRemember k n') → survives k n (S b) x → survives k n b (run_op o x).
Proof.
  intros Ho Hs.
  assert (survives k n b x) as Hw.
  { destruct Hs as [Hb [Hc|(Hc & Hp & ?)]]; split; [lia|by left|lia|right; split_and!; [done..|lia]]. }
  destruct o as [k'|k' n']; simpl.
  - unfold lookup. destruct (x_cur x !! k') eqn:Hc; [done|].
    destruct (x_prev x !! k') as [n'|] eqn:Hp; [|done]. simpl.
    destruct (decide (k' = k)) as [->|]; [|by apply survives_store].
    destruct Hs as [Hb [Hc'|(_ & Hp' & _)]]; simplify_eq.
    split; rewrite ?storeLocked_max; [lia|]. left. unfold storeLocked. simpl. apply lookup_insert_eq.
  - unfold remember. case_decide; [done|]. apply survives_store; [|done]. intros ->. by eapply Ho.
Qed.

Lemma survives_ops os k n x :
  (∀ n', OpRemember k n' ∉ os) → survives k n (length os) x → view (run_ops os x) k = Some n.
Proof.
  revert x. induction os as [|o os IH]; intros x Ho Hs; [by eapply survives_view|].
  apply IH.
  - intros n' Hin. apply (Ho n'). by constructor.
  - apply survives_op; [|done]. intros n' ->. apply (Ho n'). by constructor.
Qed.

(** ** Properties *)

(** a hit is never stale with respect to what was remembered: in every
    reachable state of the index a lookup that answers a node answers the node
    most recently remembered for that key, whatever was retired meanwhile. *)
Theorem lookup_latest (maxEntries : nat) (os : list index_op) (k n : string) :
  (lookup k (run_ops os (newNodeIndex maxEntries))).1 = Some n →
  spec_ops os ∅ !! k = Some n.
Proof.
  rewrite lookup_view. apply refines_ops. intros k' n'. unfold view, newNodeIndex. simpl.
  by rewrite !lookup_empty.
Qed.

Lemma lookup_latest_witness :
  spec_ops [OpRemember "a" "n1"; OpRemember "b" "n2"; OpRemember "a" "n3"; OpRemember "c" "n4"] ∅ !! "a" = Some "n3".
Proof. apply (lookup_latest 2). vm_compute. reflexivity. Defined.

(** The index is bounded: in every reachable state each generation holds at
    most [max] keys (one when [max] is 0), so the index holds at most twice that. *)
Theorem index_bounded (maxEntries : nat) (os : list index_op) :
  let x := run_ops os (newNodeIndex maxEntries) in
  size (x_cur x) ≤ max 1 maxEntries ∧ size (x_prev x) ≤ max 1 maxEntries.
Proof.
  assert (∀ x, x_max x = maxEntries → bounded x →
    x_max (run_ops os x) = maxEntries ∧ bounded (run_ops os x)) as H.
  { induction os as [|o os IH]; intros x Hm Hb; [done|].
    apply IH; [by rewrite run_op_max|by apply bounded_op]. }
  destruct (H (newNodeIndex maxEntries)) as [Hm Hb]; [done|split; simpl; rewrite map_size_empty; lia|].
  unfold bounded in Hb. by rewrite Hm in Hb.
Qed.

(** A remembered node is kept for at least [max] further calls: after
    [remember k n], any [max] lookups and remembers that do not rebind [k]
    still leave a lookup of [k] answering [n]. *)
Theorem remember_retained (x : nodeIndex) (os : list index_op) (k n : string) :
  k ≠ "" → n ≠ "" → length os ≤ x_max x → (∀ n', OpRemember k n' ∉ os) →
  (lookup k (run_ops os (remember k n x))).1 = Some n.
Proof.
  intros Hk Hn Hl Ho. rewrite lookup_view. apply survives_ops; [done|].
  unfold remember. rewrite decide_False by tauto.
  split; rewrite storeLocked_max; [done|]. left. unfold storeLocked. simpl. apply lookup_insert_eq.
Qed.

Lemma remember_retained_witness :
  (lookup "k" (run_ops [OpRemember "a" "1"; OpLookup "z"; OpRemember "b" "2"]
     (remember "k" "n" (newNodeIndex 3)))).1 = Some "n".
Proof.
  apply remember_retained; [done|done|simpl; lia|].
  intros n' H. repeat (apply elem_of_cons in H as [H|H]; [discriminate H|]).
  by apply not_elem_of_nil in H.
Defined.
