(* ===== verification/PoolKeys.v ===== *)
(** * Pool keys and size classes (pkg/scale/poolkey.go)

    A warm pool is named by a template (image), a network lane and a size
    class.  The aggregated Create and the warm-pool driver both derive the key
    here, so that what one provisions the other claims. *)

From S2P Require Import Prelude GoStd Api.

(** ** Kubernetes quantities

    [resource.Quantity] is API machinery: what the code uses of it. *)
Class QuantityOps := {
  Quantity : Type;
  q_zero : Quantity;
  q_cmp : Quantity → Quantity → comparison;
  q_IsZero : Quantity → bool;
  q_MustParse : string → Quantity;
  q_NewQuantity : Z → Quantity;
}.

(** Its documented behaviour: a quantity denotes a fixed-point number (here in
    units of 10^-9), compared by value; [Ki], [Mi], [Gi] are powers of 1024. *)
Class QuantityLaws (Q : QuantityOps) := {
  q_value : Quantity → Z;
  q_cmp_value a b : q_cmp a b = (q_value a ?= q_value b)%Z;
  q_IsZero_value a : q_IsZero a = bool_decide (q_value a = 0%Z);
  q_zero_value : q_value q_zero = 0%Z;
  q_parse_1 : q_value (q_MustParse "1") = (10 ^ 9)%Z;
  q_parse_4 : q_value (q_MustParse "4") = (4 * 10 ^ 9)%Z;
  q_parse_2Gi : q_value (q_MustParse "2Gi") = (2 * 2 ^ 30 * 10 ^ 9)%Z;
  q_parse_8Gi : q_value (q_MustParse "8Gi") = (8 * 2 ^ 30 * 10 ^ 9)%Z;
  q_new_value n : q_value (q_NewQuantity n) = (n * 10 ^ 9)%Z;
}.

(** ** Definitions *)

Definition SizeClassSmall : string := "small".
Definition SizeClassMedium : string := "medium".
Definition SizeClassLarge : string := "large".
Definition NetDefault : string := "none".
Definition NetEgress : string := "egress".
Definition NetAnnotation : string := "sandbox.cocoonstack.io/net".

Section pool_key.
Context {Q : QuantityOps}.

(** The part of a [corev1.Container] the derivation reads: its image and the
    cpu and memory entries of its requests and limits. *)
Record ResourceList := mkResourceList {
  rl_cpu : option Quantity;
  rl_memory : option Quantity;
}.
Record Container := mkContainer {
  ct_Image : string;
  ct_Requests : ResourceList;
  ct_Limits : ResourceList;
}.

(** [ResourceList.Cpu], [ResourceList.Memory]: the entry, or a zero quantity. *)
Definition Cpu (r : ResourceList) : Quantity := default q_zero (rl_cpu r).
Definition Memory (r : ResourceList) : Quantity := default q_zero (rl_memory r).

Definition sizeCPUMedium : Quantity := q_MustParse "1".
Definition sizeMemMedium : Quantity := q_MustParse "2Gi".
Definition sizeCPULarge : Quantity := q_MustParse "4".
Definition sizeMemLarge : Quantity := q_MustParse "8Gi".

(** [a.Cmp(b) > 0] *)
Definition q_gt (a b : Quantity) : bool :=
  match q_cmp a b with Gt => true | _ => false end.

Definition SizeClassForContainers (containers : list Container) : string :=
  match containers with
  | [] => SizeClassSmall
  | c :: _ =>
      let cpu := if q_IsZero (Cpu (ct_Requests c)) then Cpu (ct_Limits c) else Cpu (ct_Requests c) in
      let mem := if q_IsZero (Memory (ct_Requests c)) then Memory (ct_Limits c) else Memory (ct_Requests c) in
      if q_gt cpu sizeCPULarge || q_gt mem sizeMemLarge then SizeClassLarge
      else if q_gt cpu sizeCPUMedium || q_gt mem sizeMemMedium then SizeClassMedium
      else SizeClassSmall
  end.

Definition NetForAnnotations (object podTemplate : gmap string string) : string :=
  str_or (default "" (object !! NetAnnotation)) (default "" (podTemplate !! NetAnnotation)).

Definition PoolKeyFor (containers : list Container) (net : string) : PoolKey :=
  mkPoolKey
    (match containers with c :: _ => ct_Image c | [] => "" end)
    (str_or net NetDefault)
    (SizeClassForContainers containers).

End pool_key.

(** [poolCapacityMatches] (pkg/scale/sandboxstore_impl.go) *)
Definition poolCapacityMatches (pc : PoolCapacity) (key : PoolKey) : bool :=
  bool_decide (pc_Template pc = pk_Template key) &&
  bool_decide (str_or (pc_Net pc) NetDefault = str_or (pk_Net key) NetDefault) &&
  bool_decide (str_or (pc_Size pc) SizeClassSmall = str_or (pk_Size key) SizeClassSmall).

(** ** Specification *)

(** A key with its unset axes filled in: what two keys are compared by. *)
Definition normal_key (k : PoolKey) : PoolKey :=
  mkPoolKey (pk_Template k) (str_or (pk_Net k) NetDefault) (str_or (pk_Size k) SizeClassSmall).

Definition capacity_key (pc : PoolCapacity) : PoolKey :=
  mkPoolKey (pc_Template pc) (pc_Net pc) (pc_Size pc).

(** A quantity model for the witnesses: nano-units in [Z]. *)
Definition z_parse (s : string) : Z :=
  (if decide (s = "1") then 10 ^ 9 else if decide (s = "4") then 4 * 10 ^ 9
   else if decide (s = "2Gi") then 2 * 2 ^ 30 * 10 ^ 9
   else if decide (s = "8Gi") then 8 * 2 ^ 30 * 10 ^ 9 else 0)%Z.
Definition z_quantity : QuantityOps :=
  {| Quantity := Z; q_zero := 0%Z; q_cmp := Z.compare; q_IsZero := λ z, bool_decide (z = 0%Z);
     q_MustParse := z_parse; q_NewQuantity := λ n, (n * 10 ^ 9)%Z |}.
Definition z_quantity_laws : QuantityLaws z_quantity.
Proof. refine {| q_value := (λ z, z) : @Quantity z_quantity → Z |}; reflexivity. Defined.

(** ** Lemmas and properties *)

Lemma poolCapacityMatches_spec pc key :
  poolCapacityMatches pc key = true ↔ normal_key (capacity_key pc) = normal_key key.
Proof.
  unfold poolCapacityMatches, normal_key, capacity_key. simpl.
  rewrite !andb_true_iff, !bool_decide_eq_true. split; [by intros [[-> ->] ->]|by intros [= -> -> ->]].
Qed.

Section size_class.
Context {Q : QuantityOps} {L : QuantityLaws Q}.

Lemma q_gt_value a b : q_gt a b = bool_decide (q_value b < q_value a)%Z.
Proof.
  unfold q_gt. rewrite q_cmp_value. destruct (Z.compare_spec (q_value a) (q_value b));
    symmetry; (apply bool_decide_eq_true_2; lia) || (apply bool_decide_eq_false_2; lia).
Qed.

(** The amount a container counts with: its request, or its limit when the
    request is zero or absent. *)
Definition effective (f : ResourceList → option Quantity) (c : Container) : Z :=
  let v r := from_option q_value 0%Z (f r) in
  if decide (v (ct_Requests c) = 0%Z) then v (ct_Limits c) else v (ct_Requests c).

Lemma effective_code f c :
  q_value (if q_IsZero (default q_zero (f (ct_Requests c))) then default q_zero (f (ct_Limits c))
           else default q_zero (f (ct_Requests c))) = effective f c.
Proof.
  assert (∀ r, q_value (default q_zero (f r)) = from_option q_value 0%Z (f r)) as Hd.
  { intros r. destruct (f r); [done|]. simpl. apply q_zero_value. }
  unfold effective. rewrite q_IsZero_value, Hd. case_bool_decide; case_decide; try lia; apply Hd.
Qed.

(** The size class of a workload is decided by its first container alone:
    large above 4 CPU or 8 GiB, medium above 1 CPU or 2 GiB, small otherwise,
    each amount being the request or, when that is zero or unset, the limit. *)
Theorem SizeClassForContainers_spec (c : Container) (cs : list Container) :
  let cpu := effective rl_cpu c in
  let mem := effective rl_memory c in
  SizeClassForContainers (c :: cs) =
  if decide (4 * 10 ^ 9 < cpu ∨ 8 * 2 ^ 30 * 10 ^ 9 < mem)%Z then "large"
  else if decide (10 ^ 9 < cpu ∨ 2 * 2 ^ 30 * 10 ^ 9 < mem)%Z then "medium"
  else "small".
Proof.
  cbv zeta. unfold SizeClassForContainers, Cpu, Memory.
  rewrite !q_gt_value, !effective_code.
  unfold sizeCPULarge, sizeMemLarge, sizeCPUMedium, sizeMemMedium.
  rewrite q_parse_1, q_parse_4, q_parse_2Gi, q_parse_8Gi.
  rewrite <-!bool_decide_or. repeat case_bool_decide; repeat case_decide; done || tauto.
Qed.
End size_class.

Lemma SizeClassForContainers_spec_witness :
  @SizeClassForContainers z_quantity
    [@mkContainer z_quantity "img" (@mkResourceList z_quantity None (Some (3 * 2 ^ 30 * 10 ^ 9)%Z))
       (@mkResourceList z_quantity (Some (5 * 10 ^ 9)%Z) None)] = "large".
Proof. apply (@SizeClassForContainers_spec z_quantity z_quantity_laws). Defined.
