(* ===== verification/SandboxView.v ===== *)
(** * Synthesized sandboxes (pkg/scale/sandboxstore_impl.go, sandboxstore_live.go)

    No per-sandbox object is stored: an inventory entry, or a row of a node's
    own index, is turned into a [Sandbox] when it is read. *)

From S2P Require Import Prelude GoStd Api.

(** ** Label and field selectors

    The [labels] and [fields] packages of the API machinery. *)
Class SelectorOps := {
  label_selector : Type;
  field_selector : Type;
  labels_Parse : string → result label_selector;
  fields_ParseSelector : string → result field_selector;
  label_Matches : label_selector → gmap string string → bool;
  field_Matches : field_selector → gmap string string → bool;
  field_RequiresExactMatch : field_selector → string → option string;
  field_Requirements : field_selector → list string;
}.

(** The JSON codec for caller metadata (a map of strings as one JSON object). *)
Class MetadataCodec := {
  json_Marshal : gmap string string → result string;
  json_Unmarshal : string → result (gmap string string);
}.

(** ** Names and keys *)

Definition NodeLabel : string := "sandbox.cocoonstack.io/node".
Definition PhaseLabel : string := "sandbox.cocoonstack.io/phase".
Definition PhaseRunning : string := "Running".
Definition PhaseHibernated : string := "Hibernated".
Definition ClaimLabel : string := "sandbox.cocoonstack.io/claim".
Definition TemplateLabel : string := "sandbox.cocoonstack.io/template".
Definition ClaimIDAnnotation : string := "sandbox.cocoonstack.io/claim-id".
Definition DeadlineAnnotation : string := "sandbox.cocoonstack.io/deadline".
Definition TokenAnnotation : string := "sandbox.cocoonstack.io/token".
Definition MetadataAnnotation : string := "sandbox.cocoonstack.io/metadata".
Definition CPUCountAnnotation : string := "sandbox.cocoonstack.io/cpu-count".
Definition MemoryBytesAnnotation : string := "sandbox.cocoonstack.io/memory-bytes".
(** [metav1.NamespaceDefault] *)
Definition NamespaceDefault : string := "default".

Definition namespacedName (namespace name : string) : string := namespace +:+ "/" +:+ name.

Definition splitNamespacedName (s : string) : string * string :=
  match str_cut "/" s with
  | Some (before, after) => (before, after)
  | None => (NamespaceDefault, s)
  end.

Definition objKey (sb : Sandbox) : string := namespacedName (sb_Namespace sb) (sb_Name sb).

(** ** Addresses *)

Definition SandboxdBaseURL (addr : string) : string :=
  if str_contains addr "://" then addr else "http://" +:+ addr.

Definition AddressIPs (addr : string) : list string :=
  if decide (addr = "") then []
  else
    let addr := match str_cut "://" addr with Some (_, rest) => rest | None => addr end in
    match split_host_port addr with
    | Some (host, _) => if decide (host = "") then [addr] else [host]
    | None => [addr]
    end.

(** ** Labels, annotations and version of a synthesized sandbox *)

Definition deadlineValue (e : InventoryEntry) : string :=
  match ie_Deadline e with
  | None => ""
  | Some d => if time_is_zero d then "" else format_rfc3339 d
  end.

Definition claimedAtValue (e : InventoryEntry) : string :=
  match ie_ClaimedAt e with
  | None => ""
  | Some t => format_int (unix_seconds t)
  end.

(** [m[k] = v] when [v] is worth stamping. *)
Definition stamp (c : bool) (k v : string) (m : gmap string string) : gmap string string :=
  if c then <[k := v]> m else m.
Definition nonempty (s : string) : bool := negb (bool_decide (s = "")).

Definition synthLabels (node : string) (e : InventoryEntry) : gmap string string :=
  let l := {[ NodeLabel := node ]} in
  let l := stamp (nonempty (ie_Phase e)) PhaseLabel (ie_Phase e) l in
  let l := stamp (nonempty (ie_Template e)) TemplateLabel (ie_Template e) l in
  let claim := (splitNamespacedName (ie_ClaimRef e)).2 in
  stamp (nonempty (ie_ClaimRef e) && nonempty claim) ClaimLabel claim l.

Definition synthAnnotations (e : InventoryEntry) : gmap string string :=
  let a := stamp (nonempty (ie_ID e)) ClaimIDAnnotation (ie_ID e) ∅ in
  let a := stamp (nonempty (deadlineValue e)) DeadlineAnnotation (deadlineValue e) a in
  let a := stamp (nonempty (ie_Metadata e)) MetadataAnnotation (ie_Metadata e) a in
  let a := stamp (bool_decide (0 < ie_CPUCount e)%Z) CPUCountAnnotation (format_int (ie_CPUCount e)) a in
  stamp (bool_decide (0 < ie_MemoryBytes e)%Z) MemoryBytesAnnotation (format_int (ie_MemoryBytes e)) a.

Definition resourceVersionContent (ns name : string) (e : InventoryEntry) : string :=
  ns +:+ "/" +:+ name +:+ "|" +:+ ie_ID e +:+ "|" +:+ ie_Phase e +:+ "|" +:+ ie_ClaimRef e +:+ "|" +:+
  ie_Address e +:+ "|" +:+ ie_Template e +:+ "|" +:+ deadlineValue e +:+ "|" +:+ claimedAtValue e.

Definition resourceVersionFor (ns name : string) (e : InventoryEntry) : string :=
  format_int (fnv64a (resourceVersionContent ns name e)).

Definition readyStatus (phase : string) : string :=
  if equal_fold_ascii phase PhaseRunning || equal_fold_ascii phase "Ready" then "True" else "False".

Definition entryToSandbox (node : string) (e : InventoryEntry) : Sandbox :=
  let '(ns, name) := splitNamespacedName (ie_Name e) in
  {| sb_Namespace := ns;
     sb_Name := name;
     sb_Labels := synthLabels node e;
     sb_Annotations := synthAnnotations e;
     sb_ResourceVersion := resourceVersionFor ns name e;
     sb_CreationTimestamp := default zero_time (ie_ClaimedAt e);
     sb_NodeName := node;
     sb_PodIPs := AddressIPs (ie_Address e);
     sb_Conditions := [mkCondition "Ready" (readyStatus (ie_Phase e)) (str_or (ie_Phase e) "Unknown")
                         ["phase %q reported by node %q inventory"; ie_Phase e; node]] |}.

(** ** Rows of a node's own index *)

Definition isPaused (row : SandboxSummary) : bool := ss_Hibernated row || ss_Archived row.

Definition optionalTime (t : time) : option time :=
  if time_is_zero t then None else Some t.

Section codec.
Context {C : MetadataCodec}.

Definition encodeMetadata (md : gmap string string) : string :=
  if decide (md = ∅) then ""
  else match json_Marshal md with Ok b => b | Err _ => "" end.

Definition MetadataOf (sb : Sandbox) : gmap string string :=
  let raw := default "" (sb_Annotations sb !! MetadataAnnotation) in
  if decide (raw = "") then ∅
  else match json_Unmarshal raw with Ok md => md | Err _ => ∅ end.

Definition EntryFromSummary (row : SandboxSummary) : InventoryEntry :=
  let name := str_or (ss_ClaimRef row) (ss_ID row) in
  {| ie_Name := name;
     ie_ID := ss_ID row;
     ie_Phase := if isPaused row then PhaseHibernated else PhaseRunning;
     ie_Template := pk_Template (ss_Key row);
     ie_ClaimRef := name;
     ie_Address := "";
     ie_Deadline := optionalTime (ss_Deadline row);
     ie_ClaimedAt := optionalTime (ss_ClaimedAt row);
     ie_Metadata := encodeMetadata (ss_Metadata row);
     ie_CPUCount := ss_CPUCount row;
     ie_MemoryBytes := ss_MemTotalBytes row |}.
End codec.

Definition PoolCapacityFromInfo (info : NodeInfo) : list PoolCapacity :=
  (λ p, mkPoolCapacity (pk_Template (np_Key p)) (pk_Net (np_Key p)) (pk_Size (np_Key p)) (np_Warm p) (np_Target p))
  <$> nf_Pools info.

(** [int32(n)] *)
Definition int32_wrap (z : Z) : Z := ((z + 2 ^ 31) mod 2 ^ 32 - 2 ^ 31)%Z.

Definition TemplatesFromInfo (info : NodeInfo) : list PromotedTemplate :=
  (λ t, mkPromotedTemplate (pk_Template (nt_Key t)) (pk_Net (nt_Key t)) (pk_Size (nt_Key t))
          (nt_ContentDigest t) (nt_Tenant t) (optionalTime (nt_CreatedAt t))
          (int32_wrap (nt_CPUCount t)) (nt_MemTotalBytes t) (nt_Labels t))
  <$> nf_Templates info.

(** ** Selection *)

(** A matcher looks at one entry of an inventory. *)
Definition inventoryMatch : Type := InventoryEntry → bool.

Definition nameMatch (namespace name : string) : inventoryMatch := λ e,
  let '(ens, ename) := splitNamespacedName (ie_Name e) in
  bool_decide (ens = namespace) && bool_decide (ename = name).

(** The matcher [GetByClaimID] builds from the caller's [match]. *)
Definition claimIDMatch (namespace : string) (mtch : string → bool) : inventoryMatch := λ e,
  if bool_decide (ie_ID e = "") || negb (mtch (ie_ID e)) then false
  else bool_decide (namespace = "") || bool_decide ((splitNamespacedName (ie_Name e)).1 = namespace).

Definition sandboxFields (sb : Sandbox) : gmap string string :=
  <["status.nodeName" := sb_NodeName sb]> (<["metadata.namespace" := sb_Namespace sb]>
    {[ "metadata.name" := sb_Name sb ]}).

Section selectors.
Context {S : SelectorOps}.

Definition selected (sb : Sandbox) (labelSel : label_selector) (fieldSel : field_selector) : bool :=
  label_Matches labelSel (sb_Labels sb) && field_Matches fieldSel (sandboxFields sb).

Definition selectedOne (sb : option Sandbox) (err : option error)
    (labelSel : label_selector) (fieldSel : field_selector) : result (list Sandbox) :=
  match err with
  | Some e => Err e
  | None =>
      match sb with
      | Some sb => if selected sb labelSel fieldSel then Ok [sb] else Ok []
      | None => Ok []
      end
  end.

Definition pinnedName (namespace : string) (fieldSel : field_selector) : option string :=
  match field_RequiresExactMatch fieldSel "metadata.name" with
  | Some name => if bool_decide (name = "") || bool_decide (namespace = "") then None else Some name
  | None => None
  end.

Definition empty_sandbox : Sandbox := mkSandbox "" "" ∅ ∅ "" zero_time "" [] [].

Definition parseSelectors (opts : ListOptions) : result (label_selector * field_selector) :=
  match labels_Parse (lo_LabelSelector opts) with
  | Err _ => Err (NewBadRequest ["parse label selector"; lo_LabelSelector opts])
  | Ok labelSel =>
      match fields_ParseSelector (lo_FieldSelector opts) with
      | Err _ => Err (NewBadRequest ["parse field selector"; lo_FieldSelector opts])
      | Ok fieldSel =>
          let known := sandboxFields empty_sandbox in
          match find_first (λ f, bool_decide (known !! f = None)) (field_Requirements fieldSel) with
          | Some f => Err (NewBadRequest ["field selector is not supported on sandboxes"; f])
          | None => Ok (labelSel, fieldSel)
          end
      end
  end.

Definition materialize (inv : NodeInventory) (namespace : string)
    (labelSel : label_selector) (fieldSel : field_selector) : list Sandbox :=
  omap (λ e,
    if negb (bool_decide (namespace = "")) && negb (bool_decide ((splitNamespacedName (ie_Name e)).1 = namespace))
    then None
    else let sb := entryToSandbox (ni_Node inv) e in
         if selected sb labelSel fieldSel then Some sb else None)
  (ni_Entries inv).
End selectors.

(** ** Lemmas *)

Lemma splitNamespacedName_join ns name :
  has_byte "/" ns = false → splitNamespacedName (namespacedName ns name) = (ns, name).
Proof. intros H. unfold splitNamespacedName, namespacedName. change ("/" +:+ name) with (String "/" name). by rewrite str_cut_byte. Qed.

Lemma entryToSandbox_names node e :
  (sb_Namespace (entryToSandbox node e), sb_Name (entryToSandbox node e)) = splitNamespacedName (ie_Name e).
Proof. unfold entryToSandbox. by destruct (splitNamespacedName (ie_Name e)). Qed.

Lemma entryToSandbox_node node e : sb_NodeName (entryToSandbox node e) = node.
Proof. unfold entryToSandbox. by destruct (splitNamespacedName (ie_Name e)). Qed.

Lemma entryToSandbox_annotations node e : sb_Annotations (entryToSandbox node e) = synthAnnotations e.
Proof. unfold entryToSandbox. by destruct (splitNamespacedName (ie_Name e)). Qed.

Lemma entryToSandbox_labels node e : sb_Labels (entryToSandbox node e) = synthLabels node e.
Proof. unfold entryToSandbox. by destruct (splitNamespacedName (ie_Name e)). Qed.

Lemma nameMatch_spec ns name e :
  nameMatch ns name e = true ↔ splitNamespacedName (ie_Name e) = (ns, name).
Proof.
  unfold nameMatch. destruct (splitNamespacedName (ie_Name e)) as [a b].
  rewrite andb_true_iff, !bool_decide_eq_true. split; [by intros [-> ->]|by intros [= -> ->]].
Qed.

Lemma nameMatch_sandbox ns name node e :
  nameMatch ns name e = true →
  sb_Namespace (entryToSandbox node e) = ns ∧ sb_Name (entryToSandbox node e) = name.
Proof. intros H%nameMatch_spec. pose proof (entryToSandbox_names node e) as Hn. rewrite H in Hn. by inversion Hn. Qed.

Lemma lookup_stamp c k v m k' :
  stamp c k v m !! k' = if decide (c = true ∧ k = k') then Some v else m !! k'.
Proof.
  unfold stamp. destruct c; [|by rewrite decide_False by (intros [? ?]; discriminate)].
  rewrite lookup_insert. repeat case_decide; try tauto; done.
Qed.

Lemma stamp_nonempty k v m :
  m !! k = None → stamp (nonempty v) k v m !! k = if decide (v = "") then None else Some v.
Proof.
  intros Hm. rewrite lookup_stamp, Hm. unfold nonempty. repeat case_decide; try done; destruct_and?.
  - by rewrite bool_decide_eq_true_2 in *.
  - exfalso. naive_solver (rewrite bool_decide_eq_false_2; done).
Qed.

Lemma synthAnnotations_claim e :
  synthAnnotations e !! ClaimIDAnnotation = if decide (ie_ID e = "") then None else Some (ie_ID e).
Proof.
  rewrite <-(stamp_nonempty ClaimIDAnnotation (ie_ID e) ∅) by apply lookup_empty.
  unfold synthAnnotations. rewrite !lookup_stamp.
  by repeat (rewrite decide_False by (intros [_ ?]; discriminate)).
Qed.

Lemma synthAnnotations_metadata e :
  synthAnnotations e !! MetadataAnnotation = if decide (ie_Metadata e = "") then None else Some (ie_Metadata e).
Proof.
  rewrite <-(stamp_nonempty MetadataAnnotation (ie_Metadata e) ∅) by apply lookup_empty.
  unfold synthAnnotations. rewrite !lookup_stamp.
  do 2 rewrite decide_False by (intros [_ ?]; discriminate).
  case_decide; [done|]. by repeat (rewrite decide_False by (intros [_ ?]; discriminate)).
Qed.

Lemma elem_of_materialize `{SelectorOps} inv ns ls fs sb :
  sb ∈ materialize inv ns ls fs ↔
  ∃ e, e ∈ ni_Entries inv ∧ sb = entryToSandbox (ni_Node inv) e ∧
       (ns = "" ∨ sb_Namespace sb = ns) ∧ selected sb ls fs = true.
Proof.
  unfold materialize. rewrite list_elem_of_omap. split.
  - intros (e & He & Hs). exists e. split; [done|].
    destruct (negb _ && negb _) eqn:Hns; [done|].
    destruct (selected _ ls fs) eqn:Hsel; simplify_eq. split_and!; [done| |done].
    pose proof (entryToSandbox_names (ni_Node inv) e) as Hn. rewrite <-Hn in Hns. simpl in Hns.
    apply andb_false_iff in Hns as [?%negb_false_iff%bool_decide_eq_true|?%negb_false_iff%bool_decide_eq_true]; auto.
  - intros (e & He & -> & Hns & Hsel). exists e. split; [done|].
    pose proof (entryToSandbox_names (ni_Node inv) e) as Hn. rewrite <-Hn. simpl. rewrite Hsel.
    destruct (negb _ && negb _) eqn:Hb; [|done].
    apply andb_true_iff in Hb as [?%negb_true_iff%bool_decide_eq_false ?%negb_true_iff%bool_decide_eq_false]. tauto.
Qed.

(** ** Properties *)

(** what is claimed under [ns/name] is read back under it: the row a node
    indexes for a claim whose claim ref is [ns/name] becomes an inventory entry
    the name lookup matches, and a sandbox with that namespace and name, on that
    node, carrying the node's claim id for Delete and the phase label [Hibernated]
    exactly when the node reports it hibernated or archived. *)
Theorem claim_read_back `{MetadataCodec} (node ns name : string) (row : SandboxSummary) :
  has_byte "/" ns = false → ss_ClaimRef row = namespacedName ns name → ss_ID row ≠ "" →
  let e := EntryFromSummary row in
  let sb := entryToSandbox node e in
  nameMatch ns name e = true ∧
  sb_Namespace sb = ns ∧ sb_Name sb = name ∧ sb_NodeName sb = node ∧
  sb_Annotations sb !! ClaimIDAnnotation = Some (ss_ID row) ∧
  sb_Labels sb !! PhaseLabel = Some (if isPaused row then PhaseHibernated else PhaseRunning).
Proof.
  intros Hns Href Hid e sb.
  assert (splitNamespacedName (ie_Name e) = (ns, name)) as Hsplit.
  { unfold e. simpl. rewrite Href, str_or_nonempty; [by apply splitNamespacedName_join|].
    unfold namespacedName. by destruct ns. }
  assert (nameMatch ns name e = true) as Hm by by apply nameMatch_spec.
  destruct (nameMatch_sandbox ns name node e Hm) as [Hsn Hsb].
  split_and!; [done|done|done|apply entryToSandbox_node| |].
  - unfold sb. rewrite entryToSandbox_annotations, synthAnnotations_claim. by rewrite decide_False.
  - unfold sb. rewrite entryToSandbox_labels. unfold synthLabels. rewrite !lookup_stamp.
    rewrite decide_False by (intros [_ ?]; discriminate).
    rewrite decide_False by (intros [_ ?]; discriminate).
    unfold e. simpl. destruct (isPaused row); by rewrite decide_True.
Qed.

(** A codec for the witnesses: the encoding of the empty and of one-pair maps. *)
Definition toy_codec : MetadataCodec :=
  {| json_Marshal := λ m, match map_to_list m with [(k, v)] => Ok (k +:+ "=" +:+ v) | _ => Err (ErrText "json" []) end;
     json_Unmarshal := λ s, match str_cut "=" s with Some (k, v) => Ok {[ k := v ]} | None => Err (ErrText "json" []) end |}.

Definition sample_row : SandboxSummary :=
  mkSandboxSummary "sb_1" (mkPoolKey "img" "none" "small") zero_time zero_time true false "team/web" "tok"
    {[ "k" := "v" ]} 2 1024.

Lemma claim_read_back_witness :
  sb_Labels (entryToSandbox "node-a" (@EntryFromSummary toy_codec sample_row)) !! PhaseLabel = Some "Hibernated".
Proof.
  apply (@claim_read_back toy_codec "node-a" "team" "web" sample_row); [reflexivity|reflexivity|discriminate].
Defined.

(** caller metadata survives the trip through the node and the annotation:
    the map a sandbox shows is the one its claim carried, for a JSON codec that
    decodes what it encodes and never encodes to the empty text. *)
Theorem metadata_round_trip `{C : MetadataCodec} (node : string) (row : SandboxSummary) :
  (∃ b, json_Marshal (ss_Metadata row) = Ok b ∧ b ≠ "" ∧ json_Unmarshal b = Ok (ss_Metadata row)) →
  MetadataOf (entryToSandbox node (EntryFromSummary row)) = ss_Metadata row.
Proof.
  intros (b & Hb & Hne & Hu). unfold MetadataOf.
  rewrite entryToSandbox_annotations, synthAnnotations_metadata.
  unfold EntryFromSummary, encodeMetadata. simpl.
  destruct (decide (ss_Metadata row = ∅)) as [->|Hmd]; simpl; [done|].
  rewrite Hb. destruct (decide (b = "")) as [|Hb']; [done|]. simpl.
  destruct (decide (b = "")); [done|]. by rewrite Hu.
Qed.

Lemma metadata_round_trip_witness :
  @MetadataOf toy_codec (entryToSandbox "n" (@EntryFromSummary toy_codec sample_row)) = {[ "k" := "v" ]}.
Proof.
  apply (@metadata_round_trip toy_codec "n" sample_row).
  exists "k=v". split; [vm_compute; reflexivity|]. split; [discriminate|vm_compute; reflexivity].
Defined.

(** The version hashes nine fields of the entry: entries that differ only in
    metadata, CPU count or memory get the same version. *)
Lemma resource_version_blind node (e e' : InventoryEntry) :
  ie_Name e = ie_Name e' → ie_ID e = ie_ID e' → ie_Phase e = ie_Phase e' → ie_ClaimRef e = ie_ClaimRef e' →
  ie_Address e = ie_Address e' → ie_Template e = ie_Template e' →
  deadlineValue e = deadlineValue e' → claimedAtValue e = claimedAtValue e' →
  sb_ResourceVersion (entryToSandbox node e) = sb_ResourceVersion (entryToSandbox node e').
Proof.
  intros Hn ???????. unfold entryToSandbox. rewrite Hn. destruct (splitNamespacedName (ie_Name e')). simpl.
  unfold resourceVersionFor, resourceVersionContent. by repeat match goal with H : _ = _ |- _ => rewrite ?H; clear H end.
Qed.
