(* ===== verification/Inventory.v ===== *)
(** * The inventory interface (pkg/scale/sandboxstore_impl.go)

    [InventorySource] is what the store, the e2b surface, the warm-pool driver
    and the edge read the fleet through.  Its laws are what those clients rely
    on; the in-memory [StaticInventorySource] is the first implementation. *)

From S2P Require Import Prelude GoStd Api.

(** ** Interface *)

(** The methods read the state [W] of the source and leave it alone. *)
Class InventorySource (W : Type) := {
  ListNodes : W → result (list string);
  NodeInventory_of : W → string → result NodeInventory;
  NodeCapacity : W → string → result (string * list PoolCapacity);
  NodeCapacities : W → result (list NodePools);
}.

(** The contract of the interface's comments, when enumeration does not fail:
    - a node's capacity is the address and pools of its inventory, and is
      readable exactly when the inventory is;
    - [NodeCapacities] has one entry per readable listed node, in [ListNodes]
      order, with that node's address, pools and templates;
    - [ListNodes] names a node once, and every node whose inventory is readable. *)
Class InventoryLaws (W : Type) (I : InventorySource W) (good : W → Prop) := {
  capacity_of_inventory w n inv : good w →
    NodeInventory_of w n = Ok inv → NodeCapacity w n = Ok (ni_Address inv, ni_Pools inv);
  capacity_err w n e : good w →
    NodeInventory_of w n = Err e → ∃ e', NodeCapacity w n = Err e';
  nodes_NoDup w ns : good w → ListNodes w = Ok ns → NoDup ns;
  inventory_listed w ns n inv : good w →
    ListNodes w = Ok ns → NodeInventory_of w n = Ok inv → n ∈ ns;
  capacities_spec w ns : good w → ListNodes w = Ok ns →
    NodeCapacities w = Ok (omap (λ n,
      match NodeInventory_of w n with
      | Ok inv => Some (mkNodePools n (ni_Address inv) (ni_Pools inv) (ni_Templates inv))
      | Err _ => None
      end) ns);
}.

(** ** StaticInventorySource *)

Module Static.

Record StaticInventorySource := mkStatic {
  s_inv : gmap string NodeInventory;
  s_partition : gset string;
  s_applies : Z;
}.

Definition NewStaticInventorySource : StaticInventorySource := mkStatic ∅ ∅ 0.

Definition Put (inv : NodeInventory) (s : StaticInventorySource) : StaticInventorySource :=
  mkStatic (<[ni_Node inv := inv]> (s_inv s)) (s_partition s) (s_applies s).

Definition Apply (inv : NodeInventory) (s : StaticInventorySource) : StaticInventorySource :=
  mkStatic (<[ni_Node inv := inv]> (s_inv s)) (s_partition s) (s_applies s + 1).

Definition Partition (node : string) (s : StaticInventorySource) : StaticInventorySource :=
  mkStatic (s_inv s) ({[node]} ∪ s_partition s) (s_applies s).

Definition Remove (node : string) (s : StaticInventorySource) : StaticInventorySource :=
  mkStatic (delete node (s_inv s)) (s_partition s ∖ {[node]}) (s_applies s).

Definition ListNodes (s : StaticInventorySource) : result (list string) := Ok (sorted_keys (s_inv s)).

Definition errPartitioned (node : string) : error :=
  ErrText "scale: node %q partitioned from aggregated server" [node].
Definition errUnpublished (node : string) : error :=
  ErrText "scale: no inventory published for node %q" [node].

Definition NodeInventory (s : StaticInventorySource) (node : string) : result NodeInventory :=
  if decide (node ∈ s_partition s) then Err (errPartitioned node)
  else match s_inv s !! node with
       | None => Err (errUnpublished node)
       | Some inv => Ok inv
       end.

Definition NodeCapacity (s : StaticInventorySource) (node : string) : result (string * list PoolCapacity) :=
  if decide (node ∈ s_partition s) then Err (errPartitioned node)
  else match s_inv s !! node with
       | None => Err (errUnpublished node)
       | Some inv => Ok (ni_Address inv, ni_Pools inv)
       end.

Definition NodeCapacities (s : StaticInventorySource) : result (list NodePools) :=
  Ok (omap (λ node,
        if decide (node ∈ s_partition s) then None
        else (λ inv, mkNodePools node (ni_Address inv) (ni_Pools inv) (ni_Templates inv)) <$> s_inv s !! node)
      (sorted_keys (s_inv s))).

Definition ObjectCount (s : StaticInventorySource) : Z := Z.of_nat (size (s_inv s)).
Definition ApplyCount (s : StaticInventorySource) : Z := s_applies s.

#[export] Instance source : InventorySource StaticInventorySource :=
  {| Inventory.ListNodes := ListNodes; NodeInventory_of := NodeInventory;
     Inventory.NodeCapacity := NodeCapacity; Inventory.NodeCapacities := NodeCapacities |}.

#[export] Instance laws : InventoryLaws StaticInventorySource source (λ _, True).
Proof.
  split; simpl.
  - intros s n inv _. unfold NodeInventory, NodeCapacity. by repeat case_match; intros; simplify_eq.
  - intros s n e _. unfold NodeInventory, NodeCapacity. repeat case_match; intros; simplify_eq; eauto.
  - intros s ns _ [= <-]. apply sorted_keys_NoDup.
  - intros s ns n inv _ [= <-] Hn. apply elem_of_sorted_keys. unfold NodeInventory in Hn.
    case_decide; [done|]. destruct (s_inv s !! n); eauto; done.
  - intros s ns _ [= <-]. unfold NodeCapacities. f_equal. apply list_omap_ext.
    apply Forall_Forall2_diag, Forall_true. intros n.
    unfold NodeInventory. case_decide; [done|]. by destruct (s_inv s !! n).
Qed.

End Static.
