(* ===== verification/KubeInventory.v ===== *)
(** * The Kubernetes inventory source (pkg/scale/kubeinventory/source.go)

    Informer events rebuild a snapshot of the [NodeInventory] objects; reads
    are answered from the snapshot and drop the nodes whose publish trails the
    newest publish of the fleet by more than the staleness window. *)

From S2P Require Import Prelude GoStd Api Inventory.

(** ** State *)

Definition defaultStaleAfter : Z := (90 * second)%Z.

Record snapshot := mkSnap {
  sp_caps : list NodePools;
  sp_stamps : list Z;
  sp_newest : Z;
  sp_byNode : gmap string NodeInventory;
}.

Record Source := mkSource {
  ks_staleAfter : Z;
  ks_snap : snapshot;
  ks_byNode : gmap string NodeInventory;
}.

(** [New] before the informer delivers anything; a zero option is the default. *)
Definition New (staleAfter : Z) : Source :=
  mkSource (z_or staleAfter defaultStaleAfter) (mkSnap [] [] 0 ∅) ∅.

(** ** Events *)

(** What the informer hands to a handler: an inventory, the tombstone of a
    missed delete, or anything else. *)
Inductive object :=
| ObjInventory (inv : NodeInventory)
| ObjTombstone (obj : object)
| ObjOther.

Definition publishedAt (inv : NodeInventory) : Z :=
  if time_is_zero (ni_PublishedAt inv) then 0 else unix_nano (ni_PublishedAt inv).

Definition node_pools (node : string) (inv : NodeInventory) : NodePools :=
  mkNodePools node (ni_Address inv) (ni_Pools inv) (ni_Templates inv).

(** The names paired with what the map holds for them. *)
Definition named (names : list string) (m : gmap string NodeInventory) : list (string * NodeInventory) :=
  omap (λ n, pair n <$> m !! n) names.

(** The snapshot [publish] assembles from the objects held. *)
Definition build_snapshot (m : gmap string NodeInventory) : snapshot :=
  let invs := named (sorted_keys m) m in
  let stamps := (λ p, publishedAt p.2) <$> invs in
  mkSnap ((λ p, node_pools p.1 p.2) <$> invs) stamps (foldl Z.max 0 stamps)%Z m.

Definition publish (s : Source) : Source :=
  mkSource (ks_staleAfter s) (build_snapshot (ks_byNode s)) (ks_byNode s).

Definition put (obj : object) (s : Source) : Source :=
  match obj with
  | ObjInventory inv => publish (mkSource (ks_staleAfter s) (ks_snap s) (<[ni_ObjName inv := inv]> (ks_byNode s)))
  | _ => s
  end.

Definition drop (obj : object) (s : Source) : Source :=
  match match obj with ObjTombstone o => o | o => o end with
  | ObjInventory inv => publish (mkSource (ks_staleAfter s) (ks_snap s) (delete (ni_ObjName inv) (ks_byNode s)))
  | _ => s
  end.

(** ** Reads, at a clock reading *)

Definition stale (s : Source) (stamp ref : Z) : bool :=
  bool_decide (ks_staleAfter s < int64_wrap (ref - stamp))%Z.

Definition current (s : Source) (now : time) : snapshot * Z :=
  (ks_snap s, Z.min (sp_newest (ks_snap s)) (unix_nano now)).

(** The capacities of the snapshot that are not stale, in snapshot order. *)
Definition fresh_caps (s : Source) (now : time) : list NodePools :=
  let '(snap, ref) := current s now in
  omap (λ '(c, stamp), if stale s stamp ref then None else Some c) (zip (sp_caps snap) (sp_stamps snap)).

Definition ListNodes (s : Source) (now : time) : result (list string) :=
  Ok (nps_Node <$> fresh_caps s now).

Definition NodeCapacities (s : Source) (now : time) : result (list NodePools) :=
  let '(snap, ref) := current s now in
  if negb (contains_func (λ stamp, stale s stamp ref) (sp_stamps snap)) then Ok (sp_caps snap)
  else Ok (fresh_caps s now).

Definition errNoInventory (node : string) : error :=
  ErrWrap "kubeinventory: get node %q inventory" [node] (NewNotFound "nodeinventories" node).
Definition errStale (node : string) : error :=
  ErrWrap "kubeinventory: node %q inventory is stale" [node] (NewNotFound "nodeinventories" node).

Definition get (s : Source) (now : time) (node : string) : result NodeInventory :=
  let '(snap, ref) := current s now in
  match sp_byNode snap !! node with
  | None => Err (errNoInventory node)
  | Some inv => if stale s (publishedAt inv) ref then Err (errStale node) else Ok inv
  end.

Definition NodeInventory (s : Source) (now : time) (node : string) : result NodeInventory := get s now node.

Definition NodeCapacity (s : Source) (now : time) (node : string) : result (string * list PoolCapacity) :=
  match get s now node with
  | Err e => Err e
  | Ok inv => Ok (ni_Address inv, ni_Pools inv)
  end.

#[export] Instance source : InventorySource (Source * time) :=
  {| Inventory.ListNodes := λ w, ListNodes w.1 w.2;
     NodeInventory_of := λ w, NodeInventory w.1 w.2;
     Inventory.NodeCapacity := λ w, NodeCapacity w.1 w.2;
     Inventory.NodeCapacities := λ w, NodeCapacities w.1 w.2 |}.

(** ** Specification *)

(** One informer event. *)
Inductive event := EvPut (obj : object) | EvDrop (obj : object).
Definition handle (e : event) (s : Source) : Source :=
  match e with EvPut o => put o s | EvDrop o => drop o s end.
Definition handle_all (es : list event) (s : Source) : Source := fold_left (λ s e, handle e s) es s.

(** The snapshot is the one of the objects held. *)
Definition synced (s : Source) : Prop := ks_snap s = build_snapshot (ks_byNode s).

(** What the informer's store holds after the events. *)
Definition store_event (e : event) (m : gmap string Api.NodeInventory) : gmap string Api.NodeInventory :=
  match e with
  | EvPut (ObjInventory inv) => <[ni_ObjName inv := inv]> m
  | EvDrop (ObjInventory inv) | EvDrop (ObjTombstone (ObjInventory inv)) => delete (ni_ObjName inv) m
  | _ => m
  end.
Definition store_events (es : list event) : gmap string Api.NodeInventory :=
  fold_left (λ m e, store_event e m) es ∅.

(** Clock values [time.UnixNano] represents, with room for a window. *)
Definition sane (z : Z) : Prop := (0 ≤ z < 2 ^ 62)%Z.

(** ** Lemmas *)

Lemma elem_of_named names m n inv : (n, inv) ∈ named names m ↔ n ∈ names ∧ m !! n = Some inv.
Proof.
  unfold named. rewrite list_elem_of_omap. split.
  - intros (n' & Hn & Hm). destruct (m !! n') eqn:E; simplify_eq/=. done.
  - intros [Hn Hm]. exists n. by rewrite Hm.
Qed.

Lemma named_keys m : (named (sorted_keys m) m).*1 = sorted_keys m.
Proof.
  assert (∀ k, k ∈ sorted_keys m → is_Some (m !! k)) as H by (intros k; apply elem_of_sorted_keys).
  unfold named. induction (sorted_keys m) as [|k ks IH]; [done|]. csimpl.
  destruct (H k) as [inv ->]; [by constructor|]. csimpl. f_equal. apply IH.
  intros k' Hk'. apply H. by constructor.
Qed.

(** The readable part of a synced snapshot: the named inventories, less the stale ones. *)
Definition fresh_invs (s : Source) (now : time) : list (string * Api.NodeInventory) :=
  delete_func (λ p, stale s (publishedAt p.2) (current s now).2) (named (sorted_keys (ks_byNode s)) (ks_byNode s)).

Lemma fresh_caps_eq s now : synced s → fresh_caps s now = (λ p, node_pools p.1 p.2) <$> fresh_invs s now.
Proof.
  intros Hs. unfold fresh_caps, fresh_invs, current. simpl. rewrite Hs. simpl.
  set (ref := Z.min _ _). clearbody ref.
  induction (named _ _) as [|[n inv] l IH]; [done|]. csimpl.
  unfold delete_func in *. csimpl. destruct (stale s (publishedAt inv) ref); csimpl; [done|by f_equal].
Qed.

Lemma fresh_caps_all s now :
  synced s → contains_func (λ stamp, stale s stamp (current s now).2) (sp_stamps (ks_snap s)) = false →
  fresh_caps s now = sp_caps (ks_snap s).
Proof.
  intros Hs Hc. rewrite fresh_caps_eq by done. unfold fresh_invs.
  set (ref := (current s now).2) in *. clearbody ref. rewrite Hs in *. simpl in *. f_equal.
  unfold delete_func. induction (named _ _) as [|[n inv] l IH]; [done|]. csimpl in *.
  apply orb_false_iff in Hc as [Hf Hc]. rewrite Hf. simpl. f_equal. by apply IH.
Qed.

Lemma NodeCapacities_eq s now : synced s → NodeCapacities s now = Ok (fresh_caps s now).
Proof.
  intros Hs. unfold NodeCapacities. destruct (current s now) as [snap ref] eqn:Hc.
  destruct (contains_func _ _) eqn:Hf; [done|]. simpl.
  unfold current in Hc. simplify_eq. by rewrite fresh_caps_all.
Qed.

Lemma get_synced s now n :
  synced s → get s now n =
  match ks_byNode s !! n with
  | None => Err (errNoInventory n)
  | Some inv => if stale s (publishedAt inv) (current s now).2 then Err (errStale n) else Ok inv
  end.
Proof. intros Hs. unfold get, current. simpl. by rewrite Hs. Qed.

Lemma elem_of_fresh_invs s now n inv :
  synced s → (n, inv) ∈ fresh_invs s now ↔ get s now n = Ok inv.
Proof.
  intros Hs. unfold fresh_invs. rewrite elem_of_delete_func, elem_of_named, get_synced by done. simpl.
  rewrite elem_of_sorted_keys. destruct (ks_byNode s !! n) as [inv'|].
  - destruct (stale s (publishedAt inv') _) eqn:E; split; intros Hx; destruct_and?; simplify_eq; eauto.
    by rewrite E in *.
  - split; [by intros [[_ ?] _]|done].
Qed.

Lemma fresh_invs_NoDup s now : NoDup (fresh_invs s now).*1.
Proof.
  eapply sublist_NoDup; [apply (sorted_keys_NoDup (ks_byNode s))|].
  rewrite <-named_keys. apply fmap_sublist. unfold fresh_invs, delete_func.
  induction (named _ _) as [|p l IH]; simpl; [constructor|].
  destruct (negb _); by constructor.
Qed.

Lemma synced_handle e s : synced s → synced (handle e s).
Proof. intros H. destruct e as [o|o]; destruct o as [inv|o|]; simpl; try done. by destruct o. Qed.

Lemma synced_handle_all es s : synced s → synced (handle_all es s).
Proof. revert s. induction es as [|e es IH]; intros s H; [done|]. by apply IH, synced_handle. Qed.

Lemma handle_all_stale es s : ks_staleAfter (handle_all es s) = ks_staleAfter s.
Proof.
  revert s. induction es as [|e es IH]; intros s; [done|]. simpl. rewrite IH.
  destruct e as [o|o]; destruct o as [inv|o|]; simpl; try done. by destruct o.
Qed.

Lemma handle_store e s : ks_byNode (handle e s) = store_event e (ks_byNode s).
Proof. destruct e as [o|o]; destruct o as [inv|o|]; simpl; try done. by destruct o. Qed.

Lemma handle_all_store staleAfter es : ks_byNode (handle_all es (New staleAfter)) = store_events es.
Proof.
  unfold store_events, handle_all. assert (ks_byNode (New staleAfter) = ∅) as Hn by done.
  revert Hn. generalize (New staleAfter), (∅ : gmap string Api.NodeInventory).
  induction es as [|e es IH]; intros s m Hm; [done|]. simpl. apply IH. by rewrite handle_store, Hm.
Qed.

(** A synced source meets the contract of the interface at every clock reading. *)
#[export] Instance laws : InventoryLaws (Source * time) source (λ w, synced w.1).
Proof.
  split; simpl.
  - intros [s now] n inv Hs. unfold NodeInventory, NodeCapacity. simpl. by intros ->.
  - intros [s now] n e Hs. unfold NodeInventory, NodeCapacity. simpl. intros ->. eauto.
  - intros [s now] ns Hs [= <-]. simpl in *. rewrite fresh_caps_eq by done.
    rewrite <-list_fmap_compose. apply fresh_invs_NoDup.
  - intros [s now] ns n inv Hs [= <-] Hn. simpl in *. rewrite fresh_caps_eq by done.
    rewrite <-list_fmap_compose. apply list_elem_of_fmap. exists (n, inv). split; [done|]. by apply elem_of_fresh_invs.
  - intros [s now] ns Hs [= <-]. simpl in *. rewrite NodeCapacities_eq, fresh_caps_eq by done. f_equal.
    assert (∀ p, p ∈ fresh_invs s now → NodeInventory s now p.1 = Ok p.2) as Hg.
    { intros [n inv] Hp. by apply elem_of_fresh_invs. }
    induction (fresh_invs s now) as [|[n inv] l IH]; [done|]. csimpl.
    assert (NodeInventory s now n = Ok inv) as -> by (apply (Hg (n, inv)); constructor). csimpl. f_equal. apply IH. intros p Hp. apply Hg. by constructor.
Qed.

Lemma foldl_max_ge l z : (z ≤ foldl Z.max z l)%Z ∧ ∀ x, x ∈ l → (x ≤ foldl Z.max z l)%Z.
Proof.
  revert z. induction l as [|y l IH]; intros z; simpl.
  - split; [lia|]. intros x Hx. by apply not_elem_of_nil in Hx.
  - destruct (IH (Z.max z y)) as [Hz Hl]. split; [lia|].
    intros x [->|Hx]%elem_of_cons; [lia|by apply Hl].
Qed.

Lemma foldl_max_in l z : foldl Z.max z l = z ∨ foldl Z.max z l ∈ l.
Proof.
  revert z. induction l as [|y l IH]; intros z; simpl; [by left|].
  destruct (IH (Z.max z y)) as [->|H]; [|right; by constructor].
  destruct (Z.max_spec z y) as [[_ ->]|[_ ->]]; [right; constructor|by left].
Qed.

(** The stamp of a node the snapshot holds is at most [newest]. *)
Lemma newest_ge s n inv :
  synced s → ks_byNode s !! n = Some inv → (publishedAt inv ≤ sp_newest (ks_snap s))%Z.
Proof.
  intros Hs Hn. rewrite Hs. simpl. apply foldl_max_ge. apply list_elem_of_fmap.
  exists (n, inv). split; [done|]. apply elem_of_named. rewrite elem_of_sorted_keys. by rewrite Hn.
Qed.

Lemma newest_held s :
  synced s → sp_newest (ks_snap s) = 0%Z ∨ ∃ n inv, ks_byNode s !! n = Some inv ∧ publishedAt inv = sp_newest (ks_snap s).
Proof.
  intros Hs. rewrite Hs. simpl. destruct (foldl_max_in ((λ p, publishedAt p.2) <$> named (sorted_keys (ks_byNode s)) (ks_byNode s)) 0%Z) as [->|H]; [by left|].
  right. apply list_elem_of_fmap in H as ([n inv] & Heq & Hin%elem_of_named). destruct_and?. eauto.
Qed.

(** ** Properties *)


Definition sample_inv (name : string) (published : time) : Api.NodeInventory :=
  mkNodeInventory name name [] "10.0.0.1:7000" [] [] published.


(** Staleness is relative to the fleet, never to this process's clock alone:
    with stamps and clock in range and a window of at least zero, the node with
    the newest publish is always readable, so a pause of every publisher, or a
    clock that runs ahead, never empties a non-empty fleet. *)
Theorem newest_never_stale (staleAfter : Z) (es : list event) (now : time) :
  let s := handle_all es (New staleAfter) in
  (0 ≤ staleAfter)%Z → sane (unix_nano now) →
  (∀ n inv, store_events es !! n = Some inv → sane (publishedAt inv)) →
  store_events es ≠ ∅ →
  ∃ n inv, store_events es !! n = Some inv ∧ NodeInventory s now n = Ok inv ∧
    ∀ n' inv', store_events es !! n' = Some inv' → (publishedAt inv' ≤ publishedAt inv)%Z.
Proof.
  intros s Hst Hnow Hsane Hne.
  assert (synced s) as Hs by (apply synced_handle_all; done).
  assert (ks_byNode s = store_events es) as Hb by apply handle_all_store.
  rewrite <-Hb in *.
  assert (∃ n inv, ks_byNode s !! n = Some inv ∧ publishedAt inv = sp_newest (ks_snap s)) as (n & inv & Hn & Hmax).
  { destruct (newest_held s Hs) as [H0|H]; [|done].
    apply map_choose in Hne as (n & inv & Hn). exists n, inv. split; [done|].
    pose proof (newest_ge s n inv Hs Hn). destruct (Hsane n inv Hn). lia. }
  exists n, inv. split; [done|]. split.
  - unfold NodeInventory. rewrite get_synced, Hn by done. unfold current, stale. simpl.
    destruct (Hsane n inv Hn), Hnow. rewrite bool_decide_eq_false_2; [done|].
    assert (0 ≤ ks_staleAfter s)%Z.
    { unfold s. rewrite handle_all_stale. simpl. unfold z_or, defaultStaleAfter, second. case_decide; lia. }
    rewrite int64_wrap_id by lia. lia.
  - intros n' inv' Hn'. rewrite Hmax. by apply (newest_ge s n').
Qed.

Lemma newest_never_stale_witness :
  ∃ n inv, store_events [EvPut (ObjInventory (sample_inv "a" (1000 * second)%Z))] !! n = Some inv ∧
    NodeInventory (handle_all [EvPut (ObjInventory (sample_inv "a" (1000 * second)%Z))] (New 0)) (5000 * second)%Z n = Ok inv ∧
    ∀ n' inv', store_events [EvPut (ObjInventory (sample_inv "a" (1000 * second)%Z))] !! n' = Some inv' →
      (publishedAt inv' ≤ publishedAt inv)%Z.
Proof.
  apply newest_never_stale; [lia|vm_compute; split; congruence| |].
  - unfold store_events. simpl. intros n inv [[<- <-]|[_ H]]%lookup_insert_Some.
    + vm_compute. split; congruence.
    + by rewrite lookup_empty in H.
  - unfold store_events. simpl. apply insert_non_empty.
Defined.
