(* ===== verification/MeshInventory.v ===== *)
(** * The mesh inventory source (pkg/scale/meshinventory/source.go)

    Every tick asks every member for its info and its sandboxes, keeps a member
    that does not answer for a while, merges members that turn out to be one
    node, and follows the peers the members name.  Reads are answered from the
    snapshot the last tick published.

    A member is dialled by its address, so the reader is not part of the state:
    what a member answers during a tick is the argument [env] of [tick].  Go
    ranges over its maps in an unspecified order, chosen anew by every loop;
    the argument [ord] gives that order, [ord i l] being the order in which
    loop [i] visits the keys [l]. *)

From S2P Require Import Prelude GoStd Api SandboxView Inventory.

(** ** State *)

Definition defaultMaxStale : Z := 3.

Record member := mkMember {
  mb_seed : bool;
  mb_fails : Z;
  mb_inv : option NodeInventory;
}.

Record snapshot := mkSnapshot {
  sp_nodes : list string;
  sp_caps : list NodePools;
  sp_byKey : gmap string NodeInventory;
}.

Record Source := mkSource {
  ms_maxStale : Z;
  ms_members : gmap string member;
  ms_snap : snapshot;
}.

(** What a member replies during one tick, and what [read] makes of it. *)
Record reply := mkReply {
  rp_info : result NodeInfo;
  rp_rows : result (list SandboxSummary);
}.
Record answer := mkAnswer {
  an_inv : result NodeInventory;
  an_peers : list string;
}.

Definition errNoAdvertiseAddr : error := ErrSentinel "meshinventory.errNoAdvertiseAddr".
Definition errUnknownNode : error := ErrSentinel "meshinventory.errUnknownNode".

Definition isUnauthorized (err : error) : bool :=
  match errors_as http_of err with
  | Some (code, _) => bool_decide (code = 401)%Z
  | None => false
  end.

Section mesh.
Context {C : MetadataCodec}.

(** ** One tick *)

Definition read (r : reply) : answer :=
  match rp_info r with
  | Err e => mkAnswer (Err e) []
  | Ok info =>
      if decide (nf_AdvertiseAddr info = "") then mkAnswer (Err errNoAdvertiseAddr) []
      else match rp_rows r with
           | Err e => mkAnswer (Err e) []
           | Ok rows =>
               let key := nf_AdvertiseAddr info in
               mkAnswer (Ok (mkNodeInventory "" key (EntryFromSummary <$> rows) key
                               (PoolCapacityFromInfo info) (TemplatesFromInfo info) zero_time))
                 (nf_Peers info)
           end
  end.

(** The answers of all members, by address. *)
Definition poll (env : string → reply) (ms : gmap string member) : gmap string answer :=
  map_imap (λ addr _, Some (read (env addr))) ms.

Definition answered (answers : gmap string answer) (addr : string) : option NodeInventory :=
  match answers !! addr with
  | Some a => match an_inv a with Ok inv => Some inv | Err _ => None end
  | None => None
  end.

Definition named (answers : gmap string answer) : gset string :=
  map_fold (λ _ a acc, list_to_set (an_peers a) ∪ acc) ∅ answers.

Definition heard (answers : gmap string answer) : bool :=
  bool_decide (map_Exists (λ _ a, is_ok (an_inv a) = true) answers).

(** The first loop: a member that answered is fresh, another fails once more and
    is dropped when it is no seed, nobody names it and it failed too often. *)
Definition age_one (maxStale : Z) (answers : gmap string answer) (addr : string) (m : member) : option member :=
  match answered answers addr with
  | Some inv => Some (mkMember (mb_seed m) 0 (Some inv))
  | None =>
      let fails := (mb_fails m + 1)%Z in
      if negb (mb_seed m) && heard answers && negb (bool_decide (addr ∈ named answers)) && bool_decide (maxStale < fails)%Z
      then None
      else Some (mkMember (mb_seed m) fails (mb_inv m))
  end.
Definition age (maxStale : Z) (answers : gmap string answer) (ms : gmap string member) : gmap string member :=
  map_imap (age_one maxStale answers) ms.

(** The second loop: of the members that answered as one node, one is kept (all
    the seeds among them are). *)
Definition is_seed (ms : gmap string member) (addr : string) : bool :=
  match ms !! addr with Some m => mb_seed m | None => false end.

Definition merge_one (answers : gmap string answer) (st : gmap string member * gmap string string)
    (addr : string) : gmap string member * gmap string string :=
  let '(ms, owner) := st in
  match ms !! addr, answered answers addr with
  | Some m, Some _ =>
      match mb_inv m with
      | None => st
      | Some inv =>
          let key := ni_Node inv in
          match owner !! key with
          | None => (ms, <[key := addr]> owner)
          | Some other =>
              if mb_seed m && is_seed ms other then st
              else if mb_seed m || (negb (is_seed ms other) && bool_decide (addr = key))
              then (delete other ms, <[key := addr]> owner)
              else (delete addr ms, owner)
          end
      end
  | _, _ => st
  end.
Definition merge (order : list string) (answers : gmap string answer) (ms : gmap string member) :
    gmap string member * gmap string string :=
  fold_left (merge_one answers) order (ms, ∅).

(** The third loop: a named peer that is neither a member nor a known node key
    becomes a member. *)
Definition adopt_one (owner : gmap string string) (ms : gmap string member) (addr : string) : gmap string member :=
  match ms !! addr with
  | Some _ => ms
  | None => match owner !! addr with Some _ => ms | None => <[addr := mkMember false 0 None]> ms end
  end.
Definition adopt (order : list string) (owner : gmap string string) (ms : gmap string member) : gmap string member :=
  fold_left (adopt_one owner) order ms.

(** [publish]: per node key the member with the fewest failed ticks, of those
    still within [MaxStale]. *)
Definition best_one (maxStale : Z) (ms : gmap string member) (best : gmap string member) (addr : string) : gmap string member :=
  match ms !! addr with
  | None => best
  | Some m =>
      match mb_inv m with
      | None => best
      | Some inv =>
          if decide (maxStale < mb_fails m)%Z then best
          else match best !! ni_Node inv with
               | Some b => if decide (mb_fails m < mb_fails b)%Z then <[ni_Node inv := m]> best else best
               | None => <[ni_Node inv := m]> best
               end
      end
  end.

Definition node_pools (node : string) (inv : NodeInventory) : NodePools :=
  mkNodePools node (ni_Address inv) (ni_Pools inv) (ni_Templates inv).

Definition build_snapshot (byKey : gmap string NodeInventory) : snapshot :=
  let nodes := sorted_keys byKey in
  mkSnapshot nodes (omap (λ n, node_pools n <$> byKey !! n) nodes) byKey.

Definition publish (maxStale : Z) (order : list string) (ms : gmap string member) : snapshot :=
  build_snapshot (omap mb_inv (fold_left (best_one maxStale ms) order ∅)).

Definition keys {A} (m : gmap string A) : list string := (map_to_list m).*1.

Definition tick (ord : nat → list string → list string) (env : string → reply) (s : Source) :
    gmap string answer * Source :=
  let answers := poll env (ms_members s) in
  let ms := age (ms_maxStale s) answers (ms_members s) in
  let '(ms, owner) := merge (ord 0 (keys ms)) answers ms in
  let ms := adopt (ord 1 (elements (named answers))) owner ms in
  (answers, mkSource (ms_maxStale s) ms (publish (ms_maxStale s) (ord 2 (keys ms)) ms)).

(** ** Construction *)

Definition errRefused (addr : string) (e : error) : error :=
  ErrWrap "meshinventory: seed %s refused the token; GET /v1/info needs the fleet root api_token" [addr] e.

(** What an answer makes of a seed: an error that ends [New], or whether it answered. *)
Definition seed_answer (answers : gmap string answer) (addr : string) : result bool :=
  match an_inv <$> answers !! addr with
  | Some (Err e) =>
      if isUnauthorized e then Err (errRefused addr e)
      else if bool_decide (errNoAdvertiseAddr ∈ unwrap_all e) then Err (ErrWrap "meshinventory: seed %s" [addr] e)
      else Ok false
  | _ => Ok true
  end.

Fixpoint seeds_answered (answers : gmap string answer) (seeds : list string) : result bool :=
  match seeds with
  | [] => Ok false
  | addr :: seeds =>
      match seed_answer answers addr with
      | Err e => Err e
      | Ok a => orb a <$> seeds_answered answers seeds
      end
  end.

(** [New], with the two environments and orders of its one or two ticks. *)
Definition New (ord ord' : nat → list string → list string) (env env' : string → reply)
    (seeds : list string) (maxStale : Z) : result Source :=
  match seeds with
  | [] => Err (ErrText "meshinventory: at least one seed is required" [])
  | first :: _ =>
      let ms := list_to_map ((λ a, (a, mkMember true 0 None)) <$> seeds) in
      let '(answers, s) := tick ord env (mkSource (z_or maxStale defaultMaxStale) ms (mkSnapshot [] [] ∅)) in
      match seeds_answered answers seeds with
      | Err e => Err e
      | Ok false =>
          Err (match an_inv <$> answers !! first with
               | Some (Err e) => ErrWrap "meshinventory: no seed answered" [] e
               | _ => ErrText "meshinventory: no seed answered" []
               end)
      | Ok true =>
          if decide (size ms < size (ms_members s)) then Ok (tick ord' env' s).2 else Ok s
      end
  end.

(** What the loop wakes up on: the ticker, or the end of the context. *)
Inductive wakeup := Woken (ord : nat → list string → list string) (env : string → reply) | Ended.

(** [run]: a tick per wakeup, until the context ends. *)
Fixpoint run (ws : list wakeup) (s : Source) : Source :=
  match ws with
  | Woken ord env :: ws => run ws (tick ord env s).2
  | Ended :: _ | [] => s
  end.
End mesh.

(** ** Reads *)

Definition ListNodes (s : Source) : result (list string) := Ok (sp_nodes (ms_snap s)).
Definition NodeCapacities (s : Source) : result (list NodePools) := Ok (sp_caps (ms_snap s)).
Definition NodeInventory (s : Source) (node : string) : result NodeInventory :=
  match sp_byKey (ms_snap s) !! node with
  | Some inv => Ok inv
  | None => Err (ErrWrap "%w: %s" [node] errUnknownNode)
  end.
Definition NodeCapacity (s : Source) (node : string) : result (string * list PoolCapacity) :=
  match NodeInventory s node with
  | Err e => Err e
  | Ok inv => Ok (ni_Address inv, ni_Pools inv)
  end.

#[export] Instance source : InventorySource Source :=
  {| Inventory.ListNodes := ListNodes; NodeInventory_of := NodeInventory;
     Inventory.NodeCapacity := NodeCapacity; Inventory.NodeCapacities := NodeCapacities |}.

(** ** Specification *)

(** The orders a Go [range] may take. *)
Definition shuffles (ord : nat → list string → list string) : Prop := ∀ i l, ord i l ≡ₚ l.

(** The published snapshot is the one of some map of inventories. *)
Definition built (s : Source) : Prop := ∃ m, ms_snap s = build_snapshot m.

(** A member that may serve node [k]. *)
Definition serves (maxStale : Z) (ms : gmap string member) (a k : string) (m : member) : Prop :=
  ms !! a = Some m ∧ (∃ inv, mb_inv m = Some inv ∧ ni_Node inv = k) ∧ (mb_fails m ≤ maxStale)%Z.

(** What the owner loop has established of the addresses [seen]. *)
Record merged (answers : gmap string answer) (ms1 : gmap string member) (seen : list string)
    (ms : gmap string member) (owner : gmap string string) : Prop := {
  mg_sub : ms ⊆ ms1;
  mg_kept a : a ∉ seen → ms !! a = ms1 !! a;
  mg_owner k a : owner !! k = Some a →
    a ∈ seen ∧ is_Some (ms !! a) ∧ ∃ inv, answered answers a = Some inv ∧ ni_Node inv = k;
  mg_seen a inv : a ∈ seen → is_Some (ms1 !! a) → answered answers a = Some inv → is_Some (owner !! ni_Node inv);
  mg_unique a inv : a ∈ seen → is_Some (ms !! a) → answered answers a = Some inv →
    ∃ o, owner !! ni_Node inv = Some o ∧ (o = a ∨ is_seed ms a = true ∧ is_seed ms o = true);
  mg_gone a m : ms1 !! a = Some m → ms !! a = None →
    mb_seed m = false ∧ is_Some (answered answers a);
}.

(** After [age]: who answered is fresh. *)
Definition aged (answers : gmap string answer) (ms1 : gmap string member) : Prop :=
  ∀ a m inv, ms1 !! a = Some m → answered answers a = Some inv → mb_inv m = Some inv ∧ mb_fails m = 0%Z.

(** ** Lemmas *)

Section lemmas.
Context {C : MetadataCodec}.

Lemma elem_of_keys {A} (m : gmap string A) k : k ∈ keys m ↔ is_Some (m !! k).
Proof.
  unfold keys. rewrite list_elem_of_fmap. split.
  - intros [[k' v] [-> Hin%elem_of_map_to_list]]. eauto.
  - intros [v Hv]. exists (k, v). split; [done|]. by apply elem_of_map_to_list.
Qed.

Lemma keys_NoDup {A} (m : gmap string A) : NoDup (keys m).
Proof. apply NoDup_fst_map_to_list. Qed.

Lemma lookup_age maxStale answers ms a :
  age maxStale answers ms !! a = ms !! a ≫= age_one maxStale answers a.
Proof. apply map_lookup_imap. Qed.

Lemma age_aged maxStale answers ms : aged answers (age maxStale answers ms).
Proof.
  intros a m inv Hm Ha. rewrite lookup_age in Hm. apply bind_Some in Hm as (m0 & _ & Hm).
  unfold age_one in Hm. rewrite Ha in Hm. by simplify_eq.
Qed.

Lemma age_seed maxStale answers ms a :
  is_seed ms a = true → is_seed (age maxStale answers ms) a = true.
Proof.
  unfold is_seed. rewrite lookup_age. destruct (ms !! a) as [m|]; [|done]. simpl.
  unfold age_one. intros ->. by destruct (answered answers a).
Qed.

Lemma is_seed_delete ms a b : a ≠ b → is_seed (delete b ms) a = is_seed ms a.
Proof. intros H. unfold is_seed. by rewrite lookup_delete_ne. Qed.

Lemma is_seed_Some ms a m : ms !! a = Some m → is_seed ms a = mb_seed m.
Proof. unfold is_seed. by intros ->. Qed.

(** One lemma per branch of the loop. *)
Section merge_step.
Context (answers : gmap string answer) (ms1 : gmap string member).
Context (seen : list string) (ms : gmap string member) (owner : gmap string string) (a : string).
Context (Hm : merged answers ms1 seen ms owner) (Hnew : a ∉ seen).

Lemma merged_skip :
  is_Some (ms1 !! a) → answered answers a = None → merged answers ms1 (seen ++ [a]) ms owner.
Proof.
  intros _ Ha. destruct Hm as [H1 H2 H3 H4 H5 H6]. split; auto.
  - intros b [Hb _]%not_elem_of_snoc. auto.
  - intros k b Hk. destruct (H3 k b Hk) as (? & ? & ?). split_and!; auto with go.
  - intros b inv [Hb| ->]%elem_of_snoc; [eauto|congruence].
  - intros b inv [Hb| ->]%elem_of_snoc; [eauto|congruence].
Qed.

Context (m : member) (inv : Api.NodeInventory) (Ha : ms !! a = Some m) (Hans : answered answers a = Some inv).

Lemma merged_keep (o : string) :
  owner !! ni_Node inv = Some o → is_seed ms a = true → is_seed ms o = true →
  merged answers ms1 (seen ++ [a]) ms owner.
Proof.
  intros Ho Hsa Hso. destruct Hm as [H1 H2 H3 H4 H5 H6]. split; auto.
  - intros b [Hb _]%not_elem_of_snoc. auto.
  - intros k b Hk. destruct (H3 k b Hk) as (? & ? & ?). split_and!; auto with go.
  - intros b inv' [Hb| ->]%elem_of_snoc; [eauto|]. intros _ ?; simplify_eq. eauto.
  - intros b inv' [Hb| ->]%elem_of_snoc; [eauto|]. intros _ ?; simplify_eq. eauto.
Qed.

Lemma merged_claim :
  owner !! ni_Node inv = None → merged answers ms1 (seen ++ [a]) ms (<[ni_Node inv := a]> owner).
Proof.
  intros Ho. destruct Hm as [H1 H2 H3 H4 H5 H6]. split; auto.
  - intros b [Hb _]%not_elem_of_snoc. auto.
  - intros k b [[<- <-]|[? Hk]]%lookup_insert_Some.
    + split_and!; eauto with go.
    + destruct (H3 k b Hk) as (? & ? & ?). split_and!; auto with go.
  - intros b inv' Hb Hs1 Hb'. rewrite lookup_insert_is_Some.
    destruct (decide (ni_Node inv = ni_Node inv')) as [|Hne]; [by left|right; split; [done|]].
    apply elem_of_snoc in Hb as [Hb| ->]; [by eapply H4|congruence].
  - intros b inv' Hb Hs Hb'.
    destruct (decide (b = a)) as [->|Hba].
    + simplify_eq. exists a. rewrite lookup_insert_eq. auto.
    + apply elem_of_snoc in Hb as [Hb|?]; [|done].
      destruct (H5 b inv' Hb Hs Hb') as (o & Hko & Hd). exists o. split; [|done].
      rewrite lookup_insert_ne; [done|]. congruence.
Qed.

Lemma merged_take (o : string) :
  owner !! ni_Node inv = Some o → is_seed ms o = false →
  merged answers ms1 (seen ++ [a]) (delete o ms) (<[ni_Node inv := a]> owner).
Proof.
  intros Ho Hso. destruct Hm as [H1 H2 H3 H4 H5 H6].
  destruct (H3 _ _ Ho) as (Hseen & [mo Hmo] & invo & Hao & Hko).
  assert (a ≠ o) as Hne by (intros ->; done).
  split.
  - etrans; [apply delete_subseteq|done].
  - intros b [Hb ?]%not_elem_of_snoc. rewrite lookup_delete_ne; [auto|]. congruence.
  - intros k b [[<- <-]|[Hk' Hk]]%lookup_insert_Some.
    + rewrite lookup_delete_ne by done. split_and!; eauto with go.
    + destruct (H3 k b Hk) as (? & ? & invb & ? & ?). assert (b ≠ o) by congruence.
      rewrite lookup_delete_ne by done. split_and!; eauto with go.
  - intros b inv' Hb Hs1 Hb'. rewrite lookup_insert_is_Some.
    destruct (decide (ni_Node inv = ni_Node inv')) as [|?]; [by left|right; split; [done|]].
    apply elem_of_snoc in Hb as [Hb| ->]; [by eapply H4|congruence].
  - intros b inv' Hb Hs Hb'. destruct (decide (b = o)) as [->|Hbo].
    { rewrite lookup_delete_eq in Hs. by apply is_Some_None in Hs. }
    rewrite lookup_delete_ne in Hs by done. rewrite is_seed_delete by done.
    destruct (decide (b = a)) as [->|Hba].
    + simplify_eq. exists a. rewrite lookup_insert_eq. auto.
    + apply elem_of_snoc in Hb as [Hb|?]; [|done].
      destruct (H5 b inv' Hb Hs Hb') as (o' & Hko' & Hd).
      destruct (decide (ni_Node inv = ni_Node inv')) as [He|He].
      * exfalso. rewrite <-He in Hko'. simplify_eq. destruct Hd as [->|[_ ?]]; congruence.
      * exists o'. rewrite lookup_insert_ne by done. split; [done|].
        assert (o' ≠ o) by (intros ->; destruct (H3 _ _ Hko') as (_ & _ & ? & ? & ?); congruence).
        by rewrite is_seed_delete.
  - intros b mb Hb1 Hb. destruct (decide (b = o)) as [->|Hbo].
    + rewrite (lookup_weaken _ _ _ _ Hmo H1) in Hb1. simplify_eq.
      rewrite (is_seed_Some _ _ _ Hmo) in Hso. eauto.
    + rewrite lookup_delete_ne in Hb by done. by eapply H6.
Qed.

Lemma merged_drop (o : string) :
  owner !! ni_Node inv = Some o → is_seed ms a = false →
  merged answers ms1 (seen ++ [a]) (delete a ms) owner.
Proof.
  intros Ho Hsa. destruct Hm as [H1 H2 H3 H4 H5 H6]. split.
  - etrans; [apply delete_subseteq|done].
  - intros b [Hb ?]%not_elem_of_snoc. rewrite lookup_delete_ne; [auto|]. congruence.
  - intros k b Hk. destruct (H3 k b Hk) as (? & ? & ?). assert (b ≠ a) by congruence.
    rewrite lookup_delete_ne by done. split_and!; auto with go.
  - intros b inv' [Hb| ->]%elem_of_snoc; [eauto|]. intros _ ?; simplify_eq. eauto.
  - intros b inv' Hb Hs Hb'. destruct (decide (b = a)) as [->|Hba].
    { rewrite lookup_delete_eq in Hs. by apply is_Some_None in Hs. }
    rewrite lookup_delete_ne in Hs by done. rewrite is_seed_delete by done.
    apply elem_of_snoc in Hb as [Hb|?]; [|done].
    destruct (H5 b inv' Hb Hs Hb') as (o' & Hko' & Hd). exists o'. split; [done|].
    assert (o' ≠ a) by (intros ->; destruct (H3 _ _ Hko') as (? & _); congruence).
    by rewrite is_seed_delete.
  - intros b mb Hb1 Hb. destruct (decide (b = a)) as [->|Hba].
    + rewrite (lookup_weaken _ _ _ _ Ha H1) in Hb1. simplify_eq.
      rewrite (is_seed_Some _ _ _ Ha) in Hsa. eauto.
    + rewrite lookup_delete_ne in Hb by done. by eapply H6.
Qed.
End merge_step.

Lemma merge_merged answers ms1 order :
  aged answers ms1 → order ≡ₚ keys ms1 →
  merged answers ms1 order (merge order answers ms1).1 (merge order answers ms1).2.
Proof.
  intros Haged Hperm.
  assert (NoDup order) as Hnd by (rewrite Hperm; apply keys_NoDup).
  unfold merge.
  apply (fold_left_inv (merge_one answers) (λ seen st, merged answers ms1 seen st.1 st.2)); simpl.
  { split; try done; try (intros; by apply not_elem_of_nil in H). intros a m ->. done. }
  intros pre a suf [ms owner] Hl Hmg. simpl in *.
  assert (a ∉ pre) as Hnew.
  { rewrite Hl in Hnd. apply NoDup_app in Hnd as (_ & Hd & _). intros Hin. apply (Hd a Hin). constructor. }
  assert (is_Some (ms1 !! a)) as [m1 Hm1].
  { apply elem_of_keys. rewrite <-Hperm, Hl. set_solver. }
  pose proof (mg_kept _ _ _ _ _ Hmg a Hnew) as Hk. rewrite Hm1 in Hk. rewrite Hk.
  destruct (answered answers a) as [inv|] eqn:Hans; [|by apply merged_skip].
  destruct (Haged _ _ _ Hm1 Hans) as [-> _].
  destruct (owner !! ni_Node inv) as [o|] eqn:Ho; [|by eapply merged_claim].
  rewrite <-(is_seed_Some ms a m1) by done.
  destruct (is_seed ms a) eqn:Hsa, (is_seed ms o) eqn:Hso; simpl.
  - by eapply merged_keep.
  - by eapply merged_take.
  - by eapply merged_drop.
  - destruct (bool_decide (a = ni_Node inv)); [by eapply merged_take|by eapply merged_drop].
Qed.

(** The best member per node key after the addresses [seen]. *)
Lemma best_spec maxStale ms order :
  let best := fold_left (best_one maxStale ms) order ∅ in
  (∀ k b, best !! k = Some b → ∃ a, a ∈ order ∧ serves maxStale ms a k b) ∧
  (∀ a k m, a ∈ order → serves maxStale ms a k m → ∃ b, best !! k = Some b ∧ (mb_fails b ≤ mb_fails m)%Z).
Proof.
  apply (fold_left_inv (best_one maxStale ms) (λ seen best,
    (∀ k b, best !! k = Some b → ∃ a, a ∈ seen ∧ serves maxStale ms a k b) ∧
    (∀ a k m, a ∈ seen → serves maxStale ms a k m → ∃ b, best !! k = Some b ∧ (mb_fails b ≤ mb_fails m)%Z))).
  { split; [intros k b Hb; by rewrite lookup_empty in Hb|intros a k m Ha; by apply not_elem_of_nil in Ha]. }
  intros pre a _ best _ [H1 H2]. unfold best_one.
  assert (∀ k b, best !! k = Some b → ∃ a', a' ∈ pre ++ [a] ∧ serves maxStale ms a' k b) as H1'.
  { intros k b (a' & ? & ?)%H1. eauto with go. }
  assert ((∀ k m, serves maxStale ms a k m → ∃ b, best !! k = Some b ∧ (mb_fails b ≤ mb_fails m)%Z) →
    ∀ a' k m, a' ∈ pre ++ [a] → serves maxStale ms a' k m → ∃ b, best !! k = Some b ∧ (mb_fails b ≤ mb_fails m)%Z) as H2'.
  { intros Ha a' k m [Hin| ->]%elem_of_snoc; eauto. }
  destruct (ms !! a) as [m|] eqn:Hm.
  2:{ split; [done|]. apply H2'. intros k m [? _]. congruence. }
  destruct (mb_inv m) as [inv|] eqn:Hinv.
  2:{ split; [done|]. apply H2'. intros k m' (? & (? & ? & _) & _). congruence. }
  destruct (decide (maxStale < mb_fails m)%Z) as [Hs|Hs].
  { split; [done|]. apply H2'. intros k m' (? & _ & ?). simplify_eq. lia. }
  assert (serves maxStale ms a (ni_Node inv) m) as Hserve by (split_and!; eauto; lia).
  assert (∀ best', best' = <[ni_Node inv := m]> best →
    (∀ b, best !! ni_Node inv = Some b → (mb_fails m < mb_fails b)%Z) →
    (∀ k b, best' !! k = Some b → ∃ a', a' ∈ pre ++ [a] ∧ serves maxStale ms a' k b) ∧
    (∀ a' k m', a' ∈ pre ++ [a] → serves maxStale ms a' k m' → ∃ b, best' !! k = Some b ∧ (mb_fails b ≤ mb_fails m')%Z)) as Hins.
  { intros best' -> Hlt. split.
    - intros k b [[<- <-]|[_ Hb]]%lookup_insert_Some; eauto with go.
    - intros a' k m' Hin Hs'. destruct (decide (ni_Node inv = k)) as [<-|Hk].
      + exists m. rewrite lookup_insert_eq. split; [done|].
        apply elem_of_snoc in Hin as [Hin| ->].
        * destruct (H2 _ _ _ Hin Hs') as (b & Hb & ?). specialize (Hlt _ Hb). lia.
        * destruct Hs' as [? _]. simplify_eq. lia.
      + rewrite lookup_insert_ne by done. apply elem_of_snoc in Hin as [Hin| ->]; [eauto|].
        exfalso. destruct Hs' as (? & (? & ? & ?) & _). congruence. }
  destruct (best !! ni_Node inv) as [b|] eqn:Hb.
  - destruct (decide (mb_fails m < mb_fails b)%Z); [apply Hins; [done|by intros ? [= <-]]|].
    split; [done|]. apply H2'. intros k m' (? & (? & ? & ?) & _). simplify_eq. exists b. split; [done|lia].
  - by apply Hins.
Qed.

Lemma publish_spec maxStale ms order k :
  order ≡ₚ keys ms →
  match sp_byKey (publish maxStale order ms) !! k with
  | Some inv => ∃ a m, serves maxStale ms a k m ∧ mb_inv m = Some inv ∧
                 ∀ a' m', serves maxStale ms a' k m' → (mb_fails m ≤ mb_fails m')%Z
  | None => ∀ a m, ¬ serves maxStale ms a k m
  end.
Proof.
  intros Hperm. unfold publish. simpl. rewrite lookup_omap.
  destruct (best_spec maxStale ms order) as [H1 H2]. set (best := fold_left _ _ _) in *. clearbody best.
  assert (∀ a m, serves maxStale ms a k m → a ∈ order) as Hin.
  { intros a m [Ha _]. rewrite Hperm. apply elem_of_keys. eauto. }
  destruct (best !! k) as [b|] eqn:Hb; simpl.
  - destruct (H1 _ _ Hb) as (a & _ & Hs). pose proof Hs as (_ & (inv & Hinv & _) & _). rewrite Hinv.
    exists a, b. split_and!; [done..|]. intros a' m' Hs'.
    destruct (H2 a' k m') as (b' & ? & ?); [by eapply Hin|done|]. by simplify_eq.
  - intros a m Hs. destruct (H2 a k m) as (b & ? & _); [by eapply Hin|done|congruence].
Qed.

(** What the adoption of named peers leaves: every member there was, and fresh
    members, which serve nothing. *)
Lemma adopt_spec order owner ms a m :
  (ms !! a = Some m → adopt order owner ms !! a = Some m) ∧
  (adopt order owner ms !! a = Some m → ms !! a = Some m ∨ ms !! a = None ∧ m = mkMember false 0 None ∧ owner !! a = None).
Proof.
  unfold adopt. revert m. apply (fold_left_inv (adopt_one owner) (λ _ ms', ∀ m,
    (ms !! a = Some m → ms' !! a = Some m) ∧
    (ms' !! a = Some m → ms !! a = Some m ∨ ms !! a = None ∧ m = mkMember false 0 None ∧ owner !! a = None))); [auto|].
  intros _ x _ ms' _ IH m. destruct (IH m) as [IH1 IH2]. unfold adopt_one.
  destruct (ms' !! x) eqn:Hx; [done|]. destruct (owner !! x) eqn:Hox; [done|].
  destruct (decide (x = a)) as [->|Hne]; [|by rewrite lookup_insert_ne].
  rewrite lookup_insert_eq. split.
  - intros Hm. apply IH1 in Hm. congruence.
  - intros [= <-]. right. split_and!; try done. destruct (ms !! a) as [m'|] eqn:Hm'; [|done].
    destruct (IH m') as [IH1' _]. rewrite IH1' in Hx; done.
Qed.

(** The members between the loops of a tick. *)
Definition aged_members (env : string → reply) (s : Source) : gmap string member :=
  age (ms_maxStale s) (poll env (ms_members s)) (ms_members s).

Section one_tick.
Context (ord : nat → list string → list string) (Hord : shuffles ord).
Context (env : string → reply) (s : Source).

Lemma tick_answers : (tick ord env s).1 = poll env (ms_members s).
Proof. unfold tick. by destruct (merge _ _ _). Qed.

Lemma tick_maxStale : ms_maxStale (tick ord env s).2 = ms_maxStale s.
Proof. unfold tick. by destruct (merge _ _ _). Qed.

Lemma tick_merged :
  ∃ ms2 owner, merged (poll env (ms_members s)) (aged_members env s) (ord 0 (keys (aged_members env s))) ms2 owner ∧
    ms_members (tick ord env s).2 = adopt (ord 1 (elements (named (poll env (ms_members s))))) owner ms2.
Proof.
  unfold tick. fold (aged_members env s).
  destruct (merge _ _ _) as [ms2 owner] eqn:Hm. exists ms2, owner. split; [|done].
  pose proof (merge_merged (poll env (ms_members s)) (aged_members env s) (ord 0 (keys (aged_members env s)))
    (age_aged _ _ _) (Hord _ _)) as H. by rewrite Hm in H.
Qed.

Lemma tick_snap :
  ms_snap (tick ord env s).2 =
  publish (ms_maxStale s) (ord 2 (keys (ms_members (tick ord env s).2))) (ms_members (tick ord env s).2).
Proof. unfold tick. by destruct (merge _ _ _). Qed.

(** A member after the tick was there after [age], or is fresh. *)
Lemma tick_member_origin a m :
  ms_members (tick ord env s).2 !! a = Some m → aged_members env s !! a = Some m ∨ m = mkMember false 0 None.
Proof.
  destruct tick_merged as (ms2 & owner & Hmg & ->). intros Ha.
  apply adopt_spec in Ha as [Ha|(_ & -> & _)]; [left|by right]. eapply lookup_weaken; [done|apply Hmg].
Qed.

(** A member that did not answer is only dropped by [age]. *)
Lemma tick_member_silent a m :
  aged_members env s !! a = Some m → answered (poll env (ms_members s)) a = None →
  ms_members (tick ord env s).2 !! a = Some m.
Proof.
  destruct tick_merged as (ms2 & owner & Hmg & ->). intros Ha Hans. apply adopt_spec.
  destruct (ms2 !! a) as [m'|] eqn:Hm2.
  - rewrite (lookup_weaken _ _ _ _ Hm2 (mg_sub _ _ _ _ _ Hmg)) in Ha. congruence.
  - destruct (mg_gone _ _ _ _ _ Hmg a m Ha Hm2) as [_ [? ?]]. congruence.
Qed.

(** A node that answered has an owner among the members, which answered too. *)
Lemma tick_member_owner a m inv :
  ms_members s !! a = Some m → answered (poll env (ms_members s)) a = Some inv →
  ∃ o invo, ms_members (tick ord env s).2 !! o = Some (mkMember (is_seed (ms_members s) o) 0 (Some invo)) ∧
    answered (poll env (ms_members s)) o = Some invo ∧ ni_Node invo = ni_Node inv.
Proof.
  destruct tick_merged as (ms2 & owner & Hmg & ->). intros Ha Hans.
  assert (∀ b mb invb, ms_members s !! b = Some mb → answered (poll env (ms_members s)) b = Some invb →
    aged_members env s !! b = Some (mkMember (mb_seed mb) 0 (Some invb))) as Haged.
  { intros b mb invb Hb Hb'. unfold aged_members. rewrite lookup_age, Hb. simpl. unfold age_one. by rewrite Hb'. }
  destruct (mg_seen _ _ _ _ _ Hmg a inv) as [o Ho]; [|by rewrite (Haged a m inv)|done|].
  { rewrite (Hord 0). apply elem_of_keys. by rewrite (Haged a m inv). }
  destruct (mg_owner _ _ _ _ _ Hmg _ _ Ho) as (_ & [mo Hmo] & invo & Hoa & Hok).
  exists o, invo. split_and!; [|done..]. apply adopt_spec. rewrite Hmo. f_equal.
  pose proof (lookup_weaken _ _ _ _ Hmo (mg_sub _ _ _ _ _ Hmg)) as Hmo1.
  pose proof Hmo1 as Hmo2. unfold aged_members in Hmo2. rewrite lookup_age in Hmo2.
  apply bind_Some in Hmo2 as (mo0 & Hmo0 & _). rewrite (Haged o mo0 invo Hmo0 Hoa) in Hmo1.
  simplify_eq. by rewrite (is_seed_Some _ _ _ Hmo0).
Qed.

Lemma tick_seed a : is_seed (ms_members s) a = true → is_seed (ms_members (tick ord env s).2) a = true.
Proof.
  destruct tick_merged as (ms2 & owner & Hmg & ->). intros Ha.
  apply (age_seed (ms_maxStale s) (poll env (ms_members s))) in Ha. fold (aged_members env s) in Ha.
  unfold is_seed in *. destruct (aged_members env s !! a) as [m|] eqn:Hm; [|done].
  destruct (ms2 !! a) as [m'|] eqn:Hm2.
  - rewrite (lookup_weaken _ _ _ _ Hm2 (mg_sub _ _ _ _ _ Hmg)) in Hm. simplify_eq.
    destruct (adopt_spec (ord 1 (elements (named (poll env (ms_members s))))) owner ms2 a m) as [H _].
    by rewrite (H Hm2).
  - destruct (mg_gone _ _ _ _ _ Hmg a m Hm Hm2) as [? _]. congruence.
Qed.
End one_tick.

(** Failure counts never go negative. *)
Definition wf (s : Source) : Prop := map_Forall (λ _ m, 0 ≤ mb_fails m)%Z (ms_members s).

(** A member after [age]: fresh with this tick's answer, or one failure older. *)
Lemma aged_member env s a m :
  aged_members env s !! a = Some m →
  ∃ m0, ms_members s !! a = Some m0 ∧ mb_seed m = mb_seed m0 ∧
    match answered (poll env (ms_members s)) a with
    | Some inv => mb_fails m = 0%Z ∧ mb_inv m = Some inv
    | None => mb_fails m = (mb_fails m0 + 1)%Z ∧ mb_inv m = mb_inv m0
    end.
Proof.
  unfold aged_members. rewrite lookup_age. intros (m0 & Hm0 & Hm)%bind_Some. exists m0. split; [done|].
  unfold age_one in Hm. destruct (answered _ a); simplify_eq/=; [auto|]. destruct (_ && _); by simplify_eq.
Qed.

Lemma wf_tick ord env s : shuffles ord → wf s → wf (tick ord env s).2.
Proof.
  intros Hord Hwf a m Hm. apply (tick_member_origin ord Hord) in Hm as [Hm| ->]; [|done].
  apply aged_member in Hm as (m0 & Hm0 & _ & Hm). specialize (Hwf _ _ Hm0). simpl in Hwf.
  destruct (answered _ a); destruct_and!; lia.
Qed.

Lemma built_tick ord env s : built (tick ord env s).2.
Proof. unfold built. rewrite tick_snap. by eexists. Qed.

Lemma NodeInventory_tick ord env s k : shuffles ord →
  let ms := ms_members (tick ord env s).2 in
  match NodeInventory (tick ord env s).2 k with
  | Ok inv => ∃ a m, serves (ms_maxStale s) ms a k m ∧ mb_inv m = Some inv ∧
                 ∀ a' m', serves (ms_maxStale s) ms a' k m' → (mb_fails m ≤ mb_fails m')%Z
  | Err _ => ∀ a m, ¬ serves (ms_maxStale s) ms a k m
  end.
Proof.
  intros Hord ms. unfold NodeInventory. rewrite tick_snap. fold ms.
  pose proof (publish_spec (ms_maxStale s) ms (ord 2 (keys ms)) k (Hord 2 (keys ms))) as Hp.
  by destruct (sp_byKey _ !! k).
Qed.

(** A member holding an inventory with no failed tick answered in this tick. *)
Lemma fresh_answered ord env s a m inv :
  shuffles ord → wf s → ms_members (tick ord env s).2 !! a = Some m → mb_inv m = Some inv →
  (mb_fails m ≤ 0)%Z → answered (poll env (ms_members s)) a = Some inv.
Proof.
  intros Hord Hwf Hm Hinv Hf. apply (tick_member_origin ord Hord) in Hm as [Hm| ->]; [|done].
  apply aged_member in Hm as (m0 & Hm0 & _ & Hm). specialize (Hwf _ _ Hm0). simpl in Hwf.
  destruct (answered _ a); destruct_and!; simplify_eq; [congruence|lia].
Qed.
End lemmas.

(** A built snapshot meets the contract of the interface. *)
#[export] Instance laws : InventoryLaws Source source built.
Proof.
  split; simpl.
  - intros s n inv _. unfold NodeCapacity. by intros ->.
  - intros s n e _. unfold NodeCapacity. intros ->. eauto.
  - intros s ns [m Hm] [= <-]. rewrite Hm. apply sorted_keys_NoDup.
  - intros s ns n inv [m Hm] [= <-] Hn. unfold NodeInventory in Hn. rewrite Hm in *. simpl in *.
    apply elem_of_sorted_keys. destruct (m !! n); eauto; done.
  - intros s ns [m Hm] [= <-]. unfold NodeCapacities, NodeInventory. rewrite Hm. simpl. f_equal.
    apply list_omap_ext, Forall_Forall2_diag, Forall_true. intros n. by destruct (m !! n).
Qed.

(** ** Properties *)

Section properties.
Context {C : MetadataCodec}.

(** C38: what one tick publishes, whatever order the loops take: every node that
    answered is served, with an inventory some member answered in this very tick;
    a node whose member failed at most [MaxStale] ticks in a row is still served;
    and whatever is served is one of the two, under its own node key. *)
Theorem tick_serves (ord : nat → list string → list string) (env : string → reply) (s : Source) :
  shuffles ord → wf s → (0 ≤ ms_maxStale s)%Z →
  let answers := poll env (ms_members s) in
  let s' := (tick ord env s).2 in
  (∀ a inv, answered answers a = Some inv →
     ∃ o inv', NodeInventory s' (ni_Node inv) = Ok inv' ∧ answered answers o = Some inv' ∧ ni_Node inv' = ni_Node inv) ∧
  (∀ a m inv, ms_members s !! a = Some m → mb_inv m = Some inv → answered answers a = None →
     (mb_fails m + 1 ≤ ms_maxStale s)%Z → is_ok (NodeInventory s' (ni_Node inv)) = true) ∧
  (∀ k inv, NodeInventory s' k = Ok inv → ni_Node inv = k ∧ ∃ a,
     answered answers a = Some inv ∨
     answered answers a = None ∧ ∃ m, ms_members s !! a = Some m ∧ mb_inv m = Some inv ∧ (mb_fails m + 1 ≤ ms_maxStale s)%Z).
Proof.
  intros Hord Hwf Hmax answers s'. split_and!.
  - intros a inv Ha.
    assert (∃ m, ms_members s !! a = Some m) as [m Hm].
    { unfold answered, answers, poll in Ha. rewrite map_lookup_imap in Ha. by destruct (ms_members s !! a); eauto. }
    destruct (tick_member_owner ord Hord env s a m inv Hm Ha) as (o & invo & Ho & _ & Hk).
    pose proof (NodeInventory_tick ord env s (ni_Node inv) Hord) as Hn. fold s' in Hn.
    assert (serves (ms_maxStale s) (ms_members s') o (ni_Node inv) (mkMember (is_seed (ms_members s) o) 0 (Some invo))) as Hs
      by (split_and!; eauto).
    destruct (NodeInventory s' (ni_Node inv)) as [inv'|]; [|by destruct (Hn _ _ Hs)].
    destruct Hn as (b & mb & (Hb & (i2 & Hi2 & Hk2) & _) & Hinv & Hmin). specialize (Hmin _ _ Hs).
    rewrite Hi2 in Hinv. injection Hinv as ->.
    exists b, inv'. split_and!; [done| |congruence]. by eapply fresh_answered.
  - intros a m inv Hm Hinv Ha Hf.
    pose proof (NodeInventory_tick ord env s (ni_Node inv) Hord) as Hn. fold s' in Hn.
    destruct (NodeInventory s' (ni_Node inv)); [done|]. exfalso.
    apply (Hn a (mkMember (mb_seed m) (mb_fails m + 1) (Some inv))). split_and!; eauto.
    apply (tick_member_silent ord Hord); [|done].
    unfold aged_members. rewrite lookup_age, Hm. simpl. unfold age_one. fold answers. rewrite Ha, Hinv.
    by rewrite (bool_decide_eq_false_2 (ms_maxStale s < mb_fails m + 1)%Z) by lia; rewrite andb_false_r.
  - intros k inv Hk. pose proof (NodeInventory_tick ord env s k Hord) as Hn. fold s' in Hn. rewrite Hk in Hn.
    destruct Hn as (a & m & (Hm & (i2 & Hi2 & Hk2) & Hle) & Hinv & _).
    rewrite Hi2 in Hinv. injection Hinv as ->. split; [done|]. exists a.
    apply (tick_member_origin ord Hord) in Hm as [Hm| ->]; [|done].
    apply aged_member in Hm as (m0 & Hm0 & _ & Hm). fold answers in Hm.
    destruct (answered answers a); destruct_and!; [left; congruence|right].
    split; [done|]. exists m0. split_and!; [done|congruence|lia].
Qed.

(** A tick never drops a seed, and leaves at most one member holding a fresh
    inventory of a node unless they are all seeds. *)
Theorem tick_members (ord : nat → list string → list string) (env : string → reply) (s : Source) :
  shuffles ord → wf s →
  let s' := (tick ord env s).2 in
  (∀ a, is_seed (ms_members s) a = true → is_seed (ms_members s') a = true) ∧
  (∀ a b m m' inv inv', a ≠ b →
     ms_members s' !! a = Some m → mb_inv m = Some inv → mb_fails m = 0%Z →
     ms_members s' !! b = Some m' → mb_inv m' = Some inv' → mb_fails m' = 0%Z →
     ni_Node inv = ni_Node inv' → mb_seed m = true ∧ mb_seed m' = true).
Proof.
  intros Hord Hwf s'. split; [intros a; by apply tick_seed|].
  intros a b m m' inv inv' Hne Ha Hia Hfa Hb Hib Hfb Hk.
  pose proof (fresh_answered ord env s a m inv Hord Hwf Ha Hia) as Hansa. rewrite Hfa in Hansa. specialize (Hansa (Z.le_refl _)).
  pose proof (fresh_answered ord env s b m' inv' Hord Hwf Hb Hib) as Hansb. rewrite Hfb in Hansb. specialize (Hansb (Z.le_refl _)).
  destruct (tick_merged ord Hord env s) as (ms2 & owner & Hmg & Hms). unfold s' in *. rewrite Hms in *.
  apply adopt_spec in Ha as [Ha|(_ & -> & _)]; [|done]. apply adopt_spec in Hb as [Hb|(_ & -> & _)]; [|done].
  assert (∀ x mx, ms2 !! x = Some mx → x ∈ ord 0 (keys (aged_members env s))) as Hin.
  { intros x mx Hx. rewrite (Hord 0). apply elem_of_keys. eexists. eapply lookup_weaken; [done|apply Hmg]. }
  destruct (mg_unique _ _ _ _ _ Hmg a inv) as (o & Ho & Hoa); [by eapply Hin|eauto|done|].
  destruct (mg_unique _ _ _ _ _ Hmg b inv') as (o' & Ho' & Hob); [by eapply Hin|eauto|done|].
  rewrite Hk in Ho. simplify_eq. rewrite (is_seed_Some _ _ _ Ha) in Hoa. rewrite (is_seed_Some _ _ _ Hb) in Hob.
  destruct Hoa as [->|[? ?]], Hob as [->|[? ?]]; simplify_eq; try done;
    rewrite ?(is_seed_Some _ _ _ Ha), ?(is_seed_Some _ _ _ Hb) in *; auto.
Qed.

(** Consecutive ticks, and node [k] answering in none of them. *)
Fixpoint ticks (ts : list ((nat → list string → list string) * (string → reply))) (s : Source) : Source :=
  match ts with
  | [] => s
  | (ord, env) :: ts => ticks ts (tick ord env s).2
  end.
Fixpoint silent (k : string) (ts : list ((nat → list string → list string) * (string → reply))) (s : Source) : Prop :=
  match ts with
  | [] => True
  | (ord, env) :: ts =>
      shuffles ord ∧ (∀ a inv, answered (poll env (ms_members s)) a = Some inv → ni_Node inv ≠ k) ∧
      silent k ts (tick ord env s).2
  end.

(** an unreachable node is forgotten: after more than [MaxStale] ticks in a
    row (at least one) in which no member answered as node [k], [k] is not served. *)
Theorem silent_node_expires (k : string) (ts : list ((nat → list string → list string) * (string → reply))) (s : Source) :
  wf s → silent k ts s → ts ≠ [] → (ms_maxStale s < Z.of_nat (length ts))%Z →
  is_ok (NodeInventory (ticks ts s) k) = false.
Proof.
  assert (∀ ts s j, wf s → silent k ts s → ts ≠ [] →
    map_Forall (λ _ m, ∀ inv, mb_inv m = Some inv → ni_Node inv = k → (j ≤ mb_fails m)%Z) (ms_members s) →
    (ms_maxStale s < j + Z.of_nat (length ts))%Z → is_ok (NodeInventory (ticks ts s) k) = false) as H.
  2:{ intros Hwf Hs Hne Hlt. apply (H ts s 0%Z); try done. intros a m Hm _ _ _. by apply (Hwf a m). }
  clear ts s. induction ts as [|[ord env] ts IH]; intros s j Hwf Hs Hne Hj Hlt; [done|].
  destruct Hs as (Hord & Hsil & Hs). simpl in *.
  assert (map_Forall (λ _ m, ∀ inv, mb_inv m = Some inv → ni_Node inv = k → (j + 1 ≤ mb_fails m)%Z)
    (ms_members (tick ord env s).2)) as Hj'.
  { intros a m Hm inv Hinv Hk. apply (tick_member_origin ord Hord) in Hm as [Hm| ->]; [|done].
    apply aged_member in Hm as (m0 & Hm0 & _ & Hm).
    destruct (answered _ a) eqn:Ha; destruct_and!; simplify_eq; [by destruct (Hsil _ _ Ha); congruence|].
    specialize (Hj _ _ Hm0 inv). simpl in Hj. assert (j ≤ mb_fails m0)%Z by (apply Hj; [congruence|done]). lia. }
  destruct ts as [|t ts].
  - simpl in *. pose proof (NodeInventory_tick ord env s k Hord) as Hn.
    destruct (NodeInventory _ k) as [inv|]; [|done]. exfalso.
    destruct Hn as (a & m & (Hm & (inv' & Hinv' & Hk) & Hle) & _). specialize (Hj' _ _ Hm inv' Hinv' Hk). lia.
  - apply (IH _ (j + 1)%Z); [by apply wf_tick|done|done|done|]. rewrite tick_maxStale. simpl in *. lia.
Qed.

Lemma seeds_answered_spec answers seeds :
  (∀ b, seeds_answered answers seeds = Ok b →
     (∀ a, a ∈ seeds → is_ok (seed_answer answers a) = true) ∧
     (b = true ↔ ∃ a, a ∈ seeds ∧ seed_answer answers a = Ok true)) ∧
  (∀ e, seeds_answered answers seeds = Err e → ∃ a, a ∈ seeds ∧ seed_answer answers a = Err e).
Proof.
  induction seeds as [|a seeds [IH1 IH2]]; simpl.
  - split; [|done]. intros b [= <-]. split; [intros a Ha; by apply not_elem_of_nil in Ha|].
    split; [done|]. intros (a & Ha & _). by apply not_elem_of_nil in Ha.
  - destruct (seed_answer answers a) as [b0|e0] eqn:Ha; simpl.
    2:{ split; [done|]. intros e [= <-]. exists a. split; [constructor|done]. }
    destruct (seeds_answered answers seeds) as [b1|e1]; simpl.
    2:{ split; [done|]. intros e [= <-]. destruct (IH2 e1) as (a' & ? & ?); [done|]. exists a'. split; [by constructor|done]. }
    split; [|done]. intros b [= <-]. destruct (IH1 b1) as [Hall Hex]; [done|]. split.
    + intros a' [->|Hin]%elem_of_cons; [by rewrite Ha|by apply Hall].
    + rewrite orb_true_iff, Hex. split.
      * intros [->|(a' & ? & ?)]; [exists a; split; [constructor|done]|exists a'; split; [by constructor|done]].
      * intros (a' & [->|Hin]%elem_of_cons & Ha'); [left; congruence|right; eauto].
Qed.

(** A seed is acceptable when it answers, or fails for another reason than a
    refused token or a missing advertise address. *)
Definition refuses (a : answer) : bool :=
  match an_inv a with
  | Err e => isUnauthorized e || bool_decide (errNoAdvertiseAddr ∈ unwrap_all e)
  | Ok _ => false
  end.

(** [New] succeeds exactly when there is a seed, some seed answers its first
    poll, and no seed refuses the token or reports no advertise address; then
    every seed is a member of the source it returns. *)
Theorem New_spec (ord ord' : nat → list string → list string) (env env' : string → reply)
    (seeds : list string) (maxStale : Z) :
  shuffles ord → shuffles ord' →
  (is_ok (New ord ord' env env' seeds maxStale) = true ↔
     (∃ a, a ∈ seeds ∧ is_ok (an_inv (read (env a))) = true) ∧
     (∀ a, a ∈ seeds → refuses (read (env a)) = false)) ∧
  (∀ s, New ord ord' env env' seeds maxStale = Ok s →
     ms_maxStale s = z_or maxStale defaultMaxStale ∧ ∀ a, a ∈ seeds → is_seed (ms_members s) a = true).
Proof.
  intros Hord Hord'. unfold New. destruct seeds as [|first rest].
  { split; [|done]. split; [done|]. intros ((a & Ha & _) & _). by apply not_elem_of_nil in Ha. }
  set (seeds := first :: rest). set (ms := list_to_map _).
  set (s0 := mkSource (z_or maxStale defaultMaxStale) ms (mkSnapshot [] [] ∅)).
  assert (∀ a, a ∈ seeds → ms !! a = Some (mkMember true 0 None)) as Hms.
  { intros a Ha. unfold ms. clearbody seeds. clear -Ha. induction seeds as [|b seeds IH]; [by apply not_elem_of_nil in Ha|].
    csimpl. destruct (decide (b = a)) as [->|Hne]; [by rewrite lookup_insert_eq|].
    rewrite lookup_insert_ne by done. apply IH. by apply elem_of_cons in Ha as [->|?]. }
  pose proof (tick_answers ord env s0) as Hans. pose proof (tick_maxStale ord env s0) as Hmax.
  pose proof (tick_seed ord Hord env s0) as Hseed.
  destruct (tick ord env s0) as [answers s]. simpl in Hans, Hmax, Hseed. subst answers.
  assert (∀ a, a ∈ seeds → poll env ms !! a = Some (read (env a))) as Hpoll.
  { intros a Ha. unfold poll. by rewrite map_lookup_imap, Hms. }
  assert (∀ a, a ∈ seeds → (is_ok (seed_answer (poll env ms) a) = true ↔ refuses (read (env a)) = false) ∧
    (seed_answer (poll env ms) a = Ok true ↔ is_ok (an_inv (read (env a))) = true)) as Hsa.
  { intros a Ha. unfold seed_answer, refuses. rewrite (Hpoll a Ha). simpl.
    destruct (an_inv (read (env a))) as [|e]; [done|]. simpl.
    destruct (isUnauthorized e), (bool_decide _); done. }
  destruct (seeds_answered_spec (poll env ms) seeds) as [Hok Herr].
  destruct (seeds_answered (poll env ms) seeds) as [b|e] eqn:Hsd; split.
  - destruct (Hok b eq_refl) as [Hall Hex].
    transitivity (b = true).
    { destruct b; [|done]. by destruct (decide _). }
    rewrite Hex. split.
    + intros (a & Ha & Hv). split; [exists a; split; [done|by apply Hsa]|].
      intros a' Ha'. apply (proj1 (Hsa a' Ha')), Hall, Ha'.
    + intros [(a & Ha & Hv) _]. exists a. split; [done|by apply Hsa].
  - destruct b; [|done]. intros s1 Hs1. destruct (decide _) as [Hlt|_]; simplify_eq.
    + split; [by rewrite tick_maxStale|]. intros a Ha. apply (tick_seed ord' Hord'), Hseed.
      unfold is_seed. simpl. by rewrite Hms.
    + split; [done|]. intros a Ha. apply Hseed. unfold is_seed. simpl. by rewrite Hms.
  - split; [done|]. intros [_ Hall]. destruct (Herr e eq_refl) as (a & Ha & He).
    destruct (Hsa a Ha) as [H1 _]. rewrite He in H1. simpl in H1.
    specialize (Hall a Ha). apply H1 in Hall. done.
  - done.
Qed.

Lemma New_built ord ord' env env' seeds maxStale s : shuffles ord → shuffles ord' → New ord ord' env env' seeds maxStale = Ok s → built s ∧ wf s.
Proof.
  intros Hord Hord'. unfold New. destruct seeds as [|first rest]; [done|]. set (seeds := first :: rest). set (ms := list_to_map _).
  set (s0 := mkSource (z_or maxStale defaultMaxStale) ms (mkSnapshot [] [] ∅)).
  assert (wf s0) as Hwf.
  { intros a m Hm. unfold s0, ms in Hm. cbn [ms_members] in Hm. apply elem_of_list_to_map_2 in Hm. apply list_elem_of_fmap in Hm as (b & [= -> ->] & _). done. }
  pose proof (wf_tick ord env s0 Hord Hwf) as Hwf1. pose proof (built_tick ord env s0) as Hb1.
  destruct (tick ord env s0) as [answers s1]. cbn [snd] in Hwf1, Hb1.
  destruct (seeds_answered answers seeds) as [[]|e]; [|done|done].
  destruct (decide _); intros [= <-]; [|done]. split; [apply built_tick|by apply wf_tick].
Qed.

(** the poller keeps what New established: after any wakeups, whatever the members
    answer, the source meets the contract of an inventory, every seed is still a
    member, the staleness bound is the one configured, and nothing changes once the
    context has ended. *)
Theorem run_keeps (ord ord' : nat → list string → list string) (env env' : string → reply) (seeds : list string) (maxStale : Z)
    (ws ws' : list wakeup) (s : Source) :
  shuffles ord → shuffles ord' → Forall (λ w, match w with Woken ord _ => shuffles ord | Ended => True end) ws →
  New ord ord' env env' seeds maxStale = Ok s →
  built (run ws s) ∧ wf (run ws s) ∧ ms_maxStale (run ws s) = z_or maxStale defaultMaxStale ∧
  (∀ a, a ∈ seeds → is_seed (ms_members (run ws s)) a = true) ∧
  run (ws ++ Ended :: ws') s = run ws s.
Proof.
  intros Hord Hord' Hws Hs. destruct (New_built _ _ _ _ _ _ _ Hord Hord' Hs) as [Hb Hwf].
  destruct (New_spec ord ord' env env' seeds maxStale Hord Hord') as [_ Hspec]. destruct (Hspec s Hs) as [Hmax Hseed]. clear Hs Hspec.
  revert s Hb Hwf Hmax Hseed. induction Hws as [|w ws Hw Hws IH]; intros s Hb Hwf Hmax Hseed; [done|].
  destruct w as [o e|]; [|done]. cbn [run app]. apply IH.
  - apply built_tick.
  - by apply wf_tick.
  - by rewrite tick_maxStale.
  - intros a Ha. by apply tick_seed, Hseed.
Qed.
End properties.

(** ** Witnesses *)

Definition in_order : nat → list string → list string := λ _ l, l.

(** Two members: the seed [s] answers as node [n1] and names [p]; [p] is down. *)
Definition sample_info : NodeInfo := mkNodeInfo [] [] 0 0 0 "n1" ["p"].
Definition sample_env : string → reply := λ a,
  if decide (a = "s") then mkReply (Ok sample_info) (Ok [sample_row])
  else mkReply (Err (ErrNetOp "dial")) (Err (ErrNetOp "dial")).
Definition down_env : string → reply := λ _, mkReply (Err (ErrNetOp "dial")) (Err (ErrNetOp "dial")).
Definition sample_source : Source :=
  mkSource 2 {[ "s" := mkMember true 0 None ]} (mkSnapshot [] [] ∅).
Definition sample_ticked : Source := (@tick toy_codec in_order sample_env sample_source).2.

Lemma sample_wf : wf sample_source.
Proof. intros a m. simpl. rewrite lookup_singleton_Some. by intros [_ <-]. Qed.

Lemma tick_serves_witness : is_ok (NodeInventory sample_ticked "n1") = true.
Proof.
  destruct (@tick_serves toy_codec in_order sample_env sample_source (λ _ _, reflexivity _) sample_wf ltac:(done)) as [H _].
  destruct (H "s" (mkNodeInventory "" "n1" [@EntryFromSummary toy_codec sample_row] "n1" [] [] zero_time)) as (o & inv' & Hn & _).
  - vm_compute. reflexivity.
  - unfold sample_ticked. simpl in Hn. by rewrite Hn.
Defined.

Lemma tick_members_witness : is_seed (ms_members sample_ticked) "s" = true.
Proof.
  apply (@tick_members toy_codec in_order sample_env sample_source (λ _ _, reflexivity _) sample_wf).
  vm_compute. reflexivity.
Defined.

Lemma silent_node_expires_witness :
  is_ok (NodeInventory (ticks (C := toy_codec) [(in_order, down_env); (in_order, down_env); (in_order, down_env)] sample_ticked) "n1") = false.
Proof.
  apply (@silent_node_expires toy_codec).
  - apply wf_tick; [intros ? ?; reflexivity|apply sample_wf].
  - assert (∀ s a inv, answered (@poll toy_codec down_env (ms_members s)) a = Some inv → ni_Node inv ≠ "n1") as H.
    { intros s a inv. unfold answered, poll. rewrite map_lookup_imap. by destruct (ms_members s !! a). }
    repeat (split; [intros ? ?; reflexivity|split; [apply H|]]). exact I.
  - done.
  - vm_compute. reflexivity.
Defined.

Lemma New_spec_witness :
  is_ok (@New toy_codec in_order in_order sample_env sample_env ["s"; "t"] 0) = true.
Proof.
  apply (@New_spec toy_codec in_order in_order sample_env sample_env ["s"; "t"] 0); [intros ? ?; reflexivity..|].
  split.
  - exists "s". split; [constructor|vm_compute; reflexivity].
  - intros a [->|[->|H]%elem_of_cons]%elem_of_cons; [vm_compute; reflexivity..|by apply not_elem_of_nil in H].
Defined.
