(* ===== verification/FirstHit.v ===== *)
(** * The bounded fan-out (FirstHit in pkg/scale/sandboxstore_impl.go)

    [FirstHit] runs a lookup on every node, a bounded number at a time, keeps
    the first result and cancels the rest.  Its goroutines are modelled as a
    step relation, one step per visible action; the sequential [FirstHit] the
    rest of the development computes with is shown to be what every complete
    run of the goroutines amounts to. *)

From S2P Require Import Prelude GoStd Api Inventory.

Section first_hit.
Context {T : Type}.

(** ** The goroutines *)

(** Where one goroutine is: before its [gctx.Err()] check, inside [find],
    holding a hit, or past the store of [found] and before [cancel()]. *)
Inductive phase := Spawned | Calling | Hit (x : T) | Stored.

Record state := mkState {
  fh_pending : list string;             (* nodes of the loop not spawned yet *)
  fh_running : list (string * phase);   (* goroutines alive *)
  fh_found : option T;
  fh_cancelled : bool;                  (* gctx is done *)
  fh_parent : bool;                     (* because the caller's ctx is done *)
  fh_calls : list string;               (* the calls of [find] made, in order *)
}.

Definition start (nodes : list string) : state := mkState nodes [] None false false [].

(** [found = cmp.Or(found, hit)] *)
Definition keep_first (found : option T) (hit : T) : option T :=
  match found with Some x => Some x | None => Some hit end.

(** One action.  [g.Go] blocks while [limit] goroutines run (0 is no limit);
    a [find] whose context is done may give up, and the caller's own context
    may end at any time. *)
Inductive step (limit : nat) (find : string → option T) : state → state → Prop :=
| step_spawn n pend run f c p calls :
    limit = 0 ∨ length run < limit →
    step limit find (mkState (n :: pend) run f c p calls)
                    (mkState pend (run ++ [(n, Spawned)]) f c p calls)
| step_skip n pend r1 r2 f p calls :
    step limit find (mkState pend (r1 ++ (n, Spawned) :: r2) f true p calls)
                    (mkState pend (r1 ++ r2) f true p calls)
| step_call n pend r1 r2 f p calls :
    step limit find (mkState pend (r1 ++ (n, Spawned) :: r2) f false p calls)
                    (mkState pend (r1 ++ (n, Calling) :: r2) f false p (calls ++ [n]))
| step_miss n pend r1 r2 f c p calls :
    find n = None →
    step limit find (mkState pend (r1 ++ (n, Calling) :: r2) f c p calls)
                    (mkState pend (r1 ++ r2) f c p calls)
| step_abort n pend r1 r2 f p calls :
    step limit find (mkState pend (r1 ++ (n, Calling) :: r2) f true p calls)
                    (mkState pend (r1 ++ r2) f true p calls)
| step_hit n x pend r1 r2 f c p calls :
    find n = Some x →
    step limit find (mkState pend (r1 ++ (n, Calling) :: r2) f c p calls)
                    (mkState pend (r1 ++ (n, Hit x) :: r2) f c p calls)
| step_store n x pend r1 r2 f c p calls :
    step limit find (mkState pend (r1 ++ (n, Hit x) :: r2) f c p calls)
                    (mkState pend (r1 ++ (n, Stored) :: r2) (keep_first f x) c p calls)
| step_cancel n pend r1 r2 f c p calls :
    step limit find (mkState pend (r1 ++ (n, Stored) :: r2) f c p calls)
                    (mkState pend (r1 ++ r2) f true p calls)
| step_parent pend run f c calls :
    step limit find (mkState pend run f c false calls)
                    (mkState pend run f true true calls).

(** [g.Wait()] returns when every goroutine has. *)
Definition finished (s : state) : Prop := fh_pending s = [] ∧ fh_running s = [].

Definition reachable (limit : nat) (find : string → option T) (nodes : list string) : state → Prop :=
  rtc (step limit find) (start nodes).

(** ** The sequential reading: the first hit of the nodes in some order *)

Fixpoint scan {W} (nodes : list string) (find : string → io W (option T)) : io W (option T) :=
  match nodes with
  | [] => mret None
  | n :: nodes => r ← find n; match r with Some x => mret (Some x) | None => scan nodes find end
  end.

Definition FirstHit {W} (nodes : result (list string)) (order : list string → list string)
    (find : string → io W (option T)) : io W (result (option T)) :=
  match nodes with
  | Err e => mret (Err (ErrWrap "scale: enumerate node inventories" [] e))
  | Ok ns => r ← scan (order ns) find; mret (Ok r)
  end.

(** A lookup that changes nothing. *)
Definition pure_find {W} (find : string → option T) (n : string) : io W (option T) := mret (find n).

(** ** Measures and invariants *)

Definition phase_weight (ph : phase) : nat :=
  match ph with Spawned => 4 | Calling => 3 | Hit _ => 2 | Stored => 1 end.
Definition weight (run : list (string * phase)) : nat := sum_list_with (λ r, phase_weight r.2) run.
Definition measure (s : state) : nat :=
  5 * length (fh_pending s) + weight (fh_running s) + (if fh_parent s then 0 else 1).

Definition is_spawned (r : string * phase) : option string :=
  match r.2 with Spawned => Some r.1 | _ => None end.

(** What is in flight, and what was found, is right. *)
Record sound (find : string → option T) (nodes : list string) (s : state) : Prop := {
  so_found x : fh_found s = Some x → ∃ n, n ∈ nodes ∧ find n = Some x;
  so_hit n x : (n, Hit x) ∈ fh_running s → find n = Some x;
  so_known n ph : (n, ph) ∈ fh_running s → n ∈ nodes;
  so_pending n : n ∈ fh_pending s → n ∈ nodes;
}.

(** No node with a hit is lost, unless one was found or the caller gave up. *)
Record covered (find : string → option T) (nodes : list string) (s : state) : Prop := {
  co_stored n : (n, Stored) ∈ fh_running s → is_Some (fh_found s);
  co_cancel : fh_cancelled s = true → fh_parent s = false → is_Some (fh_found s);
  co_all n : fh_parent s = false → n ∈ nodes → is_Some (find n) →
    n ∈ fh_pending s ∨ (∃ ph, (n, ph) ∈ fh_running s) ∨ is_Some (fh_found s);
}.

(** Calls made and calls still possible are distinct positions of the node list. *)
Definition calls_bounded (nodes : list string) (s : state) : Prop :=
  fh_calls s ++ omap is_spawned (fh_running s) ++ fh_pending s ⊆+ nodes.

Definition limited (limit : nat) (s : state) : Prop := limit = 0 ∨ length (fh_running s) ≤ limit.

Lemma elem_of_mid {A} (l1 l2 : list A) x y : y ∈ l1 ++ x :: l2 ↔ y ∈ l1 ++ l2 ∨ y = x.
Proof. rewrite !elem_of_app, elem_of_cons. tauto. Qed.

Lemma weight_app r1 r2 : weight (r1 ++ r2) = weight r1 + weight r2.
Proof. apply sum_list_with_app. Qed.

Lemma step_measure limit find s s' : step limit find s s' → measure s' < measure s.
Proof.
  intros H. destruct H; unfold measure; simpl; rewrite ?weight_app; simpl; try lia.
Qed.

Lemma progress limit find s :
  ¬ finished s → ∃ s', step limit find s s'.
Proof.
  intros Hnf. destruct s as [pend run f c p calls]. unfold finished in Hnf. simpl in *.
  destruct run as [|[n ph] run].
  - destruct pend as [|n pend]; [tauto|]. eexists. constructor. simpl. destruct limit; [by left|right; lia].
  - destruct ph as [| |x|].
    + destruct c; eexists; [apply (step_skip _ _ n pend [] run)|apply (step_call _ _ n pend [] run)].
    + destruct (find n) eqn:Hf; eexists; [by eapply (step_hit _ _ n _ pend [] run)|by apply (step_miss _ _ n pend [] run)].
    + eexists. apply (step_store _ _ n x pend [] run).
    + eexists. apply (step_cancel _ _ n pend [] run).
Qed.

Lemma is_Some_keep_first f x : is_Some (keep_first f x).
Proof. destruct f; simpl; eauto. Qed.
Hint Resolve is_Some_keep_first : core.

(** Membership in a run with one entry changed. *)
Ltac run_entry Hin :=
  first [rewrite elem_of_snoc in Hin; destruct Hin as [Hin|[= ? ?]]; subst
        |rewrite elem_of_mid in Hin; destruct Hin as [Hin|[= ? ?]]; subst
        |idtac]; simplify_eq.

Lemma step_sound limit find nodes s s' : step limit find s s' → sound find nodes s → sound find nodes s'.
Proof.
  intros H [H1 H2 H3 H4].
  destruct H; simpl in *; (split; simpl in *; [|intros m y Hin..|intros m Hin]);
    try (setoid_rewrite elem_of_mid in H2; setoid_rewrite elem_of_mid in H3);
    try run_entry Hin; eauto 6 using list_elem_of_here, list_elem_of_further.
  intros y. unfold keep_first. destruct f; [intros [= <-]; by apply H1|]. intros [= <-].
  exists n. split; [eapply H3|eapply H2]; by right.
Qed.

Lemma step_covered limit find nodes s s' : step limit find s s' → covered find nodes s → covered find nodes s'.
Proof.
  intros H [H1 H2 H3].
  destruct H; simpl in *; (split; simpl in *; [intros m Hin|intros Hc Hp|intros m Hp Hm Hs]);
    try (setoid_rewrite elem_of_mid in H1; setoid_rewrite elem_of_mid in H3);
    try run_entry Hin; eauto 6; try done;
    try setoid_rewrite elem_of_snoc; try setoid_rewrite elem_of_mid.
  all: destruct (H3 m eq_refl Hm Hs) as [Hin|[[ph Hin]|?]]; eauto 6.
  - apply elem_of_cons in Hin as [->|Hin]; eauto 6.
  - destruct Hin as [Hin|[= -> ->]]; eauto 6.
  - destruct Hin as [Hin|[= -> ->]]; [eauto 6|]. destruct Hs. congruence.
  - destruct Hin as [Hin|[= -> ->]]; eauto 6.
Qed.

Lemma step_calls limit find nodes s s' : step limit find s s' → calls_bounded nodes s → calls_bounded nodes s'.
Proof.
  unfold calls_bounded. intros H Hb. destruct H; simpl in *; rewrite ?omap_app in *; csimpl in *; try done.
  all: etrans; [|exact Hb]; simpl.
  - apply Permutation_submseteq. solve_Permutation.
  - solve_submseteq.
  - apply Permutation_submseteq. solve_Permutation.
Qed.

Lemma step_limited limit find s s' : step limit find s s' → limited limit s → limited limit s'.
Proof.
  unfold limited. intros H. destruct H; simpl in *; rewrite ?length_app; simpl; rewrite ?length_app; simpl; lia.
Qed.

Lemma reachable_inv (P : state → Prop) limit find nodes s :
  (∀ s s', step limit find s s' → P s → P s') → P (start nodes) → reachable limit find nodes s → P s.
Proof. intros Hstep H0 Hr. eapply rtc_ind_r; [exact H0|eauto|exact Hr]. Qed.

Lemma start_sound find nodes : sound find nodes (start nodes).
Proof. split; simpl; try done; intros; by apply not_elem_of_nil in H. Qed.
Lemma start_covered find nodes : covered find nodes (start nodes).
Proof. split; simpl; try done; [intros n H; by apply not_elem_of_nil in H|auto]. Qed.

Lemma scan_pure {W} nodes find (w : W) : scan nodes (pure_find find) w = (head (omap find nodes), w).
Proof. induction nodes as [|n nodes IH]; [done|]. csimpl. unfold mbind, io_bind. simpl. by destruct (find n). Qed.

(** ** Properties *)

(** C8: every complete run of the fan-out has the outcome of a sequential scan
    of the nodes in some order, when the caller does not give up: a result is one
    that [find] gives on a listed node, and no result means no listed node has one. *)
Theorem FirstHit_sequential (limit : nat) (find : string → option T) (nodes : list string) (s : state) :
  reachable limit find nodes s → finished s → fh_parent s = false →
  ∃ order, order ≡ₚ nodes ∧ ∀ W (w : W), scan order (pure_find find) w = (fh_found s, w).
Proof.
  intros Hr [Hp Hrun] Hpar.
  assert (sound find nodes s) as [Hf _ _ _] by (eapply reachable_inv; [apply step_sound|apply start_sound|done]).
  assert (covered find nodes s) as [_ _ Hall] by (eapply reachable_inv; [apply step_covered|apply start_covered|done]).
  destruct (fh_found s) as [x|] eqn:Hfound.
  - destruct (Hf x eq_refl) as (n & [l1 [l2 ->]]%list_elem_of_split & Hn).
    exists (n :: l1 ++ l2). split; [by rewrite Permutation_middle|].
    intros W w. rewrite scan_pure. csimpl. by rewrite Hn.
  - exists nodes. split; [done|]. intros W w. rewrite scan_pure. f_equal.
    apply head_None. destruct (omap find nodes) as [|x l] eqn:Ho; [done|].
    assert (x ∈ omap find nodes) as (n & Hn & Hx)%list_elem_of_omap by (rewrite Ho; constructor).
    destruct (Hall n Hpar Hn) as [Hin|[[ph Hin]|[? ?]]]; [eauto| | |done].
    + rewrite Hp in Hin. by apply not_elem_of_nil in Hin.
    + rewrite Hrun in Hin. by apply not_elem_of_nil in Hin.
Qed.

(** C40: resource bounds and termination of the fan-out: at most [limit]
    goroutines are alive at once, every node is looked up at most as often as it
    is listed, no run is longer than [5 * length nodes + 1] steps, and a run that
    cannot continue has finished. *)
Theorem FirstHit_bounded (limit : nat) (find : string → option T) (nodes : list string) (k : nat) (s : state) :
  nsteps (step limit find) k (start nodes) s →
  (limit = 0 ∨ length (fh_running s) ≤ limit) ∧ fh_calls s ⊆+ nodes ∧
  k + measure s ≤ 5 * length nodes + 1 ∧
  (¬ finished s → ∃ s', step limit find s s').
Proof.
  intros Hn. pose proof (rtc_nsteps_2 _ _ _ Hn) as Hr.
  split_and!; [| | |apply progress].
  - eapply (reachable_inv (limited limit)); [apply step_limited|right; simpl; lia|exact Hr].
  - assert (calls_bounded nodes s) as Hc by (apply (reachable_inv (calls_bounded nodes) limit find nodes); [apply step_calls|unfold calls_bounded; simpl; done|exact Hr]).
    etrans; [|exact Hc]. by apply submseteq_inserts_r.
  - assert (∀ a, nsteps (step limit find) k a s → k + measure s ≤ measure a) as H.
    { clear. revert s. induction k as [|k IH]; intros s a H; inversion H; subst; [lia|].
      match goal with Hs : step _ _ a ?b, Hk : nsteps _ k ?b s |- _ =>
        apply step_measure in Hs; apply IH in Hk; lia end. }
    apply H in Hn. unfold measure, weight in *. simpl in *. lia.
Qed.
End first_hit.

(** ** Witnesses *)

Definition sample_find (n : string) : option nat := if decide (n = "b") then Some 7 else None.

(** Two goroutines at once: [a] misses while [b] hits; [c] is skipped. *)
Lemma sample_run : reachable 2 sample_find ["a"; "b"; "c"] (mkState [] [] (Some 7) true false ["a"; "b"]).
Proof.
  unfold reachable, start.
  eapply rtc_l; [constructor; simpl; lia|]. eapply rtc_l; [constructor; simpl; lia|]. simpl.
  eapply rtc_l; [apply (step_call _ _ "a" _ [])|]. simpl.
  eapply rtc_l; [apply (step_call _ _ "b" _ [("a", Calling)])|]. simpl.
  eapply rtc_l; [apply (step_hit _ _ "b" 7 _ [("a", Calling)]); reflexivity|]. simpl.
  eapply rtc_l; [apply (step_store _ _ "b" 7 _ [("a", Calling)])|]. simpl.
  eapply rtc_l; [apply (step_cancel _ _ "b" _ [("a", Calling)])|]. simpl.
  eapply rtc_l; [apply (step_miss _ _ "a" _ []); reflexivity|]. simpl.
  eapply rtc_l; [constructor; simpl; lia|]. simpl.
  eapply rtc_l; [apply (step_skip _ _ "c" _ [])|]. apply rtc_refl.
Qed.

Lemma FirstHit_sequential_witness :
  ∃ order, order ≡ₚ ["a"; "b"; "c"] ∧ ∀ W (w : W), scan order (pure_find sample_find) w = (Some 7, w).
Proof. apply (FirstHit_sequential 2 sample_find _ _ sample_run); [split|]; reflexivity. Defined.

Lemma FirstHit_bounded_witness :
  ∃ s', step 2 sample_find (mkState ["b"] [("a", Spawned)] None false false []) s'.
Proof.
  apply (FirstHit_bounded 2 sample_find ["a"; "b"] 1).
  - apply (nsteps_l _ _ _ (mkState ["b"] [("a", Spawned)] None false false [])); [|apply nsteps_O].
    apply (step_spawn _ _ "a" ["b"] []). simpl. lia.
  - intros [? _]. discriminate.
Defined.
Arguments phase : clear implicits.
Arguments state : clear implicits.
