(* ===== verification/Client.v ===== *)
(** * The node client interface (SandboxdClient in pkg/scale/sandboxstore_impl.go)

    The store talks to a node's sandboxd through this interface, one client per
    advertise address and token.  A call acts on the world [W]: the nodes, the
    network between, and whatever else may happen during the call.  The HTTP
    implementation is in [Sandboxd]; the recording one below serves statements
    about which calls are made. *)

From S2P Require Import Prelude GoStd Api.

(** An open connection, by its handle. *)
Definition Conn : Type := Z.

(** The methods, each on the client [factory(addr, token)]. *)
Class SandboxdClient (W : Type) := {
  Claim (addr token : string) (spec : ClaimSpec) : io W (result ClaimResult);
  Release (addr token id released : string) : io W (result unit);
  Hibernate (addr token id : string) : io W (result unit);
  Wake (addr token id : string) : io W (result unit);
  Renew (addr token id : string) (spec : RenewSpec) : io W (result time);
  Fork (addr token id : string) (spec : ForkSpec) : io W (result ForkResult);
  Checkpoint (addr token id : string) (spec : CheckpointSpec) : io W (result Api.Checkpoint);
  Checkpoints (addr token : string) : io W (result (list Api.Checkpoint));
  DeleteCheckpoint (addr token checkpointID : string) : io W (result unit);
  DeleteTemplate (addr token : string) (key : PoolKey) (digest : string) : io W (result unit);
  Promote (addr token id template : string) : io W (result (PoolKey * string));
  SetTemplateLabels (addr token : string) (key : PoolKey) (labels : gmap string string) (digest : string) : io W (result unit);
  Info (addr token : string) : io W (result NodeInfo);
  DialPort (addr token id porttoken : string) (port : Z) : io W (result Conn);
  SetInstanceMetadata (addr token id doc : string) : io W (result unit);
  Sandbox (addr token id : string) : io W (result SandboxSummary);
  SandboxesByClaimRef (addr token ref : string) : io W (result (list SandboxSummary));
}.

(** The lookups read a node's index and change nothing. *)
Class InertReads {W} (K : SandboxdClient W) := {
  Sandbox_inert addr token id w : (Sandbox addr token id w).2 = w;
  SandboxesByClaimRef_inert addr token ref w : (SandboxesByClaimRef addr token ref w).2 = w;
}.

(** ** Recording the calls that change a node *)

Inductive call :=
| CallClaim (addr token : string) (spec : ClaimSpec) (res : result ClaimResult)
| CallRelease (addr token id released : string) (res : result unit)
| CallHibernate (addr token id : string) (res : result unit)
| CallWake (addr token id : string) (res : result unit)
| CallRenew (addr token id : string) (spec : RenewSpec) (res : result time)
| CallFork (addr token id : string) (spec : ForkSpec) (res : result ForkResult)
| CallCheckpoint (addr token id : string) (spec : CheckpointSpec) (res : result Api.Checkpoint)
| CallDeleteCheckpoint (addr token checkpointID : string) (res : result unit)
| CallDeleteTemplate (addr token : string) (key : PoolKey) (digest : string) (res : result unit)
| CallPromote (addr token id template : string) (res : result (PoolKey * string))
| CallSetTemplateLabels (addr token : string) (key : PoolKey) (labels : gmap string string) (digest : string) (res : result unit)
| CallDialPort (addr token id porttoken : string) (port : Z) (res : result Conn)
| CallSetInstanceMetadata (addr token id doc : string) (res : result unit).

Section recorder.
Context {W : Type} (K : SandboxdClient W).

(** Run a call on the world and append it, with its answer, to the log. *)
Definition logging {L A} (m : io W A) (c : A → L) : io (list L * W) A := λ '(l, w),
  let '(a, w') := m w in (a, (l ++ [c a], w')).
(** Run a read, which is not logged. *)
Definition silently {L A} (m : io W A) : io (list L * W) A := λ '(l, w),
  let '(a, w') := m w in (a, (l, w')).

Lemma logging_run {L A} (m : io W A) (c : A → L) l w :
  logging m c (l, w) = ((m w).1, (l ++ [c (m w).1], (m w).2)).
Proof. unfold logging. by destruct (m w). Qed.
Lemma silently_run {L A} (m : io W A) (l : list L) w : silently m (l, w) = ((m w).1, (l, (m w).2)).
Proof. unfold silently. by destruct (m w). Qed.

Definition recorded : SandboxdClient (list call * W) := {|
  Claim a t s := logging (Claim a t s) (CallClaim a t s);
  Release a t i r := logging (Release a t i r) (CallRelease a t i r);
  Hibernate a t i := logging (Hibernate a t i) (CallHibernate a t i);
  Wake a t i := logging (Wake a t i) (CallWake a t i);
  Renew a t i s := logging (Renew a t i s) (CallRenew a t i s);
  Fork a t i s := logging (Fork a t i s) (CallFork a t i s);
  Checkpoint a t i s := logging (Checkpoint a t i s) (CallCheckpoint a t i s);
  Checkpoints a t := silently (Checkpoints a t);
  DeleteCheckpoint a t i := logging (DeleteCheckpoint a t i) (CallDeleteCheckpoint a t i);
  DeleteTemplate a t k d := logging (DeleteTemplate a t k d) (CallDeleteTemplate a t k d);
  Promote a t i n := logging (Promote a t i n) (CallPromote a t i n);
  SetTemplateLabels a t k l d := logging (SetTemplateLabels a t k l d) (CallSetTemplateLabels a t k l d);
  Info a t := silently (Info a t);
  DialPort a t i p n := logging (DialPort a t i p n) (CallDialPort a t i p n);
  SetInstanceMetadata a t i d := logging (SetInstanceMetadata a t i d) (CallSetInstanceMetadata a t i d);
  Sandbox a t i := silently (Sandbox a t i);
  SandboxesByClaimRef a t r := silently (SandboxesByClaimRef a t r);
|}.
End recorder.

#[export] Instance recorded_inert {W} (K : SandboxdClient W) : InertReads K → InertReads (recorded K).
Proof.
  intros Hi. split.
  - intros addr token id [l w]. etrans; [exact (f_equal snd (silently_run (Sandbox addr token id) l w))|].
    simpl. by rewrite Sandbox_inert.
  - intros addr token ref [l w]. etrans; [exact (f_equal snd (silently_run (SandboxesByClaimRef addr token ref) l w))|].
    simpl. by rewrite SandboxesByClaimRef_inert.
Qed.

(** ** Errors of a claim *)

(** [sandboxd.ErrNodeAtCapacity], which a [*RedirectError] also matches. *)
Definition ErrNodeAtCapacity : error := ErrSentinel "sandboxd.ErrNodeAtCapacity".
Definition is_at_capacity (e : error) : bool :=
  existsb (λ x, bool_decide (x = ErrNodeAtCapacity) || bool_decide (is_Some (redirect_of x))) (unwrap_all e).

(** A client for the witnesses: a node answers a claim with its own address as
    the id, lists no sandbox and refuses the rest. *)
Definition refused : error := ErrHTTP 501 "not implemented".
Definition toy_client (W : Type) (claim : string → ClaimSpec → io W (result ClaimResult))
    (rows : string → W → result (list SandboxSummary)) : SandboxdClient W := {|
  Claim a _ s := claim a s;
  Release _ _ _ _ := mret (Ok tt);
  Hibernate _ _ _ := mret (Ok tt);
  Wake _ _ _ := mret (Ok tt);
  Renew _ _ _ _ := mret (Err refused);
  Fork _ _ _ s := mret (Ok (mkForkResult [mkClaimResult "child" "t" zero_time "" "" []]));
  Checkpoint _ _ _ _ := mret (Err refused);
  Checkpoints _ _ := mret (Err refused);
  DeleteCheckpoint _ _ _ := mret (Err refused);
  DeleteTemplate _ _ _ _ := mret (Err refused);
  Promote _ _ _ _ := mret (Err refused);
  SetTemplateLabels _ _ _ _ _ := mret (Err refused);
  Info _ _ := mret (Err refused);
  DialPort _ _ _ _ _ := mret (Err refused);
  SetInstanceMetadata _ _ _ _ := mret (Err refused);
  Sandbox _ _ _ := mret (Err refused);
  SandboxesByClaimRef a _ _ := gets (rows a);
|}.

#[export] Instance toy_client_inert W claim rows : InertReads (toy_client W claim rows).
Proof. by split. Qed.
