(* ===== verification/StoreRead.v ===== *)
(** * The read path of the store (pkg/scale/sandboxstore_impl.go, sandboxstore_live.go)

    Get, GetByClaimID and List over the inventories, with a node's own index as
    the fallback for a claim its published inventory does not hold yet.

    The state of an operation is the resolution index paired with the world.
    The bounded fan-outs are their sequential readings ([FirstHit.FirstHit]),
    the argument [ord] giving the order of the [i]-th fan-out. *)

From S2P Require Import Prelude GoStd Api NodeIndex PoolKeys SandboxView Inventory FirstHit Client.

(** ** The store *)

(** [WithClaimRouting] sets both; without it [st_routed] is false. *)
Record store := mkStore {
  st_routed : bool;
  st_token : string;
}.

Definition order : Type := nat → list string → list string.
Definition fair (ord : order) : Prop := ∀ i l, ord i l ≡ₚ l.

Section store.
Context {W : Type} {I : InventorySource W} {K : SandboxdClient W} {C : MetadataCodec} {SO : SelectorOps}.

(** A state change of the index, and a call on the world. *)
Definition on_index {A} (f : nodeIndex → A * nodeIndex) : io (nodeIndex * W) A := λ '(x, w),
  let '(a, x') := f x in (a, (x', w)).
Definition on_world {A} (m : io W A) : io (nodeIndex * W) A := λ '(x, w),
  let '(a, w') := m w in (a, (x, w')).
Definition reads {A} (f : W → A) : io (nodeIndex * W) A := on_world (gets f).
Definition remember_in_index (key node : string) : io (nodeIndex * W) unit :=
  on_index (λ x, (tt, remember key node x)).

(** ** Reaching a node *)

Definition errUnrouted : error := ErrText "scale: claim routing not configured (call WithClaimRouting)" [].

(** [nodeClient]: the address the node's client is for. *)
Definition nodeClient (s : store) (w : W) (node verb id : string) : result string :=
  if negb (st_routed s) then Err errUnrouted
  else if decide (node = "") then Err (ErrText "scale: %s requires an owning node" [verb])
  else match NodeCapacity w node with
       | Err e => Err (ErrWrap "scale: resolve node %q for %s of %q" [node; verb; id] e)
       | Ok (addr, _) =>
           if decide (addr = "") then Err (ErrText "scale: node %q advertises no sandboxd address for %s of %q" [node; verb; id])
           else Ok addr
       end.

(** [nodeRows]: what to ask a node's client for. *)
Definition nodeRows : Type := string → string → io W (result (list SandboxSummary)).

Definition rowsByClaimRef (ref : string) : nodeRows := λ addr token, SandboxesByClaimRef addr token ref.

Definition rowByID (id : string) : nodeRows := λ addr token,
  r ← Sandbox addr token id;
  mret match r with
       | Ok row => Ok [row]
       | Err e =>
           match errors_as http_of e with
           | Some (code, _) => if decide (code = 404)%Z then Ok [] else Err e
           | None => Err e
           end
       end.

Definition liveOnNode (s : store) (op node : string) (rows : nodeRows) (mtch : inventoryMatch) : io W (option Api.Sandbox) :=
  cl ← gets (λ w, nodeClient s w node op "");
  match cl with
  | Err _ => mret None
  | Ok addr =>
      got ← rows addr (st_token s);
      mret match got with
           | Err _ => None
           | Ok rs => entryToSandbox node <$> find_first mtch (EntryFromSummary <$> rs)
           end
  end.

Definition matchOnNode (node : string) (mtch : inventoryMatch) : io W (option Api.Sandbox) :=
  gets (λ w, match NodeInventory_of w node with
             | Err _ => None
             | Ok inv => entryToSandbox (ni_Node inv) <$> find_first mtch (ni_Entries inv)
             end).

(** ** Resolution *)

(** The indexed node, if any: its inventory, then the node itself. *)
Definition resolve_indexed (s : store) (op key : string) (rows : nodeRows) (mtch : inventoryMatch) :
    io (nodeIndex * W) (option Api.Sandbox) :=
  node ← on_index (lookup key);
  match node with
  | None => mret None
  | Some node =>
      sb ← on_world (matchOnNode node mtch);
      match sb with
      | Some sb => mret (Some sb)
      | None => on_world (liveOnNode s op node rows mtch)
      end
  end.

Definition FirstHit_nodes (ord : list string → list string) (find : string → io W (option Api.Sandbox)) :
    io (nodeIndex * W) (result (option Api.Sandbox)) :=
  nodes ← reads ListNodes;
  on_world (FirstHit nodes ord find).

(** [if found != nil { s.index.remember(key, found.Status.NodeName) }] *)
Definition remember_found (key : string) (found : result (option Api.Sandbox)) :
    io (nodeIndex * W) (result (option Api.Sandbox)) :=
  match found with
  | Ok (Some sb) => _ ← remember_in_index key (sb_NodeName sb); mret found
  | _ => mret found
  end.

Definition resolve (s : store) (ord : order) (op key : string) (rows : nodeRows) (mtch : inventoryMatch) :
    io (nodeIndex * W) (result (option Api.Sandbox)) :=
  early ← resolve_indexed s op key rows mtch;
  match early with
  | Some sb => mret (Ok (Some sb))
  | None =>
      found ← FirstHit_nodes (ord 0) (λ node, matchOnNode node mtch);
      found ← match found with
              | Ok None => if st_routed s then FirstHit_nodes (ord 1) (λ node, liveOnNode s op node rows mtch)
                           else mret found
              | _ => mret found
              end;
      remember_found key found
  end.

Definition lookupName (s : store) (ord : order) (namespace name : string) : io (nodeIndex * W) (result (option Api.Sandbox)) :=
  resolve s ord "get" (nameKey namespace name) (rowsByClaimRef (namespacedName namespace name)) (nameMatch namespace name).

(** A missing sandbox is a NotFound; [name] is empty for a claim-id lookup. *)
Definition found_or_404 (name : string) (r : result (option Api.Sandbox)) : result Api.Sandbox :=
  match r with
  | Err e => Err e
  | Ok None => Err (NewNotFound "sandboxes" name)
  | Ok (Some sb) => Ok sb
  end.

Definition Get (s : store) (ord : order) (namespace name : string) : io (nodeIndex * W) (result Api.Sandbox) :=
  found ← lookupName s ord namespace name; mret (found_or_404 name found).

Definition GetByClaimID (s : store) (ord : order) (namespace id : string) (mtch : string → bool) :
    io (nodeIndex * W) (result Api.Sandbox) :=
  found ← resolve s ord "claim-id get" (claimKey namespace id) (rowByID id) (claimIDMatch namespace mtch);
  mret (found_or_404 "" found).

(** ** Lists *)

(** [cmp.Compare] on namespace, then name. *)
Definition sb_le (a b : Api.Sandbox) : Prop :=
  if decide (sb_Namespace a = sb_Namespace b) then String.le (sb_Name a) (sb_Name b)
  else String.le (sb_Namespace a) (sb_Namespace b).
#[export] Instance sb_le_dec : RelDecision sb_le.
Proof. intros a b. unfold sb_le. destruct (decide _); apply _. Defined.

Definition listInventories (w : W) (namespace : string) (labelSel : label_selector) (fieldSel : field_selector) :
    result (list Api.Sandbox) :=
  match ListNodes w with
  | Err e => Err (ErrWrap "scale: enumerate node inventories" [] e)
  | Ok nodes =>
      let perNode := (λ node, match NodeInventory_of w node with
                              | Err _ => []
                              | Ok inv => materialize inv namespace labelSel fieldSel
                              end) <$> nodes in
      Ok (merge_sort sb_le (concat perNode))
  end.

(** The prior sighting's node answers alone; without one every node is asked. *)
Definition pollPinned (s : store) (ord : order) (namespace name : string) (prev : option Api.Sandbox)
    (labelSel : label_selector) (fieldSel : field_selector) : io (nodeIndex * W) (result (list Api.Sandbox)) :=
  match prev with
  | Some prev =>
      sb ← on_world (matchOnNode (sb_NodeName prev) (nameMatch namespace name));
      mret (selectedOne sb None labelSel fieldSel)
  | None =>
      found ← FirstHit_nodes (ord 2) (λ node,
        sb ← matchOnNode node (nameMatch namespace name);
        mret match sb with Some sb => if selected sb labelSel fieldSel then Some sb else None | None => None end);
      mret match found with
           | Err e => selectedOne None (Some e) labelSel fieldSel
           | Ok sb => selectedOne sb None labelSel fieldSel
           end
  end.

Definition listPinned (s : store) (ord : order) (namespace name : string)
    (labelSel : label_selector) (fieldSel : field_selector) : io (nodeIndex * W) (result (list Api.Sandbox)) :=
  found ← lookupName s ord namespace name;
  match found with
  | Ok (Some sb) =>
      if negb (selected sb labelSel fieldSel) then pollPinned s ord namespace name None labelSel fieldSel
      else mret (selectedOne (Some sb) None labelSel fieldSel)
  | Ok None => mret (selectedOne None None labelSel fieldSel)
  | Err e => mret (selectedOne None (Some e) labelSel fieldSel)
  end.

Definition listItems (s : store) (ord : order) (namespace : string)
    (labelSel : label_selector) (fieldSel : field_selector) : io (nodeIndex * W) (result (list Api.Sandbox)) :=
  match pinnedName namespace fieldSel with
  | Some name => listPinned s ord namespace name labelSel fieldSel
  | None => reads (λ w, listInventories w namespace labelSel fieldSel)
  end.

Definition List (s : store) (ord : order) (opts : ListOptions) : io (nodeIndex * W) (result (list Api.Sandbox)) :=
  match parseSelectors opts with
  | Err e => mret (Err e)
  | Ok (labelSel, fieldSel) => listItems s ord (lo_Namespace opts) labelSel fieldSel
  end.

(** [heldByNode]: does the node itself still hold the claim? *)
Definition heldByNode (s : store) (sb : Api.Sandbox) (labelSel : label_selector) (fieldSel : field_selector) : io W bool :=
  live ← liveOnNode s "watch" (sb_NodeName sb) (rowsByClaimRef (objKey sb)) (nameMatch (sb_Namespace sb) (sb_Name sb));
  mret match live with Some sb' => selected sb' labelSel fieldSel | None => false end.
End store.

(** ** Specification *)

(** Where a sandbox may be found: an entry of a readable inventory, or a row of
    the own index of a node that can be asked. *)
Definition inventory_holds {W} `{InventorySource W} (w : W) (mtch : inventoryMatch) (node : string) : Prop :=
  ∃ inv e, NodeInventory_of w node = Ok inv ∧ e ∈ ni_Entries inv ∧ mtch e = true.

Definition live_holds {W} `{InventorySource W, SandboxdClient W, MetadataCodec}
    (s : store) (w : W) (rows : nodeRows) (mtch : inventoryMatch) (node : string) : Prop :=
  ∃ addr pools got row, st_routed s = true ∧ node ≠ "" ∧ NodeCapacity w node = Ok (addr, pools) ∧ addr ≠ "" ∧
    (rows addr (st_token s) w).1 = Ok got ∧ row ∈ got ∧ mtch (EntryFromSummary row) = true.

(** A sandbox synthesized from an entry the matcher accepts. *)
Definition from_match (mtch : inventoryMatch) (sb : Api.Sandbox) : Prop :=
  ∃ node e, mtch e = true ∧ sb = entryToSandbox node e.

(** A computation that leaves the world alone. *)
Definition inert {W A} (m : io W A) : Prop := ∀ w, (m w).2 = w.

(** A source seen through the log of calls. *)
#[export] Instance logged_source {L W} (I : InventorySource W) : InventorySource (list L * W) :=
  {| ListNodes w := ListNodes w.2; NodeInventory_of w := NodeInventory_of w.2;
     NodeCapacity w := NodeCapacity w.2; NodeCapacities w := NodeCapacities w.2 |}.

(** ** Lemmas *)

#[export] Instance sb_le_total : Total sb_le.
Proof.
  intros a b. unfold sb_le.
  destruct (decide (sb_Namespace a = sb_Namespace b)) as [He|Hne].
  - rewrite decide_True by done. apply (total String.le).
  - rewrite decide_False by done. apply (total String.le).
Qed.

Section lemmas.
Context {W : Type} {I : InventorySource W} {K : SandboxdClient W} {C : MetadataCodec} {SO : SelectorOps}.

Lemma on_world_run {A} (m : io W A) x w : on_world m (x, w) = ((m w).1, (x, (m w).2)).
Proof. unfold on_world. by destruct (m w). Qed.

Lemma on_index_run {A} (f : nodeIndex → A * nodeIndex) x (w : W) : on_index f (x, w) = ((f x).1, ((f x).2, w)).
Proof. unfold on_index. by destruct (f x). Qed.

Lemma matchOnNode_Some node mtch (w : W) sb :
  (matchOnNode node mtch w).1 = Some sb → from_match mtch sb ∧ inventory_holds w mtch node.
Proof.
  unfold matchOnNode, gets. simpl. destruct (NodeInventory_of w node) as [inv|] eqn:Hi; [|done].
  intros (e & [He Hm]%find_first_Some & ->)%fmap_Some. split; [by do 2 eexists|by exists inv, e].
Qed.

Lemma matchOnNode_None node mtch (w : W) :
  (matchOnNode node mtch w).1 = None → ¬ inventory_holds w mtch node.
Proof.
  unfold matchOnNode, gets. simpl. intros Hn (inv & e & Hi & He & Hm). rewrite Hi in Hn.
  apply fmap_None in Hn. rewrite find_first_None in Hn. specialize (Hn e He). congruence.
Qed.

Lemma liveOnNode_Some s op node rows mtch (w : W) sb :
  (liveOnNode s op node rows mtch w).1 = Some sb → from_match mtch sb ∧ live_holds s w rows mtch node.
Proof.
  unfold liveOnNode. rewrite bind_run. unfold gets. cbv zeta. simpl.
  unfold nodeClient. destruct (st_routed s) eqn:Hr; [|done]. simpl.
  destruct (decide (node = "")) as [|Hne]; [done|].
  destruct (NodeCapacity w node) as [[addr pools]|] eqn:Hc; [|done].
  destruct (decide (addr = "")) as [|Ha]; [done|].
  rewrite bind_run. simpl. destruct (rows addr (st_token s) w).1 as [rs|] eqn:Hrows; [|done].
  intros (e & [He Hm]%find_first_Some & ->)%fmap_Some. split; [by do 2 eexists|].
  apply list_elem_of_fmap in He as (row & -> & Hrow). exists addr, pools, rs, row. auto 10.
Qed.

Lemma liveOnNode_None s op node rows mtch (w : W) :
  (liveOnNode s op node rows mtch w).1 = None → ¬ live_holds s w rows mtch node.
Proof.
  intros Hn (addr & pools & got & row & Hr & Hne & Hc & Ha & Hrows & Hin & Hm).
  unfold liveOnNode in Hn. rewrite bind_run in Hn. unfold gets, nodeClient in Hn. simpl in Hn.
  rewrite Hr in Hn. simpl in Hn. rewrite decide_False, Hc, decide_False in Hn by done.
  rewrite bind_run in Hn. simpl in Hn. rewrite Hrows in Hn.
  apply fmap_None in Hn. rewrite find_first_None in Hn.
  specialize (Hn (EntryFromSummary row)). rewrite Hn in Hm; [done|]. by apply list_elem_of_fmap_2.
Qed.

Lemma liveOnNode_inert s op node rows mtch :
  (∀ addr token, inert (rows addr token)) → inert (liveOnNode s op node rows mtch).
Proof.
  intros Hrows w. unfold liveOnNode. rewrite bind_run. unfold gets. simpl.
  destruct (nodeClient _ _ _ _ _); [|done]. rewrite bind_run. simpl. apply Hrows.
Qed.

Lemma rowsByClaimRef_inert `{!InertReads K} ref addr token : inert (rowsByClaimRef ref addr token).
Proof. intros w. apply SandboxesByClaimRef_inert. Qed.
Lemma rowByID_inert `{!InertReads K} id addr token : inert (rowByID id addr token).
Proof. intros w. unfold rowByID. rewrite bind_run. apply Sandbox_inert. Qed.

#[local] Opaque matchOnNode liveOnNode on_world on_index.

(** A scan of lookups that change nothing is the first result in the order. *)
Lemma scan_inert {T} (find : string → io W (option T)) nodes w :
  (∀ n, inert (find n)) → scan nodes find w = (head (omap (λ n, (find n w).1) nodes), w).
Proof.
  intros Hf. induction nodes as [|n nodes IH]; [done|]. csimpl. rewrite bind_run, (Hf n w).
  by destruct (find n w).1.
Qed.

Lemma scan_from {T} (P : T → Prop) (find : string → io W (option T)) nodes w x :
  (∀ n w y, (find n w).1 = Some y → P y) → (scan nodes find w).1 = Some x → P x.
Proof.
  intros Hf. revert w. induction nodes as [|n nodes IH]; intros w; [done|]. simpl. rewrite bind_run.
  destruct (find n w).1 as [y|] eqn:Hy; [|apply IH]. simpl. intros [= <-]. by eapply Hf.
Qed.

Lemma head_omap_Some {A B} (f : A → option B) l y :
  head (omap f l) = Some y → ∃ x, x ∈ l ∧ f x = Some y.
Proof.
  intros Hh. apply list_elem_of_omap. destruct (omap f l) as [|z l']; simplify_eq/=. constructor.
Qed.

Lemma head_omap_None {A B} (f : A → option B) l x :
  head (omap f l) = None → x ∈ l → f x = None.
Proof.
  intros Hh Hx. destruct (f x) as [y|] eqn:Hf; [|done].
  assert (y ∈ omap f l) as Hy by (apply list_elem_of_omap; eauto).
  destruct (omap f l); [by apply not_elem_of_nil in Hy|done].
Qed.

(** ** What resolution returns, for any world *)

Lemma resolve_indexed_from s op key rows mtch x w sb :
  (resolve_indexed s op key rows mtch (x, w)).1 = Some sb →
  from_match mtch sb ∧ ∃ n, (lookup key x).1 = Some n.
Proof.
  unfold resolve_indexed. rewrite bind_run, on_index_run. simpl.
  destruct (lookup key x).1 as [n|]; [|done]. rewrite bind_run, on_world_run. simpl.
  destruct (matchOnNode n mtch w).1 as [sb'|] eqn:Hm; simpl.
  - intros [= <-]. apply matchOnNode_Some in Hm as [? _]. eauto.
  - rewrite on_world_run. simpl. intros [? _]%liveOnNode_Some. eauto.
Qed.

Lemma resolve_indexed_index s op key rows mtch x w :
  (resolve_indexed s op key rows mtch (x, w)).2.1 = (lookup key x).2.
Proof.
  unfold resolve_indexed. rewrite bind_run, on_index_run. simpl.
  destruct (lookup key x).1 as [n|]; [|done]. rewrite bind_run, on_world_run. simpl.
  destruct (matchOnNode n mtch w).1; [done|]. by rewrite on_world_run.
Qed.

Lemma FirstHit_nodes_from ord (find : string → io W (option Api.Sandbox)) (P : Api.Sandbox → Prop) x w sb :
  (∀ n w y, (find n w).1 = Some y → P y) → (FirstHit_nodes ord find (x, w)).1 = Ok (Some sb) → P sb.
Proof.
  intros Hf. unfold FirstHit_nodes. rewrite bind_run. unfold reads. rewrite on_world_run. simpl. rewrite on_world_run.
  unfold FirstHit. destruct (ListNodes w); simpl; [|done]. rewrite bind_run. simpl. intros [= Hs]. by eapply scan_from.
Qed.

Lemma FirstHit_nodes_index ord (find : string → io W (option Api.Sandbox)) x w :
  (FirstHit_nodes ord find (x, w)).2.1 = x.
Proof. unfold FirstHit_nodes. rewrite bind_run. unfold reads. rewrite on_world_run. simpl. by rewrite on_world_run. Qed.

Lemma lookup_kept key x : (lookup key (lookup key x).2).1 = (lookup key x).1.
Proof.
  rewrite !lookup_view. unfold lookup. destruct (x_cur x !! key) eqn:Hc; [done|].
  destruct (x_prev x !! key) eqn:Hp; [|done]. simpl. rewrite view_storeLocked, decide_True by done.
  unfold view. by rewrite Hc, Hp.
Qed.

Lemma lookup_remember key node x : key ≠ "" → node ≠ "" → (lookup key (remember key node x)).1 = Some node.
Proof.
  intros Hk Hn. rewrite lookup_view. unfold remember. rewrite decide_False by tauto.
  by rewrite view_storeLocked, decide_True.
Qed.

Lemma remember_found_result key found (st : nodeIndex * W) : (remember_found key found st).1 = found.
Proof. unfold remember_found. destruct found as [[sb|]|]; by rewrite ?bind_run. Qed.

Lemma remember_found_index key found (st : nodeIndex * W) sb :
  key ≠ "" → (remember_found key found st).1 = Ok (Some sb) →
  sb_NodeName sb ≠ "" → is_Some (lookup key (remember_found key found st).2.1).1.
Proof.
  rewrite remember_found_result. intros Hk -> Hn. unfold remember_found, remember_in_index. destruct st as [x w].
  rewrite bind_run, on_index_run. simpl. rewrite lookup_remember by done. eauto.
Qed.

Lemma remember_found_world key found (st : nodeIndex * W) : (remember_found key found st).2.2 = st.2.
Proof. destruct st as [x w], found as [[sb|]|]; [|done..]. unfold remember_found. by rewrite bind_run. Qed.

#[local] Opaque remember_found.

Lemma resolve_from s ord op key rows mtch x w sb :
  key ≠ "" → (resolve s ord op key rows mtch (x, w)).1 = Ok (Some sb) →
  from_match mtch sb ∧
  (sb_NodeName sb ≠ "" → is_Some (lookup key (resolve s ord op key rows mtch (x, w)).2.1).1).
Proof.
  intros Hkey. unfold resolve. rewrite !bind_run.
  destruct (resolve_indexed s op key rows mtch (x, w)).1 as [sb'|] eqn:He; simpl.
  { intros [= <-]. apply resolve_indexed_from in He as [? [n Hn]]. split; [done|]. intros _.
    rewrite resolve_indexed_index, lookup_kept, Hn. eauto. }
  destruct (resolve_indexed s op key rows mtch (x, w)).2 as [x1 w1]. rewrite !bind_run.
  destruct (FirstHit_nodes (ord 0) _ (x1, w1)) as [found [x2 w2]] eqn:Hfh. simpl.
  assert (∀ sb', found = Ok (Some sb') → from_match mtch sb') as Hfrom.
  { intros sb' ->. eapply (FirstHit_nodes_from (ord 0)); [|by rewrite Hfh].
    intros n w' y Hy. by apply matchOnNode_Some in Hy as [? _]. }
  destruct found as [[sb'|]|e]; simpl; [| |by rewrite remember_found_result].
  - intros Hok. split.
    + apply Hfrom. by rewrite remember_found_result in Hok.
    + revert Hok. by apply remember_found_index.
  - set (live := if st_routed s then FirstHit_nodes (ord 1) (λ node, liveOnNode s op node rows mtch) else _).
    assert (∀ sb', (live (x2, w2)).1 = Ok (Some sb') → from_match mtch sb') as Hlive.
    { unfold live. destruct (st_routed s); [|done]. intros sb' Hsb'.
      eapply (FirstHit_nodes_from (ord 1)); [|exact Hsb'].
      intros n w' y Hy. by apply liveOnNode_Some in Hy as [? _]. }
    destruct (live (x2, w2)) as [found' [x3 w3]]. simpl in *. intros Hok. split.
    + apply Hlive. by rewrite remember_found_result in Hok.
    + revert Hok. by apply remember_found_index.
Qed.

(** ** What resolution finds, when lookups leave the world alone *)

(** Somebody holds a match. *)
Definition held (s : store) (w : W) (rows : nodeRows) (mtch : inventoryMatch) : Prop :=
  ∃ node, inventory_holds w mtch node ∨ live_holds s w rows mtch node.

Lemma resolve_indexed_inert s op key rows mtch x w :
  (∀ addr token, inert (rows addr token)) → (resolve_indexed s op key rows mtch (x, w)).2 = ((lookup key x).2, w).
Proof.
  intros Hr. unfold resolve_indexed. rewrite bind_run, on_index_run. simpl.
  destruct (lookup key x).1 as [n|]; [|done]. rewrite bind_run, on_world_run. simpl.
  assert ((matchOnNode n mtch w).2 = w) as -> by done.
  destruct (matchOnNode n mtch w).1; [done|]. rewrite on_world_run. simpl. by rewrite liveOnNode_inert.
Qed.

Lemma resolve_indexed_held s op key rows mtch x w sb :
  (resolve_indexed s op key rows mtch (x, w)).1 = Some sb → held s w rows mtch.
Proof.
  unfold resolve_indexed. rewrite bind_run, on_index_run. simpl.
  destruct (lookup key x).1 as [n|]; [|done]. rewrite bind_run, on_world_run. simpl.
  assert ((matchOnNode n mtch w).2 = w) as -> by done.
  destruct (matchOnNode n mtch w).1 as [sb'|] eqn:Hm; simpl.
  - intros _. apply matchOnNode_Some in Hm as [_ ?]. exists n. auto.
  - rewrite on_world_run. simpl. intros [_ ?]%liveOnNode_Some. exists n. auto.
Qed.

Lemma FirstHit_nodes_inert ord (find : string → io W (option Api.Sandbox)) x w l :
  (∀ n, inert (find n)) → ListNodes w = Ok l →
  FirstHit_nodes ord find (x, w) = (Ok (head (omap (λ n, (find n w).1) (ord l))), (x, w)).
Proof.
  intros Hf Hl. rewrite (surjective_pairing (FirstHit_nodes ord find (x, w))).
  unfold FirstHit_nodes. rewrite bind_run. unfold reads. rewrite on_world_run. simpl. rewrite on_world_run.
  unfold FirstHit. rewrite Hl. rewrite bind_run. simpl. by rewrite scan_inert.
Qed.

(** Only listed nodes can be reached. *)
Lemma held_listed `{!InventoryLaws W I good} s w rows mtch l node :
  good w → ListNodes w = Ok l → inventory_holds w mtch node ∨ live_holds s w rows mtch node → node ∈ l.
Proof.
  intros Hg Hl [(inv & e & Hi & _)|(addr & pools & got & row & _ & _ & Hc & _)].
  - by eapply inventory_listed.
  - destruct (NodeInventory_of w node) as [inv|e] eqn:Hi; [by eapply inventory_listed|].
    apply (capacity_err w node e) in Hi as [e' He']; [|done]. congruence.
Qed.

Lemma resolve_complete `{!InventoryLaws W I good} s ord op key rows mtch x w l :
  good w → ListNodes w = Ok l → fair ord → (∀ addr token, inert (rows addr token)) →
  match (resolve s ord op key rows mtch (x, w)).1 with
  | Ok (Some _) => held s w rows mtch
  | Ok None => ¬ held s w rows mtch
  | Err _ => False
  end.
Proof.
  intros Hg Hl Hord Hrows. unfold resolve. rewrite bind_run, resolve_indexed_inert by done.
  destruct (resolve_indexed s op key rows mtch (x, w)).1 as [sb|] eqn:He; simpl; [by eapply resolve_indexed_held|].
  rewrite !bind_run, (FirstHit_nodes_inert _ _ _ _ l) by done. simpl.
  destruct (head (omap _ (ord 0 l))) as [sb|] eqn:H0.
  { rewrite remember_found_result. simpl. apply head_omap_Some in H0 as (n & _ & [_ Hn]%matchOnNode_Some).
    exists n. auto. }
  assert (∀ node, ¬ inventory_holds w mtch node) as Hni.
  { intros node Hn. assert (node ∈ ord 0 l) as Hin.
    { rewrite (Hord 0). eapply (held_listed (good := good) s w rows mtch); [done|done|by left]. }
    apply (head_omap_None _ _ _ H0) in Hin. by apply matchOnNode_None in Hin. }
  destruct (st_routed s) eqn:Hr; simpl.
  - rewrite (FirstHit_nodes_inert _ _ _ _ l); [|intros n; by apply liveOnNode_inert|done]. simpl.
    rewrite remember_found_result. destruct (head (omap _ (ord 1 l))) as [sb|] eqn:H1.
    + apply head_omap_Some in H1 as (n & _ & [_ Hn]%liveOnNode_Some). exists n. auto.
    + intros [node [Hn|Hn]]; [by apply (Hni node)|].
      assert (node ∈ ord 1 l) as Hin by (rewrite (Hord 1); eapply (held_listed (good := good) s w rows mtch); [done|done|by right]).
      apply (head_omap_None _ _ _ H1) in Hin. by apply liveOnNode_None in Hin.
  - rewrite remember_found_result. intros [node [Hn|Hn]]; [by apply (Hni node)|].
    destruct Hn as (? & ? & ? & ? & ? & _). congruence.
Qed.

Lemma FirstHit_nodes_world ord (find : string → io W (option Api.Sandbox)) x w :
  (∀ n, inert (find n)) → (FirstHit_nodes ord find (x, w)).2.2 = w.
Proof.
  intros Hf. unfold FirstHit_nodes. rewrite bind_run. unfold reads. rewrite on_world_run. simpl. rewrite on_world_run.
  unfold FirstHit. destruct (ListNodes w); simpl; [|done]. rewrite bind_run. simpl. by rewrite scan_inert.
Qed.

(** A lookup whose row reads change nothing leaves the world alone. *)
Lemma resolve_world s ord op key rows mtch x w :
  (∀ addr token, inert (rows addr token)) → (resolve s ord op key rows mtch (x, w)).2.2 = w.
Proof.
  intros Hr. unfold resolve. rewrite bind_run, resolve_indexed_inert by done.
  destruct (resolve_indexed s op key rows mtch (x, w)).1; [done|]. rewrite !bind_run.
  pose proof (FirstHit_nodes_world (ord 0) (λ node, matchOnNode node mtch) (lookup key x).2 w) as H0.
  destruct (FirstHit_nodes (ord 0) _ _) as [f [x1 w1]]. simpl in H0. rewrite H0 by done.
  destruct f as [[sb|]|]; [by rewrite remember_found_world| |by rewrite remember_found_world].
  destruct (st_routed s); rewrite remember_found_world; [|done].
  apply FirstHit_nodes_world. intros n. by apply liveOnNode_inert.
Qed.

Lemma Get_world `{!InertReads K} s ord ns name x w : (Get s ord ns name (x, w)).2.2 = w.
Proof. unfold Get, lookupName. rewrite bind_run. simpl. apply resolve_world, rowsByClaimRef_inert. Qed.

Lemma from_match_name ns name sb :
  from_match (nameMatch ns name) sb → sb_Namespace sb = ns ∧ sb_Name sb = name.
Proof. intros (node & e & Hm & ->). by apply nameMatch_sandbox. Qed.

Lemma from_match_claim ns mtch sb :
  from_match (claimIDMatch ns mtch) sb →
  (∃ claim, sb_Annotations sb !! ClaimIDAnnotation = Some claim ∧ claim ≠ "" ∧ mtch claim = true) ∧
  (ns = "" ∨ sb_Namespace sb = ns).
Proof.
  intros (node & e & Hm & ->).
  unfold claimIDMatch in Hm. destruct (bool_decide (ie_ID e = "") || negb (mtch (ie_ID e))) eqn:Hid; [done|].
  apply orb_false_iff in Hid as [Hid%bool_decide_eq_false Hmt%negb_false_iff]. split.
  - exists (ie_ID e). rewrite entryToSandbox_annotations, synthAnnotations_claim, decide_False by done. auto.
  - apply orb_true_iff in Hm as [Hm%bool_decide_eq_true|Hm%bool_decide_eq_true]; [by left|right].
    pose proof (entryToSandbox_names node e) as Hn. rewrite <-Hn in Hm. done.
Qed.
End lemmas.

(** ** Properties *)

Section properties.
Context {W : Type} {I : InventorySource W} {K : SandboxdClient W} {C : MetadataCodec} {SO : SelectorOps}.

(** whatever the nodes answer and whatever the index holds, Get returns a
    sandbox of exactly the requested namespace and name, and afterwards the index
    resolves that name without a fan-out. *)
Theorem Get_sound (s : store) (ord : order) (ns name : string) (x : nodeIndex) (w : W) (sb : Api.Sandbox) :
  (Get s ord ns name (x, w)).1 = Ok sb →
  sb_Namespace sb = ns ∧ sb_Name sb = name ∧
  (sb_NodeName sb ≠ "" → is_Some (lookup (nameKey ns name) (Get s ord ns name (x, w)).2.1).1).
Proof.
  unfold Get, lookupName. rewrite bind_run. simpl.
  destruct (resolve _ _ _ _ _ _ _) as [r [x' w']] eqn:Hr. simpl. destruct r as [[sb'|]|]; simpl; [|done..].
  intros [= ->].
  destruct (resolve_from s ord "get" (nameKey ns name) (rowsByClaimRef (namespacedName ns name)) (nameMatch ns name) x w sb)
    as [Hf Hi]; [done|by rewrite Hr|]. rewrite Hr in Hi. apply from_match_name in Hf as [-> ->]. auto.
Qed.

(** C2: Get misses nothing and invents nothing: over an inventory that meets its
    contract and nodes whose lookups change nothing, it succeeds exactly when a
    readable inventory has an entry of that name or a reachable node indexes a
    claim of that name, whatever the resolution index holds and in whatever order
    the fan-outs answer; otherwise it answers NotFound. *)
Theorem Get_complete (good : W → Prop) `{!InventoryLaws W I good} `{!InertReads K}
    (s : store) (ord : order) (ns name : string) (x : nodeIndex) (w : W) (l : list string) :
  good w → ListNodes w = Ok l → fair ord →
  let r := (Get s ord ns name (x, w)).1 in
  (is_ok r = true ↔ ∃ node, inventory_holds w (nameMatch ns name) node ∨
     live_holds s w (rowsByClaimRef (namespacedName ns name)) (nameMatch ns name) node) ∧
  (∀ e, r = Err e → e = NewNotFound "sandboxes" name).
Proof.
  intros Hg Hl Hord r.
  pose proof (resolve_complete s ord "get" (nameKey ns name) (rowsByClaimRef (namespacedName ns name))
    (nameMatch ns name) x w l Hg Hl Hord (rowsByClaimRef_inert _)) as Hc.
  unfold r, Get, lookupName. rewrite bind_run. simpl.
  destruct (resolve _ _ _ _ _ _ _) as [[[sb|]|e] st]; simpl in *; [| |done].
  - split; [by split|done].
  - split; [by split|]. by intros e [= <-].
Qed.

(** a claim-id lookup returns a sandbox that carries, for Delete, a claim id
    the caller's match accepts, and never one of another namespace. *)
Theorem GetByClaimID_sound (s : store) (ord : order) (ns id : string) (mtch : string → bool)
    (x : nodeIndex) (w : W) (sb : Api.Sandbox) :
  (GetByClaimID s ord ns id mtch (x, w)).1 = Ok sb →
  (∃ claim, sb_Annotations sb !! ClaimIDAnnotation = Some claim ∧ claim ≠ "" ∧ mtch claim = true) ∧
  (ns = "" ∨ sb_Namespace sb = ns).
Proof.
  unfold GetByClaimID. rewrite bind_run. simpl.
  destruct (resolve _ _ _ _ _ _ _) as [r [x' w']] eqn:Hr. simpl. destruct r as [[sb'|]|]; simpl; [|done..].
  intros [= ->].
  destruct (resolve_from s ord "claim-id get" (claimKey ns id) (rowByID id) (claimIDMatch ns mtch) x w sb)
    as [Hf _]; [done|by rewrite Hr|]. by apply from_match_claim.
Qed.

(** an unpinned List is, node for node, what the readable inventories hold of
    the requested namespace and selectors, ordered by namespace and name; a node
    whose inventory cannot be read is omitted and fails nothing. *)
Theorem listInventories_spec (w : W) (ns : string) (ls : label_selector) (fs : field_selector) (l : list string) :
  ListNodes w = Ok l →
  ∃ items, listInventories w ns ls fs = Ok items ∧ Sorted sb_le items ∧
    ∀ sb, sb ∈ items ↔ ∃ node inv e, node ∈ l ∧ NodeInventory_of w node = Ok inv ∧ e ∈ ni_Entries inv ∧
      sb = entryToSandbox (ni_Node inv) e ∧ (ns = "" ∨ sb_Namespace sb = ns) ∧ selected sb ls fs = true.
Proof.
  intros Hl. unfold listInventories. rewrite Hl. eexists. split; [reflexivity|]. split; [apply Sorted_merge_sort, _|].
  intros sb. rewrite merge_sort_Permutation, list_elem_of_In, in_concat. split.
  - intros (sbs & Hsbs%list_elem_of_In & Hsb%list_elem_of_In).
    apply list_elem_of_fmap in Hsbs as (node & -> & Hnode).
    destruct (NodeInventory_of w node) as [inv|] eqn:Hi; [|by apply not_elem_of_nil in Hsb].
    apply elem_of_materialize in Hsb as (e & He & Hsb & Hns & Hsel). exists node, inv, e. auto 10.
  - intros (node & inv & e & Hnode & Hi & He & -> & Hns & Hsel).
    exists (materialize inv ns ls fs). split; apply list_elem_of_In.
    + apply list_elem_of_fmap. exists node. by rewrite Hi.
    + apply elem_of_materialize. eauto 10.
Qed.

(** a List, pinned to one name or not, never shows a sandbox of another
    namespace or one its selectors do not select, whatever the nodes answer. *)
Theorem List_isolation (s : store) (ord : order) (opts : ListOptions)
    (x : nodeIndex) (w : W) (items : list Api.Sandbox) :
  (List s ord opts (x, w)).1 = Ok items →
  ∃ ls fs, parseSelectors opts = Ok (ls, fs) ∧
    ∀ sb, sb ∈ items → (lo_Namespace opts = "" ∨ sb_Namespace sb = lo_Namespace opts) ∧ selected sb ls fs = true.
Proof.
  unfold List. destruct (parseSelectors opts) as [[ls fs]|]; [|done]. intros H. exists ls, fs. split; [done|].
  revert H. unfold listItems. destruct (pinnedName (lo_Namespace opts) fs) as [name|].
  2:{ unfold reads. rewrite on_world_run. simpl. unfold listInventories.
      destruct (ListNodes w) as [l|] eqn:Hl; [|done]. intros [= <-] sb.
      rewrite merge_sort_Permutation, list_elem_of_In, in_concat.
      intros (sbs & Hsbs%list_elem_of_In & Hsb%list_elem_of_In).
      apply list_elem_of_fmap in Hsbs as (node & -> & _).
      destruct (NodeInventory_of w node); [|by apply not_elem_of_nil in Hsb].
      apply elem_of_materialize in Hsb as (e & _ & _ & ? & ?). done. }
  assert (∀ found items', (∀ sb, found = Some sb → sb_Namespace sb = lo_Namespace opts) →
    selectedOne found None ls fs = Ok items' → ∀ sb, sb ∈ items' →
    (lo_Namespace opts = "" ∨ sb_Namespace sb = lo_Namespace opts) ∧ selected sb ls fs = true) as Hone.
  { intros found items' Hf. unfold selectedOne. destruct found as [sb0|]; [|intros [= <-] sb Hsb; by apply not_elem_of_nil in Hsb].
    destruct (selected sb0 ls fs) eqn:Hsel; intros [= <-] sb Hsb.
    - apply list_elem_of_singleton in Hsb as ->. auto.
    - by apply not_elem_of_nil in Hsb. }
  unfold listPinned. rewrite bind_run. destruct (lookupName s ord (lo_Namespace opts) name (x, w)) as [r [x1 w1]] eqn:Hr.
  simpl. destruct r as [[sb0|]|e].
  - destruct (negb (selected sb0 ls fs)) eqn:Hsel.
    + unfold pollPinned. rewrite bind_run.
      destruct (FirstHit_nodes (ord 2) _ (x1, w1)) as [[found|e] st] eqn:Hfh; simpl; [|done].
      apply Hone. intros sb ->. eapply (FirstHit_nodes_from (ord 2) _ (λ sb, sb_Namespace sb = lo_Namespace opts)); [|by rewrite Hfh].
      intros n w' y. cbv beta. rewrite bind_run. cbn [fst mret io_ret].
      destruct (matchOnNode n (nameMatch (lo_Namespace opts) name) w').1 as [z|] eqn:Hz; [|done].
      destruct (selected z ls fs); [|done]. intros [= <-]. apply matchOnNode_Some in Hz as [Hz _].
      by apply from_match_name in Hz as [? _].
    + apply (Hone (Some sb0)). intros sb [= <-]. unfold lookupName in Hr.
      destruct (resolve_from s ord "get" (nameKey (lo_Namespace opts) name)
        (rowsByClaimRef (namespacedName (lo_Namespace opts) name)) (nameMatch (lo_Namespace opts) name) x w sb0) as [Hf _];
        [done|by rewrite Hr|]. by apply from_match_name in Hf as [? _].
  - by apply (Hone None).
  - done.
Qed.
End properties.

(** ** Witnesses *)

#[local] Existing Instance Static.source.
#[local] Existing Instance Static.laws.

(** Selectors for the witnesses: every label set matches, a field selector pins a name or nothing. *)
Definition toy_selectors : SelectorOps := {|
  label_selector := unit;
  field_selector := option string;
  labels_Parse s := Ok tt;
  fields_ParseSelector s := Ok (cut_prefix "metadata.name=" s);
  label_Matches _ _ := true;
  field_Matches sel set := match sel with Some n => bool_decide (set !! "metadata.name" = Some n) | None => true end;
  field_RequiresExactMatch sel f := if decide (f = "metadata.name") then sel else None;
  field_Requirements sel := match sel with Some _ => ["metadata.name"] | None => [] end;
|}.

Definition sample_entry : InventoryEntry :=
  mkInventoryEntry "team/web" "sb_1" "Running" "img" "team/web" "" None None "" 0 0.
Definition sample_world : Static.StaticInventorySource :=
  Static.Put (mkNodeInventory "n1" "n1" [sample_entry] "10.0.0.1:7000" [] [] zero_time) Static.NewStaticInventorySource.
Definition sample_client : SandboxdClient Static.StaticInventorySource :=
  toy_client _ (λ _ _, mret (Err refused)) (λ _ _, Ok [sample_row]).
Definition sample_store : store := mkStore true "fleet".
Definition sample_index : nodeIndex := newNodeIndex 4.
Definition sample_sandbox : Api.Sandbox := entryToSandbox "n1" sample_entry.
Definition as_listed : order := λ _ l, l.

Lemma Get_sound_witness : sb_Namespace sample_sandbox = "team" ∧ sb_Name sample_sandbox = "web".
Proof.
  destruct (Get_sound (K := sample_client) (C := toy_codec) sample_store as_listed "team" "web" sample_index sample_world sample_sandbox)
    as (H1 & H2 & _); [vm_compute; reflexivity|exact (conj H1 H2)].
Defined.

Lemma Get_complete_witness :
  is_ok (Get (K := sample_client) (C := toy_codec) sample_store as_listed "team" "web" (sample_index, sample_world)).1 = true.
Proof.
  apply (Get_complete (K := sample_client) (C := toy_codec) (λ _, True) sample_store as_listed "team" "web" sample_index sample_world ["n1"]).
  - exact Logic.I.
  - vm_compute. reflexivity.
  - intros i l. reflexivity.
  - exists "n1". left. exists (mkNodeInventory "n1" "n1" [sample_entry] "10.0.0.1:7000" [] [] zero_time), sample_entry.
    split; [vm_compute; reflexivity|]. split; [constructor|vm_compute; reflexivity].
Defined.

Lemma GetByClaimID_sound_witness :
  ∃ claim, sb_Annotations sample_sandbox !! ClaimIDAnnotation = Some claim ∧ claim ≠ "" ∧ bool_decide (claim = "sb_1") = true.
Proof.
  apply (GetByClaimID_sound (K := sample_client) (C := toy_codec) sample_store as_listed "team" "sb_1" (λ c, bool_decide (c = "sb_1"))
    sample_index sample_world sample_sandbox). vm_compute. reflexivity.
Defined.

Lemma listInventories_spec_witness :
  ∃ items, listInventories (SO := toy_selectors) sample_world "team" (tt : @label_selector toy_selectors) (None : @field_selector toy_selectors) = Ok items ∧ sample_sandbox ∈ items.
Proof.
  destruct (listInventories_spec (SO := toy_selectors) sample_world "team" (tt : @label_selector toy_selectors)
    (None : @field_selector toy_selectors) ["n1"]) as (items & Hi & _ & Hin); [vm_compute; reflexivity|].
  exists items. split; [exact Hi|]. apply Hin.
  exists "n1", (mkNodeInventory "n1" "n1" [sample_entry] "10.0.0.1:7000" [] [] zero_time), sample_entry.
  split; [constructor|]. split; [vm_compute; reflexivity|]. split; [constructor|]. split; [reflexivity|].
  split; [right|]; vm_compute; reflexivity.
Defined.

Lemma List_isolation_witness :
  ∃ ls fs, parseSelectors (S := toy_selectors) (mkListOptions "team" "" "metadata.name=web" false) = Ok (ls, fs) ∧
    selected (S := toy_selectors) sample_sandbox ls fs = true.
Proof.
  destruct (List_isolation (K := sample_client) (C := toy_codec) (SO := toy_selectors) sample_store as_listed
    (mkListOptions "team" "" "metadata.name=web" false) sample_index sample_world [sample_sandbox]) as (ls & fs & Hp & Hin).
  - vm_compute. reflexivity.
  - exists ls, fs. split; [exact Hp|]. apply Hin. constructor.
Defined.
