(* ===== verification/StoreWatch.v ===== *)
(** * Watches (Watch and runWatch in pkg/scale/sandboxstore_impl.go)

    A watch lists once, then polls the inventories at a fixed cadence and emits
    the difference between what it knows and what the poll returned.  A watch
    pinned to one name asks the sandbox's node before it reports it deleted.

    One tick is a function of the store's state, with all the events it may emit;
    [WatchRun] is the goroutine that emits them to a consumer who may leave.  The
    argument [order] of [gone] is the order in which the known sandboxes are
    ranged over. *)

From S2P Require Import Prelude GoStd Api NodeIndex SandboxView Inventory FirstHit Client StoreRead.

(** ** Events *)

Inductive event_type := Added | Modified | Deleted | Bookmark.

Record event := mkEvent {
  ev_type : event_type;
  ev_object : Api.Sandbox;
}.

(** The bookmark that ends the initial events of a watch list. *)
Definition InitialEventsAnnotationKey : string := "k8s.io/initial-events-end".
Definition bookmark_object : Api.Sandbox :=
  mkSandbox "" "" ∅ {[ InitialEventsAnnotationKey := "true" ]} "" zero_time "" [] [].

(** A watch knows the last sandbox seen under each key. *)
Definition remember_items (items : list Api.Sandbox) (known : gmap string Api.Sandbox) : gmap string Api.Sandbox :=
  fold_left (λ m sb, <[objKey sb := sb]> m) items known.

(** The event of one polled sandbox, against what was known before the poll. *)
Definition item_event (known : gmap string Api.Sandbox) (sb : Api.Sandbox) : list event :=
  match known !! objKey sb with
  | None => [mkEvent Added sb]
  | Some prev => if decide (sb_ResourceVersion prev = sb_ResourceVersion sb) then [] else [mkEvent Modified sb]
  end.

Section watch.
Context {W : Type} {I : InventorySource W} {K : SandboxdClient W} {C : MetadataCodec} {SO : SelectorOps}.

(** The known sandboxes the poll did not return: kept when a pinned watch finds
    the node still holding them, deleted otherwise. *)
Fixpoint gone (held : Api.Sandbox → io W bool) (pinned : bool) (order : list string) (known cur : gmap string Api.Sandbox) :
    io W (gmap string Api.Sandbox * list event) :=
  match order with
  | [] => mret (cur, [])
  | k :: order =>
      match known !! k, cur !! k with
      | Some prev, None =>
          keep ← (if pinned then held prev else mret false);
          if keep : bool
          then gone held pinned order known (<[k := prev]> cur)
          else '(cur, events) ← gone held pinned order known cur; mret (cur, mkEvent Deleted prev :: events)
      | _, _ => gone held pinned order known cur
      end
  end.

(** The initial list; a failed one is logged and the watch goes on from nothing. *)
Definition watch_initial (s : store) (ord : order) (opts : ListOptions) (labelSel : label_selector) (fieldSel : field_selector) :
    io (nodeIndex * W) (gmap string Api.Sandbox * list event) :=
  items ← listItems s ord (lo_Namespace opts) labelSel fieldSel;
  let bookmark := if lo_WatchList opts then [mkEvent Bookmark bookmark_object] else [] in
  mret match items with
       | Err _ => (∅, bookmark)
       | Ok items => (remember_items items ∅, (mkEvent Added <$> items) ++ bookmark)
       end.

Definition watch_poll (s : store) (ord : order) (opts : ListOptions) (labelSel : label_selector) (fieldSel : field_selector)
    (known : gmap string Api.Sandbox) : io (nodeIndex * W) (result (list Api.Sandbox)) :=
  match pinnedName (lo_Namespace opts) fieldSel with
  | Some name =>
      pollPinned s ord (lo_Namespace opts) name (known !! namespacedName (lo_Namespace opts) name) labelSel fieldSel
  | None => reads (λ w, listInventories w (lo_Namespace opts) labelSel fieldSel)
  end.

(** One tick: what is known afterwards and the events emitted; a failed poll
    emits nothing and forgets nothing. *)
Definition watch_tick (s : store) (ord : order) (opts : ListOptions) (labelSel : label_selector) (fieldSel : field_selector)
    (range : list string → list string) (known : gmap string Api.Sandbox) : io (nodeIndex * W) (gmap string Api.Sandbox * list event) :=
  items ← watch_poll s ord opts labelSel fieldSel known;
  match items with
  | Err _ => mret (known, [])
  | Ok items =>
      let cur := remember_items items ∅ in
      let pinned := bool_decide (is_Some (pinnedName (lo_Namespace opts) fieldSel)) in
      '(cur, deleted) ← on_world (gone (λ sb, heldByNode s sb labelSel fieldSel) pinned (range (sorted_keys known)) known cur);
      mret (cur, concat (item_event known <$> items) ++ deleted)
  end.
End watch.

(** ** Specification: a client that replays the events *)

Definition replay_one (cache : gmap string Api.Sandbox) (e : event) : gmap string Api.Sandbox :=
  match ev_type e with
  | Added | Modified => <[objKey (ev_object e) := ev_object e]> cache
  | Deleted => delete (objKey (ev_object e)) cache
  | Bookmark => cache
  end.
Definition replay (events : list event) (cache : gmap string Api.Sandbox) : gmap string Api.Sandbox := fold_left replay_one events cache.

(** The client holds the sandboxes the watch knows, in the same versions. *)
Definition in_step (cache known : gmap string Api.Sandbox) : Prop :=
  ∀ k, sb_ResourceVersion <$> cache !! k = sb_ResourceVersion <$> known !! k.

(** An event stream is coherent from a cache when it adds only what is absent and
    modifies or deletes only what is present. *)
Fixpoint coherent (events : list event) (cache : gmap string Api.Sandbox) : Prop :=
  match events with
  | [] => True
  | e :: events =>
      match ev_type e with
      | Added => cache !! objKey (ev_object e) = None
      | Modified | Deleted => is_Some (cache !! objKey (ev_object e))
      | Bookmark => True
      end ∧ coherent events (replay_one cache e)
  end.

(** Keys of the known map are the keys of its sandboxes. *)
Definition keyed (known : gmap string Api.Sandbox) : Prop := map_Forall (λ k sb, objKey sb = k) known.

(** ** Lemmas *)

Lemma coherent_app e1 e2 cache : coherent (e1 ++ e2) cache ↔ coherent e1 cache ∧ coherent e2 (replay e1 cache).
Proof. revert cache. induction e1 as [|e e1 IH]; intros cache; simpl; [tauto|]. rewrite IH. tauto. Qed.

Lemma replay_app e1 e2 cache : replay (e1 ++ e2) cache = replay e2 (replay e1 cache).
Proof. apply fold_left_app. Qed.

Lemma remember_items_keyed items known : keyed known → keyed (remember_items items known).
Proof.
  revert known. induction items as [|sb items IH]; intros known Hk; [done|]. apply IH.
  intros k sb' [[<- <-]|[_ H]]%lookup_insert_Some; [done|by apply Hk].
Qed.

Lemma remember_items_lookup items known k :
  NoDup (objKey <$> items) →
  remember_items items known !! k =
  match find_first (λ sb, bool_decide (objKey sb = k)) items with Some sb => Some sb | None => known !! k end.
Proof.
  revert known. induction items as [|sb items IH]; intros known Hnd; [done|].
  apply NoDup_cons in Hnd as [Hsb Hnd]. simpl. unfold remember_items in *. simpl. rewrite IH by done.
  case_bool_decide as Hk.
  - subst. destruct (find_first _ items) as [sb'|] eqn:Hf; [|by rewrite lookup_insert_eq].
    apply find_first_Some in Hf as [Hin He%bool_decide_eq_true]. exfalso. apply Hsb. rewrite <-He. by apply list_elem_of_fmap_2.
  - destruct (find_first _ items); [done|]. by rewrite lookup_insert_ne.
Qed.

Lemma in_step_None cache known k : in_step cache known → cache !! k = None ↔ known !! k = None.
Proof. intros H. specialize (H k). destruct (cache !! k), (known !! k); done. Qed.

(** One polled sandbox, when the cache and [known] agree on its key. *)
Lemma item_event_replay known sb cache :
  sb_ResourceVersion <$> cache !! objKey sb = sb_ResourceVersion <$> known !! objKey sb →
  coherent (item_event known sb) cache ∧
  (∀ k, k ≠ objKey sb → replay (item_event known sb) cache !! k = cache !! k) ∧
  sb_ResourceVersion <$> replay (item_event known sb) cache !! objKey sb = Some (sb_ResourceVersion sb).
Proof.
  intros Hk. unfold item_event. destruct (known !! objKey sb) as [prev|] eqn:Hp; simpl in *.
  - apply fmap_Some in Hk as (c & Hc & Hv). destruct (decide _) as [He|He]; simpl.
    + rewrite Hc. simpl. by rewrite <-Hv, He.
    + unfold replay_one; simpl. split; [split; [rewrite Hc; eauto|done]|].
      split; [intros k Hne; by apply lookup_insert_ne|]. by rewrite lookup_insert_eq.
  - unfold replay_one; simpl. apply fmap_None in Hk. split; [done|].
    split; [intros k Hne; by apply lookup_insert_ne|]. by rewrite lookup_insert_eq.
Qed.

Definition polled (items : list Api.Sandbox) (k : string) : option Api.Sandbox :=
  find_first (λ sb, bool_decide (objKey sb = k)) items.

Lemma polled_None items k : k ∉ objKey <$> items → polled items k = None.
Proof.
  intros Hn. apply find_first_None. intros sb Hsb. apply bool_decide_eq_false. intros <-. by apply Hn, list_elem_of_fmap_2.
Qed.

(** The events of all polled sandboxes: coherent, and the cache then has every
    polled sandbox in its polled version. *)
Lemma item_events_replay known items cache :
  NoDup (objKey <$> items) →
  (∀ sb, sb ∈ items → sb_ResourceVersion <$> cache !! objKey sb = sb_ResourceVersion <$> known !! objKey sb) →
  coherent (concat (item_event known <$> items)) cache ∧
  ∀ k, sb_ResourceVersion <$> replay (concat (item_event known <$> items)) cache !! k =
       match polled items k with
       | Some sb => Some (sb_ResourceVersion sb)
       | None => sb_ResourceVersion <$> cache !! k
       end.
Proof.
  revert cache. induction items as [|sb items IH]; intros cache Hnd Hstep; [done|].
  apply NoDup_cons in Hnd as [Hsb Hnd]. csimpl. rewrite coherent_app, replay_app.
  destruct (item_event_replay known sb cache) as (Hco & Hne & Hv); [apply Hstep; constructor|].
  destruct (IH (replay (item_event known sb) cache) Hnd) as [IH1 IH2].
  { intros sb' Hin. rewrite Hne; [apply Hstep; by right|]. intros He. apply Hsb. rewrite <-He. by apply list_elem_of_fmap_2. }
  split; [done|]. intros k. rewrite IH2. unfold polled at 2. csimpl. case_bool_decide as Hk.
  - subst k. by rewrite polled_None.
  - fold (polled items k). by rewrite Hne.
Qed.

Section watch_lemmas.
Context {W : Type}.

(** The loop over what the poll did not return. *)
Lemma gone_spec (held : Api.Sandbox → io W bool) pinned order known cur w cache :
  NoDup order → keyed known →
  (∀ k, k ∈ order → is_Some (known !! k)) →
  (∀ k, sb_ResourceVersion <$> cache !! k =
        match cur !! k with Some sb => Some (sb_ResourceVersion sb)
        | None => if decide (k ∈ order) then sb_ResourceVersion <$> known !! k else None end) →
  keyed cur →
  let r := (gone held pinned order known cur w).1 in
  coherent r.2 cache ∧ in_step (replay r.2 cache) r.1 ∧ keyed r.1.
Proof.
  intros Hnd Hkeyed Hknown. revert cur w cache Hnd Hknown.
  induction order as [|k order IH]; intros cur w cache Hnd Hknown Hc Hcur; cbn [gone].
  { simpl. split; [done|]. split; [|done]. intros k. rewrite Hc. by destruct (cur !! k). }
  apply NoDup_cons in Hnd as [Hk Hnd].
  assert (∀ k', k' ∈ order → is_Some (known !! k')) as Hknown' by (intros k' ?; apply Hknown; by right).
  destruct (Hknown k (list_elem_of_here _ _)) as [prev Hprev]. rewrite Hprev.
  pose proof (Hkeyed _ _ Hprev) as Hkey. simpl in Hkey.
  destruct (cur !! k) as [sb|] eqn:Hck.
  { apply IH; [done|done| |done]. intros k'. rewrite Hc. destruct (cur !! k') eqn:Hck'; [done|].
    destruct (decide (k' = k)) as [->|Hne]; [congruence|].
    destruct (decide (k' ∈ k :: order)) as [Hin|Hin], (decide (k' ∈ order)) as [Hin'|Hin']; try done; exfalso;
      rewrite elem_of_cons in Hin; tauto. }
  assert (sb_ResourceVersion <$> cache !! k = Some (sb_ResourceVersion prev)) as Hcache.
  { rewrite Hc, Hck, decide_True, Hprev by constructor. done. }
  rewrite bind_run. destruct ((if pinned then held prev else mret false) w) as [keep w1]. cbn [fst snd]. destruct keep.
  - apply IH; [done|done| |].
    + intros k'. destruct (decide (k' = k)) as [->|Hne]; [by rewrite lookup_insert_eq|].
      rewrite lookup_insert_ne by done. rewrite Hc. destruct (cur !! k'); [done|].
      destruct (decide (k' ∈ k :: order)) as [Hin|Hin], (decide (k' ∈ order)) as [Hin'|Hin']; try done; exfalso;
        rewrite elem_of_cons in Hin; tauto.
    + intros k' sb' [[<- <-]|[_ H]]%lookup_insert_Some; [done|by apply Hcur].
  - rewrite bind_run. specialize (IH cur w1 (delete k cache) Hnd Hknown').
    destruct (gone held pinned order known cur w1) as [[cur' events] w2]. cbn [fst snd mret io_ret] in *.
    simpl in *. change (replay_one cache (mkEvent Deleted prev)) with (delete (objKey prev) cache). rewrite Hkey.
    destruct IH as (H1 & H2 & H3); [|done|].
    + intros k'. destruct (decide (k' = k)) as [->|Hne].
      * by rewrite lookup_delete_eq, Hck, decide_False by done.
      * rewrite lookup_delete_ne by done. rewrite Hc. destruct (cur !! k'); [done|].
        destruct (decide (k' ∈ k :: order)) as [Hin|Hin], (decide (k' ∈ order)) as [Hin'|Hin']; try done; exfalso;
          rewrite elem_of_cons in Hin; tauto.
    + split; [|done]. split; [|done]. destruct (cache !! k); [eauto|done].
Qed.
End watch_lemmas.

(** ** Properties *)

Section properties.
Context {W : Type} {I : InventorySource W} {K : SandboxdClient W} {C : MetadataCodec} {SO : SelectorOps}.

Lemma initial_replays (s : store) (ord : order) (opts : ListOptions) (ls : label_selector) (fs : field_selector) (st : nodeIndex * W) :
  (∀ items, (listItems s ord (lo_Namespace opts) ls fs st).1 = Ok items → NoDup (objKey <$> items)) →
  let '((known, events), _) := watch_initial s ord opts ls fs st in
  coherent events ∅ ∧ in_step (replay events ∅) known ∧ keyed known.
Proof.
  intros Hinit.
  unfold watch_initial. rewrite bind_run.
  destruct (listItems s ord (lo_Namespace opts) ls fs st) as [r st1]. cbn [fst snd mret io_ret] in *.
  set (bookmark := if lo_WatchList opts then _ else _).
  assert (∀ cache, coherent bookmark cache ∧ replay bookmark cache = cache) as Hb.
  { intros cache. unfold bookmark. by destruct (lo_WatchList opts). }
  destruct r as [items|e].
  2:{ destruct (Hb ∅) as [H1 H2]. split; [done|]. rewrite H2. split; [by intros k|apply map_Forall_empty]. }
  specialize (Hinit items eq_refl).
  destruct (item_events_replay ∅ items ∅ Hinit) as [H1 H2]; [done|].
  assert (concat (item_event ∅ <$> items) = mkEvent Added <$> items) as He.
  { clear. induction items as [|sb items IH]; [done|]. csimpl. by rewrite IH. }
  rewrite He in *. rewrite coherent_app, replay_app. destruct (Hb (replay (mkEvent Added <$> items) ∅)) as [H3 H4].
  rewrite H4. split; [done|]. split; [|apply remember_items_keyed, map_Forall_empty].
  intros k. rewrite H2, remember_items_lookup by done. unfold polled. by destruct (find_first _ items).
Qed.

Lemma tick_replays (s : store) (ord : order) (opts : ListOptions) (ls : label_selector) (fs : field_selector)
    (range : list string → list string) (st : nodeIndex * W) known cache :
  (∀ l, range l ≡ₚ l) → keyed known → in_step cache known →
  (∀ items, (watch_poll s ord opts ls fs known st).1 = Ok items → NoDup (objKey <$> items)) →
  let '((known', events), _) := watch_tick s ord opts ls fs range known st in
  coherent events cache ∧ in_step (replay events cache) known' ∧ keyed known'.
Proof.
  intros Hrange Hkeyed Hstep Hnd.
  unfold watch_tick. rewrite bind_run.
  destruct (watch_poll s ord opts ls fs known st) as [r st1]. cbn [fst snd] in *.
  destruct r as [items|e]; [|done]. specialize (Hnd items eq_refl).
  destruct (item_events_replay known items cache Hnd) as [H1 H2]; [by intros sb _; apply Hstep|].
  rewrite bind_run. destruct st1 as [x1 w1]. rewrite on_world_run.
  set (cur := remember_items items ∅). set (pinned := bool_decide _).
  pose proof (gone_spec (λ sb, heldByNode s sb ls fs) pinned (range (sorted_keys known)) known cur w1
    (replay (concat (item_event known <$> items)) cache)) as Hg.
  destruct (gone (λ sb, heldByNode s sb ls fs) pinned (range (sorted_keys known)) known cur w1) as [[known' deleted] w2].
  cbn [fst snd mret io_ret] in *. rewrite coherent_app, replay_app.
  destruct Hg as (H3 & H4 & H5).
  + rewrite (Hrange (sorted_keys known)). apply sorted_keys_NoDup.
  + done.
  + intros k Hk. rewrite (Hrange (sorted_keys known)) in Hk. by apply elem_of_sorted_keys.
  + intros k. rewrite H2. unfold cur. rewrite remember_items_lookup by done. fold (polled items k).
    destruct (polled items k); [done|]. rewrite lookup_empty, (Hstep k).
    destruct (decide (k ∈ range (sorted_keys known))) as [Hin|Hin]; [done|].
    rewrite (Hrange (sorted_keys known)), elem_of_sorted_keys in Hin.
    destruct (known !! k); [|done]. exfalso. apply Hin. eauto.
  + apply remember_items_keyed, map_Forall_empty.
  + done.
Qed.

(** a client that replays a watch sees what the watch knows: the initial
    events bring an empty client in step, and every tick, whatever the nodes
    answer and in whatever order the known sandboxes are ranged over, keeps a
    client in step with events that add only what it lacks and modify or delete
    only what it has, as long as the listed sandboxes have distinct names. *)
Theorem watch_replay (s : store) (ord : order) (opts : ListOptions) (ls : label_selector) (fs : field_selector)
    (range : list string → list string) (st : nodeIndex * W) :
  (∀ l, range l ≡ₚ l) →
  (∀ items, (listItems s ord (lo_Namespace opts) ls fs st).1 = Ok items → NoDup (objKey <$> items)) →
  (let '((known, events), _) := watch_initial s ord opts ls fs st in
     coherent events ∅ ∧ in_step (replay events ∅) known ∧ keyed known) ∧
  (∀ known cache, keyed known → in_step cache known →
     (∀ items, (watch_poll s ord opts ls fs known st).1 = Ok items → NoDup (objKey <$> items)) →
     let '((known', events), _) := watch_tick s ord opts ls fs range known st in
     coherent events cache ∧ in_step (replay events cache) known' ∧ keyed known').
Proof.
  intros Hrange Hinit. split; [by apply initial_replays|]. intros known cache ???. by apply tick_replays.
Qed.
End properties.

(** ** Witnesses *)

#[local] Existing Instance Static.source.

Definition all_sandboxes : ListOptions := mkListOptions "" "" "" false.
Notation "'no_labels'" := (tt : @label_selector toy_selectors) (at level 0).
Notation "'no_fields'" := (None : @field_selector toy_selectors) (at level 0).

Lemma watch_replay_witness :
  let '((known, events), _) := watch_initial (K := sample_client) (C := toy_codec) (SO := toy_selectors) sample_store as_listed
    all_sandboxes no_labels no_fields (sample_index, sample_world) in
  in_step (replay events ∅) known.
Proof.
  destruct (watch_replay (K := sample_client) (C := toy_codec) (SO := toy_selectors) sample_store as_listed
    all_sandboxes no_labels no_fields (λ l, l) (sample_index, sample_world)) as [H _].
  - intros l. reflexivity.
  - intros items Hi. vm_compute in Hi. injection Hi as <-.
    apply (bool_decide_eq_true_1 (NoDup _)). vm_compute. reflexivity.
  - destruct (watch_initial _ _ _ _ _ _) as [[known events] st]. apply H.
Defined.

(** Two nodes each hold a claim named [team/web]. *)
Definition twin_entry : InventoryEntry :=
  mkInventoryEntry "team/web" "sb_2" "Running" "img" "team/web" "" None None "" 0 0.
Definition twin_world : Static.StaticInventorySource :=
  Static.Put (mkNodeInventory "n2" "n2" [twin_entry] "10.0.0.2:7000" [] [] zero_time) sample_world.
Definition twin_initial := watch_initial (K := sample_client) (C := toy_codec) (SO := toy_selectors) sample_store as_listed
  all_sandboxes no_labels no_fields (sample_index, twin_world).
Definition twin_tick := watch_tick (K := sample_client) (C := toy_codec) (SO := toy_selectors) sample_store as_listed
  all_sandboxes no_labels no_fields (λ l, l) (twin_initial.1.1) (sample_index, twin_world).

(** With two claims of one name the hypothesis of [watch_replay] matters: nothing
    changes between the initial list and the next poll, yet the poll emits a
    Modified, every poll does, and the client is left with the other claim than
    the one the watch knows. *)
Lemma watch_twins_never_settle :
  ev_type <$> twin_tick.1.2 = [Modified] ∧
  twin_tick.1.1 = twin_initial.1.1 ∧
  sb_ResourceVersion <$> replay twin_tick.1.2 (replay twin_initial.1.2 ∅) !! "team/web" ≠
  sb_ResourceVersion <$> twin_tick.1.1 !! "team/web".
Proof. split_and!; vm_compute; [reflexivity|reflexivity|discriminate]. Qed.
