(* ===== verification/WatchRun.v ===== *)
(** * The goroutine of a watch (Watch and runWatch in pkg/scale/sandboxstore_impl.go)

    [StoreWatch] says what one tick of a watch finds; here is the loop that emits it,
    event by event, to a consumer who may leave at any of them.  [stopped n] is the
    outcome of the select once [n] events are sent: whether the consumer is gone or
    the context ended.  The state of the goroutine is what it has sent and the
    store's. *)

From S2P Require Import Prelude GoStd Api NodeIndex SandboxView Inventory FirstHit Client StoreRead StoreWatch.

Section run.
Context {W : Type} {I : InventorySource W} {K : SandboxdClient W} {C : MetadataCodec} {SO : SelectorOps}.
Context (s : store) (ord : order) (opts : ListOptions) (labelSel : label_selector) (fieldSel : field_selector).
Context (stopped : nat → bool).

Abbreviation goroutine := (io (list event * (nodeIndex * W))).

(** Whether the event was taken. *)
Definition emit (e : event) : goroutine bool := λ '(sent, st),
  if stopped (length sent) then (false, (sent, st)) else (true, (sent ++ [e], st)).

(** The loops return what they built, or nothing once the consumer is gone. *)
Fixpoint emit_initial (items : list Api.Sandbox) (known : gmap string Api.Sandbox) : goroutine (option (gmap string Api.Sandbox)) :=
  match items with
  | [] => mret (Some known)
  | sb :: items =>
      taken ← emit (mkEvent Added sb);
      if taken : bool then emit_initial items (<[objKey sb := sb]> known) else mret None
  end.

Definition run_initial : goroutine (option (gmap string Api.Sandbox)) :=
  items ← silently (listItems s ord (lo_Namespace opts) labelSel fieldSel);
  known ← match items with Err _ => mret (Some ∅) | Ok items => emit_initial items ∅ end;
  match known with
  | None => mret None
  | Some known =>
      if lo_WatchList opts then taken ← emit (mkEvent Bookmark bookmark_object); if taken : bool then mret (Some known) else mret None
      else mret (Some known)
  end.

Fixpoint emit_items (known : gmap string Api.Sandbox) (items : list Api.Sandbox) (cur : gmap string Api.Sandbox) :
    goroutine (option (gmap string Api.Sandbox)) :=
  match items with
  | [] => mret (Some cur)
  | sb :: items =>
      let cur := <[objKey sb := sb]> cur in
      match known !! objKey sb with
      | None => taken ← emit (mkEvent Added sb); if taken : bool then emit_items known items cur else mret None
      | Some prev =>
          if decide (sb_ResourceVersion prev = sb_ResourceVersion sb) then emit_items known items cur
          else taken ← emit (mkEvent Modified sb); if taken : bool then emit_items known items cur else mret None
      end
  end.

Fixpoint emit_gone (pinned : bool) (order : list string) (known cur : gmap string Api.Sandbox) :
    goroutine (option (gmap string Api.Sandbox)) :=
  match order with
  | [] => mret (Some cur)
  | k :: order =>
      match known !! k, cur !! k with
      | Some prev, None =>
          keep ← (if pinned then silently (on_world (heldByNode s prev labelSel fieldSel)) else mret false);
          if keep : bool then emit_gone pinned order known (<[k := prev]> cur)
          else taken ← emit (mkEvent Deleted prev); if taken : bool then emit_gone pinned order known cur else mret None
      | _, _ => emit_gone pinned order known cur
      end
  end.

Definition run_tick (range : list string → list string) (known : gmap string Api.Sandbox) : goroutine (option (gmap string Api.Sandbox)) :=
  items ← silently (watch_poll s ord opts labelSel fieldSel known);
  match items with
  | Err _ => mret (Some known)
  | Ok items =>
      cur ← emit_items known items ∅;
      match cur with
      | None => mret None
      | Some cur => emit_gone (bool_decide (is_Some (pinnedName (lo_Namespace opts) fieldSel))) (range (sorted_keys known)) known cur
      end
  end.

(** The ticks before the consumer leaves between two of them, each with the order in
    which the known sandboxes are ranged over. *)
Fixpoint run_ticks (ranges : list (list string → list string)) (known : gmap string Api.Sandbox) : goroutine (option (gmap string Api.Sandbox)) :=
  match ranges with
  | [] => mret (Some known)
  | range :: ranges =>
      known ← run_tick range known;
      match known with None => mret None | Some known => run_ticks ranges known end
  end.

Definition runWatch (ranges : list (list string → list string)) : goroutine (option (gmap string Api.Sandbox)) :=
  known ← run_initial;
  match known with None => mret None | Some known => run_ticks ranges known end.

End run.

(** [Watch]: a request whose selectors do not parse opens no watch. *)
Definition Watch {W : Type} {I : InventorySource W} {K : SandboxdClient W} {C : MetadataCodec} {SO : SelectorOps} (s : store) (ord : order) (opts : ListOptions) :
    result ((nat → bool) → list (list string → list string) → io (list event * (nodeIndex * W)) (option (gmap string Api.Sandbox))) :=
  match parseSelectors opts with
  | Err e => Err e
  | Ok (labelSel, fieldSel) => Ok (runWatch s ord opts labelSel fieldSel)
  end.

Section spec.
Context {W : Type} {I : InventorySource W} {K : SandboxdClient W} {C : MetadataCodec} {SO : SelectorOps}.
Context (s : store) (ord : order) (opts : ListOptions) (labelSel : label_selector) (fieldSel : field_selector).
Context (stopped : nat → bool).
Abbreviation goroutine := (io (list event * (nodeIndex * W))).

(** ** Specification: what is sent is the start of what there is to send *)

(** A loop that has [events] to send, ends with [known] and leaves the store in
    [st'] sends a part of them, from the first; all of them, and ends so, unless the
    consumer left before one. *)
Definition sends (m : goroutine (option (gmap string Api.Sandbox))) (st : nodeIndex * W) (known : gmap string Api.Sandbox) (events : list event) (st' : nodeIndex * W) : Prop :=
  ∀ sent, match m (sent, st) with
          | (Some k, (sent', st2)) => k = known ∧ sent' = sent ++ events ∧ st2 = st'
          | (None, (sent', _)) => ∃ pre e post, events = pre ++ e :: post ∧ sent' = sent ++ pre ∧ stopped (length sent') = true
          end.

Lemma sends_ret st known : sends (mret (Some known)) st known [] st.
Proof. intros sent. simpl. by rewrite app_nil_r. Qed.

Lemma sends_emit e m st known events st' : sends m st known events st' →
  sends (taken ← emit stopped e; if taken : bool then m else mret None) st known (e :: events) st'.
Proof.
  intros Hm sent. rewrite bind_run. unfold emit. destruct (stopped (length sent)) eqn:Hs; cbn [fst snd mret io_ret].
  - exists [], e, events. by rewrite app_nil_r.
  - specialize (Hm (sent ++ [e])). destruct (m (sent ++ [e], st)) as [[k|] [sent' st2]].
    + destruct Hm as (-> & -> & ->). by rewrite <-app_assoc.
    + destruct Hm as (pre & e' & post & -> & -> & Hst). exists (e :: pre), e', post. split_and!; [done|by rewrite <-app_assoc|done].
Qed.

Lemma sends_silent {A} (m : io (nodeIndex * W) A) (k : A → goroutine (option (gmap string Api.Sandbox))) st known events st' :
  sends (k (m st).1) (m st).2 known events st' → sends (a ← silently m; k a) st known events st'.
Proof. intros Hk sent. rewrite bind_run, silently_run. apply Hk. Qed.

Lemma sends_bind m (k : gmap string Api.Sandbox → goroutine (option (gmap string Api.Sandbox))) st known1 events1 st1 known2 events2 st2 :
  sends m st known1 events1 st1 → sends (k known1) st1 known2 events2 st2 →
  sends (known ← m; match known with None => mret None | Some known => k known end) st known2 (events1 ++ events2) st2.
Proof.
  intros Hm Hk sent. rewrite bind_run. specialize (Hm sent). destruct (m (sent, st)) as [[k1|] [sent1 st1']]; cbn [fst snd].
  - destruct Hm as (-> & -> & ->). specialize (Hk (sent ++ events1)). destruct (k known1 (sent ++ events1, st1)) as [[k2|] [sent2 st2']].
    + destruct Hk as (-> & -> & ->). by rewrite <-app_assoc.
    + destruct Hk as (pre & e & post & -> & -> & Hst). exists (events1 ++ pre), e, post. split_and!; [by rewrite <-app_assoc|by rewrite <-app_assoc|done].
  - destruct Hm as (pre & e & post & -> & -> & Hst). exists pre, e, (post ++ events2). split_and!; [by rewrite <-app_assoc|done|done].
Qed.

Lemma sends_initial items known st : sends (emit_initial stopped items known) st (remember_items items known) (mkEvent Added <$> items) st.
Proof.
  revert known. induction items as [|sb items IH]; intros known; cbn [emit_initial]; [apply sends_ret|].
  csimpl. apply sends_emit. apply IH.
Qed.

Lemma sends_items known items cur st : sends (emit_items stopped known items cur) st (remember_items items cur) (concat (item_event known <$> items)) st.
Proof.
  revert cur. induction items as [|sb items IH]; intros cur; cbn [emit_items]; [apply sends_ret|]. csimpl. unfold item_event at 1.
  destruct (known !! objKey sb) as [prev|]; [|apply sends_emit, IH]. case_decide; [apply IH|apply sends_emit, IH].
Qed.

Lemma sends_gone pinned order known cur st :
  let out := on_world (gone (λ sb, heldByNode s sb labelSel fieldSel) pinned order known cur) st in
  sends (emit_gone s labelSel fieldSel stopped pinned order known cur) st out.1.1 out.1.2 out.2.
Proof.
  cbv zeta. destruct st as [x w]. rewrite on_world_run.
  revert cur w. induction order as [|k order IH]; intros cur w; cbn [emit_gone gone]; [apply sends_ret|].
  destruct (known !! k) as [prev|]; [|apply IH]. destruct (cur !! k) as [sb|] eqn:Hcur; [apply IH|]. rewrite bind_run.
  assert (∀ k1 (w1 : W), (k1 = false → sends (taken ← emit stopped (mkEvent Deleted prev); if taken : bool then emit_gone s labelSel fieldSel stopped pinned order known cur else mret None) (x, w1)
      (('(cur, events) ← gone (λ sb, heldByNode s sb labelSel fieldSel) pinned order known cur; mret (cur, mkEvent Deleted prev :: events)) w1).1.1
      (('(cur, events) ← gone (λ sb, heldByNode s sb labelSel fieldSel) pinned order known cur; mret (cur, mkEvent Deleted prev :: events)) w1).1.2
      (x, (('(cur, events) ← gone (λ sb, heldByNode s sb labelSel fieldSel) pinned order known cur; mret (cur, mkEvent Deleted prev :: events)) w1).2))) as Hdel.
  { intros k1 w1 _. rewrite bind_run. specialize (IH cur w1). destruct (gone _ _ _ _ _ w1) as [[cur' events] w2]. cbn [fst snd mret io_ret] in *. by apply sends_emit. }
  destruct pinned.
  - apply sends_silent. rewrite on_world_run. destruct (heldByNode s prev labelSel fieldSel w) as [[|] w1]; cbn [fst snd]; [apply IH|by apply (Hdel false)].
  - intros sent. rewrite bind_run. cbn [mret io_ret fst snd]. by apply (Hdel false).
Qed.

Lemma sends_run_initial st : let out := watch_initial s ord opts labelSel fieldSel st in sends (run_initial s ord opts labelSel fieldSel stopped) st out.1.1 out.1.2 out.2.
Proof.
  cbv zeta. unfold run_initial, watch_initial. apply sends_silent. rewrite bind_run.
  destruct (listItems s ord (lo_Namespace opts) labelSel fieldSel st) as [[items|e] st1]; cbn [fst snd mret io_ret].
  - eapply sends_bind; [apply sends_initial|]. destruct (lo_WatchList opts); [|apply sends_ret].
    apply sends_emit, sends_ret.
  - rewrite <-(app_nil_l (if lo_WatchList opts then _ else _)). eapply (sends_bind (mret (Some ∅))); [apply sends_ret|].
    destruct (lo_WatchList opts); [|apply sends_ret]. apply sends_emit, sends_ret.
Qed.

Lemma sends_run_tick range known st : let out := watch_tick s ord opts labelSel fieldSel range known st in sends (run_tick s ord opts labelSel fieldSel stopped range known) st out.1.1 out.1.2 out.2.
Proof.
  cbv zeta. unfold run_tick, watch_tick. apply sends_silent. rewrite bind_run.
  destruct (watch_poll s ord opts labelSel fieldSel known st) as [[items|e] st1]; cbn [fst snd]; [|apply sends_ret].
  rewrite bind_run. pose proof (sends_gone (bool_decide (is_Some (pinnedName (lo_Namespace opts) fieldSel))) (range (sorted_keys known)) known (remember_items items ∅) st1) as Hg.
  destruct (on_world _ st1) as [[cur deleted] st2]. cbn [fst snd mret io_ret] in *. eapply sends_bind; [apply sends_items|exact Hg].
Qed.

(** The events of a run nobody leaves, with what is known and the store at its end. *)
Fixpoint ticks_spec (ranges : list (list string → list string)) (known : gmap string Api.Sandbox) (st : nodeIndex * W) :
    gmap string Api.Sandbox * list event * (nodeIndex * W) :=
  match ranges with
  | [] => (known, [], st)
  | range :: ranges =>
      let '((known1, events1), st1) := watch_tick s ord opts labelSel fieldSel range known st in
      let '((known2, events2), st2) := ticks_spec ranges known1 st1 in
      (known2, events1 ++ events2, st2)
  end.

(** Along that run no poll returns two sandboxes of one name. *)
Fixpoint distinct_names (ranges : list (list string → list string)) (known : gmap string Api.Sandbox) (st : nodeIndex * W) : Prop :=
  match ranges with
  | [] => True
  | range :: ranges =>
      (∀ items, (watch_poll s ord opts labelSel fieldSel known st).1 = Ok items → NoDup (objKey <$> items)) ∧
      let '((known1, _), st1) := watch_tick s ord opts labelSel fieldSel range known st in
      distinct_names ranges known1 st1
  end.

Lemma sends_run_ticks ranges known st : let out := ticks_spec ranges known st in sends (run_ticks s ord opts labelSel fieldSel stopped ranges known) st out.1.1 out.1.2 out.2.
Proof.
  revert known st. induction ranges as [|range ranges IH]; intros known st; cbn [run_ticks ticks_spec]; [apply sends_ret|].
  pose proof (sends_run_tick range known st) as Ht. cbv zeta in Ht. destruct (watch_tick _ _ _ _ _ _ known st) as [[known1 events1] st1].
  specialize (IH known1 st1). cbv zeta in IH. destruct (ticks_spec ranges known1 st1) as [[known2 events2] st2]. cbn [fst snd] in *.
  by eapply sends_bind.
Qed.

Lemma ticks_replay ranges known st cache : Forall (λ range : list string → list string, ∀ l, range l ≡ₚ l) ranges →
  keyed known → in_step cache known → distinct_names ranges known st →
  let '((known', events), _) := ticks_spec ranges known st in coherent events cache ∧ in_step (replay events cache) known'.
Proof.
  intros Hr. revert known st cache. induction Hr as [|range ranges Hrange _ IH]; intros known st cache Hk Hs Hd; cbn [ticks_spec distinct_names] in *; [done|].
  destruct Hd as [Hnd Hd]. pose proof (tick_replays s ord opts labelSel fieldSel range st known cache Hrange Hk Hs Hnd) as Ht.
  destruct (watch_tick _ _ _ _ _ _ known st) as [[known1 events1] st1]. destruct Ht as (H1 & H2 & H3).
  specialize (IH known1 st1 (replay events1 cache) H3 H2 Hd). destruct (ticks_spec ranges known1 st1) as [[known2 events2] st2].
  destruct IH as [H4 H5]. by rewrite coherent_app, replay_app.
Qed.
End spec.

Lemma coherent_prefix pre post cache : coherent (pre ++ post) cache → coherent pre cache.
Proof. by rewrite coherent_app; intros [? _]. Qed.

(** ** Properties *)


(** An initial list that fails is followed by the bookmark that ends the initial
    events all the same, so a client is told it is in step with an empty fleet. *)
Lemma failed_list_bookmark {W : Type} {I : InventorySource W} {K : SandboxdClient W} {C : MetadataCodec} {SO : SelectorOps}
    (s : store) (ord : order) (opts : ListOptions) (ls : label_selector) (fs : field_selector) (st : nodeIndex * W) e :
  (listItems s ord (lo_Namespace opts) ls fs st).1 = Err e → lo_WatchList opts = true →
  (watch_initial s ord opts ls fs st).1.2 = [mkEvent Bookmark bookmark_object].
Proof.
  intros Hl Hw. unfold watch_initial. rewrite bind_run. destruct (listItems _ _ _ _ _ _) as [r st1]. cbn [fst snd mret io_ret] in *. by rewrite Hl, Hw.
Qed.

(** ** Witnesses *)

#[local] Existing Instance Static.source.

