(* ===== verification/StoreClaim.v ===== *)
(** * Claims (Claim and claimRedirected in pkg/scale/sandboxstore_impl.go)

    A claim asks candidate nodes one after the other until one delivers a
    microVM.  It may ask another node only when the last one certainly delivered
    nothing: a call whose outcome is unknown ends the claim. *)

From S2P Require Import Prelude GoStd Api NodeIndex PoolKeys SandboxView Inventory FirstHit Client StoreRead.

(** ** Candidates *)

Record warmCandidate := mkWarmCandidate {
  wc_node : string;
  wc_addr : string;
  wc_warm : Z;
}.

Definition ErrNoWarmCapacity : error := ErrSentinel "scale.ErrNoWarmCapacity".
Definition IsNoWarmCapacity (e : error) : bool := bool_decide (ErrNoWarmCapacity ∈ unwrap_all e).

Definition warmCandidates (nodes : list NodePools) (pool : PoolKey) : list warmCandidate :=
  concat ((λ n, if decide (nps_Address n = "") then []
                else omap (λ pc, if bool_decide (0 < pc_Warm pc)%Z && poolCapacityMatches pc pool
                                 then Some (mkWarmCandidate (nps_Node n) (nps_Address n) (pc_Warm pc)) else None)
                       (nps_Pools n)) <$> nodes).

Definition templateCandidates (nodes : list NodePools) (pool : PoolKey) : list warmCandidate :=
  omap (λ n, if negb (bool_decide (nps_Address n = "")) &&
                contains_func (λ t, poolCapacityMatches (mkPoolCapacity (pt_Template t) (pt_Net t) (pt_Size t) 0 0) pool) (nps_Templates n)
             then Some (mkWarmCandidate (nps_Node n) (nps_Address n) 1) else None) nodes.

Definition nodeForAddress (nodes : list NodePools) (addr : string) : string :=
  match find_first (λ n, bool_decide (nps_Address n = addr)) nodes with
  | Some n => nps_Node n
  | None => ""
  end.

(** [rand.IntN]: the [k]-th draw below [n]. *)
Definition rand : Type := nat → nat → nat.
Definition in_range (rnd : rand) : Prop := ∀ k n, 0 < n → rnd k n < n.

(** The [k]-th pick; [None] is an index out of range, which panics. *)
Definition pickPowerOfTwo (rnd : rand) (k : nat) (candidates : list warmCandidate) : option warmCandidate :=
  ci ← candidates !! rnd (2 * k) (length candidates);
  cj ← candidates !! rnd (2 * k + 1) (length candidates);
  if decide (wc_warm ci < wc_warm cj)%Z then Some cj else Some ci.

(** ** Errors that leave no microVM behind *)

Definition claimUndelivered (err : error) : bool :=
  is_at_capacity err ||
  (match errors_as netop_of err with Some op => bool_decide (op = "dial") | None => false end) ||
  (match errors_as http_of err with Some (code, _) => bool_decide (500 ≤ code)%Z | None => false end).

Definition templateGone (err : error) : bool :=
  match errors_as http_of err with Some (code, _) => bool_decide (code = 404)%Z | None => false end.

(** [tryNext] *)
Definition retryable (promoted : bool) (err : error) : bool :=
  claimUndelivered err || (promoted && templateGone err).

(** ** The claim *)

Definition claimSpec (ns name : string) (pool : PoolKey) (opts : ClaimOptions) (promoted : bool) : ClaimSpec :=
  {| cs_Template := pk_Template pool;
     cs_Net := pk_Net pool;
     cs_Size := pk_Size pool;
     cs_TTLSeconds := co_TTLSeconds opts;
     cs_ClaimRef := namespacedName ns name;
     cs_NoRedirect := false;
     cs_Metadata := co_Metadata opts;
     cs_OnExpire := co_OnExpire opts;
     cs_RequirePromoted := promoted;
     cs_Egress := if co_NoEgress opts then Some false else None |}.

Definition no_redirect (spec : ClaimSpec) : ClaimSpec :=
  {| cs_Template := cs_Template spec; cs_Net := cs_Net spec; cs_Size := cs_Size spec;
     cs_TTLSeconds := cs_TTLSeconds spec; cs_ClaimRef := cs_ClaimRef spec; cs_NoRedirect := true;
     cs_Metadata := cs_Metadata spec; cs_OnExpire := cs_OnExpire spec;
     cs_RequirePromoted := cs_RequirePromoted spec; cs_Egress := cs_Egress spec |}.

Definition errNoWarm (ns name : string) : error :=
  ErrWrap "scale: claim %s/%s: no warm node delivered" [ns; name] ErrNoWarmCapacity.
Definition errNoCandidate (ns name : string) (pool : PoolKey) : error :=
  ErrWrap "scale: claim %s/%s: no node advertises warm capacity for template %q net %q size %q"
    [ns; name; pk_Template pool; pk_Net pool; pk_Size pool] ErrNoWarmCapacity.
Definition errClaim (ns name node : string) (e : error) : error :=
  ErrWrap "scale: claim %s/%s on node %q" [ns; name; node] e.

Section claim.
Context {W : Type} {I : InventorySource W} {K : SandboxdClient W}.

(** Follow a redirect to its targets, in order; [spec] has [NoRedirect] set. *)
Fixpoint follow (s : store) (nodes : list NodePools) (from : string) (all : list string) (spec : ClaimSpec)
    (targets : list string) : io W (string * result ClaimResult) :=
  match targets with
  | [] => mret (from, Err (ErrRedirect all))
  | target :: targets =>
      let node := nodeForAddress nodes target in
      if decide (node = "") then follow s nodes from all spec targets
      else
        r ← Claim target (st_token s) spec;
        match r with
        | Ok res => mret (node, Ok res)
        | Err e => if claimUndelivered e then follow s nodes from all spec targets else mret (node, Err e)
        end
  end.

Definition claimRedirected (s : store) (nodes : list NodePools) (from : string) (targets : list string) (spec : ClaimSpec) :
    io W (string * result ClaimResult) :=
  follow s nodes from targets (no_redirect spec) targets.

(** One round: the picked node, and its redirect if it answers with one. *)
Definition claim_one (s : store) (nodes : list NodePools) (spec : ClaimSpec) (best : warmCandidate) :
    io W (string * result ClaimResult * option (list string)) :=
  r ← Claim (wc_addr best) (st_token s) spec;
  match r with
  | Ok res => mret (wc_node best, Ok res, None)
  | Err e =>
      match errors_as redirect_of e with
      | Some targets =>
          nr ← claimRedirected s nodes (wc_node best) targets spec;
          mret (nr, Some targets)
      | None => mret (wc_node best, Err e, None)
      end
  end.

(** The candidates left after a round. *)
Definition remaining (best : warmCandidate) (redirect : option (list string)) (candidates : list warmCandidate) : list warmCandidate :=
  delete_func (λ c, bool_decide (wc_node c = wc_node best) ||
                    match redirect with Some targets => bool_decide (wc_addr c ∈ targets) | None => false end) candidates.

Definition assignment (node : string) (res : ClaimResult) : Assignment :=
  mkAssignment (cr_ID res) node (cr_OwnerAddr res) (cr_Token res) (cr_Deadline res) (cr_NetRoute res).

(** The loop, for at most [fuel] rounds; [k] counts them. *)
Fixpoint claim_loop (fuel : nat) (s : store) (rnd : rand) (nodes : list NodePools) (ns name : string)
    (promoted : bool) (spec : ClaimSpec) (k : nat) (candidates : list warmCandidate) :
    io (nodeIndex * W) (result Assignment) :=
  match candidates with
  | [] => mret (Err (errNoWarm ns name))
  | _ =>
      match fuel with
      | 0 => mret (Err (ErrPanic "out of fuel"))
      | S fuel =>
          match pickPowerOfTwo rnd k candidates with
          | None => mret (Err (ErrPanic "index out of range"))
          | Some best =>
              out ← on_world (claim_one s nodes spec best);
              let '(node, r, redirect) := out in
              match r with
              | Ok res =>
                  _ ← remember_in_index (nameKey ns name) node;
                  _ ← remember_in_index (claimKey ns (cr_ID res)) node;
                  mret (Ok (assignment node res))
              | Err e =>
                  if retryable promoted e
                  then claim_loop fuel s rnd nodes ns name promoted spec (S k) (remaining best redirect candidates)
                  else mret (Err (errClaim ns name node e))
              end
          end
      end
  end.

Definition Claim (s : store) (rnd : rand) (ns name : string) (pool : PoolKey) (opts : ClaimOptions) :
    io (nodeIndex * W) (result Assignment) :=
  if negb (st_routed s) then mret (Err errUnrouted)
  else
    nodes ← reads NodeCapacities;
    match nodes with
    | Err e => mret (Err (ErrWrap "scale: enumerate node capacity" [] e))
    | Ok nodes =>
        let warm := warmCandidates nodes pool in
        let promoted := bool_decide (warm = []) && co_Promoted opts in
        let candidates := if promoted then templateCandidates nodes pool else warm in
        if decide (candidates = []) then mret (Err (errNoCandidate ns name pool))
        else claim_loop (length candidates) s rnd nodes ns name promoted (claimSpec ns name pool opts promoted) 0 candidates
    end.
End claim.

(** ** Specification: the log of calls *)

(** The errors that certainly left no microVM behind: the node was at capacity or
    sent the claim elsewhere, it was never reached, it failed to provision, or the
    promoted template is gone from it. *)
Definition harmless (promoted : bool) (e : error) : Prop :=
  ErrNodeAtCapacity ∈ unwrap_all e ∨ (∃ targets, errors_as redirect_of e = Some targets) ∨
  errors_as netop_of e = Some "dial" ∨
  ∃ code msg, errors_as http_of e = Some (code, msg) ∧ ((500 ≤ code)%Z ∨ promoted = true ∧ code = 404%Z).

(** A call that certainly delivered nothing. *)
Definition delivered_nothing (promoted : bool) (c : call) : Prop :=
  match c with CallClaim _ _ _ (Err e) => harmless promoted e | _ => False end.

(** The calls of one round or of the whole loop, against its outcome: all but
    the last delivered nothing, and the last is the one the outcome reports
    unless that one delivered nothing either. *)
Definition accounted (promoted : bool) (calls : list call) (r : result ClaimResult) : Prop :=
  ∃ pre post, calls = pre ++ post ∧ Forall (delivered_nothing promoted) pre ∧
    match r with
    | Ok res => ∃ a t sp, post = [CallClaim a t sp (Ok res)]
    | Err e => if retryable promoted e then post = [] else ∃ a t sp, post = [CallClaim a t sp (Err e)]
    end.

(** The outcome of a claim against the calls it made. *)
Definition claim_accounted (promoted : bool) (ns name : string) (calls : list call) (r : result Assignment) : Prop :=
  ∃ pre post, calls = pre ++ post ∧ Forall (delivered_nothing promoted) pre ∧
    match r with
    | Ok a => ∃ addr t sp res node, post = [CallClaim addr t sp (Ok res)] ∧ a = assignment node res
    | Err e =>
        e = errNoWarm ns name ∧ post = [] ∨
        ∃ node e' addr t sp, e = errClaim ns name node e' ∧ ¬ harmless promoted e' ∧ post = [CallClaim addr t sp (Err e')]
    end.

(** The addresses asked without [NoRedirect], in order. *)
Definition first_addrs (calls : list call) : list string :=
  omap (λ c, match c with CallClaim a _ sp _ => if cs_NoRedirect sp then None else Some a | _ => None end) calls.

(** What each call of a claim for [spec] asks: a candidate with the spec itself,
    or a known node with redirects off, always with the fleet token. *)
Definition call_of (s : store) (nodes : list NodePools) (spec : ClaimSpec) (candidates : list warmCandidate) (c : call) : Prop :=
  ∃ a sp r, c = CallClaim a (st_token s) sp r ∧
    (sp = spec ∧ a ∈ wc_addr <$> candidates ∨ sp = no_redirect spec ∧ ∃ n, n ∈ nodes ∧ nps_Address n = a).

(** ** Lemmas *)

Lemma at_capacity_spec e :
  is_at_capacity e = true ↔ ErrNodeAtCapacity ∈ unwrap_all e ∨ ∃ targets, errors_as redirect_of e = Some targets.
Proof.
  unfold is_at_capacity, errors_as. rewrite existsb_exists. split.
  - intros (x & Hx%list_elem_of_In & [->%bool_decide_eq_true|[t Ht]%bool_decide_eq_true]%orb_true_iff); [by left|right].
    assert (t ∈ omap redirect_of (unwrap_all e)) as Ho by (apply list_elem_of_omap; eauto).
    destruct (omap redirect_of (unwrap_all e)) as [|t' l]; [by apply not_elem_of_nil in Ho|by exists t'].
  - intros [Hin|[t Ht]].
    + exists ErrNodeAtCapacity. split; [by apply list_elem_of_In|]. by rewrite bool_decide_eq_true_2.
    + destruct (omap redirect_of (unwrap_all e)) as [|t' l] eqn:Ho; [done|].
      assert (t' ∈ omap redirect_of (unwrap_all e)) as (x & Hx & Hr)%list_elem_of_omap by (rewrite Ho; constructor).
      exists x. split; [by apply list_elem_of_In|]. apply orb_true_iff. right. apply bool_decide_eq_true. eauto.
Qed.

Lemma retryable_spec promoted e : retryable promoted e = true ↔ harmless promoted e.
Proof.
  unfold retryable, claimUndelivered, templateGone, harmless. rewrite !orb_true_iff, andb_true_iff, at_capacity_spec.
  destruct (errors_as netop_of e) as [op|], (errors_as http_of e) as [[code msg]|];
    rewrite ?bool_decide_eq_true; naive_solver.
Qed.

Lemma accounted_cons promoted c calls r :
  delivered_nothing promoted c → accounted promoted calls r → accounted promoted (c :: calls) r.
Proof. intros Hc (pre & post & -> & Hpre & Hr). exists (c :: pre), post. auto. Qed.

Lemma accounted_one promoted addr t sp r : accounted promoted [CallClaim addr t sp r] r.
Proof.
  destruct r as [res|e]; [exists [], [CallClaim addr t sp (Ok res)]; eauto 10|].
  unfold accounted. destruct (retryable promoted e) eqn:Hr.
  - exists [CallClaim addr t sp (Err e)], []. rewrite app_nil_r. split_and!; [done| |done].
    by apply Forall_singleton, retryable_spec.
  - exists [], [CallClaim addr t sp (Err e)]. eauto 10.
Qed.

Lemma undelivered_retryable promoted e : claimUndelivered e = true → retryable promoted e = true.
Proof. unfold retryable. by intros ->. Qed.

Lemma redirect_undelivered e targets : errors_as redirect_of e = Some targets → claimUndelivered e = true.
Proof. intros H. unfold claimUndelivered. by rewrite (proj2 (at_capacity_spec e)) by eauto. Qed.

Lemma nodeForAddress_known nodes addr :
  nodeForAddress nodes addr ≠ "" → ∃ n, n ∈ nodes ∧ nps_Address n = addr ∧ nps_Node n = nodeForAddress nodes addr.
Proof.
  unfold nodeForAddress. destruct (find_first _ nodes) as [n|] eqn:Hf; [|done]. intros _.
  apply find_first_Some in Hf as [Hn Ha%bool_decide_eq_true]. eauto.
Qed.

Lemma pick_elem rnd k candidates best : pickPowerOfTwo rnd k candidates = Some best → best ∈ candidates.
Proof.
  unfold pickPowerOfTwo. intros (ci & Hi & (cj & Hj & H)%bind_Some)%bind_Some.
  case_decide; simplify_eq; by eapply list_elem_of_lookup_2.
Qed.

Lemma pick_in_range rnd k candidates :
  in_range rnd → candidates ≠ [] → is_Some (pickPowerOfTwo rnd k candidates).
Proof.
  intros Hr Hne. assert (0 < length candidates) as Hl by (destruct candidates; simpl; [done|lia]).
  unfold pickPowerOfTwo.
  destruct (lookup_lt_is_Some_2 candidates (rnd (2 * k) (length candidates))) as [ci ->]; [by apply Hr|].
  destruct (lookup_lt_is_Some_2 candidates (rnd (2 * k + 1) (length candidates))) as [cj ->]; [by apply Hr|].
  simpl. case_decide; eauto.
Qed.

Lemma remaining_lt best redirect candidates :
  best ∈ candidates → length (remaining best redirect candidates) < length candidates.
Proof.
  intros Hb. apply (length_delete_func_lt _ _ best Hb). by rewrite bool_decide_eq_true_2.
Qed.

Lemma elem_of_remaining best redirect candidates c :
  c ∈ remaining best redirect candidates → c ∈ candidates ∧ wc_node c ≠ wc_node best.
Proof.
  intros [Hc [H%bool_decide_eq_false _]%orb_false_iff]%elem_of_delete_func. done.
Qed.

Section logged.
Context {W : Type} (I : InventorySource W) (K : SandboxdClient W).

Lemma claim_logged a t sp l w :
  Client.Claim (SandboxdClient := recorded K) a t sp (l, w) =
  ((Client.Claim a t sp w).1, (l ++ [CallClaim a t sp (Client.Claim a t sp w).1], (Client.Claim a t sp w).2)).
Proof. simpl. unfold logging. by destruct (Client.Claim a t sp w). Qed.

Lemma follow_log promoted s nodes from all spec targets l w :
  ∃ calls,
    (follow (K := recorded K) s nodes from all spec targets (l, w)).2.1 = l ++ calls ∧
    accounted promoted calls (follow (K := recorded K) s nodes from all spec targets (l, w)).1.2 ∧
    Forall (λ c, ∃ a r, c = CallClaim a (st_token s) spec r ∧ ∃ n, n ∈ nodes ∧ nps_Address n = a) calls ∧
    ((follow (K := recorded K) s nodes from all spec targets (l, w)).1.1 = from ∨
     ∃ n, n ∈ nodes ∧ nps_Node n = (follow (K := recorded K) s nodes from all spec targets (l, w)).1.1).
Proof.
  revert l w. induction targets as [|target targets IH]; intros l w.
  - exists []. rewrite app_nil_r. split_and!; [done| |done|by left].
    exists [], []. split; [done|]. split; [constructor|].
    cbn [follow mret io_ret fst snd]. rewrite undelivered_retryable; [done|]. by apply (redirect_undelivered _ all).
  - cbn [follow]. case_decide as Hn; [apply IH|].
    apply nodeForAddress_known in Hn as (n & Hin & Ha & Hnode).
    rewrite bind_run, claim_logged. simpl. set (r := (Client.Claim target (st_token s) spec w).1).
    set (w' := (Client.Claim target (st_token s) spec w).2).
    assert (∃ a r', CallClaim target (st_token s) spec r = CallClaim a (st_token s) spec r' ∧ ∃ n, n ∈ nodes ∧ nps_Address n = a)
      as Hc by eauto 10.
    destruct r as [res|e] eqn:Hr.
    + exists [CallClaim target (st_token s) spec (Ok res)]. simpl. split_and!; [done|apply accounted_one|by apply Forall_singleton|].
      right. eauto.
    + destruct (claimUndelivered e) eqn:Hu.
      * destruct (IH (l ++ [CallClaim target (st_token s) spec (Err e)]) w') as (calls & -> & Hacc & Hall & Hnode').
        exists (CallClaim target (st_token s) spec (Err e) :: calls). split_and!; [by rewrite <-app_assoc| |by constructor|done].
        apply accounted_cons; [|done]. by apply retryable_spec, undelivered_retryable.
      * exists [CallClaim target (st_token s) spec (Err e)]. simpl.
        split_and!; [done|apply accounted_one|by apply Forall_singleton|]. right. eauto.
Qed.

(** One round: its calls, and the node it ends on. *)
Lemma claim_one_log promoted s nodes spec best l w :
  cs_NoRedirect spec = false →
  ∃ calls,
    (claim_one (K := recorded K) s nodes spec best (l, w)).2.1 = l ++ calls ∧
    accounted promoted calls (claim_one (K := recorded K) s nodes spec best (l, w)).1.1.2 ∧
    Forall (call_of s nodes spec [best]) calls ∧ first_addrs calls = [wc_addr best] ∧
    ((claim_one (K := recorded K) s nodes spec best (l, w)).1.1.1 = wc_node best ∨
     ∃ n, n ∈ nodes ∧ nps_Node n = (claim_one (K := recorded K) s nodes spec best (l, w)).1.1.1).
Proof.
  intros Hspec. unfold claim_one. rewrite bind_run, claim_logged. simpl.
  set (r := (Client.Claim (wc_addr best) (st_token s) spec w).1).
  set (w' := (Client.Claim (wc_addr best) (st_token s) spec w).2).
  assert (∀ r', call_of s nodes spec [best] (CallClaim (wc_addr best) (st_token s) spec r')) as Hfirst.
  { intros r'. exists (wc_addr best), spec, r'. split; [done|]. left. split; [done|]. simpl. constructor. }
  assert (∀ r', first_addrs [CallClaim (wc_addr best) (st_token s) spec r'] = [wc_addr best]) as Hfa.
  { intros r'. unfold first_addrs. csimpl. by rewrite Hspec. }
  destruct r as [res|e] eqn:Hr.
  { exists [CallClaim (wc_addr best) (st_token s) spec (Ok res)]. cbn [mret io_ret fst snd].
    split_and!; [done|apply accounted_one|apply Forall_singleton, Hfirst|apply Hfa|by left]. }
  destruct (errors_as redirect_of e) as [targets|] eqn:Hred.
  2:{ exists [CallClaim (wc_addr best) (st_token s) spec (Err e)]. cbn [mret io_ret fst snd].
      split_and!; [done|apply accounted_one|apply Forall_singleton, Hfirst|apply Hfa|by left]. }
  rewrite bind_run. simpl. unfold claimRedirected.
  destruct (follow_log promoted s nodes (wc_node best) targets (no_redirect spec) targets
    (l ++ [CallClaim (wc_addr best) (st_token s) spec (Err e)]) w') as (calls & -> & Hacc & Hall & Hnode).
  exists (CallClaim (wc_addr best) (st_token s) spec (Err e) :: calls).
  split_and!; [by rewrite <-app_assoc| | | |done].
  - apply accounted_cons; [|done]. apply retryable_spec, undelivered_retryable. by eapply redirect_undelivered.
  - constructor; [done|]. eapply Forall_impl; [exact Hall|]. intros c (a & r' & -> & Ha).
    exists a, (no_redirect spec), r'. auto.
  - unfold first_addrs in *. specialize (Hfa (Err e)). csimpl. csimpl in Hfa. rewrite Hspec. f_equal.
    clear -Hall. induction Hall as [|c calls (a & r' & -> & _) _ IH]; [done|]. csimpl. exact IH.
Qed.

Lemma call_of_weaken s nodes spec cands cands' c :
  (∀ b, b ∈ cands → b ∈ cands') → call_of s nodes spec cands c → call_of s nodes spec cands' c.
Proof.
  intros Hsub (a & sp & r & -> & Ha). exists a, sp, r. split; [done|].
  destruct Ha as [[-> (b & -> & Hb)%list_elem_of_fmap]|Ha]; [left|by right].
  split; [done|]. apply list_elem_of_fmap. eauto.
Qed.

Lemma accounted_claim promoted ns name calls r node :
  accounted promoted calls r →
  match r with
  | Ok res => claim_accounted promoted ns name calls (Ok (assignment node res))
  | Err e => if retryable promoted e then Forall (delivered_nothing promoted) calls
             else claim_accounted promoted ns name calls (Err (errClaim ns name node e))
  end.
Proof.
  intros (pre & post & -> & Hpre & Hr). destruct r as [res|e].
  - destruct Hr as (a & t & sp & ->). exists pre, [CallClaim a t sp (Ok res)]. split_and!; [done..|]. eauto 10.
  - destruct (retryable promoted e) eqn:Hre; [subst; by rewrite app_nil_r|].
    destruct Hr as (a & t & sp & ->). exists pre, [CallClaim a t sp (Err e)]. split_and!; [done..|]. right.
    exists node, e, a, t, sp. split_and!; [done| |done]. rewrite <-retryable_spec. congruence.
Qed.

Lemma claim_accounted_prepend promoted ns name calls calls' r :
  Forall (delivered_nothing promoted) calls → claim_accounted promoted ns name calls' r →
  claim_accounted promoted ns name (calls ++ calls') r.
Proof.
  intros H (pre & post & -> & Hpre & Hr). exists (calls ++ pre), post.
  split_and!; [by rewrite app_assoc|by apply Forall_app|done].
Qed.

Lemma first_addrs_app c1 c2 : first_addrs (c1 ++ c2) = first_addrs c1 ++ first_addrs c2.
Proof. apply omap_app. Qed.

Lemma claim_loop_S {W'} (K0 : SandboxdClient W') fuel s rnd nodes ns name promoted spec k candidates :
  candidates ≠ [] →
  claim_loop (K := K0) (S fuel) s rnd nodes ns name promoted spec k candidates =
  match pickPowerOfTwo rnd k candidates with
  | None => mret (Err (ErrPanic "index out of range"))
  | Some best =>
      out ← on_world (claim_one s nodes spec best);
      let '(node, r, redirect) := out in
      match r with
      | Ok res =>
          _ ← remember_in_index (nameKey ns name) node;
          _ ← remember_in_index (claimKey ns (cr_ID res)) node;
          mret (Ok (assignment node res))
      | Err e =>
          if retryable promoted e
          then claim_loop fuel s rnd nodes ns name promoted spec (S k) (remaining best redirect candidates)
          else mret (Err (errClaim ns name node e))
      end
  end.
Proof. by destruct candidates. Qed.

(** What the loop leaves behind. *)
Record loop_log (s : store) (nodes : list NodePools) (ns name : string) (promoted : bool) (spec : ClaimSpec)
    (candidates : list warmCandidate) (calls : list call) (r : result Assignment) : Prop := {
  ll_accounted : claim_accounted promoted ns name calls r;
  ll_calls : Forall (call_of s nodes spec candidates) calls;
  ll_first : ∃ picked, first_addrs calls = wc_addr <$> picked ∧ NoDup (wc_node <$> picked) ∧
    ∀ c, c ∈ picked → c ∈ candidates;
  ll_node a : r = Ok a → (∃ n, n ∈ nodes ∧ nps_Node n = as_Node a) ∨ ∃ c, c ∈ candidates ∧ wc_node c = as_Node a;
}.

Lemma loop_log_nil s nodes ns name promoted spec :
  loop_log s nodes ns name promoted spec [] [] (Err (errNoWarm ns name)).
Proof.
  split; [|constructor| |done].
  - exists [], []. split; [done|]. split; [constructor|]. by left.
  - exists []. split; [done|]. split; [constructor|done].
Qed.

Lemma claim_loop_log s rnd nodes ns name promoted spec fuel k candidates x l w :
  in_range rnd → cs_NoRedirect spec = false → length candidates ≤ fuel →
  ∃ calls,
    (claim_loop (K := recorded K) fuel s rnd nodes ns name promoted spec k candidates (x, (l, w))).2.2.1 = l ++ calls ∧
    loop_log s nodes ns name promoted spec candidates calls
      (claim_loop (K := recorded K) fuel s rnd nodes ns name promoted spec k candidates (x, (l, w))).1.
Proof.
  intros Hrnd Hspec. revert k candidates x l w. induction fuel as [|fuel IH]; intros k candidates x l w Hlen.
  - assert (candidates = []) as -> by (destruct candidates; simpl in *; [done|lia]).
    exists []. rewrite app_nil_r. split; [done|apply loop_log_nil].
  - destruct (decide (candidates = [])) as [->|Hne].
    { exists []. rewrite app_nil_r. split; [done|apply loop_log_nil]. }
    rewrite claim_loop_S by done.
    destruct (pick_in_range rnd k candidates Hrnd) as [best Hbest]; [done|]. rewrite Hbest.
    pose proof (pick_elem _ _ _ _ Hbest) as Hin.
    rewrite bind_run, on_world_run.
    destruct (claim_one_log promoted s nodes spec best l w Hspec) as (calls & Hl & Hacc & Hcalls & Hfirst & Hnode).
    destruct (claim_one (K := recorded K) s nodes spec best (l, w)) as [[[node r] redirect] [l' w']].
    simpl in Hl, Hacc, Hnode. subst l'. cbn [fst snd].
    assert (Forall (call_of s nodes spec candidates) calls) as Hcalls'.
    { eapply Forall_impl; [exact Hcalls|]. intros c. apply call_of_weaken. by intros b ->%list_elem_of_singleton. }
    assert (∀ c, c ∈ [best] → c ∈ candidates) as Hbin by (by intros c ->%list_elem_of_singleton).
    pose proof (accounted_claim promoted ns name calls r node Hacc) as Hclaim.
    destruct r as [res|e].
    + exists calls. rewrite !bind_run. unfold remember_in_index. rewrite on_index_run. simpl. split; [done|].
      split; [done|done| |].
      * exists [best]. split_and!; [done|by apply NoDup_singleton|done].
      * intros a [= <-]. simpl. destruct Hnode as [->|Hnode]; [right; eauto|by left].
    + destruct (retryable promoted e) eqn:Hre.
      * destruct (IH (S k) (remaining best redirect candidates) x (l ++ calls) w') as (calls' & Hl' & [Ha' Hc' (picked & Hp1 & Hp2 & Hp3) Hn']).
        { pose proof (remaining_lt best redirect candidates Hin). simpl in *. lia. }
        exists (calls ++ calls'). split; [by rewrite Hl', app_assoc|]. split.
        -- by apply claim_accounted_prepend.
        -- apply Forall_app. split; [done|]. eapply Forall_impl; [exact Hc'|]. intros c. apply call_of_weaken.
           intros b Hb. by apply elem_of_remaining in Hb as [? _].
        -- exists (best :: picked). rewrite first_addrs_app, Hfirst, Hp1. split; [done|]. csimpl. split.
           ++ constructor; [|done]. intros (c & Hc & Hin')%list_elem_of_fmap.
              apply Hp3, elem_of_remaining in Hin' as [_ ?]. congruence.
           ++ intros c [->|Hc]%elem_of_cons; [done|]. by apply Hp3, elem_of_remaining in Hc as [? _].
        -- intros a Ha. destruct (Hn' a Ha) as [?|(c & Hc & ?)]; [by left|right].
           apply elem_of_remaining in Hc as [? _]. eauto.
      * exists calls. split; [done|]. split; [done|done| |done].
        exists [best]. split_and!; [done|by apply NoDup_singleton|done].
Qed.

(** The index after a delivery. *)
Lemma lookup_remember_two k1 k2 node x :
  k1 ≠ "" → k2 ≠ "" → k1 ≠ k2 → node ≠ "" →
  (lookup k1 (remember k2 node (remember k1 node x))).1 = Some node ∧
  (lookup k2 (remember k2 node (remember k1 node x))).1 = Some node.
Proof.
  intros H1 H2 Hne Hn. split; [|by apply lookup_remember].
  rewrite lookup_view. unfold remember. rewrite !decide_False by tauto.
  rewrite view_storeLocked, decide_False by done.
  assert (x_cur (storeLocked k1 node x) !! k1 = Some node) as Hc.
  { unfold storeLocked. simpl. apply lookup_insert_eq. }
  case_decide; [done|]. by rewrite view_storeLocked, decide_True.
Qed.

Lemma claim_loop_index (K0 : SandboxdClient W) s rnd nodes ns name promoted spec fuel k candidates x w a :
  (claim_loop (K := K0) fuel s rnd nodes ns name promoted spec k candidates (x, w)).1 = Ok a → as_Node a ≠ "" →
  let x' := (claim_loop (K := K0) fuel s rnd nodes ns name promoted spec k candidates (x, w)).2.1 in
  (lookup (nameKey ns name) x').1 = Some (as_Node a) ∧ (lookup (claimKey ns (as_SandboxName a)) x').1 = Some (as_Node a).
Proof.
  revert k candidates x w. induction fuel as [|fuel IH]; intros k candidates x w; destruct candidates as [|c0 cs]; try done.
  cbn [claim_loop]. destruct (pickPowerOfTwo rnd k (c0 :: cs)) as [best|]; [|done].
  rewrite bind_run, on_world_run.
  destruct (claim_one (K := K0) s nodes spec best w) as [[[node r] redirect] w']. cbn [fst snd].
  destruct r as [res|e].
  - rewrite !bind_run. unfold remember_in_index. rewrite on_index_run. simpl. intros [= <-] Hn. simpl in *.
    by apply lookup_remember_two.
  - destruct (retryable promoted e); [apply IH|done].
Qed.
End logged.

Lemma elem_of_warmCandidates nodes pool c :
  c ∈ warmCandidates nodes pool ↔ ∃ n pc, n ∈ nodes ∧ nps_Address n ≠ "" ∧ pc ∈ nps_Pools n ∧
    (0 < pc_Warm pc)%Z ∧ normal_key (capacity_key pc) = normal_key pool ∧
    c = mkWarmCandidate (nps_Node n) (nps_Address n) (pc_Warm pc).
Proof.
  unfold warmCandidates. rewrite list_elem_of_In, in_concat. split.
  - intros (cs & Hcs%list_elem_of_In & Hc%list_elem_of_In). apply list_elem_of_fmap in Hcs as (n & -> & Hn).
    case_decide as Ha; [by apply not_elem_of_nil in Hc|].
    apply list_elem_of_omap in Hc as (pc & Hpc & Hc). destruct (_ && _) eqn:Hb; [|done]. simplify_eq.
    apply andb_true_iff in Hb as [Hw%bool_decide_eq_true Hm%poolCapacityMatches_spec]. eauto 10.
  - intros (n & pc & Hn & Ha & Hpc & Hw & Hm & ->). eexists. split; apply list_elem_of_In.
    + apply list_elem_of_fmap. exists n. split; [reflexivity|done].
    + simpl. rewrite decide_False by done. apply list_elem_of_omap. exists pc. split; [done|].
      rewrite bool_decide_eq_true_2 by done. apply poolCapacityMatches_spec in Hm. by rewrite Hm.
Qed.

Lemma elem_of_templateCandidates nodes pool c :
  c ∈ templateCandidates nodes pool → ∃ n t, n ∈ nodes ∧ nps_Address n ≠ "" ∧ t ∈ nps_Templates n ∧
    normal_key (mkPoolKey (pt_Template t) (pt_Net t) (pt_Size t)) = normal_key pool ∧
    c = mkWarmCandidate (nps_Node n) (nps_Address n) 1.
Proof.
  unfold templateCandidates. intros (n & Hn & Hc)%list_elem_of_omap.
  destruct (_ && _) eqn:Hb; [|done]. simplify_eq.
  apply andb_true_iff in Hb as [Ha%negb_true_iff%bool_decide_eq_false Ht].
  apply existsb_exists in Ht as (t & Ht%list_elem_of_In & Hm%poolCapacityMatches_spec). eauto 10.
Qed.

(** ** Properties *)

(** The candidates of a claim, and whether it claims from a promoted template. *)
Definition claims_promoted (nodes : list NodePools) (pool : PoolKey) (opts : ClaimOptions) : bool :=
  bool_decide (warmCandidates nodes pool = []) && co_Promoted opts.
Definition candidates_of (nodes : list NodePools) (pool : PoolKey) (opts : ClaimOptions) : list warmCandidate :=
  if claims_promoted nodes pool opts then templateCandidates nodes pool else warmCandidates nodes pool.

Section properties.
Context {W : Type} (I : InventorySource W) (K : SandboxdClient W).

(** A claim on the recording client, from an empty log. *)
Definition claim_run (s : store) (rnd : rand) (ns name : string) (pool : PoolKey) (opts : ClaimOptions)
    (x : nodeIndex) (w : W) : result Assignment * list call * nodeIndex :=
  let '(r, (x', (calls, _))) := Claim (K := recorded K) s rnd ns name pool opts (x, ([], w)) in (r, calls, x').

Lemma claim_run_eq s rnd ns name pool opts x w nodes :
  st_routed s = true → NodeCapacities w = Ok nodes → candidates_of nodes pool opts ≠ [] →
  let out := claim_loop (K := recorded K) (length (candidates_of nodes pool opts)) s rnd nodes ns name
    (claims_promoted nodes pool opts) (claimSpec ns name pool opts (claims_promoted nodes pool opts)) 0
    (candidates_of nodes pool opts) (x, ([], w)) in
  claim_run s rnd ns name pool opts x w = (out.1, out.2.2.1, out.2.1).
Proof.
  intros Hr Hn Hc out. unfold claim_run, Claim. rewrite Hr. simpl. rewrite bind_run. unfold reads. rewrite on_world_run.
  simpl. rewrite Hn. fold (claims_promoted nodes pool opts). fold (candidates_of nodes pool opts).
  rewrite decide_False by done. fold out. by destruct out as [r [x' [l w']]].
Qed.

(** C1: a claim never delivers twice and always ends: over any nodes, answers,
    redirects and random draws, every call but the last certainly delivered
    nothing; a successful claim reports the one call that delivered, its last; an
    error either reports the last call, whose outcome does not allow another
    node, or says that no warm node delivered, after calls that all delivered
    nothing.  It never panics and asks nobody when there is no candidate. *)
Theorem Claim_once (s : store) (rnd : rand) (ns name : string) (pool : PoolKey) (opts : ClaimOptions)
    (x : nodeIndex) (w : W) :
  in_range rnd → st_routed s = true →
  let '(r, calls, _) := claim_run s rnd ns name pool opts x w in
  match NodeCapacities w with
  | Err e => r = Err (ErrWrap "scale: enumerate node capacity" [] e) ∧ calls = []
  | Ok nodes =>
      if decide (candidates_of nodes pool opts = [])
      then r = Err (errNoCandidate ns name pool) ∧ calls = []
      else claim_accounted (claims_promoted nodes pool opts) ns name calls r
  end.
Proof.
  intros Hrnd Hr. destruct (NodeCapacities w) as [nodes|e] eqn:Hn.
  - case_decide as Hc.
    + unfold claim_run, Claim. rewrite Hr. simpl. rewrite bind_run. unfold reads. rewrite on_world_run. simpl. rewrite Hn.
      fold (claims_promoted nodes pool opts). fold (candidates_of nodes pool opts). by rewrite decide_True.
    + rewrite (claim_run_eq _ _ _ _ _ _ _ _ nodes) by done.
      destruct (claim_loop_log K s rnd nodes ns name (claims_promoted nodes pool opts)
        (claimSpec ns name pool opts (claims_promoted nodes pool opts)) (length (candidates_of nodes pool opts)) 0
        (candidates_of nodes pool opts) x [] w) as (calls & Hl & Hlog); [done|done|done|].
      rewrite Hl. apply Hlog.
  - unfold claim_run, Claim. rewrite Hr. simpl. rewrite bind_run. unfold reads. rewrite on_world_run. simpl. by rewrite Hn.
Qed.

(** who a claim asks: only nodes that advertise the pool (warm, or as a
    promoted template when none is warm), each at most once without following a
    redirect, and beyond these only redirect targets that are known nodes, with
    further redirects off; every call presents the fleet token and the claim ref
    [ns/name]. *)
Theorem Claim_asks (s : store) (rnd : rand) (ns name : string) (pool : PoolKey) (opts : ClaimOptions)
    (x : nodeIndex) (w : W) (nodes : list NodePools) :
  in_range rnd → st_routed s = true → NodeCapacities w = Ok nodes → candidates_of nodes pool opts ≠ [] →
  let '(r, calls, _) := claim_run s rnd ns name pool opts x w in
  (∃ picked, first_addrs calls = wc_addr <$> picked ∧ NoDup (wc_node <$> picked) ∧
     ∀ c, c ∈ picked → ∃ n, n ∈ nodes ∧ wc_node c = nps_Node n ∧ wc_addr c = nps_Address n ∧ nps_Address n ≠ "" ∧
       ((∃ pc, pc ∈ nps_Pools n ∧ (0 < pc_Warm pc)%Z ∧ normal_key (capacity_key pc) = normal_key pool) ∨
        (co_Promoted opts = true ∧ ∃ t, t ∈ nps_Templates n ∧
           normal_key (mkPoolKey (pt_Template t) (pt_Net t) (pt_Size t)) = normal_key pool))) ∧
  Forall (λ c, ∃ a sp res, c = CallClaim a (st_token s) sp res ∧ cs_ClaimRef sp = namespacedName ns name ∧
    (∃ n, n ∈ nodes ∧ nps_Address n = a)) calls.
Proof.
  intros Hrnd Hr Hn Hc. rewrite (claim_run_eq _ _ _ _ _ _ _ _ nodes) by done. set (promoted := claims_promoted nodes pool opts).
  destruct (claim_loop_log K s rnd nodes ns name promoted
    (claimSpec ns name pool opts promoted) (length (candidates_of nodes pool opts)) 0
    (candidates_of nodes pool opts) x [] w) as (calls & Hl & [_ Hcalls (picked & Hp1 & Hp2 & Hp3) _]); [done|done|done|].
  rewrite Hl. simpl.
  assert (∀ c, c ∈ candidates_of nodes pool opts → ∃ n, n ∈ nodes ∧ wc_node c = nps_Node n ∧ wc_addr c = nps_Address n ∧ nps_Address n ≠ "" ∧
       ((∃ pc, pc ∈ nps_Pools n ∧ (0 < pc_Warm pc)%Z ∧ normal_key (capacity_key pc) = normal_key pool) ∨
        (co_Promoted opts = true ∧ ∃ t, t ∈ nps_Templates n ∧
           normal_key (mkPoolKey (pt_Template t) (pt_Net t) (pt_Size t)) = normal_key pool))) as Hcand.
  { intros c. unfold candidates_of. destruct (claims_promoted nodes pool opts) eqn:Hp.
    - intros (n & t & ? & ? & ? & ? & ->)%elem_of_templateCandidates. exists n. split_and!; [done..|].
      apply andb_true_iff in Hp as [_ Hp]. right. eauto.
    - intros (n & pc & ? & ? & ? & ? & ? & ->)%elem_of_warmCandidates. exists n. split_and!; [done..|]. left. eauto. }
  split; [exists picked; auto|].
  eapply Forall_impl; [exact Hcalls|]. intros c (a & sp & res & -> & Ha). exists a, sp, res. split; [done|].
  destruct Ha as [[-> (b & -> & Hb)%list_elem_of_fmap]|[-> Ha]]; [|done]. split; [done|].
  destruct (Hcand b Hb) as (n & Hin & _ & Hadr & _). eauto.
Qed.

(** After a successful claim the assignment names a node of the inventory, and
    both the name and the claim id resolve to that node in the index. *)
Theorem Claim_indexed (s : store) (rnd : rand) (ns name : string) (pool : PoolKey) (opts : ClaimOptions)
    (x : nodeIndex) (w : W) (nodes : list NodePools) :
  in_range rnd → st_routed s = true → NodeCapacities w = Ok nodes → candidates_of nodes pool opts ≠ [] →
  let '(r, _, x') := claim_run s rnd ns name pool opts x w in
  ∀ a, r = Ok a →
    (∃ n, n ∈ nodes ∧ nps_Node n = as_Node a) ∧
    (as_Node a ≠ "" → (lookup (nameKey ns name) x').1 = Some (as_Node a) ∧
                      (lookup (claimKey ns (as_SandboxName a)) x').1 = Some (as_Node a)).
Proof.
  intros Hrnd Hr Hn Hc. rewrite (claim_run_eq _ _ _ _ _ _ _ _ nodes) by done. set (promoted := claims_promoted nodes pool opts).
  destruct (claim_loop_log K s rnd nodes ns name promoted
    (claimSpec ns name pool opts promoted) (length (candidates_of nodes pool opts)) 0
    (candidates_of nodes pool opts) x [] w) as (calls & Hl & [_ _ _ Hnode]); [done|done|done|].
  intros a Ha. split; [|by eapply claim_loop_index].
  destruct (Hnode a Ha) as [?|(c & Hcand & Hcn)]; [done|].
  unfold candidates_of in Hcand. destruct (claims_promoted nodes pool opts).
  - apply elem_of_templateCandidates in Hcand as (n & t & ? & _ & _ & _ & ->). eauto.
  - apply elem_of_warmCandidates in Hcand as (n & pc & ? & _ & _ & _ & _ & ->). eauto.
Qed.
End properties.

(** ** Witnesses *)

#[local] Existing Instance Static.source.

Definition sample_key : PoolKey := mkPoolKey "img" "none" "small".
Definition claim_world : Static.StaticInventorySource :=
  Static.Put (mkNodeInventory "n1" "n1" [] "10.0.0.1:7000" [mkPoolCapacity "img" "" "" 2 2] [] zero_time)
    (Static.Put (mkNodeInventory "n2" "n2" [] "10.0.0.2:7000" [mkPoolCapacity "img" "none" "small" 1 1] [] zero_time)
      Static.NewStaticInventorySource).
(** [n1] redirects to [n2], which delivers. *)
Definition claim_answers (addr : string) (spec : ClaimSpec) : io Static.StaticInventorySource (result ClaimResult) :=
  mret (if decide (addr = "10.0.0.1:7000") then Err (ErrRedirect ["10.0.0.9:7000"; "10.0.0.2:7000"])
        else Ok (mkClaimResult "sb_9" "tok" zero_time addr "none" [])).
Definition claim_client : SandboxdClient Static.StaticInventorySource := toy_client _ claim_answers (λ _ _, Ok []).
Definition first_draw : rand := λ _ _, 0.
Definition no_options : ClaimOptions := mkClaimOptions 0 ∅ "" false false.

Lemma first_draw_in_range : in_range first_draw.
Proof. intros k n Hn. exact Hn. Qed.

Lemma Claim_once_witness :
  ∃ calls, claim_accounted false "team" "web" calls (Ok (mkAssignment "sb_9" "n2" "10.0.0.2:7000" "tok" zero_time "none")) ∧ length calls = 2.
Proof.
  pose proof (Claim_once Static.source claim_client sample_store first_draw "team" "web" sample_key no_options
    sample_index claim_world first_draw_in_range eq_refl) as H.
  vm_compute in H. eexists. split; [exact H|reflexivity].
Defined.

Lemma Claim_asks_witness :
  NodeCapacities claim_world = Ok (default [] (match NodeCapacities claim_world with Ok l => Some l | Err _ => None end)) ∧
  let '(_, calls, _) := claim_run Static.source claim_client sample_store first_draw "team" "web" sample_key no_options sample_index claim_world in
  ∃ picked, first_addrs calls = wc_addr <$> picked ∧ NoDup (wc_node <$> picked).
Proof.
  split; [vm_compute; reflexivity|].
  pose proof (Claim_asks Static.source claim_client sample_store first_draw "team" "web" sample_key no_options
    sample_index claim_world _ first_draw_in_range eq_refl eq_refl ltac:(vm_compute; discriminate)) as H.
  destruct (claim_run _ _ _ _ _ _ _ _ _ _) as [[r calls] x']. destruct H as [(picked & H1 & H2 & _) _]. by exists picked.
Defined.

Lemma Claim_indexed_witness :
  (lookup (nameKey "team" "web") (claim_run Static.source claim_client sample_store first_draw "team" "web" sample_key no_options
     sample_index claim_world).2).1 = Some "n2".
Proof.
  pose proof (Claim_indexed Static.source claim_client sample_store first_draw "team" "web" sample_key no_options
    sample_index claim_world _ first_draw_in_range eq_refl eq_refl ltac:(vm_compute; discriminate)) as H.
  assert ((claim_run Static.source claim_client sample_store first_draw "team" "web" sample_key no_options sample_index claim_world).1.1
    = Ok (mkAssignment "sb_9" "n2" "10.0.0.2:7000" "tok" zero_time "none")) as Hr by (vm_compute; reflexivity).
  destruct (claim_run _ _ _ _ _ _ _ _ _ _) as [[r calls] x']. apply (H _ Hr). done.
Defined.
