(* ===== verification/StoreLifecycle.v ===== *)
(** * Verbs routed to one node (pkg/scale/sandboxstore_lifecycle.go, Release)

    Every verb resolves the node's advertised address, makes one call on that
    node with the fleet token, and maps a node's 4xx answer onto an API status. *)

From S2P Require Import Prelude GoStd GoText Api NodeIndex SandboxView Inventory Client StoreRead.

(** ** Names of checkpoints and templates *)

Definition maxSandboxdName : nat := 63.

Definition is_alnum (c : ascii) : bool :=
  let n := N_of_ascii c in
  bool_decide (48 ≤ n ∧ n ≤ 57)%N || bool_decide (65 ≤ n ∧ n ≤ 90)%N || bool_decide (97 ≤ n ∧ n ≤ 122)%N.
Definition name_byte (c : ascii) : bool :=
  is_alnum c || bool_decide (c ∈ (["."; "_"; ":"; "/"; "-"]%char : list ascii)).
(** [sandboxdName.MatchString]: one alphanumeric, then up to 62 name bytes. *)
Definition sandboxdName (s : string) : bool :=
  match s with
  | "" => false
  | String c s => is_alnum c && all_bytes name_byte s && bool_decide (String.length s ≤ 62)
  end.

Definition StampedName (kind prefix namespace name : string) : result string :=
  let stamped := prefix +:+ namespace +:+ "/" +:+ name in
  if decide (maxSandboxdName < String.length stamped) then
    Err (NewBadRequest ["%s name %q: at most %d characters in namespace %q"; kind; name; namespace])
  else if negb (sandboxdName stamped) then
    Err (NewBadRequest ["%s name %q: letters, digits and . _ : / - only"; kind; name])
  else Ok stamped.

Definition CheckpointName (namespace name : string) : result string := StampedName "snapshot" "" namespace name.

Definition CheckpointNameIn (namespace stamped : string) : option string := cut_prefix (namespace +:+ "/") stamped.

(** ** Errors of a node verb *)

Definition nodeVerbError (err : error) (verb id node : string) : error :=
  let wrapped := ErrWrap "scale: sandboxd %s of %q on node %q" [verb; id; node] err in
  match errors_as http_of err with
  | Some (code, msg) =>
      if decide (code = 404)%Z then NewNotFound "sandboxes" id
      else if decide (400 ≤ code < 500)%Z then
        ErrStatus code (if decide (msg = "") then ["sandboxes"; verb; id]
                        else ["sandboxd %s of %q on node %q: %s"; verb; id; node; msg])
      else wrapped
  | None => wrapped
  end.

Definition snapshotFrom (ck : Api.Checkpoint) (node : string) : Snapshot :=
  mkSnapshot (ck_ID ck) (ck_Name ck) (ck_SandboxID ck)
    (mkPoolKey (pk_Template (ck_Key ck)) (pk_Net (ck_Key ck)) (pk_Size (ck_Key ck))) (ck_CreatedAt ck) node.

Section verbs.
Context {W : Type} {I : InventorySource W} {K : SandboxdClient W} (s : store).

(** The shape of every verb: [nodeClient], the call, the error mapping. *)
Definition on_node {A} (node verb id : string) (wrap : error → error) (m : string → io W (result A)) : io W (result A) :=
  cl ← gets (λ w, nodeClient s w node verb id);
  match cl with
  | Err e => mret (Err e)
  | Ok addr => r ← m addr; mret (map_err wrap r)
  end.

Definition verb_error (verb id node : string) : error → error := λ e, nodeVerbError e verb id node.
Definition plain_error (what : string) (args : list string) : error → error := ErrWrap what args.

Definition Release (node id : string) : io W (result unit) :=
  if decide (id = "") then mret (Err (ErrText "scale: release requires a claim id" []))
  else on_node node "release" id (plain_error "scale: sandboxd release of %q on node %q" [id; node])
         (λ addr, Client.Release addr (st_token s) id (st_token s)).

Definition Pause (node id : string) : io W (result unit) :=
  on_node node "pause" id (verb_error "pause" id node) (λ addr, Hibernate addr (st_token s) id).

Definition DialGuestPort (node id token : string) (port : Z) : io W (result Conn) :=
  on_node node "port" id (verb_error "port" id node) (λ addr, DialPort addr (st_token s) id token port).

Definition SetInstanceMetadata (node id doc : string) : io W (result unit) :=
  on_node node "instance metadata" id (verb_error "instance metadata" id node)
    (λ addr, Client.SetInstanceMetadata addr (st_token s) id doc).

Definition Renew (node id : string) (ttlSeconds : Z) (onExpire : ExpireAction) : io W (result time) :=
  on_node node "renew" id (verb_error "renew" id node)
    (λ addr, Client.Renew addr (st_token s) id (mkRenewSpec ttlSeconds onExpire)).

Definition Resume (node id : string) : io W (result unit) :=
  on_node node "resume" id (verb_error "resume" id node) (λ addr, Wake addr (st_token s) id).

Definition Snapshot (node id name : string) : io W (result Api.Snapshot) :=
  r ← on_node node "snapshot" id (verb_error "snapshot" id node)
        (λ addr, Checkpoint addr (st_token s) id (mkCheckpointSpec "" name));
  mret (fmap (M := result) (λ ck, snapshotFrom ck node) r).

Definition Snapshots (node : string) : io W (result (list Api.Snapshot)) :=
  r ← on_node node "list snapshots" "" (plain_error "scale: sandboxd list snapshots on node %q" [node])
        (λ addr, Checkpoints addr (st_token s));
  mret (fmap (M := result) (fmap (M := list) (λ ck, snapshotFrom ck node)) r).

Definition DeleteSnapshot (node snapshotID : string) : io W (result unit) :=
  on_node node "delete snapshot" snapshotID (plain_error "scale: sandboxd delete snapshot %q on node %q" [snapshotID; node])
    (λ addr, DeleteCheckpoint addr (st_token s) snapshotID).

Definition DeleteTemplate (node : string) (key : PoolKey) (digest : string) : io W (result unit) :=
  on_node node "delete template" (pk_Template key) (verb_error "delete template" (pk_Template key) node)
    (λ addr, Client.DeleteTemplate addr (st_token s) key digest).

Definition Promote (node id template : string) : io W (result (PoolKey * string)) :=
  on_node node "promote" id (verb_error "promote" id node) (λ addr, Client.Promote addr (st_token s) id template).

Definition SetTemplateLabels (node : string) (key : PoolKey) (labels : gmap string string) (digest : string) : io W (result unit) :=
  on_node node "template labels" (pk_Template key) (verb_error "template labels" (pk_Template key) node)
    (λ addr, Client.SetTemplateLabels addr (st_token s) key labels digest).

Definition NodeTemplates (node : string) : io W (result (list PromotedTemplate)) :=
  r ← on_node node "templates" node (plain_error "scale: sandboxd info on node %q" [node]) (λ addr, Info addr (st_token s));
  mret (fmap (M := result) TemplatesFromInfo r).

Definition Read (node id : string) : io W (result SandboxRecord) :=
  r ← on_node node "read" id (verb_error "read" id node) (λ addr, Sandbox addr (st_token s) id);
  mret (fmap (M := result) (λ row, mkSandboxRecord (ss_Token row) (isPaused row) (ss_Deadline row)) r).

(** The children of a fork are claims of [namespace], named by their ids. *)
Fixpoint remember_children (namespace node : string) (children : list ClaimResult) : io (nodeIndex * W) unit :=
  match children with
  | [] => mret tt
  | c :: children =>
      _ ← remember_in_index (nameKey namespace (cr_ID c)) node;
      _ ← remember_in_index (claimKey namespace (cr_ID c)) node;
      remember_children namespace node children
  end.

Definition Fork (namespace node id : string) (count ttlSeconds : Z) : io (nodeIndex * W) (result (list Assignment)) :=
  if decide (count < 1)%Z then mret (Err (ErrText "scale: fork count must be >= 1, got %d" [format_int count]))
  else
    res ← on_world (on_node node "fork" id (verb_error "fork" id node)
            (λ addr, Client.Fork addr (st_token s) id (mkForkSpec "" count ttlSeconds (namespacedName namespace ""))));
    match res with
    | Err e => mret (Err e)
    | Ok res =>
        _ ← remember_children namespace node (fr_Children res);
        mret (Ok ((λ c, mkAssignment (cr_ID c) node (cr_OwnerAddr c) (cr_Token c) (cr_Deadline c) "") <$> fr_Children res))
    end.
End verbs.

(** ** Specification *)

(** A verb that changes a node, and the call it must make. *)
Inductive verb :=
| VRelease (id : string) | VPause (id : string) | VResume (id : string)
| VRenew (id : string) (ttl : Z) (onExpire : ExpireAction)
| VSnapshot (id name : string) | VDeleteSnapshot (id : string)
| VDeleteTemplate (key : PoolKey) (digest : string)
| VPromote (id template : string)
| VSetTemplateLabels (key : PoolKey) (labels : gmap string string) (digest : string)
| VDialGuestPort (id token : string) (port : Z)
| VSetInstanceMetadata (id doc : string).

Section run_verb.
Context {W : Type} {I : InventorySource W} {K : SandboxdClient W}.

(** Whether it succeeded. *)
Definition run_verb (s : store) (node : string) (v : verb) : io W bool :=
  match v with
  | VRelease id => r ← Release s node id; mret (is_ok r)
  | VPause id => r ← Pause s node id; mret (is_ok r)
  | VResume id => r ← Resume s node id; mret (is_ok r)
  | VRenew id ttl oe => r ← Renew s node id ttl oe; mret (is_ok r)
  | VSnapshot id name => r ← Snapshot s node id name; mret (is_ok r)
  | VDeleteSnapshot id => r ← DeleteSnapshot s node id; mret (is_ok r)
  | VDeleteTemplate k d => r ← DeleteTemplate s node k d; mret (is_ok r)
  | VPromote id t => r ← Promote s node id t; mret (is_ok r)
  | VSetTemplateLabels k l d => r ← SetTemplateLabels s node k l d; mret (is_ok r)
  | VDialGuestPort id t p => r ← DialGuestPort s node id t p; mret (is_ok r)
  | VSetInstanceMetadata id d => r ← SetInstanceMetadata s node id d; mret (is_ok r)
  end.
End run_verb.

(** The call [v] makes on [addr] with [token], and whether it succeeded. *)
Definition call_of_verb (addr token : string) (v : verb) (c : call) : option bool :=
  match v, c with
  | VRelease id, CallRelease a t i rt r =>
      if decide (a = addr ∧ t = token ∧ i = id ∧ rt = token) then Some (is_ok r) else None
  | VPause id, CallHibernate a t i r => if decide (a = addr ∧ t = token ∧ i = id) then Some (is_ok r) else None
  | VResume id, CallWake a t i r => if decide (a = addr ∧ t = token ∧ i = id) then Some (is_ok r) else None
  | VRenew id ttl oe, CallRenew a t i sp r =>
      if decide (a = addr ∧ t = token ∧ i = id ∧ rs_TTLSeconds sp = ttl ∧ rs_OnExpire sp = oe) then Some (is_ok r) else None
  | VSnapshot id name, CallCheckpoint a t i sp r =>
      if decide (a = addr ∧ t = token ∧ i = id ∧ ks_Token sp = "" ∧ ks_Name sp = name) then Some (is_ok r) else None
  | VDeleteSnapshot id, CallDeleteCheckpoint a t i r => if decide (a = addr ∧ t = token ∧ i = id) then Some (is_ok r) else None
  | VDeleteTemplate k d, CallDeleteTemplate a t k' d' r =>
      if decide (a = addr ∧ t = token ∧ k' = k ∧ d' = d) then Some (is_ok r) else None
  | VPromote id tm, CallPromote a t i tm' r => if decide (a = addr ∧ t = token ∧ i = id ∧ tm' = tm) then Some (is_ok r) else None
  | VSetTemplateLabels k l d, CallSetTemplateLabels a t k' l' d' r =>
      if decide (a = addr ∧ t = token ∧ k' = k ∧ l' = l ∧ d' = d) then Some (is_ok r) else None
  | VDialGuestPort id pt p, CallDialPort a t i pt' p' r =>
      if decide (a = addr ∧ t = token ∧ i = id ∧ pt' = pt ∧ p' = p) then Some (is_ok r) else None
  | VSetInstanceMetadata id d, CallSetInstanceMetadata a t i d' r =>
      if decide (a = addr ∧ t = token ∧ i = id ∧ d' = d) then Some (is_ok r) else None
  | _, _ => None
  end.

(** The address a verb may call: routing is configured, the node is named, its
    capacity is readable and advertises an address. *)
Definition reachable_at {W} `{InventorySource W} (s : store) (w : W) (node : string) : option string :=
  if st_routed s && negb (bool_decide (node = "")) then
    match NodeCapacity w node with
    | Ok (addr, _) => if decide (addr = "") then None else Some addr
    | Err _ => None
    end
  else None.

Definition release_of_nothing (v : verb) : Prop := match v with VRelease id => id = "" | _ => False end.

(** ** Lemmas *)

Lemma is_ok_map_err {A} f (r : result A) : is_ok (map_err f r) = is_ok r.
Proof. by destruct r. Qed.
Lemma is_ok_fmap {A B} (f : A → B) (r : result A) : is_ok (fmap (M := result) f r) = is_ok r.
Proof. by destruct r. Qed.

Lemma nodeClient_reachable {W} `{InventorySource W} s w node verb id :
  match nodeClient s w node verb id with
  | Ok addr => reachable_at s w node = Some addr
  | Err _ => reachable_at s w node = None
  end.
Proof.
  unfold nodeClient, reachable_at. destruct (st_routed s); simpl; [|done].
  destruct (decide (node = "")) as [->|Hn]; [done|]. rewrite bool_decide_eq_false_2 by done. simpl.
  destruct (NodeCapacity w node) as [[addr pools]|]; [|done]. by destruct (decide (addr = "")).
Qed.

Lemma on_node_run {W} `{InventorySource W} {A} s node verb id wrap (m : string → io W (result A)) w :
  on_node s node verb id wrap m w =
  match nodeClient s w node verb id with
  | Err e => (Err e, w)
  | Ok addr => (map_err wrap (m addr w).1, (m addr w).2)
  end.
Proof.
  unfold on_node. rewrite bind_run. unfold gets. simpl. destruct (nodeClient s w node verb id); [|done].
  by rewrite bind_run.
Qed.

Section logged.
Context {W : Type} (I : InventorySource W) (K : SandboxdClient W).

(** A verb made of one logged call. *)
Lemma on_node_logged {A B} s node verb id wrap (m : string → io W (result A)) (c : string → result A → call)
    (f : result A → B) l w :
  (r ← on_node s node verb id wrap (λ addr, logging (m addr) (c addr)); mret (f r)) (l, w) =
  match nodeClient s w node verb id with
  | Err e => (f (Err e), (l, w))
  | Ok addr => (f (map_err wrap (m addr w).1), (l ++ [c addr (m addr w).1], (m addr w).2))
  end.
Proof.
  rewrite bind_run, on_node_run. change (nodeClient s (l, w) node verb id) with (nodeClient s w node verb id).
  destruct (nodeClient s w node verb id) as [addr|e]; [|done]. unfold logging. by destruct (m addr w).
Qed.

(** What the theorem below says of one verb, from its one logged call. *)
Lemma verb_outcome {A} s node verb id wrap (m : string → io W (result A)) (c : string → result A → call) v l w :
  (∀ addr r, call_of_verb addr (st_token s) v (c addr r) = Some (is_ok r)) →
  let out := (r ← on_node s node verb id wrap (λ addr, logging (m addr) (c addr)); mret (is_ok r)) (l, w) in
  match reachable_at s w node with
  | Some addr => ∃ c, out.2.1 = l ++ [c] ∧ call_of_verb addr (st_token s) v c = Some out.1
  | None => out = (false, (l, w))
  end.
Proof.
  intros Hc out. unfold out. rewrite on_node_logged. pose proof (nodeClient_reachable s w node verb id) as Hr.
  destruct (nodeClient s w node verb id) as [addr|e]; rewrite Hr; [|done].
  exists (c addr (m addr w).1). split; [done|]. rewrite Hc. simpl. by rewrite is_ok_map_err.
Qed.
End logged.

Lemma errors_as_nil_wrap {A} (f : error → option A) fm args e :
  (∀ x y z, f (ErrWrap x y z) = None) → errors_as f (ErrWrap fm args e) = errors_as f e.
Proof. intros H. apply errors_as_wrap. apply H. Qed.

(** Bindings of one node survive as long as the index has room. *)
Lemma run_op_app os1 os2 x : run_ops (os1 ++ os2) x = run_ops os2 (run_ops os1 x).
Proof. apply fold_left_app. Qed.

Lemma run_ops_max os x : x_max (run_ops os x) = x_max x.
Proof. revert x. induction os as [|o os IH]; intros x; [done|]. simpl. rewrite IH. apply run_op_max. Qed.

Lemma run_ops_remembered os x k n :
  (∀ o, o ∈ os → ∃ k', o = OpRemember k' n) → OpRemember k n ∈ os → k ≠ "" → n ≠ "" → length os ≤ x_max x →
  (lookup k (run_ops os x)).1 = Some n.
Proof.
  intros Hall Hin Hk Hn Hlen. destruct (list_elem_of_split_r _ _ Hin) as (l1 & l2 & -> & Hlast).
  rewrite length_app in Hlen. simpl in Hlen. rewrite lookup_view, run_op_app. simpl.
  apply survives_ops.
  - intros n' Hn'. destruct (Hall (OpRemember k n')) as [k' [= -> ->]]; [|done]. apply elem_of_app. right. by right.
  - unfold remember. rewrite decide_False by tauto. split; rewrite storeLocked_max, run_ops_max; [lia|].
    left. unfold storeLocked. simpl. apply lookup_insert_eq.
Qed.

Lemma remember_children_run {W} ns node children x (w : W) :
  remember_children ns node children (x, w) =
  (tt, (run_ops (concat ((λ c, [OpRemember (nameKey ns (cr_ID c)) node; OpRemember (claimKey ns (cr_ID c)) node]) <$> children)) x, w)).
Proof.
  revert x. induction children as [|c children IH]; intros x; [done|]. cbn [remember_children].
  rewrite bind_run. unfold remember_in_index. rewrite on_index_run. simpl. apply IH.
Qed.

(** ** Properties *)

Section properties.
Context {W : Type} (I : InventorySource W) (K : SandboxdClient W).

(** a verb fails closed and acts once: when the node cannot be reached (no
    routing configured, no node, unreadable capacity, no address), and for a
    release of no id, it fails and calls nobody; otherwise it makes exactly one
    call, of the right kind, on the node's advertised address, with the fleet
    token and the caller's arguments, and it succeeds exactly when that call did. *)
Theorem verb_calls_once (s : store) (node : string) (v : verb) (l : list call) (w : W) :
  let '(ok, (l', w')) := run_verb (K := recorded K) s node v (l, w) in
  match v, reachable_at s w node with
  | VRelease "", _ | _, None => ok = false ∧ l' = l ∧ w' = w
  | _, Some addr => ∃ c, l' = l ++ [c] ∧ call_of_verb addr (st_token s) v c = Some ok
  end.
Proof.
  assert (∀ (out : bool * (list call * W)),
    match reachable_at s w node with
    | Some addr => ∃ c, out.2.1 = l ++ [c] ∧ call_of_verb addr (st_token s) v c = Some out.1
    | None => out = (false, (l, w))
    end →
    let '(ok, (l', w')) := out in
    match reachable_at s w node with
    | None => ok = false ∧ l' = l ∧ w' = w
    | Some addr => ∃ c, l' = l ++ [c] ∧ call_of_verb addr (st_token s) v c = Some ok
    end) as Hout.
  { intros [ok [l' w']]. destruct (reachable_at s w node); simpl; [done|]. by intros [= -> -> ->]. }
  destruct v as [id|id|id|id ttl oe|id name|id|k d|id t|k lb d|id t p|id d].
  1: destruct (decide (id = "")) as [->|Hid]; [done|].
  1: enough (let '(ok, (l', w')) := run_verb (K := recorded K) s node (VRelease id) (l, w) in
       match reachable_at s w node with
       | None => ok = false ∧ l' = l ∧ w' = w
       | Some addr => ∃ c, l' = l ++ [c] ∧ call_of_verb addr (st_token s) (VRelease id) c = Some ok
       end) as H by (destruct (run_verb _ _ _ _) as [ok [l' w']]; by destruct id).
  all: apply Hout.
  - unfold run_verb, Release. rewrite decide_False by done.
    apply verb_outcome. intros addr r. simpl. by rewrite decide_True.
  - apply verb_outcome. intros addr r. simpl. by rewrite decide_True.
  - apply verb_outcome. intros addr r. simpl. by rewrite decide_True.
  - apply verb_outcome. intros addr r. simpl. by rewrite decide_True.
  - pose proof (verb_outcome I s node "snapshot" id (verb_error "snapshot" id node)
      (λ addr, Checkpoint addr (st_token s) id (mkCheckpointSpec "" name))
      (λ addr, CallCheckpoint addr (st_token s) id (mkCheckpointSpec "" name)) (VSnapshot id name) l w) as H.
    simpl in H. specialize (H ltac:(intros; by rewrite decide_True)).
    unfold run_verb, Snapshot. rewrite !bind_run in *. simpl in *. by rewrite is_ok_fmap.
  - apply verb_outcome. intros addr r. simpl. by rewrite decide_True.
  - apply verb_outcome. intros addr r. simpl. by rewrite decide_True.
  - apply verb_outcome. intros addr r. simpl. by rewrite decide_True.
  - apply verb_outcome. intros addr r. simpl. by rewrite decide_True.
  - apply verb_outcome. intros addr r. simpl. by rewrite decide_True.
  - apply verb_outcome. intros addr r. simpl. by rewrite decide_True.
Qed.

(** How a node's refusal reaches the API: a 404 is NotFound, another 4xx keeps
    its code, and everything else (a 5xx, a transport error) is wrapped so that it
    still unwraps to the node's own error and never becomes a client error. *)
Theorem nodeVerbError_spec (err : error) (verb id node : string) :
  errors_as status_of err = None →
  status_code (nodeVerbError err verb id node) =
    match errors_as http_of err with
    | Some (code, _) => if decide (400 ≤ code < 500)%Z then Some code else None
    | None => None
    end ∧
  (status_code (nodeVerbError err verb id node) = None →
     errors_as http_of (nodeVerbError err verb id node) = errors_as http_of err ∧
     errors_as netop_of (nodeVerbError err verb id node) = errors_as netop_of err).
Proof.
  intros Hs. unfold nodeVerbError.
  assert (status_code (ErrWrap "scale: sandboxd %s of %q on node %q" [verb; id; node] err) = None) as Hw.
  { unfold status_code. by rewrite errors_as_nil_wrap, Hs. }
  destruct (errors_as http_of err) as [[code msg]|] eqn:Hh.
  - destruct (decide (code = 404)%Z) as [->|Hne]; [done|].
    destruct (decide (400 ≤ code < 500)%Z); [by destruct (decide (msg = ""))|].
    split; [done|]. intros _. by rewrite !errors_as_nil_wrap.
  - split; [done|]. intros _. by rewrite !errors_as_nil_wrap.
Qed.

(** checkpoint names are stamped with their namespace within the node's name
    budget, and the stamp gives the name back in that namespace and no other. *)
Theorem CheckpointName_isolated (namespace name stamped : string) :
  has_byte "/" namespace = false → CheckpointName namespace name = Ok stamped →
  String.length stamped ≤ maxSandboxdName ∧ sandboxdName stamped = true ∧
  CheckpointNameIn namespace stamped = Some name ∧
  (∀ namespace' name', has_byte "/" namespace' = false →
     CheckpointNameIn namespace' stamped = Some name' → namespace' = namespace ∧ name' = name).
Proof.
  intros Hns. unfold CheckpointName, StampedName. change ("" +:+ namespace +:+ "/" +:+ name) with (namespace +:+ String "/" name).
  case_decide as Hl; [done|]. destruct (sandboxdName _) eqn:Hm; [|done]. simpl. intros [= <-].
  split_and!; [lia|done| |].
  - unfold CheckpointNameIn. apply cut_prefix_Some. by rewrite str_app_assoc.
  - unfold CheckpointNameIn. intros ns' n' Hns' H%cut_prefix_Some. rewrite str_app_assoc in H.
    change ("/" +:+ n') with (String "/" n') in H.
    pose proof (str_cut_byte "/" namespace name Hns) as H1. rewrite H, str_cut_byte in H1 by done. by inversion H1.
Qed.

(** a fork of fewer than one child, or of a sandbox on an unreachable node,
    calls nobody; another makes one fork call that files the children under
    [namespace/]; its assignments are the children the node reports, and while the
    index has room for them every child resolves to the parent's node by name and
    by claim id. *)
Theorem Fork_spec (s : store) (namespace node id : string) (count ttl : Z) (x : nodeIndex) (l : list call) (w : W) :
  let '(r, (x', (l', w'))) := Fork (K := recorded K) s namespace node id count ttl (x, (l, w)) in
  match reachable_at s w node with
  | Some addr =>
      if decide (count < 1)%Z then is_ok r = false ∧ l' = l else
      ∃ res, l' = l ++ [CallFork addr (st_token s) id (mkForkSpec "" count ttl (namespace +:+ "/")) res] ∧
        match res with
        | Err _ => is_ok r = false ∧ x' = x
        | Ok res =>
            r = Ok ((λ c, mkAssignment (cr_ID c) node (cr_OwnerAddr c) (cr_Token c) (cr_Deadline c) "") <$> fr_Children res) ∧
            (2 * length (fr_Children res) ≤ x_max x → ∀ c, c ∈ fr_Children res →
               (lookup (nameKey namespace (cr_ID c)) x').1 = Some node ∧
               (lookup (claimKey namespace (cr_ID c)) x').1 = Some node)
        end
  | None => is_ok r = false ∧ l' = l ∧ x' = x
  end.
Proof.
  unfold Fork. destruct (decide (count < 1)%Z) as [Hc|Hc].
  { simpl. by destruct (reachable_at s w node). }
  rewrite bind_run, on_world_run, on_node_run.
  change (nodeClient s (l, w) node "fork" id) with (nodeClient s w node "fork" id).
  pose proof (nodeClient_reachable s w node "fork" id) as Hr.
  destruct (nodeClient s w node "fork" id) as [addr|e] eqn:Hn; rewrite Hr; [|done]. simpl.
  assert (node ≠ "") as Hnode.
  { intros ->. unfold reachable_at in Hr. rewrite andb_false_r in Hr. done. }
  unfold logging. destruct (Client.Fork addr (st_token s) id (mkForkSpec "" count ttl (namespacedName namespace "")) w) as [res w'].
  simpl. destruct res as [res|e]; simpl; [|exists (Err e); auto].
  rewrite bind_run, remember_children_run. simpl. exists (Ok res). split; [done|]. split; [done|].
  intros Hlen c Hin. set (os := concat _).
  assert (length os = 2 * length (fr_Children res)) as Hos.
  { unfold os. clear. induction (fr_Children res) as [|c' cs IH]; [done|]. csimpl. rewrite IH. lia. }
  assert (∀ o, o ∈ os → ∃ k, o = OpRemember k node) as Hall.
  { intros o. unfold os. rewrite list_elem_of_In, in_concat. intros (os1 & (c1 & -> & _)%list_elem_of_In%list_elem_of_fmap & Ho%list_elem_of_In).
    apply elem_of_cons in Ho as [->|[->|Ho]%elem_of_cons]; [eauto..|by apply not_elem_of_nil in Ho]. }
  split; apply run_ops_remembered; try done; try lia; unfold os; rewrite list_elem_of_In, in_concat;
    (eexists; split; apply list_elem_of_In; [apply list_elem_of_fmap; exists c; split; [reflexivity|done]|]).
  - constructor.
  - right. constructor.
Qed.
End properties.

(** ** Witnesses *)

Lemma nodeVerbError_spec_witness :
  status_code (nodeVerbError (ErrHTTP 409 "paused") "port" "sb_1" "n1") = Some 409%Z.
Proof. apply (nodeVerbError_spec (ErrHTTP 409 "paused") "port" "sb_1" "n1"). reflexivity. Defined.

Lemma CheckpointName_isolated_witness :
  CheckpointNameIn "team" "team/base" = Some "base" ∧ CheckpointNameIn "tea" "team/base" = None.
Proof.
  destruct (CheckpointName_isolated "team" "base" "team/base") as (_ & _ & H & _); [reflexivity|vm_compute; reflexivity|].
  split; [exact H|reflexivity].
Defined.
