(* ===== verification/Store.v ===== *)
(** * The store contract (SandboxStore, SandboxLifecycle and ClaimIDResolver in pkg/scale/sandboxstore.go)

    What the apiserver, the edge proxy and the build executor know of the
    store: an interface over a state [S], its laws, and the scatter-gather
    store as the implementation that meets them.  [recorded_store] keeps the calls
    that change something, for statements about what a client of the store
    does. *)

From S2P Require Import Prelude GoStd Api NodeIndex SandboxView Inventory FirstHit Client StoreRead StoreClaim StoreLifecycle.

Class SandboxStore (S : Type) := {
  List (opts : ListOptions) : io S (result (list Api.Sandbox));
  Get (namespace name : string) : io S (result Api.Sandbox);
  GetByClaimID (namespace id : string) (mtch : string → bool) : io S (result Api.Sandbox);
  Claim (namespace name : string) (pool : PoolKey) (opts : ClaimOptions) : io S (result Assignment);
  Release (node id : string) : io S (result unit);
  Pause (node id : string) : io S (result unit);
  Resume (node id : string) : io S (result unit);
  Fork (namespace node id : string) (count ttlSeconds : Z) : io S (result (list Assignment));
  Snapshot (node id name : string) : io S (result Api.Snapshot);
  Snapshots (node : string) : io S (result (list Api.Snapshot));
  DeleteSnapshot (node snapshotID : string) : io S (result unit);
  DeleteTemplate (node : string) (key : PoolKey) (digest : string) : io S (result unit);
  Promote (node id template : string) : io S (result (PoolKey * string));
  SetTemplateLabels (node : string) (key : PoolKey) (labels : gmap string string) (digest : string) : io S (result unit);
  NodeTemplates (node : string) : io S (result (list PromotedTemplate));
  DialGuestPort (node id token : string) (port : Z) : io S (result Conn);
  SetInstanceMetadata (node id doc : string) : io S (result unit);
  Read (node id : string) : io S (result SandboxRecord);
  Renew (node id : string) (ttlSeconds : Z) (onExpire : ExpireAction) : io S (result time);
}.

(** What a client may rely on: a sandbox read by name has that name, a sandbox
    read by claim id carries a claim id the match accepts and is of the namespace
    asked for, and a missing one is a NotFound. *)
Class StoreLaws (S : Type) (T : SandboxStore S) := {
  Get_named ns name st sb : (Get ns name st).1 = Ok sb → sb_Namespace sb = ns ∧ sb_Name sb = name;
  GetByClaimID_carries ns id mtch st sb : (GetByClaimID ns id mtch st).1 = Ok sb →
    (∃ claim, sb_Annotations sb !! ClaimIDAnnotation = Some claim ∧ claim ≠ "" ∧ mtch claim = true) ∧
    (ns = "" ∨ sb_Namespace sb = ns);
}.

(** ** The scatter-gather store *)

Section scatter_gather.
Context {W : Type} {I : InventorySource W} {K : SandboxdClient W} {C : MetadataCodec} {SO : SelectorOps}.

(** [NewScatterGatherStore]: the store over an inventory, with or without claim
    routing.  [ord] and [rnd] are its fan-out orders and random draws. *)
#[export] Instance scatterGatherStore (s : store) (ord : order) (rnd : rand) : SandboxStore (nodeIndex * W) := {|
  List := StoreRead.List s ord;
  Get := StoreRead.Get s ord;
  GetByClaimID := StoreRead.GetByClaimID s ord;
  Claim := StoreClaim.Claim s rnd;
  Release node id := on_world (StoreLifecycle.Release s node id);
  Pause node id := on_world (StoreLifecycle.Pause s node id);
  Resume node id := on_world (StoreLifecycle.Resume s node id);
  Fork := StoreLifecycle.Fork s;
  Snapshot node id name := on_world (StoreLifecycle.Snapshot s node id name);
  Snapshots node := on_world (StoreLifecycle.Snapshots s node);
  DeleteSnapshot node id := on_world (StoreLifecycle.DeleteSnapshot s node id);
  DeleteTemplate node key digest := on_world (StoreLifecycle.DeleteTemplate s node key digest);
  Promote node id template := on_world (StoreLifecycle.Promote s node id template);
  SetTemplateLabels node key labels digest := on_world (StoreLifecycle.SetTemplateLabels s node key labels digest);
  NodeTemplates node := on_world (StoreLifecycle.NodeTemplates s node);
  DialGuestPort node id token port := on_world (StoreLifecycle.DialGuestPort s node id token port);
  SetInstanceMetadata node id doc := on_world (StoreLifecycle.SetInstanceMetadata s node id doc);
  Read node id := on_world (StoreLifecycle.Read s node id);
  Renew node id ttl onExpire := on_world (StoreLifecycle.Renew s node id ttl onExpire);
|}.

#[export] Instance scatterGatherStore_laws (s : store) (ord : order) (rnd : rand) :
  StoreLaws (nodeIndex * W) (scatterGatherStore s ord rnd).
Proof.
  split.
  - intros ns name [x w] sb. simpl. unfold StoreRead.Get, lookupName. rewrite bind_run. simpl.
    destruct (resolve _ _ _ _ _ _ _) as [r [x' w']] eqn:Hr. simpl.
    destruct r as [[sb'|]|]; simpl; [|done..]. intros [= ->].
    destruct (resolve_from s ord "get" (nameKey ns name) (rowsByClaimRef (namespacedName ns name)) (nameMatch ns name) x w sb)
      as [Hf _]; [done|by rewrite Hr|]. by apply from_match_name.
  - intros ns id mtch [x w] sb. simpl. unfold StoreRead.GetByClaimID. rewrite bind_run. simpl.
    destruct (resolve _ _ _ _ _ _ _) as [r [x' w']] eqn:Hr. simpl.
    destruct r as [[sb'|]|]; simpl; [|done..]. intros [= ->].
    destruct (resolve_from s ord "claim-id get" (claimKey ns id) (rowByID id) (claimIDMatch ns mtch) x w sb)
      as [Hf _]; [done|by rewrite Hr|]. by apply from_match_claim.
Qed.
End scatter_gather.

(** ** Recording what a client of the store asks for *)

Inductive store_call :=
| SCClaim (namespace name : string) (pool : PoolKey) (opts : ClaimOptions) (res : result Assignment)
| SCRelease (node id : string) (res : result unit)
| SCPause (node id : string) (res : result unit)
| SCResume (node id : string) (res : result unit)
| SCFork (namespace node id : string) (count ttlSeconds : Z) (res : result (list Assignment))
| SCSnapshot (node id name : string) (res : result Api.Snapshot)
| SCDeleteSnapshot (node snapshotID : string) (res : result unit)
| SCDeleteTemplate (node : string) (key : PoolKey) (digest : string) (res : result unit)
| SCPromote (node id template : string) (res : result (PoolKey * string))
| SCSetTemplateLabels (node : string) (key : PoolKey) (labels : gmap string string) (digest : string) (res : result unit)
| SCDialGuestPort (node id token : string) (port : Z) (res : result Conn)
| SCSetInstanceMetadata (node id doc : string) (res : result unit)
| SCRenew (node id : string) (ttlSeconds : Z) (onExpire : ExpireAction) (res : result time).

Definition recorded_store {S} (T : SandboxStore S) : SandboxStore (list store_call * S) := {|
  List opts := silently (List opts);
  Get ns name := silently (Get ns name);
  GetByClaimID ns id mtch := silently (GetByClaimID ns id mtch);
  Claim ns name pool opts := logging (Claim ns name pool opts) (SCClaim ns name pool opts);
  Release node id := logging (Release node id) (SCRelease node id);
  Pause node id := logging (Pause node id) (SCPause node id);
  Resume node id := logging (Resume node id) (SCResume node id);
  Fork ns node id n ttl := logging (Fork ns node id n ttl) (SCFork ns node id n ttl);
  Snapshot node id name := logging (Snapshot node id name) (SCSnapshot node id name);
  Snapshots node := silently (Snapshots node);
  DeleteSnapshot node id := logging (DeleteSnapshot node id) (SCDeleteSnapshot node id);
  DeleteTemplate node k d := logging (DeleteTemplate node k d) (SCDeleteTemplate node k d);
  Promote node id t := logging (Promote node id t) (SCPromote node id t);
  SetTemplateLabels node k l d := logging (SetTemplateLabels node k l d) (SCSetTemplateLabels node k l d);
  NodeTemplates node := silently (NodeTemplates node);
  DialGuestPort node id t p := logging (DialGuestPort node id t p) (SCDialGuestPort node id t p);
  SetInstanceMetadata node id d := logging (SetInstanceMetadata node id d) (SCSetInstanceMetadata node id d);
  Read node id := silently (Read node id);
  Renew node id ttl e := logging (Renew node id ttl e) (SCRenew node id ttl e);
|}.

(** How the recorder runs: the store's own answer and state, and the call kept. *)
Section recorder.
Context {S : Type} (T : SandboxStore S).

Lemma recorded_Get ns name (l : list store_call) st :
  Get (SandboxStore := recorded_store T) ns name (l, st) = ((Get ns name st).1, (l, (Get ns name st).2)).
Proof. apply silently_run. Qed.
Lemma recorded_GetByClaimID ns id mtch (l : list store_call) st :
  GetByClaimID (SandboxStore := recorded_store T) ns id mtch (l, st) = ((GetByClaimID ns id mtch st).1, (l, (GetByClaimID ns id mtch st).2)).
Proof. apply silently_run. Qed.
Lemma recorded_Read node id (l : list store_call) st :
  Read (SandboxStore := recorded_store T) node id (l, st) = ((Read node id st).1, (l, (Read node id st).2)).
Proof. apply silently_run. Qed.
Lemma recorded_Claim ns name pool opts l st :
  Claim (SandboxStore := recorded_store T) ns name pool opts (l, st) =
  ((Claim ns name pool opts st).1, (l ++ [SCClaim ns name pool opts (Claim ns name pool opts st).1], (Claim ns name pool opts st).2)).
Proof. apply logging_run. Qed.
Lemma recorded_Release node id l st :
  Release (SandboxStore := recorded_store T) node id (l, st) =
  ((Release node id st).1, (l ++ [SCRelease node id (Release node id st).1], (Release node id st).2)).
Proof. apply logging_run. Qed.
Lemma recorded_Pause node id l st :
  Pause (SandboxStore := recorded_store T) node id (l, st) =
  ((Pause node id st).1, (l ++ [SCPause node id (Pause node id st).1], (Pause node id st).2)).
Proof. apply logging_run. Qed.
Lemma recorded_Resume node id l st :
  Resume (SandboxStore := recorded_store T) node id (l, st) =
  ((Resume node id st).1, (l ++ [SCResume node id (Resume node id st).1], (Resume node id st).2)).
Proof. apply logging_run. Qed.
Lemma recorded_Fork ns node id n ttl l st :
  Fork (SandboxStore := recorded_store T) ns node id n ttl (l, st) =
  ((Fork ns node id n ttl st).1, (l ++ [SCFork ns node id n ttl (Fork ns node id n ttl st).1], (Fork ns node id n ttl st).2)).
Proof. apply logging_run. Qed.
Lemma recorded_Snapshot node id name l st :
  Snapshot (SandboxStore := recorded_store T) node id name (l, st) =
  ((Snapshot node id name st).1, (l ++ [SCSnapshot node id name (Snapshot node id name st).1], (Snapshot node id name st).2)).
Proof. apply logging_run. Qed.
Lemma recorded_Promote node id t l st :
  Promote (SandboxStore := recorded_store T) node id t (l, st) =
  ((Promote node id t st).1, (l ++ [SCPromote node id t (Promote node id t st).1], (Promote node id t st).2)).
Proof. apply logging_run. Qed.
Lemma recorded_List opts (l : list store_call) st :
  List (SandboxStore := recorded_store T) opts (l, st) = ((List opts st).1, (l, (List opts st).2)).
Proof. apply silently_run. Qed.
Lemma recorded_Snapshots node (l : list store_call) st :
  Snapshots (SandboxStore := recorded_store T) node (l, st) = ((Snapshots node st).1, (l, (Snapshots node st).2)).
Proof. apply silently_run. Qed.
Lemma recorded_NodeTemplates node (l : list store_call) st :
  NodeTemplates (SandboxStore := recorded_store T) node (l, st) = ((NodeTemplates node st).1, (l, (NodeTemplates node st).2)).
Proof. apply silently_run. Qed.
Lemma recorded_DeleteSnapshot node id l st :
  DeleteSnapshot (SandboxStore := recorded_store T) node id (l, st) =
  ((DeleteSnapshot node id st).1, (l ++ [SCDeleteSnapshot node id (DeleteSnapshot node id st).1], (DeleteSnapshot node id st).2)).
Proof. apply logging_run. Qed.
Lemma recorded_DeleteTemplate node k d l st :
  DeleteTemplate (SandboxStore := recorded_store T) node k d (l, st) =
  ((DeleteTemplate node k d st).1, (l ++ [SCDeleteTemplate node k d (DeleteTemplate node k d st).1], (DeleteTemplate node k d st).2)).
Proof. apply logging_run. Qed.
Lemma recorded_SetTemplateLabels node k lb d l st :
  SetTemplateLabels (SandboxStore := recorded_store T) node k lb d (l, st) =
  ((SetTemplateLabels node k lb d st).1, (l ++ [SCSetTemplateLabels node k lb d (SetTemplateLabels node k lb d st).1], (SetTemplateLabels node k lb d st).2)).
Proof. apply logging_run. Qed.
Lemma recorded_DialGuestPort node id t p l st :
  DialGuestPort (SandboxStore := recorded_store T) node id t p (l, st) =
  ((DialGuestPort node id t p st).1, (l ++ [SCDialGuestPort node id t p (DialGuestPort node id t p st).1], (DialGuestPort node id t p st).2)).
Proof. apply logging_run. Qed.
Lemma recorded_SetInstanceMetadata node id d l st :
  SetInstanceMetadata (SandboxStore := recorded_store T) node id d (l, st) =
  ((SetInstanceMetadata node id d st).1, (l ++ [SCSetInstanceMetadata node id d (SetInstanceMetadata node id d st).1], (SetInstanceMetadata node id d st).2)).
Proof. apply logging_run. Qed.
Lemma recorded_Renew node id ttl e l st :
  Renew (SandboxStore := recorded_store T) node id ttl e (l, st) =
  ((Renew node id ttl e st).1, (l ++ [SCRenew node id ttl e (Renew node id ttl e st).1], (Renew node id ttl e st).2)).
Proof. apply logging_run. Qed.
End recorder.

Create Rewrite HintDb store.
#[export] Hint Rewrite @recorded_Get @recorded_GetByClaimID @recorded_Read @recorded_Claim @recorded_Release @recorded_Pause
  @recorded_Resume @recorded_Fork @recorded_Snapshot @recorded_Promote @recorded_List @recorded_Snapshots @recorded_NodeTemplates
  @recorded_DeleteSnapshot @recorded_DeleteTemplate @recorded_SetTemplateLabels @recorded_DialGuestPort
  @recorded_SetInstanceMetadata @recorded_Renew @bind_run : store.

(** ** What a computation asks of the store

    [emits m Q]: whatever was recorded before and whatever the state, [m] appends
    some calls and returns a value that [Q] relates to them. *)

Definition emits {C S A} (m : io (list C * S) A) (Q : list C → A → Prop) : Prop :=
  ∀ l st, ∃ tail, (m (l, st)).2.1 = l ++ tail ∧ Q tail (m (l, st)).1.

Section emits.
Context {C S : Type}.

Lemma emits_ret {A} (a : A) (Q : list C → A → Prop) : Q [] a → emits (C := C) (S := S) (mret a) Q.
Proof. intros HQ l st. exists []. by rewrite app_nil_r. Qed.

Lemma emits_bind {A B} (m : io (list C * S) A) (k : A → io (list C * S) B) Q1 Q :
  emits m Q1 → (∀ tail a, Q1 tail a → emits (k a) (λ t b, Q (tail ++ t) b)) → emits (m ≫= k) Q.
Proof.
  intros Hm Hk l st. destruct (Hm l st) as (t1 & Hl & H1). rewrite bind_run. destruct (m (l, st)) as [a [l1 st1]]. cbn [fst snd] in *. subst l1.
  destruct (Hk t1 a H1 (l ++ t1) st1) as (t2 & Hl2 & H2). exists (t1 ++ t2). by rewrite app_assoc.
Qed.

(** After a computation that records nothing. *)
Lemma emits_silent_bind {A B} (m : io (list C * S) A) (k : A → io (list C * S) B) (P : A → Prop) Q :
  emits m (λ t a, t = [] ∧ P a) → (∀ a, P a → emits (k a) Q) → emits (m ≫= k) Q.
Proof. intros Hm Hk. eapply emits_bind; [exact Hm|]. intros tail a [-> HP]. by apply Hk. Qed.

Lemma emits_mono {A} (m : io (list C * S) A) (Q1 Q2 : list C → A → Prop) :
  emits m Q1 → (∀ t a, Q1 t a → Q2 t a) → emits m Q2.
Proof. intros Hm HQ l st. destruct (Hm l st) as (t & ? & ?). exists t. auto. Qed.

Lemma emits_gets {A} (f : list C * S → A) : emits (gets f) (λ t a, t = [] ∧ ∃ x, a = f x).
Proof. intros l st. exists []. rewrite app_nil_r. split; [done|]. split; [done|]. by exists (l, st). Qed.

Lemma emits_logging {A} (m : io S A) (c : A → C) : emits (logging m c) (λ t a, t = [c a] ∧ ∃ st, a = (m st).1).
Proof. intros l st. rewrite logging_run. exists [c (m st).1]. split; [done|]. split; [done|]. by exists st. Qed.
Lemma emits_silently {A} (m : io S A) : emits (C := C) (silently m) (λ t a, t = [] ∧ ∃ st, a = (m st).1).
Proof. intros l st. rewrite silently_run. exists []. rewrite app_nil_r. split; [done|]. split; [done|]. by exists st. Qed.

(** A verb whose answer is all that follows. *)
Lemma emits_last {A B} (m : io S A) (c : A → C) (f : A → B) (Q : list C → B → Prop) :
  (∀ st, Q [c (m st).1] (f (m st).1)) → emits (r ← logging m c; mret (f r)) Q.
Proof.
  intros HQ. eapply emits_bind; [apply emits_logging|]. intros t a [-> [st ->]]. apply emits_ret. apply HQ.
Qed.
End emits.

(** ** A store of one sandbox, for the witnesses *)

Section toy.
Context (S : Type) (sb : Api.Sandbox) (token : string).
Let refused {A} : io S (result A) := mret (Err (NewNotFound "sandboxes" "")).
Let claim_of : string := default "" (sb_Annotations sb !! ClaimIDAnnotation).

Definition toy_store : SandboxStore S := {|
  List _ := mret (Ok [sb]);
  Get ns name := if decide (sb_Namespace sb = ns ∧ sb_Name sb = name) then mret (Ok sb) else refused;
  GetByClaimID ns _ mtch :=
    if decide (claim_of ≠ "" ∧ mtch claim_of = true ∧ (ns = "" ∨ sb_Namespace sb = ns)) then mret (Ok sb) else refused;
  Claim _ _ _ _ := mret (Ok (mkAssignment claim_of (sb_NodeName sb) "" token zero_time ""));
  Release _ _ := mret (Ok tt);
  Pause _ _ := mret (Ok tt);
  Resume _ _ := mret (Ok tt);
  Fork _ _ _ _ _ := refused;
  Snapshot _ _ _ := refused;
  Snapshots _ := refused;
  DeleteSnapshot _ _ := refused;
  DeleteTemplate _ _ _ := refused;
  Promote _ _ t := mret (Ok (mkPoolKey t "" "", "digest"));
  SetTemplateLabels _ _ _ _ := refused;
  NodeTemplates _ := refused;
  DialGuestPort _ _ _ _ := refused;
  SetInstanceMetadata _ _ _ := refused;
  Read _ _ := mret (Ok (mkSandboxRecord token false zero_time));
  Renew _ _ _ _ := refused;
|}.

Definition toy_store_laws : StoreLaws S toy_store.
Proof.
  split.
  - intros ns name st sb'. simpl. by case_decide; intros [= <-].
  - intros ns id mtch st sb'. simpl. case_decide as H; intros [= <-]. destruct H as (Hc & Hm & Hns). split; [|done].
    exists claim_of. split; [|done]. unfold claim_of in *. by destruct (sb_Annotations sb !! ClaimIDAnnotation).
Defined.
End toy.
