(* ===== verification/KubeCache.v ===== *)
(** * The inventory cache and the applier (pkg/scale/kubeinventory/cache.go, applier.go and the start of source.go)

    A binary that reads the fleet starts an informer cache, waits until it holds the
    fleet and builds its source on it; a publisher writes a node's inventory by
    server-side apply.  The Kubernetes client, its cache and the encoding of objects
    are parameters: what they do is recorded, and what the theorems rely on is named. *)

From S2P Require Import Prelude GoStd Api Inventory KubeInventory Client StoreRead Store.

(** ** The client library *)

(** [U] is an unstructured object. *)
Class Cluster (W U : Type) := {
  AddToScheme : io W (result unit);
  NewInformerCache : io W (result unit);
  GetInformer : io W (result unit);
  (** [go func() { cacheErr <- invCache.Start(ctx) }()] *)
  StartCache : io W unit;
  WaitForCacheSync (timeout : Z) : io W bool;
  (** a receive from [cacheErr] that does not block *)
  StartResult : io W (option (result unit));
  AddEventHandler : io W (result unit);
  (** whether the handler saw the synced fleet in time, and the events it saw *)
  WaitHandlerSync (timeout : Z) : io W (bool * list event);
  ToUnstructured (inv : Api.NodeInventory) : result U;
  SetGroupVersionKind (kind : string) (u : U) : U;
  SetName (name : string) (u : U) : U;
  (** [client.Client.Apply], with the field owner and whether it forces ownership *)
  ServerSideApply (u : U) (owner : string) (force : bool) : io W (result unit);
}.

Definition cacheSyncTimeout : Z := (2 * 60 * second)%Z.
Definition NodeInventoryKind : string := "sandbox.cocoonstack.io/v1beta1, Kind=NodeInventory".
Definition defaultFieldOwner : string := "cocoon-node-inventory-publisher".

Section cluster.
Context {W U : Type} {K : Cluster W U}.

Definition failing {A} (fmt : string) (m : io W (result A)) : io W (result A) := r ← m; mret (map_err (ErrWrap fmt []) r).

Definition errUnsynced : error := ErrText "kubeinventory: node inventory cache did not sync within %s (is the %s CRD installed?)" [NodeInventoryKind].

(** [NewCache]: a started cache, once it has synced. *)
Definition NewCache : io W (result unit) :=
  _ <-? failing "kubeinventory: register node inventory scheme" AddToScheme;;
  _ <-? failing "kubeinventory: build inventory cache" NewInformerCache;;
  _ <-? failing "kubeinventory: register node inventory informer" GetInformer;;
  _ ← StartCache;
  ok ← WaitForCacheSync cacheSyncTimeout;
  if (ok : bool) then mret (Ok tt)
  else
    failed ← StartResult;
    mret (Err match failed with
              | Some (Err e) => ErrWrap "kubeinventory: run inventory cache" [] e
              | _ => errUnsynced
              end).

(** [New]: a source that saw every object the cache held. *)
Definition NewSource (staleAfter : Z) : io W (result Source) :=
  _ <-? failing "kubeinventory: get node inventory informer" GetInformer;;
  _ <-? failing "kubeinventory: watch node inventories" AddEventHandler;;
  seen ← WaitHandlerSync cacheSyncTimeout;
  mret (if (seen.1 : bool) then Ok (handle_all seen.2 (New staleAfter))
        else Err (ErrText "kubeinventory: node inventory snapshot did not sync within %s" [])).

(** [ssaApplier] *)
Record ssaApplier := mkApplier { sa_fieldOwner : string }.

Definition NewSSAApplier (fieldOwner : string) : ssaApplier := mkApplier (str_or fieldOwner defaultFieldOwner).

Definition inventory_object (inv : Api.NodeInventory) (raw : U) : U := SetName (ni_Node inv) (SetGroupVersionKind NodeInventoryKind raw).

Definition Apply (a : ssaApplier) (inv : Api.NodeInventory) : io W (result unit) :=
  match ToUnstructured inv with
  | Err e => mret (Err (ErrWrap "kubeinventory: encode node inventory" [] e))
  | Ok raw => failing "kubeinventory: server-side-apply node inventory" (ServerSideApply (inventory_object inv raw) (sa_fieldOwner a) true)
  end.
End cluster.

(** ** Recording *)

Inductive cluster_event (U : Type) :=
| EvScheme (r : result unit)
| EvNewCache (r : result unit)
| EvInformer (r : result unit)
| EvStart
| EvSync (timeout : Z) (ok : bool)
| EvStartResult (r : option (result unit))
| EvHandler (r : result unit)
| EvSeen (ok : bool) (es : list event)
| EvApply (u : U) (owner : string) (force : bool) (r : result unit).
Arguments EvScheme {U} _.
Arguments EvNewCache {U} _.
Arguments EvInformer {U} _.
Arguments EvStart {U}.
Arguments EvSync {U} _ _.
Arguments EvStartResult {U} _.
Arguments EvHandler {U} _.
Arguments EvSeen {U} _ _.
Arguments EvApply {U} _ _ _ _.

#[export] Instance recorded_cluster {W U} (K : Cluster W U) : Cluster (list (cluster_event U) * W) U := {|
  AddToScheme := logging AddToScheme EvScheme;
  NewInformerCache := logging NewInformerCache EvNewCache;
  GetInformer := logging GetInformer EvInformer;
  StartCache := logging StartCache (λ _, EvStart);
  WaitForCacheSync t := logging (WaitForCacheSync t) (EvSync t);
  StartResult := logging StartResult EvStartResult;
  AddEventHandler := logging AddEventHandler EvHandler;
  WaitHandlerSync t := logging (WaitHandlerSync t) (λ s, EvSeen s.1 s.2);
  ToUnstructured := ToUnstructured;
  SetGroupVersionKind := SetGroupVersionKind;
  SetName := SetName;
  ServerSideApply u owner force := logging (ServerSideApply u owner force) (EvApply u owner force);
|}.

(** ** Specification *)

(** What a start of the cache does, by what it returns. *)
Inductive cache_log {U} : list (cluster_event U) → result unit → Prop :=
| log_scheme e : cache_log [EvScheme (Err e)] (Err (ErrWrap "kubeinventory: register node inventory scheme" [] e))
| log_build e : cache_log [EvScheme (Ok tt); EvNewCache (Err e)] (Err (ErrWrap "kubeinventory: build inventory cache" [] e))
| log_informer e : cache_log [EvScheme (Ok tt); EvNewCache (Ok tt); EvInformer (Err e)]
    (Err (ErrWrap "kubeinventory: register node inventory informer" [] e))
| log_synced : cache_log [EvScheme (Ok tt); EvNewCache (Ok tt); EvInformer (Ok tt); EvStart; EvSync cacheSyncTimeout true] (Ok tt)
| log_failed e : cache_log [EvScheme (Ok tt); EvNewCache (Ok tt); EvInformer (Ok tt); EvStart; EvSync cacheSyncTimeout false; EvStartResult (Some (Err e))]
    (Err (ErrWrap "kubeinventory: run inventory cache" [] e))
| log_unsynced r : (∀ e, r ≠ Some (Err e)) →
    cache_log [EvScheme (Ok tt); EvNewCache (Ok tt); EvInformer (Ok tt); EvStart; EvSync cacheSyncTimeout false; EvStartResult r] (Err errUnsynced).

(** The object of an inventory: named after its node whatever it was named before. *)
Definition named_after (n : string) (inv : Api.NodeInventory) : Api.NodeInventory :=
  mkNodeInventory n (ni_Node inv) (ni_Entries inv) (ni_Address inv) (ni_Pools inv) (ni_Templates inv) (ni_PublishedAt inv).

(** What the client library promises: a handler that has synced was given every object
    of the cluster, and an object keeps what was encoded under a new name. *)
Class ClusterLaws {W U} (K : Cluster W U) (fleet : W → gmap string Api.NodeInventory) (decode : U → Api.NodeInventory) : Prop := {
  handler_synced t w es w' : WaitHandlerSync t w = ((true, es), w') → store_events es = fleet w';
  decode_encode inv raw : ToUnstructured inv = Ok raw → decode raw = inv;
  decode_kind k u : decode (SetGroupVersionKind k u) = decode u;
  decode_name n u : decode (SetName n u) = named_after n (decode u);
}.

(** ** Lemmas *)

Lemma emits_failing_try {W C A B} fmt (m : io W (result A)) (c : result A → C) (k : A → io (list C * W) (result B)) Q :
  (∀ e, Q [c (Err e)] (Err (ErrWrap fmt [] e))) → (∀ a, emits (k a) (λ t r, Q (c (Ok a) :: t) r)) →
  emits (try (failing fmt (logging m c)) k) Q.
Proof.
  intros He Hk. eapply (emits_bind _ _ (λ t r, ∃ a, t = [c a] ∧ r = map_err (ErrWrap fmt []) a)).
  - eapply emits_bind; [apply emits_logging|]. intros t a [-> _]. apply emits_ret. by exists a.
  - intros t r (a & -> & ->). destruct a as [a|e]; cbn [map_err]; [apply Hk|apply emits_ret]. by rewrite app_nil_r.
Qed.

Lemma NewCache_emits {W U} (K : Cluster W U) : emits (NewCache (K := recorded_cluster K)) cache_log.
Proof.
  apply emits_failing_try; [constructor|]. intros []. apply emits_failing_try; [constructor|]. intros [].
  apply emits_failing_try; [constructor|]. intros [].
  eapply emits_bind; [apply emits_logging|]. intros t _ [-> _].
  eapply emits_bind; [apply emits_logging|]. intros t ok [-> _]. destruct ok; [apply emits_ret; constructor|].
  eapply emits_bind; [apply emits_logging|]. intros t r [-> _]. apply emits_ret. cbn [app].
  destruct r as [[[]|e]|]; constructor; by intros e.
Qed.

Lemma NewSource_run {W U} (K : Cluster W U) staleAfter w s w' : NewSource staleAfter w = (Ok s, w') →
  ∃ w1 es, WaitHandlerSync cacheSyncTimeout w1 = ((true, es), w') ∧ s = handle_all es (New staleAfter).
Proof.
  unfold NewSource, failing, try. rewrite !bind_run. destruct (GetInformer w) as [[[]|e] w1]; cbn [fst snd mret io_ret map_err]; [|done].
  rewrite !bind_run. destruct (AddEventHandler w1) as [[[]|e] w2]; cbn [fst snd mret io_ret map_err]; [|done].
  rewrite bind_run. destruct (WaitHandlerSync cacheSyncTimeout w2) as [[[] es] w3] eqn:Hs; cbn [fst snd mret io_ret]; [|done].
  intros [= <- <-]. by exists w2, es.
Qed.

(** ** Properties *)

(** a cache is handed out only synced: it was started after its informer was
    registered and waited for under the time limit; whatever fails before leaves
    nothing started, and a cache that does not sync is an error, its own if it
    stopped on one. *)
Theorem NewCache_synced {W U} (K : Cluster W U) (w : W) :
  let out := NewCache (K := recorded_cluster K) ([], w) in
  cache_log out.2.1 out.1.
Proof. cbv zeta. destruct (NewCache_emits K [] w) as (t & -> & Hlog). exact Hlog. Qed.

(** a source starts with the whole fleet: the source New returns serves, at any clock
    reading, exactly the objects the cluster holds that are not stale. *)
Theorem NewSource_serves {W U} (K : Cluster W U) fleet decode (L : ClusterLaws K fleet decode) (staleAfter : Z) (w w' : W) (s : Source) (now : time) :
  NewSource staleAfter w = (Ok s, w') →
  ∀ n inv, NodeInventory s now n = Ok inv ↔ fleet w' !! n = Some inv ∧ stale s (publishedAt inv) (current s now).2 = false.
Proof.
  intros (w1 & es & Hsync & ->)%NewSource_run n inv. apply handler_synced in Hsync as <-. unfold NodeInventory.
  rewrite get_synced by (by apply synced_handle_all). rewrite handle_all_store.
  destruct (store_events es !! n) as [inv'|]; [|split; [done|by intros [? _]]].
  destruct (stale _ (publishedAt inv') _) eqn:Hst; split; [done|intros [[= ->] Hf]; congruence|by intros [= ->]|by intros [[= ->] _]].
Qed.

(** a published inventory is served under its node: Apply writes one object, forced
    under a field owner that is never empty, and when the informer hands that object
    to a source, the source holds the inventory under its node's name, whatever name
    the publisher gave it, holds every other node's as before, and serves it unless
    it is stale. *)
Theorem applied_served {W U} (K : Cluster W U) fleet decode (L : ClusterLaws K fleet decode) (fieldOwner : string) (inv : Api.NodeInventory)
    (w w' : W) (l : list (cluster_event U)) (s : Source) (now : time) : synced s →
  Apply (K := recorded_cluster K) (NewSSAApplier fieldOwner) inv ([], w) = (Ok tt, (l, w')) →
  ∃ u owner, l = [EvApply u owner true (Ok tt)] ∧ owner ≠ "" ∧ (fieldOwner ≠ "" → owner = fieldOwner) ∧
    let s' := put (ObjInventory (decode u)) s in
    ks_byNode s' = <[ni_Node inv := named_after (ni_Node inv) inv]> (ks_byNode s) ∧
    (stale s' (publishedAt inv) (current s' now).2 = false → NodeInventory s' now (ni_Node inv) = Ok (named_after (ni_Node inv) inv)).
Proof.
  intros Hs. unfold Apply. cbn [ToUnstructured recorded_cluster]. destruct (ToUnstructured inv) as [raw|e] eqn:Hraw; [|done].
  unfold failing. rewrite bind_run. cbn [ServerSideApply recorded_cluster]. rewrite logging_run.
  destruct (ServerSideApply _ _ _ w) as [r w1]; cbn [fst snd mret io_ret app]. destruct r as [[]|e]; [|done]. intros [= <- <-].
  assert (decode (inventory_object (K := recorded_cluster K) inv raw) = named_after (ni_Node inv) inv) as Hd.
  { unfold inventory_object. cbn [SetName SetGroupVersionKind recorded_cluster].
    by rewrite (decode_name (ClusterLaws := L)), (decode_kind (ClusterLaws := L)), (decode_encode (ClusterLaws := L) _ _ Hraw). }
  exists (inventory_object (K := recorded_cluster K) inv raw), (str_or fieldOwner defaultFieldOwner). rewrite Hd. split_and!; [done|..].
  - unfold str_or, defaultFieldOwner. by case_decide.
  - intros Hne. unfold str_or. by rewrite decide_False.
  - done.
  - cbv zeta. set (s' := put _ s). intros Hst. assert (synced s') as Hs' by done. unfold NodeInventory. rewrite get_synced by done.
    assert (ks_byNode s' !! ni_Node inv = Some (named_after (ni_Node inv) inv)) as ->.
    { unfold s'. cbn. by rewrite lookup_insert_eq. }
    unfold publishedAt in Hst |- *. cbn [named_after ni_PublishedAt]. by rewrite Hst.
Qed.

(** ** Witnesses *)

(** A cluster that keeps the events of its objects. *)
Definition event_cluster : Cluster (list event) Api.NodeInventory := {|
  AddToScheme := mret (Ok tt);
  NewInformerCache := mret (Ok tt);
  GetInformer := mret (Ok tt);
  StartCache := mret tt;
  WaitForCacheSync _ := mret true;
  StartResult := mret None;
  AddEventHandler := mret (Ok tt);
  WaitHandlerSync _ := λ es, ((true, es), es);
  ToUnstructured inv := Ok inv;
  SetGroupVersionKind _ u := u;
  SetName := named_after;
  ServerSideApply u _ _ := λ es, (Ok tt, es ++ [EvPut (ObjInventory u)]);
|}.

#[local] Instance event_cluster_laws : ClusterLaws event_cluster store_events id.
Proof.
  split; cbn; try done.
  - by intros _ w es w' [= <- <-].
  - by intros inv raw [= ->].
Qed.

Definition fleet_of_two : list event :=
  [EvPut (ObjInventory (sample_inv "a" (1000 * second)%Z)); EvPut (ObjInventory (sample_inv "b" (500 * second)%Z))].

Lemma NewSource_serves_witness :
  NodeInventory (handle_all fleet_of_two (New 0)) (2000 * second)%Z "a" = Ok (sample_inv "a" (1000 * second)%Z).
Proof.
  apply (NewSource_serves event_cluster store_events id event_cluster_laws 0 fleet_of_two fleet_of_two (handle_all fleet_of_two (New 0)) (2000 * second)%Z).
  - reflexivity.
  - split; vm_compute; reflexivity.
Defined.

(** A publisher that left the object's name empty. *)
Lemma applied_served_witness :
  let inv := mkNodeInventory "" "c" [] "10.0.0.3:7000" [] [] (1000 * second)%Z in
  NodeInventory (put (ObjInventory (named_after "c" inv)) (handle_all fleet_of_two (New 0))) (2000 * second)%Z "c" = Ok (named_after "c" inv).
Proof.
  cbv zeta.
  destruct (applied_served event_cluster store_events id event_cluster_laws "" (mkNodeInventory "" "c" [] "10.0.0.3:7000" [] [] (1000 * second)%Z)
    fleet_of_two (fleet_of_two ++ [EvPut (ObjInventory (named_after "c" (mkNodeInventory "" "c" [] "10.0.0.3:7000" [] [] (1000 * second)%Z)))])
    _ (handle_all fleet_of_two (New 0)) (2000 * second)%Z eq_refl eq_refl) as (u & owner & Hl & _ & _ & _ & Hs).
  injection Hl as <- <-. apply Hs. vm_compute. reflexivity.
Defined.
