(* ===== verification/LogBridge.v ===== *)
(** * The log bridge (pkg/logbridge/logbridge.go)

    The sink through which controller-runtime and klog write to core/log.  A logger is
    the sink a chain of WithName and WithValues derives from the bare one; core/log
    and the formatting of a value are parameters. *)

From S2P Require Import Prelude GoStd Api Client StoreRead Store.

(** core/log under a function name, and [fmt]'s [%v]. *)
Class CoreLog (W V : Type) := {
  log_info (func line : string) : io W unit;
  log_error (func : string) (err : error) (line : string) : io W unit;
  show : V → string;
}.

Section sink.
Context {W V : Type} {L : CoreLog W V}.

Record sink := mkSink { sk_name : string; sk_kv : list V }.

Definition New : sink := mkSink EmptyString [].

Definition Enabled (level : Z) : bool := bool_decide (level = 0%Z).

(** The pairs, two values at a time; a value without a partner is left out. *)
Fixpoint pairs_text (pairs : list V) : string :=
  match pairs with
  | k :: v :: pairs => " " +:+ show k +:+ "=" +:+ show v +:+ pairs_text pairs
  | _ => EmptyString
  end.

Definition line (s : sink) (msg : string) (kvs : list V) : string :=
  let pairs := sk_kv s ++ kvs in
  match pairs with [] => msg | _ => msg +:+ pairs_text pairs end.

Definition funcName (s : sink) : string := str_or (sk_name s) "controller-runtime".

Definition Info (s : sink) (msg : string) (kvs : list V) : io W unit := log_info (funcName s) (line s msg kvs).

(** core/log drops a nil error, so an error without one is made of the message. *)
Definition Error (s : sink) (err : option error) (msg : string) (kvs : list V) : io W unit :=
  let err := match err with Some e => e | None => ErrText msg [] end in
  log_error (funcName s) err (line s msg kvs).

Definition WithValues (kvs : list V) (s : sink) : sink := mkSink (sk_name s) (sk_kv s ++ kvs).

Definition WithName (name : string) (s : sink) : sink :=
  mkSink (if decide (sk_name s = EmptyString) then name else sk_name s +:+ "." +:+ name) (sk_kv s).
End sink.
Arguments sink V : clear implicits.

(** ** Specification *)

(** How a logger was derived, and the sink it has. *)
Inductive derivation (V : Type) := DName (name : string) | DValues (kvs : list V).
Arguments DName {V} _.
Arguments DValues {V} _.

Definition derive {V} (ds : list (derivation V)) : sink V :=
  fold_left (λ s d, match d with DName n => WithName n s | DValues kvs => WithValues kvs s end) ds New.

(** The names of a derivation joined by dots, and its values in order. *)
Definition names_of {V} (ds : list (derivation V)) : list string := omap (λ d, match d with DName n => Some n | _ => None end) ds.
Definition values_of {V} (ds : list (derivation V)) : list (list V) := omap (λ d, match d with DValues kvs => Some kvs | _ => None end) ds.

Fixpoint dotted (names : list string) : string :=
  match names with
  | [] => EmptyString
  | [n] => n
  | n :: names => n +:+ "." +:+ dotted names
  end.

Inductive log_record := RecInfo (func line : string) | RecError (func : string) (err : error) (line : string).

Definition recorded_log {W V} (L : CoreLog W V) : CoreLog (list log_record * W) V := {|
  log_info f l := logging (log_info f l) (λ _, RecInfo f l);
  log_error f e l := logging (log_error f e l) (λ _, RecError f e l);
  show := show;
|}.

(** ** Lemmas *)

Section lemmas.
Context {W V : Type} {L : CoreLog W V}.

Lemma pairs_text_app (l1 l2 : list V) : Nat.Even (length l1) → pairs_text (l1 ++ l2) = pairs_text l1 +:+ pairs_text l2.
Proof.
  intros [n Hn]. revert l1 Hn. induction n as [|n IH]; intros l1 Hn; [by destruct l1|].
  destruct l1 as [|k [|v l1]]; cbn in Hn; [lia|lia|]. cbn [app pairs_text]. rewrite IH by lia. by rewrite !str_app_assoc.
Qed.

Lemma line_text (s : sink V) msg kvs : line s msg kvs = msg +:+ pairs_text (sk_kv s ++ kvs).
Proof. unfold line. destruct (sk_kv s ++ kvs) eqn:Hp; [|done]. cbn. by rewrite str_app_nil_r. Qed.

Lemma derive_snoc (ds : list (derivation V)) d :
  derive (ds ++ [d]) = match d with DName n => WithName n (derive ds) | DValues kvs => WithValues kvs (derive ds) end.
Proof. unfold derive. by rewrite fold_left_app. Qed.

Lemma derive_kv (ds : list (derivation V)) : sk_kv (derive ds) = concat (values_of ds).
Proof.
  induction ds as [|d ds IH] using rev_ind; [done|]. rewrite derive_snoc. unfold values_of. rewrite omap_app, concat_app.
  destruct d as [n|kvs]; csimpl; rewrite IH; by rewrite ?app_nil_r.
Qed.

Lemma dotted_snoc names n : names ≠ [] → dotted (names ++ [n]) = dotted names +:+ "." +:+ n.
Proof.
  induction names as [|m names IH]; [done|]. intros _. destruct names as [|m' names]; [done|].
  cbn [app dotted] in *. rewrite IH by done. by rewrite !str_app_assoc.
Qed.

Lemma dotted_nonempty names : names ≠ [] → Forall (λ n, n ≠ EmptyString) names → dotted names ≠ EmptyString.
Proof.
  intros Hne Hn. destruct names as [|n [|m names]]; [done| |]; inversion Hn as [|? ? Hn1 _]; subst; [done|].
  cbn [dotted]. by destruct n.
Qed.

Lemma derive_name (ds : list (derivation V)) : Forall (λ n, n ≠ EmptyString) (names_of ds) → sk_name (derive ds) = dotted (names_of ds).
Proof.
  induction ds as [|d ds IH] using rev_ind; [done|]. rewrite derive_snoc. unfold names_of. rewrite omap_app, Forall_app. intros [Hds _].
  specialize (IH Hds). destruct d as [n|kvs]; csimpl; [|by rewrite app_nil_r]. rewrite IH.
  destruct (decide (names_of ds = [])) as [He|Hne].
  - unfold names_of in He |- *. by rewrite He.
  - rewrite decide_False by by apply dotted_nonempty. by rewrite dotted_snoc.
Qed.
End lemmas.

(** ** Properties *)

(** a record says where it comes from and all it was given: a logger derived by any
    chain of non-empty names and whole pairs writes under its names joined by dots,
    or the default without any, the message followed by the pairs of the chain and
    of the call, in order; and an error always reaches core/log with an error. *)
Theorem bridge_records {W V : Type} {L : CoreLog W V} (ds : list (derivation V)) (msg : string) (kvs : list V) (err : option error) (w : W) :
  Forall (λ n, n ≠ EmptyString) (names_of ds) → Forall (λ l, Nat.Even (length l)) (values_of ds) →
  let func := str_or (dotted (names_of ds)) "controller-runtime" in
  let text := msg +:+ foldr (λ l t, pairs_text l +:+ t) (pairs_text kvs) (values_of ds) in
  (Info (L := recorded_log L) (derive ds) msg kvs ([], w)).2.1 = [RecInfo func text] ∧
  (Error (L := recorded_log L) (derive ds) err msg kvs ([], w)).2.1 = [RecError func (default (ErrText msg []) err) text].
Proof.
  intros Hn Hv func text.
  assert (line (L := L) (derive ds) msg kvs = text) as Hl.
  { rewrite line_text, derive_kv. unfold text. f_equal. induction Hv as [|l ls Hl Hv IH]; [done|]. cbn. rewrite <- app_assoc, pairs_text_app by done. by rewrite IH. }
  assert (funcName (derive ds) = func) as Hf by by (unfold funcName; rewrite derive_name).
  unfold Info, Error. cbn [log_info log_error recorded_log]. rewrite !logging_run. cbn [fst snd app].
  change (line (L := recorded_log L)) with (line (L := L)). rewrite Hl, Hf. by destruct err.
Qed.

(** ** Witness *)

Definition sink_log : CoreLog unit string := {| log_info _ _ := mret tt; log_error _ _ _ := mret tt; show s := s |}.

Lemma bridge_records_witness :
  (Error (L := recorded_log sink_log) (derive [DName "klog"; DValues ["controller"; "sandboxwarmpool"]; DName "leader"]) None "lost" ["term"; "3"] ([], tt)).2.1 =
  [RecError "klog.leader" (ErrText "lost" []) "lost controller=sandboxwarmpool term=3"].
Proof.
  refine (proj2 (bridge_records (L := sink_log) [DName "klog"; DValues ["controller"; "sandboxwarmpool"]; DName "leader"] "lost" ["term"; "3"] None tt _ _)).
  - repeat constructor; discriminate.
  - repeat constructor. exists 1. reflexivity.
Defined.
