(* ===== verification/Sandboxd.v ===== *)
(** * The sandboxd HTTP client (pkg/sandboxd/client.go, lifecycle.go)

    One request per verb, with the node token, against the node's base URL; the
    answer's status decides between a value and a typed error.  The transport
    and the JSON codec are parameters; the relay dial of ports.go, which [PortRelay]
    models, is a field of the transport. *)

From S2P Require Import Prelude GoStd GoCodec GoText Api SandboxView Client StoreRead StoreClaim.

(** ** Transport and codec *)

Record request := mkRequest {
  rq_method : string;
  rq_url : string;
  rq_token : string;            (* the bearer token; empty sends no header *)
  rq_body : option string;      (* a JSON body *)
  rq_capture : bool;            (* sent by the client with the capture timeout *)
}.

(** A response: its status, the body bytes that arrive, and the error that ends
    them short. *)
Record response := mkResponse {
  hr_status : Z;
  hr_body : string;
  hr_broken : option error;
}.

(** [request_error] is what [http.NewRequestWithContext] says of a URL. *)
Class Transport (W : Type) := {
  request_error : string → option error;
  round_trip : request → io W (result response);
  dial_port (base id token : string) (port : Z) : io W (result Conn);
}.

(** The JSON of the wire types: encoders of request bodies, decoders of replies. *)
Class Wire := {
  enc_claim : ClaimSpec → result string;
  enc_pools : list PoolSpec → result string;
  enc_renew : RenewSpec → result string;
  enc_fork : ForkSpec → result string;
  enc_checkpoint : CheckpointSpec → result string;
  enc_promote : string → result string;
  enc_labels : gmap string string → result string;
  dec_claim_stream : response → result ClaimResult;   (* json.NewDecoder(resp.Body).Decode *)
  dec_info : string → result NodeInfo;
  dec_renew : string → result RenewResult;
  dec_fork : string → result ForkResult;
  dec_checkpoint : string → result Api.Checkpoint;
  dec_promoted : string → result (PoolKey * string);
  dec_checkpoints : string → result (list Api.Checkpoint);
  dec_sandbox : string → result SandboxSummary;
  dec_sandboxes : string → result (list SandboxSummary);
  dec_error : string → string;                        (* the error field, empty when absent *)
}.

Definition maxReplyBytes : Z := 16777216.

(** A client: its base URL and the node token. *)
Record HTTPClient := mkClient {
  hc_baseURL : string;
  hc_token : string;
}.

Definition New (baseURL token : string) : HTTPClient := mkClient (trim_right "/" baseURL) token.

Section client.
Context {W : Type} {T : Transport W} {J : Wire}.

Definition do (c : HTTPClient) (capture : bool) (method path token : string) (body : option string) : io W (result response) :=
  match request_error (hc_baseURL c +:+ path) with
  | Some e => mret (Err e)
  | None => round_trip (mkRequest method (hc_baseURL c +:+ path) token body capture)
  end.

(** [statusError] reads at most 64 KiB of the body. *)
Definition statusError (r : response) : error :=
  ErrHTTP (hr_status r) (dec_error (str_take (Z.to_nat 65536) (hr_body r))).

Definition sendWith (c : HTTPClient) (capture : bool) (method path token op : string) (body : option string) (ok : list Z) :
    io W (result unit) :=
  r ← do c capture method path token body;
  mret match r with
       | Err e => Err (ErrWrap "sandboxd: %s" [op] e)
       | Ok resp => if negb (bool_decide (hr_status resp ∈ ok)) then Err (statusError resp) else Ok tt
       end.
Definition send (c : HTTPClient) := sendWith c false.

(** [decodeInto]: a reply past the cap is an error of its own, not a truncation. *)
Definition decodeInto {A} (r : response) (path : string) (dec : string → result A) : result A :=
  match hr_broken r with
  | Some e => if decide (Z.of_nat (String.length (hr_body r)) ≤ maxReplyBytes)%Z
              then Err (ErrWrap "sandboxd: read %s reply" [path] e)
              else Err (ErrText "sandboxd: %s reply exceeds %d bytes" [path])
  | None =>
      if decide (maxReplyBytes < Z.of_nat (String.length (hr_body r)))%Z
      then Err (ErrText "sandboxd: %s reply exceeds %d bytes" [path])
      else map_err (ErrWrap "sandboxd: decode %s reply" [path]) (dec (hr_body r))
  end.

Definition sendJSONWith {A} (c : HTTPClient) (capture : bool) (method path : string) (body : result string)
    (dec : string → result A) : io W (result A) :=
  match body with
  | Err e => mret (Err (ErrWrap "sandboxd: encode %s" [path] e))
  | Ok payload =>
      r ← do c capture method path (hc_token c) (Some payload);
      mret match r with
           | Err e => Err (ErrWrap "sandboxd: %s" [path] e)
           | Ok resp => if decide (hr_status resp `quot` 100 = 2)%Z then decodeInto resp path dec else Err (statusError resp)
           end
  end.
Definition sendJSON {A} (c : HTTPClient) := @sendJSONWith A c false.

Definition getJSON {A} (c : HTTPClient) (path : string) (dec : string → result A) : io W (result A) :=
  r ← do c false "GET" path (hc_token c) None;
  mret match r with
       | Err e => Err (ErrWrap "sandboxd: %s" [path] e)
       | Ok resp => if decide (hr_status resp = 200)%Z then decodeInto resp path dec else Err (statusError resp)
       end.

Definition sandbox_path (id verb : string) : string := "/v1/sandboxes/" +:+ path_escape id +:+ "/" +:+ verb.

Definition sandboxVerb (c : HTTPClient) (id verb : string) : io W (result unit) :=
  if decide (id = "") then mret (Err (ErrText "sandboxd: %s requires a sandbox id" [verb]))
  else sendWith c true "POST" (sandbox_path id verb) (hc_token c) verb None [204%Z].

(** ** The verbs *)

(** What a 200 claim answer stands for. *)
Definition claim_answer (r : ClaimResult) : result ClaimResult :=
  if decide (cr_ID r = "") then Err (if decide (cr_Redirect r = []) then ErrNodeAtCapacity else ErrRedirect (cr_Redirect r))
  else Ok r.

Definition Claim (c : HTTPClient) (spec : ClaimSpec) : io W (result ClaimResult) :=
  match enc_claim spec with
  | Err e => mret (Err (ErrWrap "sandboxd: encode claim" [] e))
  | Ok body =>
      if request_error (hc_baseURL c +:+ "/v1/claim") is Some e then mret (Err e) else
      r ← do c false "POST" "/v1/claim" (hc_token c) (Some body);
      mret match r with
           | Err e => Err (ErrWrap "sandboxd: claim" [] e)
           | Ok resp =>
               if decide (hr_status resp = 200)%Z then
                 match dec_claim_stream resp with
                 | Err e => Err (ErrWrap "sandboxd: decode claim response" [] e)
                 | Ok r => claim_answer r
                 end
               else if decide (hr_status resp = 429)%Z then Err ErrNodeAtCapacity
               else Err (statusError resp)
           end
  end.

Definition SetPools (c : HTTPClient) (pools : list PoolSpec) : io W (result NodeInfo) :=
  sendJSON c "PUT" "/v1/pools" (enc_pools pools) dec_info.

Definition Info (c : HTTPClient) : io W (result NodeInfo) := getJSON c "/v1/info" dec_info.

Definition Release (c : HTTPClient) (id token : string) : io W (result unit) :=
  if decide (id = "") then mret (Err (ErrText "sandboxd: release requires a sandbox id" []))
  else send c "POST" (sandbox_path id "release") token "release" None [204; 404]%Z.

Definition Hibernate (c : HTTPClient) (id : string) : io W (result unit) := sandboxVerb c id "hibernate".
Definition Wake (c : HTTPClient) (id : string) : io W (result unit) := sandboxVerb c id "wake".

Definition Renew (c : HTTPClient) (id : string) (spec : RenewSpec) : io W (result time) :=
  if decide (id = "") then mret (Err (ErrText "sandboxd: renew requires a sandbox id" []))
  else r ← sendJSON c "POST" (sandbox_path id "renew") (enc_renew spec) dec_renew; mret (fmap (M := result) rr_Deadline r).

Definition Fork (c : HTTPClient) (id : string) (spec : ForkSpec) : io W (result ForkResult) :=
  if decide (id = "") then mret (Err (ErrText "sandboxd: fork requires a sandbox id" []))
  else sendJSONWith c true "POST" (sandbox_path id "fork") (enc_fork spec) dec_fork.

Definition SetInstanceMetadata (c : HTTPClient) (id doc : string) : io W (result unit) :=
  if decide (id = "") then mret (Err (ErrText "sandboxd: instance metadata requires a sandbox id" []))
  else send c "PUT" (sandbox_path id "instance-metadata") (hc_token c) "instance metadata" (Some doc) [204%Z].

Definition Checkpoint (c : HTTPClient) (id : string) (spec : CheckpointSpec) : io W (result Api.Checkpoint) :=
  if decide (id = "") then mret (Err (ErrText "sandboxd: checkpoint requires a sandbox id" []))
  else sendJSONWith c true "POST" (sandbox_path id "checkpoint") (enc_checkpoint spec) dec_checkpoint.

Definition Promote (c : HTTPClient) (id template : string) : io W (result (PoolKey * string)) :=
  if decide (id = "") then mret (Err (ErrText "sandboxd: promote requires a sandbox id" []))
  else sendJSONWith c true "POST" (sandbox_path id "promote") (enc_promote template) dec_promoted.

Definition Checkpoints (c : HTTPClient) : io W (result (list Api.Checkpoint)) := getJSON c "/v1/checkpoints" dec_checkpoints.

Definition templateQuery (key : PoolKey) : gmap string string :=
  let q := {[ "template" := pk_Template key ]} in
  let q := stamp (nonempty (pk_Net key)) "net" (pk_Net key) q in
  stamp (nonempty (pk_Size key)) "size" (pk_Size key) q.

Definition DeleteTemplate (c : HTTPClient) (key : PoolKey) (digest : string) : io W (result unit) :=
  if decide (pk_Template key = "") then mret (Err (ErrText "sandboxd: delete template requires a template name" []))
  else
    let q := stamp (nonempty digest) "digest" digest (<["no_redirect" := "1"]> (templateQuery key)) in
    send c "DELETE" ("/v1/templates?" +:+ values_encode q) (hc_token c) "delete template" None [204; 404]%Z.

Definition SetTemplateLabels (c : HTTPClient) (key : PoolKey) (labels : gmap string string) (digest : string) : io W (result unit) :=
  match enc_labels labels with
  | Err e => mret (Err e)
  | Ok body =>
      let q := stamp (nonempty digest) "digest" digest (templateQuery key) in
      send c "PUT" ("/v1/templates/labels?" +:+ values_encode q) (hc_token c) "template labels" (Some body) [204%Z]
  end.

Definition DeleteCheckpoint (c : HTTPClient) (checkpointID : string) : io W (result unit) :=
  if decide (checkpointID = "") then mret (Err (ErrText "sandboxd: delete checkpoint requires a checkpoint id" []))
  else send c "DELETE" ("/v1/checkpoints/" +:+ path_escape checkpointID) (hc_token c) "delete checkpoint" None [204; 404]%Z.

Definition Sandbox (c : HTTPClient) (id : string) : io W (result SandboxSummary) :=
  if decide (id = "") then mret (Err (ErrText "sandboxd: sandbox read requires a sandbox id" []))
  else getJSON c ("/v1/sandboxes/" +:+ path_escape id) dec_sandbox.

Definition listSandboxes (c : HTTPClient) (path : string) : io W (result (list SandboxSummary)) := getJSON c path dec_sandboxes.
Definition Sandboxes (c : HTTPClient) : io W (result (list SandboxSummary)) := listSandboxes c "/v1/sandboxes".
Definition SandboxesByClaimRef (c : HTTPClient) (ref : string) : io W (result (list SandboxSummary)) :=
  listSandboxes c ("/v1/sandboxes?claim_ref=" +:+ query_escape ref).

(** The relay takes the caller's token, or the node token when there is none. *)
Definition DialPort (c : HTTPClient) (id token : string) (port : Z) : io W (result Conn) :=
  dial_port (hc_baseURL c) id (str_or token (hc_token c)) port.

(** [NewSandboxdClientFactory]: one client per address and token. *)
Definition at_addr (addr token : string) : HTTPClient := New (SandboxdBaseURL addr) token.

#[export] Instance http_client : SandboxdClient W := {|
  Client.Claim a t := Claim (at_addr a t);
  Client.Release a t := Release (at_addr a t);
  Client.Hibernate a t := Hibernate (at_addr a t);
  Client.Wake a t := Wake (at_addr a t);
  Client.Renew a t := Renew (at_addr a t);
  Client.Fork a t := Fork (at_addr a t);
  Client.Checkpoint a t := Checkpoint (at_addr a t);
  Client.Checkpoints a t := Checkpoints (at_addr a t);
  Client.DeleteCheckpoint a t := DeleteCheckpoint (at_addr a t);
  Client.DeleteTemplate a t := DeleteTemplate (at_addr a t);
  Client.Promote a t := Promote (at_addr a t);
  Client.SetTemplateLabels a t := SetTemplateLabels (at_addr a t);
  Client.Info a t := Info (at_addr a t);
  Client.DialPort a t := DialPort (at_addr a t);
  Client.SetInstanceMetadata a t := SetInstanceMetadata (at_addr a t);
  Client.Sandbox a t := Sandbox (at_addr a t);
  Client.SandboxesByClaimRef a t := SandboxesByClaimRef (at_addr a t);
|}.
End client.

(** ** Specification *)

(** An error that says nothing of a node: no status, no redirect, no dial. *)
Definition plain (e : error) : Prop :=
  errors_as http_of e = None ∧ errors_as netop_of e = None ∧ is_at_capacity e = false.

(** The verbs that destroy something: their target, and the one request they send. *)
Inductive deletion :=
| DRelease (id token : string)
| DCheckpoint (id : string)
| DTemplate (key : PoolKey) (digest : string).

Definition deletion_target (d : deletion) : string :=
  match d with DRelease id _ | DCheckpoint id => id | DTemplate key _ => pk_Template key end.
Definition deletion_op (d : deletion) : string :=
  match d with DRelease _ _ => "release" | DCheckpoint _ => "delete checkpoint" | DTemplate _ _ => "delete template" end.
Definition deletion_request (c : HTTPClient) (d : deletion) : request :=
  match d with
  | DRelease id token => mkRequest "POST" (hc_baseURL c +:+ sandbox_path id "release") token None false
  | DCheckpoint id => mkRequest "DELETE" (hc_baseURL c +:+ "/v1/checkpoints/" +:+ path_escape id) (hc_token c) None false
  | DTemplate key digest =>
      mkRequest "DELETE" (hc_baseURL c +:+ "/v1/templates?" +:+
        values_encode (stamp (nonempty digest) "digest" digest (<["no_redirect" := "1"]> (templateQuery key)))) (hc_token c) None false
  end.
Definition run_deletion {W} {T : Transport W} {J : Wire} (c : HTTPClient) (d : deletion) : io W (result unit) :=
  match d with
  | DRelease id token => Release c id token
  | DCheckpoint id => DeleteCheckpoint c id
  | DTemplate key digest => DeleteTemplate c key digest
  end.

(** ** Lemmas *)

Lemma is_at_capacity_wrap fm args e : is_at_capacity (ErrWrap fm args e) = is_at_capacity e.
Proof. unfold is_at_capacity. simpl. done. Qed.

Lemma claimUndelivered_wrap fm args e : claimUndelivered (ErrWrap fm args e) = claimUndelivered e.
Proof. unfold claimUndelivered. by rewrite is_at_capacity_wrap, !errors_as_wrap. Qed.

Lemma claimUndelivered_plain e : plain e → claimUndelivered e = false.
Proof. intros (H1 & H2 & H3). unfold claimUndelivered. by rewrite H1, H2, H3. Qed.

(** ** Properties *)

Section properties.
Context {W : Type} {T : Transport W} {J : Wire}.

(** what a node's answer to a claim means to the store: a claim succeeds only
    on a 200 naming a sandbox, and of the answers that fail, exactly a 429, a 200
    without a sandbox (redirecting or not) and a 5xx let the store try another
    node; a reply that cannot be decoded does not. *)
Theorem Claim_classified (c : HTTPClient) (spec : ClaimSpec) (body : string) (w : W) (resp : response) :
  enc_claim spec = Ok body → request_error (hc_baseURL c +:+ "/v1/claim") = None →
  (round_trip (mkRequest "POST" (hc_baseURL c +:+ "/v1/claim") (hc_token c) (Some body) false) w).1 = Ok resp →
  (∀ e, dec_claim_stream resp = Err e → plain e) →
  let out := (Claim c spec w).1 in
  (∀ r, out = Ok r ↔ hr_status resp = 200%Z ∧ dec_claim_stream resp = Ok r ∧ cr_ID r ≠ "") ∧
  (∀ e, out = Err e →
     (claimUndelivered e = true ↔
        hr_status resp = 429%Z ∨ (500 ≤ hr_status resp)%Z ∨
        hr_status resp = 200%Z ∧ ∃ r, dec_claim_stream resp = Ok r ∧ cr_ID r = "")).
Proof.
  intros Henc Hurl Hrt Hdec out. unfold out, Claim. rewrite Henc, Hurl. rewrite bind_run. unfold do. rewrite Hurl.
  cbn [mret io_ret fst]. rewrite Hrt. clear Hrt out.
  destruct (decide (hr_status resp = 200)%Z) as [Hs|Hs].
  - destruct (dec_claim_stream resp) as [r|e] eqn:Hd.
    + unfold claim_answer. destruct (decide (cr_ID r = "")) as [Hid|Hid].
      * split; [intros r'; split; [done|intros (_ & [= ->] & ?); done]|].
        intros e [= <-]. split; [eauto 10|]. intros _. by destruct (decide (cr_Redirect r = [])).
      * split; [intros r'; split; [intros [= <-]; auto|by intros (_ & [= ->] & _)]|done].
    + split; [intros r'; split; [done|by intros (_ & ? & _)]|]. intros e' [= <-].
      rewrite claimUndelivered_wrap, claimUndelivered_plain by auto.
      split; [done|]. intros [?|[?|(_ & r & ? & _)]]; [lia|lia|done].
  - destruct (decide (hr_status resp = 429)%Z) as [Ht|Ht].
    + split; [intros r'; split; [done|by intros (? & _)]|]. intros e [= <-]. split; auto.
    + split; [intros r'; split; [done|by intros (? & _)]|]. intros e [= <-].
      unfold claimUndelivered, statusError, errors_as. simpl. rewrite bool_decide_eq_true.
      split; [auto|]. intros [?|[?|[? _]]]; [done|done|done].
Qed.

(** a sandbox id cannot steer a request elsewhere: the id is one path segment
    that decodes to itself and holds no separator, so requests for different ids
    or different verbs go to different paths. *)
Theorem sandbox_path_injective (id id' verb verb' : string) :
  PathUnescape (path_escape id) = Some id ∧
  has_byte "/" (path_escape id) = false ∧ has_byte "?" (path_escape id) = false ∧ has_byte "#" (path_escape id) = false ∧
  (sandbox_path id verb = sandbox_path id' verb' ↔ id = id' ∧ verb = verb').
Proof.
  split; [apply unescape_path_escape|]. destruct (path_escape_safe id) as (H1 & H2 & H3).
  destruct (path_escape_safe id') as (H1' & _). split_and!; [done..|].
  unfold sandbox_path. split; [intros Heq|by intros [-> ->]]. apply (f_equal (cut_prefix "/v1/sandboxes/")) in Heq. rewrite !cut_prefix_app in Heq.
  injection Heq as Heq.
  change ("/" +:+ verb) with (String "/" verb) in Heq. change ("/" +:+ verb') with (String "/" verb') in Heq.
  pose proof (str_cut_byte "/" _ verb H1) as Hc. rewrite Heq, str_cut_byte in Hc by done.
  injection Hc as He ->. split; [|done].
  pose proof (unescape_path_escape id) as Hu. rewrite <-He, unescape_path_escape in Hu. by injection Hu.
Qed.

(** Destroying what is already gone is success: Release, DeleteCheckpoint and
    DeleteTemplate send one request and succeed exactly when it is answered with a
    204 or a 404, any other status being reported as the node's own error; without
    a target they fail and send nothing. *)
Theorem delete_idempotent (c : HTTPClient) (d : deletion) (w : W) :
  (deletion_target d = "" → is_ok (run_deletion c d w).1 = false ∧ (run_deletion c d w).2 = w) ∧
  (deletion_target d ≠ "" → request_error (rq_url (deletion_request c d)) = None →
   (run_deletion c d w).2 = (round_trip (deletion_request c d) w).2 ∧
   match (round_trip (deletion_request c d) w).1 with
   | Ok resp => (run_deletion c d w).1 =
       if decide (hr_status resp = 204 ∨ hr_status resp = 404)%Z then Ok tt else Err (statusError resp)
   | Err _ => is_ok (run_deletion c d w).1 = false
   end).
Proof.
  assert (∀ req m, (∀ w', m w' = (match (round_trip req w').1 with
       | Err e => Err (ErrWrap "sandboxd: %s" [deletion_op d] e)
       | Ok resp => if negb (bool_decide (hr_status resp ∈ ([204; 404]%Z : list Z))) then Err (statusError resp) else Ok tt
       end, (round_trip req w').2)) →
    (m w).2 = (round_trip req w).2 ∧
    match (round_trip req w).1 with
    | Ok resp => (m w).1 = if decide (hr_status resp = 204 ∨ hr_status resp = 404)%Z then Ok tt else Err (statusError resp)
    | Err _ => is_ok (m w).1 = false
    end) as Hend.
  { intros req m Hm. rewrite Hm. split; [done|]. destruct (round_trip req w).1 as [resp|]; [|done]. simpl.
    case_bool_decide as Hb; case_decide as Hc; try done; exfalso;
      rewrite !elem_of_cons in Hb; pose proof (not_elem_of_nil (hr_status resp)); tauto. }
  split.
  - intros Ht. destruct d; simpl in *; unfold Release, DeleteCheckpoint, DeleteTemplate; by rewrite decide_True.
  - intros Ht Hu. apply Hend. intros w'.
    destruct d; simpl in *; unfold Release, DeleteCheckpoint, DeleteTemplate; rewrite decide_False by done;
      unfold send, sendWith; rewrite bind_run; unfold do; by rewrite Hu.
Qed.
End properties.

(** ** Witnesses *)

(** A node that answers every request with one response, and a codec that reads
    an id off a claim answer. *)
Definition toy_transport (resp : response) : Transport unit :=
  {| request_error _ := None; round_trip _ := mret (Ok resp); dial_port _ _ _ _ := mret (Err refused) |}.
Definition toy_wire : Wire := {|
  enc_claim _ := Ok "{}"; enc_pools _ := Ok "{}"; enc_renew _ := Ok "{}"; enc_fork _ := Ok "{}";
  enc_checkpoint _ := Ok "{}"; enc_promote _ := Ok "{}"; enc_labels _ := Ok "{}";
  dec_claim_stream r := Ok (mkClaimResult (hr_body r) "tok" zero_time "addr" "" []);
  dec_info _ := Err (ErrText "json" []); dec_renew _ := Err (ErrText "json" []); dec_fork _ := Err (ErrText "json" []);
  dec_checkpoint _ := Err (ErrText "json" []); dec_promoted _ := Err (ErrText "json" []);
  dec_checkpoints _ := Err (ErrText "json" []); dec_sandbox _ := Err (ErrText "json" []);
  dec_sandboxes _ := Err (ErrText "json" []); dec_error b := b |}.

Definition toy_spec : ClaimSpec := claimSpec "team" "web" (mkPoolKey "img" "" "") (mkClaimOptions 0 ∅ "" false false) false.

Lemma Claim_classified_witness :
  (Claim (T := toy_transport (mkResponse 200 "sb_1" None)) (J := toy_wire) (New "http://n1/" "t") toy_spec tt).1
  = Ok (mkClaimResult "sb_1" "tok" zero_time "addr" "" []).
Proof.
  apply (Claim_classified (T := toy_transport (mkResponse 200 "sb_1" None)) (J := toy_wire) (New "http://n1/" "t") toy_spec "{}" tt
    (mkResponse 200 "sb_1" None)); [reflexivity|reflexivity|reflexivity|discriminate|].
  split; [reflexivity|]. split; [reflexivity|discriminate].
Defined.

Lemma delete_idempotent_witness :
  is_ok (run_deletion (T := toy_transport (mkResponse 404 "gone" None)) (J := toy_wire) (New "http://n1" "t") (DRelease "sb_1" "t") tt).1 = true.
Proof.
  destruct (delete_idempotent (T := toy_transport (mkResponse 404 "gone" None)) (J := toy_wire) (New "http://n1" "t") (DRelease "sb_1" "t") tt)
    as [_ H].
  destruct H as [_ H]; [discriminate|reflexivity|]. cbv zeta in H. cbn [round_trip toy_transport mret io_ret fst] in H.
  rewrite H. vm_compute. reflexivity.
Defined.
