(* ===== verification/WarmPool.v ===== *)
(** * The warm-pool driver (pkg/scale/warmpool/driver.go)

    One reconcile resolves every SandboxWarmPool to a pool key, spreads its
    replicas over the schedulable nodes, sends every node its full pool set and
    shares the reported warm count out to the pools' statuses.  The Kubernetes
    client is a parameter: what it lists and gets, and the log of status writes. *)

From S2P Require Import Prelude GoStd Api PoolKeys SandboxView Inventory StoreRead.

(** ** Data *)

(** The fields of a SandboxWarmPool and of a SandboxTemplate the driver reads. *)
Record SandboxWarmPool := mkWarmPool {
  wp_Namespace : string;
  wp_Name : string;
  wp_TemplateRef : string;
  wp_Replicas : option Z;
  wp_StatusReplicas : Z;
  wp_StatusReadyReplicas : Z;
  wp_StatusSelector : string;
}.

Record nodeView := mkNodeView {
  nv_name : string;
  nv_addr : string;
  nv_warmBy : gmap PoolKey Z;
}.

Record desiredPool := mkDesired {
  dp_pool : SandboxWarmPool;
  dp_key : PoolKey;
  dp_targets : gmap string Z;
}.

(** A status write: the pool and the replicas, readyReplicas and selector written. *)
Record statusUpdate := mkStatus {
  su_pool : SandboxWarmPool;
  su_replicas : Z;
  su_selector : string;
}.

Definition errNoTemplateRef : error := ErrSentinel "warmpool.errNoTemplateRef".

(** [m[k]] of a Go map of integers. *)
Definition at_key `{Countable K} (m : gmap K Z) (k : K) : Z := default 0%Z (m !! k).
Definition add_at `{Countable K} (k : K) (n : Z) (m : gmap K Z) : gmap K Z := <[k := (at_key m k + n)%Z]> m.

(** ** Pure parts *)

Definition warmByKey (pools : list PoolCapacity) : gmap PoolKey Z :=
  fold_left (λ m pc, <[mkPoolKey (pc_Template pc) (pc_Net pc) (pc_Size pc) := pc_Warm pc]> m) pools ∅.

(** The target of the [i]-th of [n] nodes. *)
Definition node_target (total n i : Z) : Z :=
  (total `quot` n + (if decide (i < total `rem` n) then 1 else 0))%Z.

Fixpoint distribute_from (total n i : Z) (nodes : list nodeView) (targets : gmap string Z) : gmap string Z :=
  match nodes with
  | [] => targets
  | v :: nodes => distribute_from total n (i + 1) nodes (<[nv_name v := node_target total n i]> targets)
  end.
Definition distribute (replicas : Z) (nodes : list nodeView) : gmap string Z :=
  distribute_from (Z.max replicas 0) (Z.of_nat (length nodes)) 0 nodes ∅.

Definition poolTarget (dp : desiredPool) : Z := map_fold (λ _ t acc, (acc + t)%Z) 0%Z (dp_targets dp).

(** The pool set of one node: targets summed by key, in key order. *)
Definition node_by_key (node : string) (desired : list desiredPool) : gmap PoolKey Z :=
  fold_left (λ m dp, add_at (dp_key dp) (at_key (dp_targets dp) node) m) desired ∅.

Definition key_le (a b : PoolKey) : Prop :=
  if decide (pk_Template a = pk_Template b) then
    if decide (pk_Net a = pk_Net b) then String.le (pk_Size a) (pk_Size b)
    else String.le (pk_Net a) (pk_Net b)
  else String.le (pk_Template a) (pk_Template b).
#[export] Instance key_le_dec : RelDecision key_le.
Proof. intros a b. unfold key_le. repeat destruct (decide _); apply _. Defined.

Definition spec_key (p : PoolSpec) : PoolKey := mkPoolKey (ps_Template p) (ps_Net p) (ps_Size p).
Definition spec_le (a b : PoolSpec) : Prop := key_le (spec_key a) (spec_key b).
#[export] Instance spec_le_dec : RelDecision spec_le.
Proof. intros a b. unfold spec_le. apply _. Defined.

Definition node_specs (node : string) (desired : list desiredPool) : list PoolSpec :=
  merge_sort spec_le ((λ kw, mkPoolSpec (pk_Template kw.1) (pk_Net kw.1) (pk_Size kw.1) kw.2)
                        <$> map_to_list (node_by_key node desired)).

(** *** Sharing the reported warm out *)

(** The warm count of a key over the fleet, and the sum of its pools' targets. *)
Definition fleet_warm (nodes : list nodeView) (k : PoolKey) : Z :=
  fold_left (λ acc v, acc + at_key (nv_warmBy v) k)%Z nodes 0%Z.

Fixpoint fleet_and_targets (nodes : list nodeView) (desired : list desiredPool)
    (fleet sumTarget : gmap PoolKey Z) : gmap PoolKey Z * gmap PoolKey Z :=
  match desired with
  | [] => (fleet, sumTarget)
  | dp :: desired =>
      let fleet := match fleet !! dp_key dp with
                   | Some _ => fleet
                   | None => if decide (nodes = []) then fleet else <[dp_key dp := fleet_warm nodes (dp_key dp)]> fleet
                   end in
      fleet_and_targets nodes desired fleet (add_at (dp_key dp) (poolTarget dp) sumTarget)
  end.

(** The first pass: each pool's proportional share, rounded down. *)
Fixpoint shares (fleet sumTarget : gmap PoolKey Z) (desired : list desiredPool) (given : gmap PoolKey Z) :
    list Z * gmap PoolKey Z :=
  match desired with
  | [] => ([], given)
  | dp :: desired =>
      let k := dp_key dp in
      if decide (0 < at_key sumTarget k)%Z then
        let s := ((at_key fleet k * poolTarget dp) `quot` at_key sumTarget k)%Z in
        let '(out, given) := shares fleet sumTarget desired (add_at k s given) in (s :: out, given)
      else
        let '(out, given) := shares fleet sumTarget desired given in (0%Z :: out, given)
  end.

(** The second pass: a pool takes one of what is left of its key, or all of it
    when no pool of the key has a target; [fuel] bounds the inner loop. *)
Fixpoint top_up (fuel : nat) (fleet sum given out : Z) : Z * Z :=
  match fuel with
  | 0 => (out, given)
  | S fuel =>
      if decide (given < fleet)%Z then
        if decide (0 < sum)%Z then ((out + 1)%Z, (given + 1)%Z)
        else top_up fuel fleet sum (given + 1) (out + 1)
      else (out, given)
  end.

Fixpoint leftovers (fleet sumTarget : gmap PoolKey Z) (desired : list desiredPool) (outs : list Z) (given : gmap PoolKey Z) : list Z :=
  match desired, outs with
  | dp :: desired, out :: outs =>
      let k := dp_key dp in
      let '(out', g) := top_up (Z.to_nat (at_key fleet k - at_key given k)) (at_key fleet k) (at_key sumTarget k) (at_key given k) out in
      out' :: leftovers fleet sumTarget desired outs (<[k := g]> given)
  | _, _ => []
  end.

Definition apportionWarm (desired : list desiredPool) (nodes : list nodeView) : list Z :=
  let '(fleet, sumTarget) := fleet_and_targets nodes desired ∅ ∅ in
  let '(outs, given) := shares fleet sumTarget desired ∅ in
  leftovers fleet sumTarget desired outs given.

(** ** The reconcile *)

Definition view_le (a b : nodeView) : Prop := String.le (nv_name a) (nv_name b).
#[export] Instance view_le_dec : RelDecision view_le.
Proof. intros a b. unfold view_le. apply _. Defined.

(** The sandboxd call of the driver. *)
Class PoolSetter (W : Type) := {
  SetPools (addr token : string) (pools : list PoolSpec) : io W (result (option NodeInfo));
}.

Section driver.
Context {W : Type} {I : InventorySource W} {P : PoolSetter W} {Q : QuantityOps}.

Record SandboxTemplate := mkTemplate {
  tm_Annotations : gmap string string;
  tm_Containers : list Container;
}.

(** What the Kubernetes client answers during one reconcile. *)
Record kube := mkKube {
  kb_pools : result (list SandboxWarmPool);
  kb_template (namespace name : string) : result SandboxTemplate;
}.

Definition schedulableNodes (w : W) : result (list nodeView) :=
  match NodeCapacities w with
  | Err e => Err (ErrWrap "list node inventories" [] e)
  | Ok nodes =>
      Ok (merge_sort view_le (omap (λ n, if decide (nps_Address n = "") then None
                                         else Some (mkNodeView (nps_Node n) (nps_Address n) (warmByKey (nps_Pools n)))) nodes))
  end.

Definition poolKey (kb : kube) (p : SandboxWarmPool) : result PoolKey :=
  if decide (wp_TemplateRef p = "") then Err errNoTemplateRef
  else match kb_template kb (wp_Namespace p) (wp_TemplateRef p) with
       | Err e => Err (ErrWrap "get SandboxTemplate %s/%s" [wp_Namespace p; wp_TemplateRef p] e)
       | Ok tmpl => Ok (PoolKeyFor (tm_Containers tmpl) (NetForAnnotations (tm_Annotations tmpl) ∅))
       end.

(** A status write, unless the status already says it. *)
Definition writeStatus (p : SandboxWarmPool) (warm : Z) : list statusUpdate :=
  let selector := "agents.x-k8s.io/warm-pool=" +:+ wp_Name p in
  let n := int32_wrap warm in
  if decide (wp_StatusReplicas p = n ∧ wp_StatusReadyReplicas p = n ∧ wp_StatusSelector p = selector) then []
  else [mkStatus p n selector].

(** One node's PUT; the node keeps its view when the call fails or says nothing. *)
Definition apply_one (token : string) (desired : list desiredPool) (node : nodeView) : io W nodeView :=
  r ← SetPools (nv_addr node) token (node_specs (nv_name node) desired);
  mret match r with
       | Ok (Some info) => mkNodeView (nv_name node) (nv_addr node) (warmByKey (PoolCapacityFromInfo info))
       | _ => node
       end.

Fixpoint apply_all (token : string) (desired : list desiredPool) (nodes : list nodeView) : io W (list nodeView) :=
  match nodes with
  | [] => mret []
  | node :: nodes =>
      v ← apply_one token desired node;
      vs ← apply_all token desired nodes;
      mret (v :: vs)
  end.

Definition applyToNodes (token : string) (nodes : list nodeView) (desired : list desiredPool) : io W (list nodeView) :=
  if decide (token = "") then mret nodes else apply_all token desired nodes.

(** Resolve the pools in order: the status writes of the unresolvable ones, which
    stand even when a later pool ends the reconcile, and the desired pools. *)
Fixpoint resolve_pools (kb : kube) (nodes : list nodeView) (pools : list SandboxWarmPool) :
    list statusUpdate * result (list desiredPool) :=
  match pools with
  | [] => ([], Ok [])
  | p :: pools =>
      match poolKey kb p with
      | Err e =>
          if negb (IsNotFound e) && negb (bool_decide (errNoTemplateRef ∈ unwrap_all e))
          then ([], Err (ErrWrap "resolve warm pool %s/%s template" [wp_Namespace p; wp_Name p] e))
          else let '(writes, desired) := resolve_pools kb nodes pools in (writeStatus p 0 ++ writes, desired)
      | Ok key =>
          let '(writes, desired) := resolve_pools kb nodes pools in
          (writes, fmap (M := result) (cons (mkDesired p key (distribute (default 1%Z (wp_Replicas p)) nodes))) desired)
      end
  end.

(** The status writes of one reconcile, and its error. *)
Definition reconcileOnce (token : string) (kb : kube) : io W (list statusUpdate * result unit) :=
  match kb_pools kb with
  | Err e => mret ([], Err (ErrWrap "list SandboxWarmPools" [] e))
  | Ok pools =>
      nodes ← gets schedulableNodes;
      match nodes with
      | Err e => mret ([], Err e)
      | Ok nodes =>
          let '(writes, desired) := resolve_pools kb nodes pools in
          match desired with
          | Err e => mret (writes, Err e)
          | Ok desired =>
              nodes ← applyToNodes token nodes desired;
              mret (writes ++ concat (zip_with (λ dp warm, writeStatus (dp_pool dp) warm) desired (apportionWarm desired nodes)), Ok tt)
          end
      end
  end.

Definition defaultInterval : Z := (5 * second)%Z.

(** [Driver], [New] *)
Record Driver := mkDriver { dr_token : string; dr_interval : Z }.

Definition New (token : string) (interval : Z) : Driver :=
  mkDriver token (if decide (interval ≤ 0)%Z then defaultInterval else interval).

(** [Reconcile]: the delay it asks to be called again after, or an error. *)
Definition Reconcile (d : Driver) (kb : kube) : io W (list statusUpdate * result Z) :=
  r ← reconcileOnce (dr_token d) kb;
  mret (r.1, fmap (M := result) (λ _, dr_interval d) r.2).

(** What the controller watches, and the request every such event is mapped to.  A
    pool's event counts only when its generation changed. *)
Inductive watched := PoolEvent (generation_changed : bool) | InventoryEvent.

Definition syncRequest : list string := ["sync"].
Definition SetupWithManager (ev : watched) : list string :=
  match ev with PoolEvent false => [] | _ => syncRequest end.
End driver.

(** ** Lemmas: distribution *)

Definition sum_Z (l : list Z) : Z := fold_left Z.add l 0%Z.
(** The targets of the nodes, in node order. *)
Definition targets_of (targets : gmap string Z) (nodes : list nodeView) : list Z :=
  (λ v, at_key targets (nv_name v)) <$> nodes.

Lemma distribute_from_lookup total n i nodes targets name :
  NoDup (nv_name <$> nodes) →
  distribute_from total n i nodes targets !! name =
  match list_find (λ v, nv_name v = name) nodes with
  | Some (j, _) => Some (node_target total n (i + Z.of_nat j))
  | None => targets !! name
  end.
Proof.
  revert i targets. induction nodes as [|v nodes IH]; intros i targets Hnd; [done|].
  apply NoDup_cons in Hnd as [Hv Hnd]. cbn [distribute_from list_find]. rewrite IH by done.
  destruct (decide (nv_name v = name)) as [<-|Hne].
  - destruct (list_find (λ v', nv_name v' = nv_name v) nodes) as [[j v']|] eqn:Hf.
    + apply list_find_Some in Hf as (Hl & He & _). exfalso. apply Hv. apply list_elem_of_fmap.
      exists v'. split; [done|]. by eapply list_elem_of_lookup_2.
    + rewrite lookup_insert_eq. simpl. by rewrite Z.add_0_r.
  - destruct (list_find (λ v', nv_name v' = name) nodes) as [[j v']|] eqn:Hf; simpl.
    + do 2 f_equal. lia.
    + by rewrite lookup_insert_ne.
Qed.

Lemma sum_Z_acc l a : fold_left Z.add l a = (a + sum_Z l)%Z.
Proof.
  unfold sum_Z. revert a. induction l as [|x l IH]; intros a; cbn [fold_left]; [lia|].
  rewrite IH, (IH (0 + x)%Z). lia.
Qed.
Lemma sum_Z_cons x l : sum_Z (x :: l) = (x + sum_Z l)%Z.
Proof. unfold sum_Z. cbn [fold_left]. by rewrite sum_Z_acc, Z.add_0_l. Qed.

Lemma targets_of_distribute replicas nodes :
  NoDup (nv_name <$> nodes) →
  targets_of (distribute replicas nodes) nodes =
  (λ i, node_target (Z.max replicas 0) (Z.of_nat (length nodes)) (Z.of_nat i)) <$> seq 0 (length nodes).
Proof.
  intros Hnd. unfold targets_of, distribute. set (total := Z.max replicas 0). set (n := Z.of_nat (length nodes)).
  assert (∀ pre suf, nodes = pre ++ suf →
    (λ v, at_key (distribute_from total n 0 nodes ∅) (nv_name v)) <$> suf =
    (λ i, node_target total n (Z.of_nat i)) <$> seq (length pre) (length suf)) as H.
  { intros pre suf. revert pre. induction suf as [|v suf IH]; intros pre Hn; [done|]. csimpl. f_equal.
    - unfold at_key. rewrite distribute_from_lookup by done.
      assert (list_find (λ v', nv_name v' = nv_name v) nodes = Some (length pre, v)) as ->.
      { apply list_find_Some. split; [by rewrite Hn, list_lookup_middle|]. split; [done|].
        intros j y Hj Hlt He. rewrite Hn, fmap_app in Hnd. apply NoDup_app in Hnd as (_ & Hd & _).
        apply (Hd (nv_name y)); [|rewrite He; csimpl; constructor].
        apply list_elem_of_fmap. exists y. split; [done|]. rewrite Hn, lookup_app_l in Hj by done.
        by eapply list_elem_of_lookup_2. }
      simpl. f_equal.
    - rewrite (IH (pre ++ [v])) by (by rewrite Hn, <-app_assoc). rewrite length_app. simpl. by rewrite Nat.add_1_r. }
  by apply (H [] nodes).
Qed.

Lemma sum_targets total n (k : nat) :
  (0 ≤ total)%Z → (0 < n)%Z → (Z.of_nat k ≤ n)%Z →
  sum_Z ((λ i, node_target total n (Z.of_nat i)) <$> seq 0 k) =
  (Z.of_nat k * (total `quot` n) + Z.min (Z.of_nat k) (total `rem` n))%Z.
Proof.
  intros Ht Hn. induction k as [|k IH]; intros Hk.
  - pose proof (Z.rem_bound_pos total n Ht Hn). unfold sum_Z. simpl. lia.
  - rewrite seq_S, fmap_app. unfold sum_Z at 1. rewrite fold_left_app. fold (sum_Z ((λ i, node_target total n (Z.of_nat i)) <$> seq 0 k)).
    rewrite IH by lia. simpl. unfold node_target. case_decide; lia.
Qed.

(** ** Lemmas: a node's pool set *)

Lemma at_key_add `{Countable K} (m : gmap K Z) k n k' :
  at_key (add_at k n m) k' = (at_key m k' + (if decide (k = k') then n else 0))%Z.
Proof.
  unfold at_key, add_at, at_key. destruct (decide (k = k')) as [->|Hne].
  - by rewrite lookup_insert_eq.
  - rewrite lookup_insert_ne by done. lia.
Qed.

Lemma add_at_is_Some `{Countable K} (m : gmap K Z) k n k' :
  is_Some (add_at k n m !! k') ↔ k = k' ∨ is_Some (m !! k').
Proof. unfold add_at. rewrite lookup_insert_is_Some. destruct (decide (k = k')); tauto. Qed.

(** The pools of a key. *)
Definition pools_of (k : PoolKey) (desired : list desiredPool) : list desiredPool :=
  filter (λ dp, dp_key dp = k) desired.

Lemma node_by_key_fold node desired m k :
  let m' := fold_left (λ m dp, add_at (dp_key dp) (at_key (dp_targets dp) node) m) desired m in
  at_key m' k = (at_key m k + sum_Z ((λ dp, at_key (dp_targets dp) node) <$> pools_of k desired))%Z ∧
  (is_Some (m' !! k) ↔ pools_of k desired ≠ [] ∨ is_Some (m !! k)).
Proof.
  revert m. induction desired as [|dp desired IH]; intros m; simpl.
  - unfold sum_Z. simpl. split; [lia|]. split; [by right|by intros [?|?]].
  - destruct (IH (add_at (dp_key dp) (at_key (dp_targets dp) node) m)) as [IH1 IH2]. simpl in *.
    rewrite IH1, IH2, at_key_add, add_at_is_Some. unfold pools_of. rewrite filter_cons.
    destruct (decide (dp_key dp = k)); csimpl; [|split; [lia|tauto]].
    rewrite sum_Z_cons. split; [lia|]. split; [by left|auto].
Qed.

#[export] Instance key_le_total : Total key_le.
Proof.
  intros a b. unfold key_le. destruct (decide (pk_Template a = pk_Template b)) as [He|Hne].
  - rewrite (decide_True (P := pk_Template b = pk_Template a)) by done.
    destruct (decide (pk_Net a = pk_Net b)) as [Hn|Hn].
    + rewrite (decide_True (P := pk_Net b = pk_Net a)) by done. apply (total String.le).
    + rewrite (decide_False (P := pk_Net b = pk_Net a)) by done. apply (total String.le).
  - rewrite (decide_False (P := pk_Template b = pk_Template a)) by done. apply (total String.le).
Qed.
#[export] Instance spec_le_total : Total spec_le.
Proof. intros a b. apply (total key_le). Qed.

(** ** Lemmas: sharing the warm out *)

(** The outs of the pools of one key, summed. *)
Fixpoint key_sum (k : PoolKey) (desired : list desiredPool) (outs : list Z) : Z :=
  match desired, outs with
  | dp :: desired, out :: outs => ((if decide (dp_key dp = k) then out else 0) + key_sum k desired outs)%Z
  | _, _ => 0%Z
  end.

Lemma fleet_and_targets_spec nodes desired fleet sumTarget k :
  let r := fleet_and_targets nodes desired fleet sumTarget in
  at_key r.2 k = (at_key sumTarget k + sum_Z (poolTarget <$> pools_of k desired))%Z ∧
  (nodes ≠ [] → r.1 !! k = match fleet !! k with
                           | Some f => Some f
                           | None => if decide (pools_of k desired = []) then None else Some (fleet_warm nodes k)
                           end).
Proof.
  revert fleet sumTarget. induction desired as [|dp desired IH]; intros fleet sumTarget.
  - simpl. unfold sum_Z. simpl. split; [lia|]. intros _. by destruct (fleet !! k).
  - cbn [fleet_and_targets]. set (fleet' := match fleet !! dp_key dp with Some _ => fleet | None => _ end).
    destruct (IH fleet' (add_at (dp_key dp) (poolTarget dp) sumTarget)) as [IH1 IH2]. simpl in *.
    unfold pools_of in *. rewrite filter_cons. rewrite IH1, at_key_add. split.
    + destruct (decide (dp_key dp = k)); csimpl; rewrite ?sum_Z_cons; lia.
    + intros Hne. rewrite IH2 by done. unfold fleet'. rewrite (decide_False (P := nodes = [])) by done.
      destruct (decide (dp_key dp = k)) as [<-|Hk].
      * rewrite (decide_False (P := dp :: _ = [])) by done.
        destruct (fleet !! dp_key dp) eqn:Hf; [by rewrite Hf|by rewrite lookup_insert_eq].
      * destruct (fleet !! dp_key dp); [done|]. by rewrite lookup_insert_ne.
Qed.

(** A pool's rounded-down share. *)
Definition share (fleet sumTarget : gmap PoolKey Z) (dp : desiredPool) : Z :=
  if decide (0 < at_key sumTarget (dp_key dp))%Z
  then ((at_key fleet (dp_key dp) * poolTarget dp) `quot` at_key sumTarget (dp_key dp))%Z else 0%Z.

Lemma shares_spec fleet sumTarget desired given k :
  let r := shares fleet sumTarget desired given in
  r.1 = share fleet sumTarget <$> desired ∧
  at_key r.2 k = (at_key given k + key_sum k desired r.1)%Z.
Proof.
  revert given. induction desired as [|dp desired IH]; intros given; simpl; [split; [done|lia]|].
  unfold share at 1. destruct (decide (0 < at_key sumTarget (dp_key dp))%Z) as [Hs|Hs].
  - set (sh := (_ `quot` _)%Z). destruct (IH (add_at (dp_key dp) sh given)) as [IH1 IH2].
    destruct (shares _ _ _ _) as [out given']. simpl in *. subst out. rewrite IH2, at_key_add. split; [done|lia].
  - destruct (IH given) as [IH1 IH2]. destruct (shares _ _ _ _) as [out given']. simpl in *. subst out. rewrite IH2.
    split; [done|]. destruct (decide (dp_key dp = k)); lia.
Qed.

Lemma top_up_spec fuel fleet sum given out :
  (Z.of_nat fuel >= fleet - given)%Z →
  top_up fuel fleet sum given out =
  if decide (given < fleet)%Z then
    if decide (0 < sum)%Z then ((out + 1)%Z, (given + 1)%Z) else ((out + (fleet - given))%Z, fleet)
  else (out, given).
Proof.
  revert given out. induction fuel as [|fuel IH]; intros given out Hf; simpl.
  - by rewrite decide_False by lia.
  - destruct (decide (given < fleet)%Z) as [Hl|]; [|done]. destruct (decide (0 < sum)%Z) as [|Hs]; [done|].
    rewrite IH by lia. destruct (decide (given + 1 < fleet)%Z).
    + f_equal. lia.
    + f_equal; lia.
Qed.

(** What is given of a key after [c] more pools of it took from [given]. *)
Definition finally (fleet sum given : Z) (c : nat) : Z :=
  if decide (0 < sum)%Z then Z.max given (Z.min fleet (given + Z.of_nat c))
  else if decide (c = 0) then given else Z.max given fleet.

Lemma leftovers_spec fleet sumTarget desired outs given k :
  length outs = length desired →
  key_sum k desired (leftovers fleet sumTarget desired outs given) =
  (key_sum k desired outs - at_key given k +
   finally (at_key fleet k) (at_key sumTarget k) (at_key given k) (length (pools_of k desired)))%Z.
Proof.
  revert outs given. induction desired as [|dp desired IH]; intros outs given Hlen.
  - unfold finally. simpl. repeat case_decide; try done; lia.
  - destruct outs as [|out outs]; [done|]. cbn [leftovers]. rewrite top_up_spec by lia.
    set (K := dp_key dp).
    set (r := if decide (at_key given K < at_key fleet K)%Z then _ else _).
    destruct r as [out' g] eqn:Hr. cbn [key_sum]. rewrite IH by (simpl in *; lia).
    unfold pools_of. rewrite filter_cons. fold (pools_of k desired). fold K.
    destruct (decide (K = k)) as [<-|Hne].
    + assert (at_key (<[K:=g]> given) K = g) as -> by (unfold at_key; by rewrite lookup_insert_eq).
      simpl. unfold r in Hr. unfold finally. repeat case_decide; simplify_eq; try lia; done.
    + assert (at_key (<[K:=g]> given) k = at_key given k) as -> by (unfold at_key; by rewrite lookup_insert_ne).
      lia.
Qed.

(** The rounded-down shares of a key leave less than one per pool. *)
Lemma shares_leave fleet sumTarget desired k :
  (0 ≤ at_key fleet k)%Z → (0 < at_key sumTarget k)%Z → (∀ dp, dp ∈ desired → 0 ≤ poolTarget dp)%Z →
  (key_sum k desired (share fleet sumTarget <$> desired) * at_key sumTarget k
     ≤ at_key fleet k * sum_Z (poolTarget <$> pools_of k desired))%Z ∧
  (at_key fleet k * sum_Z (poolTarget <$> pools_of k desired)
     ≤ (key_sum k desired (share fleet sumTarget <$> desired) + Z.of_nat (length (pools_of k desired))) * at_key sumTarget k)%Z.
Proof.
  intros HF HS. induction desired as [|dp desired IH]; intros Ht; [unfold sum_Z; simpl; lia|].
  destruct IH as [IH1 IH2]; [intros dp' ?; apply Ht; by constructor|].
  specialize (Ht dp (list_elem_of_here _ _)). csimpl. unfold pools_of in *. rewrite filter_cons.
  destruct (decide (dp_key dp = k)) as [Hk|Hk]; [|lia]. csimpl. rewrite sum_Z_cons.
  unfold share at 1 3. rewrite Hk, decide_True by done.
  set (F := at_key fleet k) in *. set (S := at_key sumTarget k) in *. set (t := poolTarget dp) in *.
  assert (0 ≤ F * t)%Z as Hft by nia.
  pose proof (Z.quot_rem (F * t) S ltac:(lia)) as Hqr. pose proof (Z.rem_bound_pos (F * t) S Hft HS) as Hrem.
  nia.
Qed.

(** ** Properties *)

(** replicas are spread evenly and completely: over distinctly named nodes the
    targets add up to the replicas (none when negative), any two differ by at most
    one, and an earlier node never has less than a later one. *)
Theorem distribute_spec (replicas : Z) (nodes : list nodeView) :
  nodes ≠ [] → NoDup (nv_name <$> nodes) →
  let ts := targets_of (distribute replicas nodes) nodes in
  sum_Z ts = Z.max replicas 0 ∧
  ∀ i j ti tj, ts !! i = Some ti → ts !! j = Some tj → i ≤ j → (0 ≤ tj ≤ ti)%Z ∧ (ti ≤ tj + 1)%Z.
Proof.
  intros Hne Hnd ts. unfold ts. rewrite targets_of_distribute by done.
  set (total := Z.max replicas 0). set (n := Z.of_nat (length nodes)).
  assert (0 < n)%Z as Hn by (unfold n; destruct nodes; simpl; [done|lia]).
  assert (0 ≤ total)%Z as Ht by lia.
  pose proof (Z.quot_rem total n ltac:(lia)) as Hqr. pose proof (Z.rem_bound_pos total n Ht Hn) as Hrem.
  pose proof (Z.quot_pos total n Ht Hn) as Hq.
  split.
  - rewrite sum_targets by lia. fold n. nia.
  - intros i j ti tj Hi Hj Hij. rewrite list_lookup_fmap in Hi, Hj.
    apply fmap_Some in Hi as (i' & [-> _]%lookup_seq & ->). apply fmap_Some in Hj as (j' & [-> _]%lookup_seq & ->).
    simpl. unfold node_target. repeat case_decide; lia.
Qed.

(** The set a node is sent names each pool key once, in key order, names
    exactly the keys of the desired pools, and asks for the sum of their targets
    on that node, so two pools of one key never make a PUT that repeats it. *)
Theorem node_specs_spec (node : string) (desired : list desiredPool) :
  let specs := node_specs node desired in
  NoDup (spec_key <$> specs) ∧ Sorted spec_le specs ∧
  ∀ p, p ∈ specs ↔ pools_of (spec_key p) desired ≠ [] ∧
         ps_Warm p = sum_Z ((λ dp, at_key (dp_targets dp) node) <$> pools_of (spec_key p) desired).
Proof.
  intros specs. unfold specs, node_specs.
  set (mk := λ kw : PoolKey * Z, mkPoolSpec (pk_Template kw.1) (pk_Net kw.1) (pk_Size kw.1) kw.2).
  assert (∀ kw, spec_key (mk kw) = kw.1) as Hmk by (by intros [[] ?]).
  split_and!.
  - rewrite merge_sort_Permutation, <-list_fmap_compose.
    rewrite (list_fmap_ext _ fst); [apply NoDup_fst_map_to_list|]. intros i kw _. apply Hmk.
  - apply Sorted_merge_sort, _.
  - intros p. rewrite merge_sort_Permutation, list_elem_of_fmap.
    pose proof (node_by_key_fold node desired ∅ (spec_key p)) as [Hs Hk]. simpl in Hs, Hk. fold (node_by_key node desired) in *.
    unfold at_key at 2 in Hs. rewrite lookup_empty in Hs, Hk. simpl in Hs.
    split.
    + intros ([k w] & -> & Hin%elem_of_map_to_list). rewrite Hmk in *. simpl in *. split.
      * destruct Hk as [Hk _]. destruct Hk as [?|[? ?]]; [eauto|done|done].
      * assert (at_key (node_by_key node desired) k = w) as Hw by (unfold at_key; by rewrite Hin). lia.
    + intros [Hne Hw]. destruct Hk as [_ Hk]. destruct Hk as [w Hk]; [by left|].
      exists (spec_key p, w). split; [|by apply elem_of_map_to_list].
      assert (at_key (node_by_key node desired) (spec_key p) = w) as Hw' by (unfold at_key; by rewrite Hk).
      destruct p as [t n z wm]. unfold mk, spec_key in *. simpl in *. f_equal. lia.
Qed.

(** status reports add up: over a non-empty fleet with warm counts and targets
    that are not negative, the warm the pools of one key are given is exactly the
    fleet's warm of that key, never more or less, and when the key has a target
    each pool gets its proportional share rounded down or one more. *)
Theorem apportionWarm_spec (desired : list desiredPool) (nodes : list nodeView) (k : PoolKey) :
  nodes ≠ [] → pools_of k desired ≠ [] → (0 ≤ fleet_warm nodes k)%Z →
  (∀ dp, dp ∈ desired → 0 ≤ poolTarget dp)%Z →
  let outs := apportionWarm desired nodes in
  let total := sum_Z (poolTarget <$> pools_of k desired) in
  key_sum k desired outs = fleet_warm nodes k ∧
  ((0 < total)%Z → ∀ i dp out, desired !! i = Some dp → outs !! i = Some out → dp_key dp = k →
     let floor := ((fleet_warm nodes k * poolTarget dp) `quot` total)%Z in (floor ≤ out ≤ floor + 1)%Z).
Proof.
  intros Hne Hk HF Ht outs total. unfold outs, apportionWarm.
  destruct (fleet_and_targets_spec nodes desired ∅ ∅ k) as [Hsum Hfleet].
  destruct (fleet_and_targets nodes desired ∅ ∅) as [fleet sumTarget]. simpl in Hsum, Hfleet.
  specialize (Hfleet Hne). rewrite lookup_empty, decide_False in Hfleet by done.
  assert (at_key fleet k = fleet_warm nodes k) as HFk by (unfold at_key; by rewrite Hfleet).
  assert (at_key sumTarget k = total) as HSk by (rewrite Hsum; unfold at_key; by rewrite lookup_empty).
  destruct (shares_spec fleet sumTarget desired ∅ k) as [Hshare Hgiven].
  destruct (shares fleet sumTarget desired ∅) as [outs1 given]. simpl in Hshare, Hgiven. subst outs1.
  assert (at_key (∅ : gmap PoolKey Z) k = 0%Z) as He by done. rewrite He in Hgiven.
  assert (length (share fleet sumTarget <$> desired) = length desired) as Hlen by apply length_fmap.
  assert (0 ≤ total)%Z as Htot.
  { unfold total, pools_of. clear -Ht. induction desired as [|dp desired IH]; [done|]. rewrite filter_cons.
    assert (∀ dp', dp' ∈ desired → 0 ≤ poolTarget dp')%Z as Ht' by (intros dp' ?; apply Ht; by constructor).
    destruct (decide (dp_key dp = k)); csimpl; [|by apply IH]. rewrite sum_Z_cons.
    pose proof (Ht dp (list_elem_of_here _ _)). specialize (IH Ht'). lia. }
  split.
  - rewrite leftovers_spec by done. rewrite Hgiven, HFk, HSk. unfold finally.
    assert (length (pools_of k desired) ≠ 0) as Hc by (by destruct (pools_of k desired)).
    destruct (decide (0 < total)%Z) as [Hp|Hp].
    + destruct (shares_leave fleet sumTarget desired k) as [H1 H2]; [by rewrite HFk|by rewrite HSk|done|].
      rewrite HSk, HFk in *. fold total in H1, H2.
      set (G := key_sum k desired (share fleet sumTarget <$> desired)) in *.
      assert (G ≤ fleet_warm nodes k)%Z by nia.
      assert (fleet_warm nodes k ≤ G + Z.of_nat (length (pools_of k desired)))%Z by nia. lia.
    + rewrite decide_False by done.
      assert (key_sum k desired (share fleet sumTarget <$> desired) = 0%Z) as ->; [|lia].
      assert (∀ l, key_sum k l (share fleet sumTarget <$> l) = 0%Z) as Hz; [|apply Hz].
      induction l as [|dp l IHl]; [done|]. csimpl. rewrite IHl. case_decide as Hd; [|lia].
      unfold share. rewrite Hd, HSk, decide_False by lia. lia.
  - intros Hp i dp out Hi Ho Hdk. simpl.
    assert (∀ l outs1 g, length outs1 = length l → ∀ i dp out o1, l !! i = Some dp → outs1 !! i = Some o1 →
      leftovers fleet sumTarget l outs1 g !! i = Some out → dp_key dp = k → (o1 ≤ out ≤ o1 + 1)%Z) as H.
    { clear -Hp HSk. induction l as [|d l IH]; intros outs1 g Hlen i dp out o1 Hl Ho1 Hout Hdk; [done|].
      destruct outs1 as [|x outs1]; [done|]. cbn [leftovers] in Hout. rewrite top_up_spec in Hout by lia.
      set (r := if decide (at_key g (dp_key d) < at_key fleet (dp_key d))%Z then _ else _) in Hout.
      destruct r as [out' g'] eqn:Hr. destruct i as [|i]; simpl in *.
      - simplify_eq. rewrite HSk in Hr. repeat case_decide; simplify_eq; lia.
      - eapply IH; [|done..]. lia. }
    rewrite <-HFk, <-HSk, <-Hdk.
    pose proof (H desired (share fleet sumTarget <$> desired) given Hlen i dp out (share fleet sumTarget dp) Hi) as Hb.
    assert (share fleet sumTarget dp = ((at_key fleet (dp_key dp) * poolTarget dp) `quot` at_key sumTarget (dp_key dp))%Z) as Hsh.
    { unfold share. by rewrite Hdk, HSk, decide_True by done. }
    rewrite <-Hsh. apply Hb; [|done|done]. by rewrite list_lookup_fmap, Hi.
Qed.

(** ** What a reconcile sends *)

Record put := mkPut { pu_addr : string; pu_token : string; pu_specs : list PoolSpec }.

Definition recorded_setter {W} (P : PoolSetter W) : PoolSetter (list put * W) :=
  {| SetPools a t ps := λ '(l, w), let '(r, w') := SetPools a t ps w in (r, (l ++ [mkPut a t ps], w')) |}.
Definition recorded_inventory {W} (I : InventorySource W) : InventorySource (list put * W) :=
  {| ListNodes w := ListNodes w.2; NodeInventory_of w := NodeInventory_of w.2;
     NodeCapacity w := NodeCapacity w.2; NodeCapacities w := NodeCapacities w.2 |}.

Section sends.
Context {W : Type} (I : InventorySource W) (P : PoolSetter W) {Q : QuantityOps}.

Lemma apply_all_puts token desired nodes l w :
  (apply_all (P := recorded_setter P) token desired nodes (l, w)).2.1 =
  l ++ ((λ v, mkPut (nv_addr v) token (node_specs (nv_name v) desired)) <$> nodes).
Proof.
  revert l w. induction nodes as [|v nodes IH]; intros l w; [by rewrite app_nil_r|].
  cbn [apply_all]. rewrite !bind_run. unfold apply_one. rewrite bind_run. simpl.
  destruct (SetPools (nv_addr v) token (node_specs (nv_name v) desired) w) as [r w']. simpl.
  rewrite IH. by rewrite <-app_assoc.
Qed.


(** the loop keeps going: a reconcile that ends well asks to be called again after a
    positive delay, the configured one when it is positive, one that fails reports
    its error for the queue to retry and asks for nothing, it does what one pass
    does either way, and every event that asks for one asks for the same. *)
Theorem Reconcile_paced (token : string) (interval : Z) (kb : kube) (w : W) :
  let d := New token interval in
  let out := Reconcile (I := I) (P := P) d kb w in
  let once := reconcileOnce (I := I) (P := P) token kb w in
  (0 < dr_interval d)%Z ∧ ((0 < interval)%Z → dr_interval d = interval) ∧
  out.1.1 = once.1.1 ∧ out.2 = once.2 ∧
  out.1.2 = match once.1.2 with Ok _ => Ok (dr_interval d) | Err e => Err e end ∧
  ∀ ev req, req ∈ SetupWithManager ev → SetupWithManager ev = [req] ∧ req = "sync".
Proof.
  cbv zeta. unfold Reconcile. rewrite bind_run. cbn [New dr_token]. destruct (reconcileOnce token kb w) as [[us r] w'].
  split_and!.
  - cbn. unfold defaultInterval, second. case_decide; lia.
  - intros Hi. cbn. rewrite decide_False by lia. done.
  - done.
  - done.
  - by destruct r.
  - intros ev req. destruct ev as [[]|]; cbn; intros Hin; [by apply list_elem_of_singleton in Hin as ->|by apply not_elem_of_nil in Hin|by apply list_elem_of_singleton in Hin as ->].
Qed.
End sends.

(** ** Witnesses *)

Definition view (name : string) : nodeView := mkNodeView name ("addr-" +:+ name) ∅.
Definition warm_view (name : string) (n : Z) : nodeView :=
  mkNodeView name ("addr-" +:+ name) {[ mkPoolKey "img" "none" "small" := n ]}.
Definition sample_pool (name : string) : SandboxWarmPool := mkWarmPool "team" name "tmpl" (Some 5%Z) 0 0 "".

Lemma distribute_spec_witness : sum_Z (targets_of (distribute 5 [view "a"; view "b"; view "c"]) [view "a"; view "b"; view "c"]) = 5%Z.
Proof.
  apply (distribute_spec 5 [view "a"; view "b"; view "c"]); [discriminate|].
  apply (bool_decide_eq_true_1 (NoDup _)). vm_compute. reflexivity.
Defined.

Definition sample_desired : list desiredPool :=
  [mkDesired (sample_pool "p") (mkPoolKey "img" "none" "small") {[ "a" := 1%Z; "b" := 1%Z ]};
   mkDesired (sample_pool "q") (mkPoolKey "img" "none" "small") {[ "a" := 1%Z ]}].

Lemma apportionWarm_spec_witness :
  key_sum (mkPoolKey "img" "none" "small") sample_desired (apportionWarm sample_desired [warm_view "a" 4; warm_view "b" 1]) = 5%Z.
Proof.
  apply (apportionWarm_spec sample_desired [warm_view "a" 4; warm_view "b" 1] (mkPoolKey "img" "none" "small")).
  - discriminate.
  - discriminate.
  - vm_compute. discriminate.
  - intros dp [->|[->|H]%elem_of_cons]%elem_of_cons; [vm_compute; discriminate..|by apply not_elem_of_nil in H].
Defined.
