(* ===== verification/ApiServer.v ===== *)
(** * The aggregated apiserver's storage (pkg/scale/apiserver/storage.go, lifecycle_storage.go)

    Create and Delete of sandboxes.agents.x-k8s.io as synchronous claim and
    release, and the pause, resume, fork and snapshot subresources, over the
    store contract.  Admission ([validate]), the generated name, the fresh UID
    and the clock are inputs. *)

From S2P Require Import Prelude GoStd GoNum Api NodeIndex PoolKeys SandboxView Inventory Client StoreRead StoreLifecycle Store WarmPool.

Definition AddressAnnotation : string := "sandbox.cocoonstack.io/address".
Definition TTLSecondsAnnotation : string := "sandbox.cocoonstack.io/ttl-seconds".
(** Upstream's constant, by its name. *)
Definition SandboxReasonDependenciesReady : string := "sandboxv1beta1.SandboxReasonDependenciesReady".
Definition dryRunUnsupported : string := "dry-run is not supported for sandbox mutations".

(** The options of a List or Watch request the storage reads. *)
Record RequestListOptions := mkRequestListOptions {
  ro_LabelSelector : option string;
  ro_FieldSelector : option string;
  ro_SendInitialEvents : option bool;
  ro_AllowWatchBookmarks : bool;
}.

Definition toScaleListOptions (namespace : string) (options : option RequestListOptions) : ListOptions :=
  match options with
  | None => mkListOptions namespace "" "" false
  | Some o =>
      mkListOptions namespace (default "" (ro_LabelSelector o)) (default "" (ro_FieldSelector o))
        (default false (ro_SendInitialEvents o) && ro_AllowWatchBookmarks o)
  end.

Section apiserver.
Context {S : Type} {T : SandboxStore S} {Q : QuantityOps}.

(** A [Sandbox] object as a client submits it: the metadata and status in
    [so_obj], and the parts of its spec that Create reads. *)
Record SandboxObject := mkSandboxObject {
  so_obj : Api.Sandbox;
  so_GenerateName : string;
  so_UID : string;
  so_ShutdownTime : option time;
  so_PodAnnotations : gmap string string;
  so_Containers : list Container;
}.

Record ForkedSandbox := mkForkedSandbox {
  fk_SandboxID : string;
  fk_NodeName : string;
  fk_Address : string;
  fk_Token : string;
}.

(** A [runtime.Object], by its kind. *)
Inductive object :=
| OSandbox (sb : SandboxObject)
| OPauseOptions
| OResumeOptions
| OForkOptions (count ttlSeconds : Z)
| OForkResult (children : list ForkedSandbox)
| OSnapshotOptions (name : string)
| OSnapshotResult (id name node : string) (created : time)
| OOther (kind : string).

(** A validation callback, possibly nil. *)
Definition validate (A : Type) : Type := option (A → result unit).
Definition admitted {A} (v : validate A) (x : A) : result unit :=
  match v with None => Ok tt | Some f => f x end.

(** ** Create *)

Definition poolKeyForSandbox (sb : SandboxObject) : PoolKey :=
  PoolKeyFor (so_Containers sb) (NetForAnnotations (sb_Annotations (so_obj sb)) (so_PodAnnotations sb)).

Definition ttlSecondsForSandbox (sb : SandboxObject) (now : time) : result Z :=
  match so_ShutdownTime sb with
  | Some t =>
      let left := time_sub t now in
      if decide (left ≤ 0)%Z then Err (ErrText "spec.shutdownTime %s is not in the future" [format_rfc3339 t])
      else Ok (ceil_seconds left)
  | None =>
      let raw := default "" (sb_Annotations (so_obj sb) !! TTLSecondsAnnotation) in
      if decide (raw = "") then Ok 0%Z
      else match atoi raw with
           | Some v =>
               if decide (v < 0)%Z then Err (ErrText "invalid %s=%q: want a non-negative integer of seconds" [TTLSecondsAnnotation; raw])
               else Ok v
           | None => Err (ErrText "invalid %s=%q: want a non-negative integer of seconds" [TTLSecondsAnnotation; raw])
           end
  end.

Definition synthesizeClaimedSandbox (namespace name uid : string) (created : time) (sb : SandboxObject) (a : Assignment) : SandboxObject :=
  let ann := <[ClaimIDAnnotation := as_SandboxName a]> (sb_Annotations (so_obj sb)) in
  let ann := stamp (nonempty (as_Address a)) AddressAnnotation (as_Address a) ann in
  let ann := stamp (nonempty (as_Token a)) TokenAnnotation (as_Token a) ann in
  let ann := stamp (negb (time_is_zero (as_Deadline a))) DeadlineAnnotation (format_rfc3339 (as_Deadline a)) ann in
  {| so_obj := {|
       sb_Namespace := namespace;
       sb_Name := name;
       sb_Labels := sb_Labels (so_obj sb);
       sb_Annotations := ann;
       sb_ResourceVersion := "";
       sb_CreationTimestamp := created;
       sb_NodeName := as_Node a;
       sb_PodIPs := AddressIPs (as_Address a);
       sb_Conditions := [mkCondition "Ready" "True" SandboxReasonDependenciesReady
                           ["warm sandbox %q delivered by node %q"; as_SandboxName a; as_Node a]] |};
     so_GenerateName := "";
     so_UID := uid;
     so_ShutdownTime := so_ShutdownTime sb;
     so_PodAnnotations := so_PodAnnotations sb;
     so_Containers := so_Containers sb |}.

(** The name of the request: the object's, or one generated from its prefix. *)
Definition request_name (generate : string → string) (sb : SandboxObject) : string :=
  if decide (sb_Name (so_obj sb) = "" ∧ so_GenerateName sb ≠ "") then generate (so_GenerateName sb)
  else sb_Name (so_obj sb).

Definition claim_failed (namespace name : string) (pool : PoolKey) (e : error) : error :=
  if StoreClaim.IsNoWarmCapacity e then
    NewServiceUnavailable ["no warm sandbox available for pool (template=%q net=%q size=%q); retry as warm capacity refills";
                           pk_Template pool; pk_Net pool; pk_Size pool]
  else NewInternalError ("claim sandbox %s/%s" :: namespace :: name :: error_text e).

Definition Create (ctxNamespace : string) (generate : string → string) (uid : string) (now created : time)
    (dryRun : bool) (v : validate object) (obj : object) : io S (result SandboxObject) :=
  if dryRun then mret (Err (NewBadRequest [dryRunUnsupported]))
  else match obj with
       | OSandbox sb =>
           match admitted v obj with
           | Err e => mret (Err e)
           | Ok _ =>
               let namespace := str_or ctxNamespace (sb_Namespace (so_obj sb)) in
               let name := request_name generate sb in
               if decide (name = "") then mret (Err (NewBadRequest ["Sandbox has neither metadata.name nor metadata.generateName"]))
               else match ttlSecondsForSandbox sb now with
                    | Err e => mret (Err (NewBadRequest (error_text e)))
                    | Ok ttl =>
                        let pool := poolKeyForSandbox sb in
                        a ← Claim namespace name pool (mkClaimOptions ttl ∅ "" false false);
                        mret match a with
                             | Err e => Err (claim_failed namespace name pool e)
                             | Ok a => Ok (synthesizeClaimedSandbox namespace name uid created sb a)
                             end
                    end
           end
       | _ => mret (Err (NewBadRequest ["expected a Sandbox object, got %T"]))
       end.

(** ** Delete *)

Definition claimID (sb : Api.Sandbox) : string := default "" (sb_Annotations sb !! ClaimIDAnnotation).

Definition Delete (namespace name : string) (dryRun : bool) (v : validate Api.Sandbox) : io S (result (Api.Sandbox * bool)) :=
  if dryRun then mret (Err (NewBadRequest [dryRunUnsupported]))
  else
    sb <-? Get namespace name;;
    match admitted v sb with
    | Err e => mret (Err e)
    | Ok _ =>
        let node := sb_NodeName sb in
        let id := claimID sb in
        if decide (node = "") then
          mret (Err (NewInternalError ["cannot delete sandbox %s/%s: inventory entry names no owning node; refusing to report it released"; namespace; name]))
        else if decide (id = "") then
          mret (Err (NewInternalError ["cannot delete sandbox %s/%s: node %q inventory carries no %s (sandboxd claim id); refusing to release by name";
                                       namespace; name; node; ClaimIDAnnotation]))
        else
          r ← Release node id;
          mret match r with
               | Err e => Err (NewInternalError ("release sandbox %s/%s (node %q id %q)" :: namespace :: name :: node :: id :: error_text e))
               | Ok _ => Ok (sb, true)
               end
    end.

(** ** Lifecycle subresources *)

Definition verbError (verb : string) (sb : Api.Sandbox) (e : error) : error :=
  let internal := NewInternalError ("%s sandbox %s/%s" :: verb :: sb_Namespace sb :: sb_Name sb :: error_text e) in
  match errors_as status_of e with
  | Some (code, msg) => if decide (code < 500)%Z then ErrStatus code msg else internal
  | None => internal
  end.

Inductive subresource := SubPause | SubResume | SubFork | SubSnapshot.

(** The [verb] of each subresource's storage. *)
Definition run_subresource (v : subresource) (sb : Api.Sandbox) (obj : object) : io S (result object) :=
  let node := sb_NodeName sb in
  match v with
  | SubPause => r ← Pause node (claimID sb); mret (map_err (verbError "pause" sb) (fmap (M := result) (λ _, OPauseOptions) r))
  | SubResume => r ← Resume node (claimID sb); mret (map_err (verbError "resume" sb) (fmap (M := result) (λ _, OResumeOptions) r))
  | SubFork =>
      match obj with
      | OForkOptions c ttl =>
          let count := z_or c 1 in
          if decide (count < 0)%Z then mret (Err (NewBadRequest ["count must be >= 1, got %d"; format_int count]))
          else
            children ← Fork (sb_Namespace sb) node (claimID sb) count ttl;
            mret (map_err (verbError "fork" sb)
                    (fmap (M := result) (λ cs, OForkResult ((λ c, mkForkedSandbox (as_SandboxName c) (as_Node c) (as_Address c) (as_Token c)) <$> cs)) children))
      | _ => mret (Err (NewBadRequest ["expected SandboxForkOptions, got %T"]))
      end
  | SubSnapshot =>
      match obj with
      | OSnapshotOptions n =>
          match CheckpointName (sb_Namespace sb) n with
          | Err e => mret (Err e)
          | Ok name =>
              snap ← Snapshot node (claimID sb) name;
              mret (map_err (verbError "snapshot" sb) (fmap (M := result) (λ s, OSnapshotResult (sn_ID s) n (sn_Node s) (sn_CreatedAt s)) snap))
          end
      | _ => mret (Err (NewBadRequest ["expected SandboxSnapshotOptions, got %T"]))
      end
  end.

Definition subresource_Create (v : subresource) (namespace name : string) (dryRun : bool) (val : validate object) (obj : object) :
    io S (result object) :=
  if dryRun then mret (Err (NewBadRequest [dryRunUnsupported]))
  else match admitted val obj with
       | Err e => mret (Err e)
       | Ok _ =>
           sb <-? Get namespace name;;
           if decide (sb_NodeName sb = "") then
             mret (Err (NewInternalError ["sandbox %s/%s has no owning node; cannot run a lifecycle verb against it"; namespace; name]))
           else if decide (claimID sb = "") then
             mret (Err (NewInternalError ["sandbox %s/%s carries no %s (node-local claim id); refusing to act by name"; namespace; name; ClaimIDAnnotation]))
           else run_subresource v sb obj
       end.
End apiserver.

(** ** Specification *)

(** What a claim lease may ask for: a shutdown time ahead of the clock, or a
    non-negative number of seconds, or nothing. *)
Definition lease_ok {Q : QuantityOps} (sb : SandboxObject) (now : time) : Prop :=
  match so_ShutdownTime sb with
  | Some t => (now < t)%Z
  | None =>
      let raw := default "" (sb_Annotations (so_obj sb) !! TTLSecondsAnnotation) in
      raw = "" ∨ ∃ n, atoi raw = Some n ∧ (0 ≤ n)%Z
  end.

(** The lease asked for: the time left, rounded up to whole seconds. *)
Definition lease_of {Q : QuantityOps} (sb : SandboxObject) (now : time) (ttl : Z) : Prop :=
  match so_ShutdownTime sb with
  | Some t => (t - now < (2 ^ 24 - 1) * second → (ttl - 1) * second < t - now ≤ ttl * second)%Z
  | None =>
      let raw := default "" (sb_Annotations (so_obj sb) !! TTLSecondsAnnotation) in
      if decide (raw = "") then ttl = 0%Z else atoi raw = Some ttl
  end.

(** The requests Create claims for. *)
Definition admissible {Q : QuantityOps} (generate : string → string) (now : time) (dryRun : bool) (v : validate object) (obj : object) : Prop :=
  dryRun = false ∧ is_ok (admitted v obj) = true ∧
  ∃ sb, obj = OSandbox sb ∧ request_name generate sb ≠ "" ∧ lease_ok sb now.

(** A body the subresource can act on. *)
Definition body_ok {Q : QuantityOps} (sub : subresource) (sb : Api.Sandbox) (obj : object) : bool :=
  match sub, obj with
  | SubPause, _ | SubResume, _ => true
  | SubFork, OForkOptions count _ => bool_decide (0 ≤ count)%Z
  | SubSnapshot, OSnapshotOptions name => is_ok (CheckpointName (sb_Namespace sb) name)
  | _, _ => false
  end.

Definition error_of {A} (r : result A) : option error := match r with Ok _ => None | Err e => Some e end.

(** Is [c] the call the subresource owes the sandbox?  Then how it ended. *)
Definition call_of_subresource {Q : QuantityOps} (sub : subresource) (sb : Api.Sandbox) (obj : object) (c : store_call) : option (option error) :=
  let on node id res := if decide (node = sb_NodeName sb ∧ id = claimID sb) then Some res else None in
  match sub, obj, c with
  | SubPause, _, SCPause node id r => on node id (error_of r)
  | SubResume, _, SCResume node id r => on node id (error_of r)
  | SubFork, OForkOptions count ttl, SCFork ns node id n t r =>
      if decide (ns = sb_Namespace sb ∧ n = (if decide (count = 0) then 1 else count)%Z ∧ t = ttl) then on node id (error_of r) else None
  | SubSnapshot, OSnapshotOptions name, SCSnapshot node id stamped r =>
      if decide (stamped = sb_Namespace sb +:+ "/" +:+ name) then on node id (error_of r) else None
  | _, _, _ => None
  end.

(** What a store error becomes: a client error keeps its code, the rest is a 500. *)
Definition verb_code (e : error) : Z :=
  match status_code e with
  | Some code => if decide (code < 500)%Z then code else 500
  | None => 500
  end.

Lemma verbError_code verb sb e : status_code (verbError verb sb e) = Some (verb_code e).
Proof.
  unfold verbError, verb_code, status_code at 2. destruct (errors_as status_of e) as [[code msg]|]; simpl; [|done].
  by case_decide.
Qed.

(** A verb's answer, from its one call. *)
Definition verb_answer {A} (err : option error) (r : result A) : Prop :=
  match err, r with
  | None, Ok _ => True
  | Some e, Err e' => status_code e' = Some (verb_code e)
  | _, _ => False
  end.

Lemma verb_answer_map {A B} (f : A → B) verb sb (r : result A) :
  verb_answer (error_of r) (map_err (verbError verb sb) (fmap (M := result) f r)).
Proof. destruct r; simpl; [done|]. apply verbError_code. Qed.

Lemma ttlSeconds_spec {Q : QuantityOps} (sb : SandboxObject) (now : time) :
  match ttlSecondsForSandbox sb now with
  | Ok ttl => lease_ok sb now ∧ lease_of sb now ttl
  | Err _ => ¬ lease_ok sb now
  end.
Proof.
  unfold ttlSecondsForSandbox, lease_ok, lease_of. destruct (so_ShutdownTime sb) as [t|].
  - pose proof (time_sub_pos t now) as Hp. case_decide as Hl; [lia|].
    split; [lia|]. intros Hs. rewrite time_sub_small by lia.
    rewrite ceil_seconds_exact by (unfold second in *; lia).
    pose proof (Z.div_mod (t - now + second - 1) second ltac:(done)).
    pose proof (Z.mod_pos_bound (t - now + second - 1) second ltac:(done)). unfold second in *. lia.
  - case_decide as Hr; [auto|]. destruct (atoi _) as [n|]; [|intros [?|(? & ? & ?)]; done].
    case_decide as Hn; [|split; [right; eexists; split; [done|lia]|done]].
    intros [?|(m & [= <-] & ?)]; [done|lia].
Qed.

Lemma claim_failed_code namespace name pool e :
  status_code (claim_failed namespace name pool e) = Some (if StoreClaim.IsNoWarmCapacity e then 503 else 500)%Z.
Proof. unfold claim_failed. by destruct (StoreClaim.IsNoWarmCapacity e). Qed.

Section subresources.
Context {S : Type} (T : SandboxStore S) {Q : QuantityOps}.

(** One subresource on a resolved sandbox. *)
Lemma subresource_run sub sb obj (l : list store_call) st :
  let out := run_subresource (T := recorded_store T) sub sb obj (l, st) in
  if body_ok sub sb obj
  then ∃ c err, out.2.1 = l ++ [c] ∧ call_of_subresource sub sb obj c = Some err ∧ verb_answer err out.1
  else out.2.1 = l ∧ is_ok out.1 = false.
Proof.
  destruct sub; unfold run_subresource; cbv zeta.
  - autorewrite with store. cbn [fst snd]. eexists _, _. split; [done|]. simpl. rewrite decide_True by done.
    split; [done|]. apply verb_answer_map.
  - autorewrite with store. cbn [fst snd]. eexists _, _. split; [done|]. simpl. rewrite decide_True by done.
    split; [done|]. apply verb_answer_map.
  - destruct obj as [| | |count ttl| | | |]; try done. unfold z_or. simpl body_ok.
    set (n := if decide (count = 0%Z) then 1%Z else count).
    assert ((n < 0)%Z ↔ ¬ (0 ≤ count)%Z) as Hn by (unfold n; case_decide; lia).
    case_bool_decide as Hc; [rewrite decide_False by tauto|by rewrite decide_True by tauto].
    autorewrite with store. cbn [fst snd].
    eexists _, _. split; [done|]. simpl. fold n. rewrite !decide_True by done. split; [done|]. apply verb_answer_map.
  - destruct obj as [| | | | |name| |]; try done. simpl body_ok.
    destruct (CheckpointName (sb_Namespace sb) name) as [stamped|e] eqn:Hs; [|done]. simpl is_ok.
    assert (stamped = sb_Namespace sb +:+ "/" +:+ name) as ->.
    { unfold CheckpointName, StampedName in Hs. case_decide; [done|]. destruct (negb _); [done|]. by injection Hs as <-. }
    autorewrite with store. cbn [fst snd]. eexists _, _. split; [done|]. simpl. rewrite !decide_True by done.
    split; [done|]. apply verb_answer_map.
Qed.
End subresources.

Section properties.
Context {S : Type} (T : SandboxStore S) {Q : QuantityOps}.

(** C22: a lifecycle subresource acts on the named sandbox or on nothing: over a
    store that meets its contract, a dry run, a refused or unresolvable request, a
    sandbox without a node or a claim id, and a body it cannot use make no call;
    every other request makes exactly one, the verb's own, on the resolved
    sandbox's node and claim id, and succeeds exactly when it does.  A failed one
    keeps the code of a client error and is a 500 otherwise. *)
Theorem subresource_spec `{!StoreLaws S T} (sub : subresource) (namespace name : string) (dryRun : bool)
    (v : validate object) (obj : object) (l : list store_call) (st : S) :
  let '(r, (l', _)) := subresource_Create (T := recorded_store T) sub namespace name dryRun v obj (l, st) in
  match (Get namespace name st).1 with
  | Err e => l' = l ∧ is_ok r = false ∧ (dryRun = false → is_ok (admitted v obj) = true → r = Err e)
  | Ok sb =>
      sb_Namespace sb = namespace ∧ sb_Name sb = name ∧
      if dryRun || negb (is_ok (admitted v obj)) || bool_decide (sb_NodeName sb = "") || bool_decide (claimID sb = "")
         || negb (body_ok sub sb obj)
      then l' = l ∧ is_ok r = false
      else ∃ c err, l' = l ++ [c] ∧ call_of_subresource sub sb obj c = Some err ∧ verb_answer err r
  end.
Proof.
  unfold subresource_Create. pose proof (Get_named namespace name st) as Hnm.
  destruct dryRun; [simpl; destruct (Get namespace name st).1; [|done]; by destruct (Hnm _ eq_refl)|].
  destruct (admitted v obj) as [[]|e]; [|simpl; destruct (Get namespace name st).1; [|done]; by destruct (Hnm _ eq_refl)].
  unfold try. autorewrite with store. cbn [fst snd].
  destruct (Get namespace name st) as [[sb|e] st1]; cbn [fst snd]; [|done].
  destruct (Hnm _ eq_refl) as [Hns Hn]. clear Hnm. simpl is_ok. cbn [negb orb].
  case_decide as Hnode; [by rewrite bool_decide_eq_true_2|]. rewrite bool_decide_eq_false_2 by done.
  case_decide as Hid; [by rewrite bool_decide_eq_true_2|]. rewrite bool_decide_eq_false_2 by done. cbn [negb orb].
  pose proof (subresource_run T sub sb obj l st1) as Hrun. cbv zeta in Hrun.
  destruct (run_subresource (T := recorded_store T) sub sb obj (l, st1)) as [r [l' st2]]. simpl in Hrun.
  by destruct (body_ok sub sb obj).
Qed.
End properties.

(** ** Properties over the scatter-gather store *)

Section end_to_end.
Context {W : Type} {I : InventorySource W} (K : SandboxdClient W) {C : MetadataCodec} {SO : SelectorOps}.

(** One node call of a release through the store. *)
Lemma Release_logged s node id (l : list call) (w : W) :
  id ≠ "" →
  let out := StoreLifecycle.Release (K := recorded K) s node id (l, w) in
  match reachable_at s w node with
  | None => is_ok out.1 = false ∧ out.2 = (l, w)
  | Some addr => ∃ res, out.2.1 = l ++ [CallRelease addr (st_token s) id (st_token s) res] ∧ is_ok out.1 = is_ok res
  end.
Proof.
  intros Hid. unfold StoreLifecycle.Release. rewrite decide_False by done. rewrite on_node_run.
  change (nodeClient s (l, w) node "release" id) with (nodeClient s w node "release" id).
  pose proof (nodeClient_reachable s w node "release" id) as Hr.
  destruct (nodeClient s w node "release" id) as [addr|e]; rewrite Hr; [|done].
  exists (Client.Release addr (st_token s) id (st_token s) w).1.
  assert (Client.Release (SandboxdClient := recorded K) addr (st_token s) id (st_token s) (l, w) =
          ((Client.Release addr (st_token s) id (st_token s) w).1,
           (l ++ [CallRelease addr (st_token s) id (st_token s) (Client.Release addr (st_token s) id (st_token s) w).1],
            (Client.Release addr (st_token s) id (st_token s) w).2))) as -> by apply logging_run.
  split; [done|]. simpl. apply is_ok_map_err.
Qed.

(** C7: deleting a Sandbox destroys that sandbox and no other: through the store
    and down to the nodes, a Delete makes at most one release call, on the
    advertised address of the node of the sandbox resolved under the request's
    namespace and name and with that sandbox's own claim id, never by name; it
    reports the object deleted exactly when that release succeeded, so a sandbox
    whose node is unknown or unreachable is never reported released. *)
Theorem Delete_destroys `{!InertReads K} (s : store) (ord : order) (rnd : StoreClaim.rand) (namespace name : string)
    (dryRun : bool) (v : validate Api.Sandbox) (x : nodeIndex) (l : list call) (w : W) :
  let '(r, (_, (l', _))) :=
    Delete (T := scatterGatherStore (K := recorded K) s ord rnd) namespace name dryRun v (x, (l, w)) in
  match (StoreRead.Get (K := recorded K) s ord namespace name (x, (l, w))).1 with
  | Err e => l' = l ∧ is_ok r = false ∧ (dryRun = false → r = Err e)
  | Ok sb =>
      sb_Namespace sb = namespace ∧ sb_Name sb = name ∧
      match reachable_at s w (sb_NodeName sb) with
      | Some addr =>
          if dryRun || negb (is_ok (admitted v sb)) || bool_decide (claimID sb = "")
          then l' = l ∧ is_ok r = false
          else ∃ res, l' = l ++ [CallRelease addr (st_token s) (claimID sb) (st_token s) res] ∧
                 match res with Ok _ => r = Ok (sb, true) | Err _ => is_ok r = false end
      | None => l' = l ∧ is_ok r = false
      end
  end.
Proof.
  pose proof (Get_named (StoreLaws := scatterGatherStore_laws (K := recorded K) s ord rnd) namespace name (x, (l, w))) as Hnm.
  pose proof (Get_world (K := recorded K) s ord namespace name x (l, w)) as Hw.
  unfold Delete, try. change (Get (SandboxStore := scatterGatherStore s ord rnd)) with (StoreRead.Get (K := recorded K) s ord) in *.
  destruct dryRun.
  { destruct (StoreRead.Get s ord namespace name (x, (l, w))).1 as [sb|e]; [|done].
    destruct (Hnm sb eq_refl) as [Hns Hn]. by destruct (reachable_at s w (sb_NodeName sb)). }
  rewrite bind_run. destruct (StoreRead.Get s ord namespace name (x, (l, w))) as [[sb|e] [x1 [l1 w1]]]; simpl in *; [|simplify_eq; done].
  destruct (Hnm sb eq_refl) as [Hns Hn]. injection Hw as -> ->.
  destruct (admitted v sb) as [[]|e]; [|simpl; by destruct (reachable_at s w (sb_NodeName sb))]. simpl.
  case_decide as Hnode; [unfold reachable_at; by rewrite Hnode, bool_decide_eq_true_2, andb_false_r|].
  case_decide as Hid; [rewrite Hid; by destruct (reachable_at s w (sb_NodeName sb))|].
  rewrite (bool_decide_eq_false_2 _ Hid). rewrite bind_run. cbn [Release scatterGatherStore]. rewrite !on_world_run. cbn [fst snd].
  pose proof (Release_logged s (sb_NodeName sb) (claimID sb) l w Hid) as Hrel. cbv zeta in Hrel.
  destruct (StoreLifecycle.Release _ _ _ (l, w)) as [rr [l2 w2]]. simpl in *.
  destruct (reachable_at s w (sb_NodeName sb)) as [addr|].
  - destruct Hrel as (res & -> & Hok). split_and!; [done..|]. exists res. split; [done|]. by destruct res, rr.
  - destruct Hrel as [Hok [= -> ->]]. by destruct rr.
Qed.
End end_to_end.

Section agreement.
Context {Q : QuantityOps} {W : Type}.

(** what the driver provisions is what Create claims: a sandbox submitted with
    the pod template of the SandboxTemplate a warm pool names, and no network
    annotation of its own that differs, claims under the very key the driver sets
    for that pool, and a node's capacity under that key serves the claim. *)
Theorem pool_key_agreement (kb : kube) (p : SandboxWarmPool) (tmpl : SandboxTemplate) (sb : SandboxObject) :
  wp_TemplateRef p ≠ "" → kb_template kb (wp_Namespace p) (wp_TemplateRef p) = Ok tmpl →
  so_Containers sb = tm_Containers tmpl → so_PodAnnotations sb = tm_Annotations tmpl →
  (∀ net, sb_Annotations (so_obj sb) !! NetAnnotation = Some net → net = "" ∨ tm_Annotations tmpl !! NetAnnotation = Some net) →
  poolKey kb p = Ok (poolKeyForSandbox sb) ∧
  ∀ pc, capacity_key pc = poolKeyForSandbox sb → poolCapacityMatches pc (poolKeyForSandbox sb) = true.
Proof.
  intros Href Htm Hct Hpa Hnet. split.
  - unfold poolKey. rewrite decide_False by done. rewrite Htm. unfold poolKeyForSandbox. rewrite Hct, Hpa.
    do 2 f_equal. unfold NetForAnnotations. rewrite lookup_empty. simpl.
    destruct (sb_Annotations (so_obj sb) !! NetAnnotation) as [net|]; simpl.
    + destruct (Hnet net eq_refl) as [->|Hn]; [unfold str_or; by repeat case_decide|].
      rewrite Hn. simpl. unfold str_or. by repeat case_decide.
    + unfold str_or. by repeat case_decide.
  - intros pc Hk. unfold capacity_key in Hk. rewrite <-Hk. unfold poolCapacityMatches. simpl.
    by rewrite !bool_decide_eq_true_2.
Qed.
End agreement.

(** ** Witnesses *)

#[local] Existing Instance Static.source.
#[local] Existing Instance Static.laws.

Definition zero_draw : StoreClaim.rand := λ _ _, 0.

Lemma Delete_destroys_witness :
  let '(r, (_, (calls, _))) :=
    Delete (T := scatterGatherStore (K := Client.recorded sample_client) (C := toy_codec) (SO := toy_selectors) sample_store as_listed zero_draw)
      "team" "web" false None (sample_index, ([], sample_world)) in
  calls = [CallRelease "10.0.0.1:7000" "fleet" "sb_1" "fleet" (Ok tt)] ∧ is_ok r = true.
Proof.
  pose proof (Delete_destroys sample_client (C := toy_codec) (SO := toy_selectors) sample_store as_listed zero_draw "team" "web" false None
    sample_index [] sample_world) as H.
  vm_compute in H. vm_compute. destruct H as (_ & _ & res & Hl & Hr). destruct res as [[]|]; [|discriminate Hr].
  split; [exact Hl|reflexivity].
Defined.

Definition sample_object : @SandboxObject z_quantity :=
  @mkSandboxObject z_quantity
    (mkSandbox "" "web" ∅ ∅ "" zero_time "" [] []) "" "" (Some (90 * second + 1)%Z) {[ NetAnnotation := "egress" ]}
    [@mkContainer z_quantity "img" (@mkResourceList z_quantity None None) (@mkResourceList z_quantity None None)].
Definition sample_kube : @kube z_quantity :=
  @mkKube z_quantity (Ok []) (λ _ _, Ok (@mkTemplate z_quantity {[ NetAnnotation := "egress" ]} (so_Containers sample_object))).

Lemma pool_key_agreement_witness :
  poolKey sample_kube (sample_pool "p") = Ok (mkPoolKey "img" "egress" "small").
Proof.
  apply (pool_key_agreement (Q := z_quantity) sample_kube (sample_pool "p")
    (@mkTemplate z_quantity {[ NetAnnotation := "egress" ]} (so_Containers sample_object)) sample_object);
    [discriminate|reflexivity..|]. intros net Hn. vm_compute in Hn. discriminate Hn.
Defined.

Lemma subresource_spec_witness :
  let out := subresource_Create (Q := z_quantity)
    (T := recorded_store (scatterGatherStore (K := sample_client) (C := toy_codec) (SO := toy_selectors) sample_store as_listed zero_draw))
    SubPause "team" "web" false None OPauseOptions ([], (sample_index, sample_world)) in
  out.2.1 = [SCPause "n1" "sb_1" (Ok tt)] ∧ is_ok out.1 = true.
Proof.
  pose proof (subresource_spec (Q := z_quantity)
    (scatterGatherStore (K := sample_client) (C := toy_codec) (SO := toy_selectors) sample_store as_listed zero_draw)
    SubPause "team" "web" false None OPauseOptions [] (sample_index, sample_world)) as H.
  vm_compute in H. vm_compute. destruct H as (_ & _ & c & err & Hl & Hc & Ha). injection Hl as <-.
  vm_compute in Hc. injection Hc as <-. split; reflexivity.
Defined.
