(* ===== verification/ApiGroup.v ===== *)
(** * The sandboxes API group (pkg/scale/apiserver/apiserver.go, scheme.go, openapi.go and the plumbing of storage.go, lifecycle_storage.go)

    What the aggregated apiserver installs: a storage per resource with the verbs it
    implements, the types its scheme knows, and the OpenAPI models that the managed
    fields need.  The generic apiserver that routes requests to the storages, the
    scheme's index and the upstream API types are parameters. *)

From S2P Require Import Prelude GoStd GoNum Api NodeIndex PoolKeys SandboxView Inventory Client StoreRead StoreLifecycle Store WarmPool ApiServer.

(** ** Storages *)

Section storages.
Context {S : Type} {T : SandboxStore S} {Q : QuantityOps}.

(** What a Create reads from its surroundings. *)
Record create_inputs := mkCreateInputs {
  ci_generate : string → string;
  ci_uid : string;
  ci_now : time;
  ci_created : time;
}.

(** A request to a storage: a verb with the request's namespace. *)
Inductive request :=
| ReqList (namespace : string) (options : option RequestListOptions)
| ReqGet (namespace name : string)
| ReqWatch (namespace : string) (options : option RequestListOptions)
| ReqCreate (namespace : string) (i : create_inputs) (dryRun : bool) (v : validate object) (obj : object)
| ReqNamedCreate (namespace name : string) (dryRun : bool) (v : validate object) (obj : object)
| ReqDelete (namespace name : string) (dryRun : bool) (v : validate Api.Sandbox).

(** A watch is answered with the options it is opened on the store with. *)
Inductive response :=
| RespList (items : list Api.Sandbox)
| RespSandbox (sb : Api.Sandbox)
| RespWatch (opts : ListOptions)
| RespCreated (sb : SandboxObject)
| RespObject (obj : object)
| RespDeleted (sb : Api.Sandbox) (immediately : bool).

(** A storage: the type of its bodies, of its lists, and the verbs it implements. *)
Record Storage := mkStorage {
  sg_New : string;
  sg_NewList : option string;
  sg_NamespaceScoped : bool;
  sg_SingularName : option string;
  sg_serve : request → option (io S (result response));
}.

Definition answering {A} (m : io S (result A)) (f : A → response) : io S (result response) := r ← m; mret (fmap (M := result) f r).

(** [sandboxREST] over the store: Lister, Getter, Watcher, Creater and
    GracefulDeleter, and no updater, patcher or collection deleter. *)
Definition NewSandboxREST : Storage := mkStorage "Sandbox" (Some "SandboxList") true (Some "sandbox") (λ req,
  match req with
  | ReqList ns o => Some (answering (List (toScaleListOptions ns o)) RespList)
  | ReqGet ns name => Some (answering (Get ns name) RespSandbox)
  | ReqWatch ns o => Some (mret (Ok (RespWatch (toScaleListOptions ns o))))
  | ReqCreate ns i dry v obj => Some (answering (Create ns (ci_generate i) (ci_uid i) (ci_now i) (ci_created i) dry v obj) RespCreated)
  | ReqDelete ns name dry v => Some (answering (Delete ns name dry v) (λ d, RespDeleted d.1 d.2))
  | ReqNamedCreate _ _ _ _ _ => None
  end).

Definition subresource_body (sub : subresource) : string :=
  match sub with
  | SubPause => "SandboxPauseOptions"
  | SubResume => "SandboxResumeOptions"
  | SubFork => "SandboxForkOptions"
  | SubSnapshot => "SandboxSnapshotOptions"
  end.

(** [lifecycleREST]: a NamedCreater and nothing else. *)
Definition NewLifecycleREST (sub : subresource) : Storage := mkStorage (subresource_body sub) None true None (λ req,
  match req with
  | ReqNamedCreate ns name dry v obj => Some (answering (subresource_Create sub ns name dry v obj) RespObject)
  | _ => None
  end).

(** The storages of [InstallSandboxAPI], by resource. *)
Definition storages : list (string * Storage) :=
  [ ("sandboxes", NewSandboxREST);
    ("sandboxes/pause", NewLifecycleREST SubPause);
    ("sandboxes/resume", NewLifecycleREST SubResume);
    ("sandboxes/fork", NewLifecycleREST SubFork);
    ("sandboxes/snapshot", NewLifecycleREST SubSnapshot) ].
End storages.

(** ** The scheme *)

Abbreviation GroupVersion := (string * string)%type.

(** A type registered under a group and version, by its name. *)
Abbreviation registration := (GroupVersion * string)%type.

(** The machinery: upstream's group version and the types its AddToScheme and the
    meta groups register, the internal version, and the scheme's index. *)
Class Machinery := {
  sandbox_gv : GroupVersion;
  APIVersionInternal : string;
  upstream_types : list registration;
  meta_types : list registration;
  ObjectKinds (known : list registration) (type : string) : list registration;
}.

Section scheme.
Context {M : Machinery}.

Definition AddKnownTypes (gv : GroupVersion) (types : list string) : list registration := pair gv <$> types.

Definition lifecycle_types : list string :=
  [ "SandboxPauseOptions"; "SandboxResumeOptions"; "SandboxForkOptions"; "SandboxForkResult"; "SandboxSnapshotOptions"; "SandboxSnapshotResult" ].

Definition AddLifecycleToScheme : list registration := AddKnownTypes sandbox_gv lifecycle_types.

(** [Scheme], as what is registered on it, in order. *)
Definition Scheme : list registration :=
  let internal : GroupVersion := (sandbox_gv.1, APIVersionInternal) in
  upstream_types ++ AddLifecycleToScheme ++
  AddKnownTypes internal ["Sandbox"; "SandboxList"] ++ AddKnownTypes internal lifecycle_types ++ meta_types.

(** [lifecycleREST.GroupVersionKind], which indexes the kinds it finds. *)
Definition GroupVersionKind (sub : subresource) : result registration :=
  match ObjectKinds Scheme (subresource_body sub) with
  | k :: _ => Ok k
  | [] => Err (ErrPanic "index out of range")
  end.
End scheme.

(** ** OpenAPI models *)

Record GVK := mkGVK { gvk_group : string; gvk_version : string; gvk_kind : string }.

(** The parts of a schema the models use. *)
#[warnings="-automation"]
Inductive Schema :=
| mkSchema (type : option string) (preserve : bool) (gvk : list GVK) (properties : list (string * Schema)) (items : option Schema) (ref : option string).

Record OpenAPIDefinition := mkDefinition {
  od_Schema : Schema;
  od_Dependencies : list string;
}.

Section openapi.
Context {M : Machinery}.

Definition sandboxDefPrefix : string := "sigs.k8s.io/agent-sandbox/api/v1beta1.".

Definition gvkExtension (kind : string) : list GVK := [mkGVK sandbox_gv.1 sandbox_gv.2 kind].

Definition stringSchema : Schema := mkSchema (Some "string") false [] [] None None.
Definition preserveUnknownObject : Schema := mkSchema (Some "object") true [] [] None None.

(** [ref] renders a reference to the model of a name. *)
Definition sandboxOpenAPIDefinitions (ref : string → string) : list (string * OpenAPIDefinition) :=
  let object gvk props := mkSchema (Some "object") false gvk props None None in
  let type_meta := [("kind", stringSchema); ("apiVersion", stringSchema)] in
  let sandbox := mkDefinition (object (gvkExtension "Sandbox")
    (type_meta ++ [("metadata", preserveUnknownObject); ("spec", preserveUnknownObject); ("status", preserveUnknownObject)])) [] in
  let list := mkDefinition (object (gvkExtension "SandboxList")
    (type_meta ++ [("metadata", preserveUnknownObject);
                   ("items", mkSchema (Some "array") false [] [] (Some (mkSchema None false [] [] None (Some (ref (sandboxDefPrefix +:+ "Sandbox"))))) None)]))
    [sandboxDefPrefix +:+ "Sandbox"] in
  let typeMeta := mkDefinition (object [] type_meta) [] in
  [ (sandboxDefPrefix +:+ "Sandbox", sandbox);
    (sandboxDefPrefix +:+ "SandboxList", list);
    ("k8s.io/apimachinery/pkg/apis/meta/v1.TypeMeta", typeMeta);
    ("io.k8s.apimachinery.pkg.apis.meta.v1.TypeMeta", typeMeta) ].
End openapi.

(** ** Specification *)

(** The references of a schema. *)
Fixpoint refs (s : Schema) : list string :=
  let '(mkSchema _ _ _ props items r) := s in
  option_list r ++
  (fix go (l : list (string * Schema)) : list string := match l with [] => [] | (_, s) :: l => refs s ++ go l end) props ++
  match items with Some s => refs s | None => [] end.

(** The group, versions and kinds a schema is marked with. *)
Definition marks (s : Schema) : list GVK := let '(mkSchema _ _ gvk _ _ _) := s in gvk.

(** What the code relies on of the machinery: the scheme finds the kinds of a type in
    the order they were registered, upstream registers the two sandbox types once
    and none of this repository's, and neither do the meta groups. *)
Class MachineryLaws (M : Machinery) : Prop := {
  kinds_registered known type : ObjectKinds known type = List.filter (λ p, bool_decide (p.2 = type)) known;
  upstream_sandbox : (sandbox_gv, "Sandbox") ∈ upstream_types ∧ (sandbox_gv, "SandboxList") ∈ upstream_types;
  upstream_lifecycle gv type : type ∈ lifecycle_types → (gv, type) ∉ upstream_types;
}.

(** The changing call a request may make of a store in state [st]: on the sandbox its
    own name resolves to in its own namespace, or a claim in its namespace. *)
Definition addressed {S} (T : SandboxStore S) {Q : QuantityOps} (st : S) (req : request) (c : store_call) : Prop :=
  match req with
  | ReqList _ _ | ReqGet _ _ | ReqWatch _ _ => False
  | ReqCreate ns i _ _ obj => ∃ sb pool opts res, obj = OSandbox sb ∧
      c = SCClaim (str_or ns (sb_Namespace (so_obj sb))) (request_name (ci_generate i) sb) pool opts res
  | ReqDelete ns name _ _ => ∃ sb res, (Get ns name st).1 = Ok sb ∧ c = SCRelease (sb_NodeName sb) (claimID sb) res
  | ReqNamedCreate ns name _ _ obj => ∃ sb sub err, (Get ns name st).1 = Ok sb ∧ call_of_subresource sub sb obj c = Some err
  end.

(** ** Lemmas *)

Section surface.
Context {S : Type} (T : SandboxStore S) {Q : QuantityOps}.

(** One call at most, and an addressed one. *)
Definition surfaced {A} (req : request) (m : io (list store_call * S) A) : Prop := ∀ l st,
  (m (l, st)).2.1 = l ∨ ∃ c, (m (l, st)).2.1 = l ++ [c] ∧ addressed T st req c.

Lemma surfaced_ret {A} req (a : A) : surfaced req (mret a).
Proof. by left. Qed.

Lemma surfaced_silently {A} req (m : io S A) : surfaced req (silently m).
Proof. intros l st. rewrite silently_run. by left. Qed.

Lemma surfaced_answering {A} req (m : io (list store_call * S) (result A)) f : surfaced req m → surfaced req (answering m f).
Proof. intros Hm l st. unfold answering. rewrite bind_run. apply Hm. Qed.

Lemma Create_surfaced ns i dry v obj :
  surfaced (ReqCreate ns i dry v obj) (Create (T := recorded_store T) ns (ci_generate i) (ci_uid i) (ci_now i) (ci_created i) dry v obj).
Proof.
  intros l st. unfold Create. destruct dry; [by left|]. destruct obj as [sb| | | | | | |]; try by left.
  destruct (admitted _ _); [|by left]. cbv zeta. case_decide; [by left|].
  destruct (ttlSecondsForSandbox _ _); [|by left].
  rewrite bind_run. cbn [Claim recorded_store]. rewrite logging_run. right. eexists. split; [done|]. by eexists _, _, _, _.
Qed.

Lemma Delete_surfaced ns name dry v : surfaced (ReqDelete ns name dry v) (Delete (T := recorded_store T) ns name dry v).
Proof.
  intros l st. unfold Delete. destruct dry; [by left|]. unfold try. rewrite bind_run, recorded_Get. cbn [fst snd].
  destruct (Get ns name st).1 as [sb|e] eqn:Hsb; [|by left]. destruct (admitted _ _); [|by left]. cbv zeta.
  case_decide; [by left|]. case_decide; [by left|].
  rewrite bind_run. cbn [Release recorded_store]. rewrite logging_run. right. eexists. split; [done|]. by eexists _, _.
Qed.

Lemma subresource_surfaced sub ns name dry v obj :
  surfaced (ReqNamedCreate ns name dry v obj) (subresource_Create (T := recorded_store T) sub ns name dry v obj).
Proof.
  intros l st. unfold subresource_Create. destruct dry; [by left|]. destruct (admitted _ _); [|by left].
  unfold try. rewrite bind_run, recorded_Get. cbn [fst snd].
  destruct (Get ns name st).1 as [sb|e] eqn:Hsb; [|by left]. case_decide; [by left|]. case_decide; [by left|].
  pose proof (subresource_run T sub sb obj l (Get ns name st).2) as Hrun. cbv zeta in Hrun. destruct (body_ok sub sb obj).
  - destruct Hrun as (c & err & Hl & Hc & _). right. exists c. split; [done|]. by exists sb, sub, err.
  - left. apply Hrun.
Qed.

Lemma storage_surfaced resource stg req m : (resource, stg) ∈ storages (T := recorded_store T) → sg_serve stg req = Some m → surfaced req m.
Proof.
  assert (∀ sub, sg_serve (NewLifecycleREST (T := recorded_store T) sub) req = Some m → surfaced req m) as Hsub.
  { intros sub. destruct req; try done. intros [= <-]. apply surfaced_answering, subresource_surfaced. }
  unfold storages. rewrite !elem_of_cons. intros [[= _ ->]|[[= _ ->]|[[= _ ->]|[[= _ ->]|[[= _ ->]|?%not_elem_of_nil]]]]]; try apply Hsub; [|done].
  destruct req; try done; intros [= <-].
  - apply surfaced_answering, surfaced_silently.
  - apply surfaced_answering, surfaced_silently.
  - apply surfaced_ret.
  - apply surfaced_answering, Create_surfaced.
  - apply surfaced_answering, Delete_surfaced.
Qed.
End surface.

(** The kinds the scheme knows a type by start with the served one. *)
Lemma filter_head {A} (f : A → bool) (l1 l2 : list A) x : x ∈ l1 → f x = true → ∃ y rest, List.filter f (l1 ++ l2) = y :: rest ∧ y ∈ l1 ∧ f y = true.
Proof.
  induction l1 as [|y l1 IH]; [by intros ?%not_elem_of_nil|]. intros Hin Hx. cbn. destruct (f y) eqn:Hy.
  - eexists _, _. split; [done|]. split; [by left|done].
  - apply elem_of_cons in Hin as [->|Hin]; [congruence|]. destruct (IH Hin Hx) as (z & rest & -> & Hz & Hfz). exists z, rest. split_and!; [done|by right|done].
Qed.

Lemma filter_none {A} (f : A → bool) (l : list A) : (∀ x, x ∈ l → f x = false) → List.filter f l = [].
Proof. induction l as [|y l IH]; [done|]. intros Hf. cbn. rewrite (Hf y) by by left. apply IH. intros x Hx. apply Hf. by right. Qed.

(** ** Properties *)


(** the types of the group are known where they are served: each storage's bodies and
    lists are registered under the served and the internal version, and each
    subresource decodes its body as the served kind, never as the internal one. *)
Theorem kinds_served {M : Machinery} {L : MachineryLaws M} {S : Type} {T : SandboxStore S} {Q : QuantityOps} (resource : string)
    (stg : Storage (S := S)) (type : string) (sub : subresource) :
  ((resource, stg) ∈ storages → type = sg_New stg ∨ sg_NewList stg = Some type →
   (sandbox_gv, type) ∈ Scheme ∧ ((sandbox_gv.1, APIVersionInternal), type) ∈ Scheme) ∧
  GroupVersionKind sub = Ok (sandbox_gv, subresource_body sub).
Proof.
  assert (subresource_body sub ∈ lifecycle_types) as Hsub by by destruct sub; apply (bool_decide_eq_true_1 (_ ∈ _)).
  split.
  - assert (∀ type, type ∈ lifecycle_types → (sandbox_gv, type) ∈ Scheme ∧ ((sandbox_gv.1, APIVersionInternal), type) ∈ Scheme) as Hlife.
    { intros ty Hty. unfold Scheme, AddLifecycleToScheme, AddKnownTypes. rewrite !elem_of_app.
      split; [right; left|right; right; right; left]; by apply list_elem_of_fmap_2. }
    destruct upstream_sandbox as [Hsb Hlist].
    unfold storages. rewrite !elem_of_cons. intros [[= _ ->]|[[= _ ->]|[[= _ ->]|[[= _ ->]|[[= _ ->]|?%not_elem_of_nil]]]]] Hty; [|..|done];
      try (destruct Hty as [->|Hty]; [|done]; apply Hlife; by apply (bool_decide_eq_true_1 (_ ∈ _))).
    unfold Scheme, AddKnownTypes. rewrite !elem_of_app.
    destruct Hty as [->|[= <-]]; (split; [by left|right; right; left]); apply list_elem_of_fmap_2; by apply (bool_decide_eq_true_1 (_ ∈ _)).
  - unfold GroupVersionKind. rewrite kinds_registered. unfold Scheme. rewrite List.filter_app.
    rewrite (filter_none _ upstream_types) by
      (intros [gv ty] Hin; apply bool_decide_eq_false_2; cbn; intros ->; by apply (upstream_lifecycle gv _ Hsub)).
    lazymatch goal with |- context [List.filter ?f (?a ++ ?b)] =>
      destruct (filter_head f a b (sandbox_gv, subresource_body sub)) as ([gv ty] & rest & -> & Hin & Hty) end.
    + by apply list_elem_of_fmap_2.
    + by apply bool_decide_eq_true_2.
    + apply list_elem_of_fmap in Hin as (ty' & [= -> ->] & _). apply bool_decide_eq_true_1 in Hty. cbn in Hty. by subst.
Qed.

(** the models are closed: whatever way references are rendered, every reference of a
    model is to a model it declares as a dependency, every dependency is there, no
    name is taken twice, and the two sandbox kinds are each the mark of one model,
    the one the namer looks up. *)
Theorem openapi_closed {M : Machinery} (ref : string → string) (name : string) (d : OpenAPIDefinition) :
  let defs := sandboxOpenAPIDefinitions ref in
  NoDup defs.*1 ∧
  ((name, d) ∈ defs → (∀ r, r ∈ refs (od_Schema d) → ∃ dep, dep ∈ od_Dependencies d ∧ r = ref dep) ∧ (∀ dep, dep ∈ od_Dependencies d → dep ∈ defs.*1)) ∧
  ((name, d) ∈ defs → ∀ kind, mkGVK sandbox_gv.1 sandbox_gv.2 kind ∈ marks (od_Schema d) → name = sandboxDefPrefix +:+ kind) ∧
  (∀ kind, kind = "Sandbox" ∨ kind = "SandboxList" → ∃ d', (sandboxDefPrefix +:+ kind, d') ∈ defs ∧ marks (od_Schema d') = gvkExtension kind).
Proof.
  cbv zeta. split_and!.
  - apply (bool_decide_eq_true_1 (NoDup _)). vm_compute. reflexivity.
  - unfold sandboxOpenAPIDefinitions. rewrite !elem_of_cons. intros [[= -> ->]|[[= -> ->]|[[= -> ->]|[[= -> ->]|?%not_elem_of_nil]]]]; [..|done]; cbn;
      split; intros x Hx; try by apply not_elem_of_nil in Hx.
    + apply list_elem_of_singleton in Hx as ->. eexists. split; [apply list_elem_of_here|done].
    + apply list_elem_of_singleton in Hx as ->. apply list_elem_of_here.
  - unfold sandboxOpenAPIDefinitions. rewrite !elem_of_cons. intros [[= -> ->]|[[= -> ->]|[[= -> ->]|[[= -> ->]|?%not_elem_of_nil]]]] kind; [..|done]; cbn;
      try (by intros ?%not_elem_of_nil); by intros [= ->]%list_elem_of_singleton.
  - intros kind [->| ->]; eexists.
    + split; [apply list_elem_of_here|reflexivity].
    + split; [apply list_elem_of_further, list_elem_of_here|reflexivity].
Qed.

(** ** Witnesses *)

Definition toy_gv : GroupVersion := ("agents.x-k8s.io", "v1beta1").

#[local] Instance toy_machinery : Machinery := {|
  sandbox_gv := toy_gv;
  APIVersionInternal := "__internal";
  upstream_types := [(toy_gv, "Sandbox"); (toy_gv, "SandboxList")];
  meta_types := [((EmptyString, "v1"), "Status")];
  ObjectKinds known type := List.filter (λ p, bool_decide (p.2 = type)) known;
|}.

#[local] Instance toy_machinery_laws : MachineryLaws toy_machinery.
Proof.
  split.
  - done.
  - by split; apply (bool_decide_eq_true_1 (_ ∈ _)).
  - intros gv type Ht Hin. cbn in Hin. rewrite !elem_of_cons in Hin.
    destruct Hin as [[= _ ->]|[[= _ ->]|?%not_elem_of_nil]]; [| |done]; revert Ht; by apply (bool_decide_eq_true_1 (_ ∉ _)).
Qed.

#[local] Existing Instance Static.source.

(** A pause of a sandbox through the group's second storage. *)
Definition toy_store := scatterGatherStore (K := sample_client) (C := toy_codec) (SO := toy_selectors) sample_store as_listed zero_draw.
Definition pause_request : request := ReqNamedCreate "team" "web" false None (@OPauseOptions z_quantity).


Lemma kinds_served_witness : GroupVersionKind SubFork = Ok (toy_gv, "SandboxForkOptions") ∧ (toy_gv, "SandboxList") ∈ Scheme.
Proof.
  destruct (kinds_served (T := toy_store) (Q := z_quantity) "sandboxes" (NewSandboxREST (T := toy_store)) "SandboxList" SubFork) as [Ht Hk].
  split; [exact Hk|]. apply Ht; [apply list_elem_of_here|right; reflexivity].
Defined.

Lemma openapi_closed_witness :
  ∃ d, (sandboxDefPrefix +:+ "SandboxList", d) ∈ sandboxOpenAPIDefinitions (String.append "#/components/schemas/") ∧ marks (od_Schema d) = gvkExtension "SandboxList".
Proof.
  destruct (openapi_closed (String.append "#/components/schemas/") EmptyString (mkDefinition stringSchema [])) as (_ & _ & _ & Hm).
  apply Hm. right. reflexivity.
Defined.
