(* ===== verification/Memory.v ===== *)
(** * Go's memory, as far as aliasing matters

    Locations hold cells: an array behind a slice, a struct behind a pointer, a map.
    A value with pointers inside is read by [view], which gives the data it stands
    for, and touches the locations of [reach].  A routine [copies] when its result
    stands for the same data and touches only locations that were not there before;
    the routines the generated deep copies are made of do. *)

From S2P Require Import Prelude GoStd.

Abbreviation loc := positive.
Abbreviation memory C := (gmap loc C).

(** A cell that holds an [A]. *)
Class Boxed (C A : Type) := {
  box : A → C;
  unbox : C → option A;
  unbox_box a : unbox (box a) = Some a;
}.

(** The zero value of a type. *)
Class Zero (A : Type) := zero : A.

Section memory.
Context {C : Type}.

(** [new], a composite literal or [make]: the runtime picks a location that is free. *)
Definition alloc {A} `{Boxed C A} (a : A) : io (memory C) loc := λ h,
  let l := fresh (dom h) in (l, <[l := box a]> h).

(** A pointer of the language always points to an object of its type. *)
Definition at_loc {A} `{Boxed C A} `{Zero A} (l : loc) (h : memory C) : A := default zero (h !! l ≫= unbox).

Definition load {A} `{Boxed C A} `{Zero A} (l : loc) : io (memory C) A := gets (at_loc l).
Definition store {A} `{Boxed C A} (l : loc) (a : A) : io (memory C) unit := modify <[l := box a]>.
Definition update {A} `{Boxed C A} `{Zero A} (l : loc) (f : A → A) : io (memory C) unit := a ← load l; store l (f a).
End memory.

(** ** Values with pointers *)

(** [*A], [[]A] with its window on the array, and [map[string]string]. *)
Record ptr (A : Type) := Ptr { addr : option loc }.
Arguments Ptr {A} _.
Arguments addr {A} _.

Record window := mkWindow { wd_array : loc; wd_from : nat; wd_len : nat }.
Record slice (A : Type) := Slice { sl_window : option window }.
Arguments Slice {A} _.
Arguments sl_window {A} _.

Record gomap := GoMap { gm_map : option loc }.

#[export] Instance zero_ptr {A} : Zero (ptr A) := Ptr None.
#[export] Instance zero_slice {A} : Zero (slice A) := Slice None.
#[export] Instance zero_gomap : Zero gomap := GoMap None.
#[export] Instance zero_list {A} : Zero (list A) := [].
#[export] Instance zero_map {A} : Zero (gmap string A) := (∅ : gmap string A).
#[export] Instance zero_string : Zero string := EmptyString.
#[export] Instance zero_Z : Zero Z := 0%Z.

(** What a value stands for, and the locations it touches: these and only these. *)
Class Repr (C A V : Type) := {
  view : memory C → A → option V;
  reach : memory C → A → gset loc;
}.

Class ReprLaws (C A V : Type) `{Repr C A V} := {
  view_frame h h' a v : view h a = Some v → (∀ l, l ∈ reach h a → h' !! l = h !! l) → view h' a = Some v ∧ reach h' a = reach h a;
  reach_live h a v : view h a = Some v → reach h a ⊆ dom h;
}.

#[export] Hint Mode Repr - ! - : typeclass_instances.

(** A value without pointers. *)
Definition plain_repr {C A} : Repr C A A := {| view _ := Some; reach _ _ := ∅ |}.

Section reprs.
Context {C A V : Type} {R : Repr C A V}.

#[export] Instance ptr_repr `{Boxed C A} : Repr C (ptr A) (option V) := {|
  view h p := match addr p with None => Some None | Some l => a ← h !! l ≫= unbox; Some <$> view h a end;
  reach h p := match addr p with None => ∅ | Some l => {[l]} ∪ match h !! l ≫= unbox with Some a => reach h a | None => ∅ end end;
|}.

(** The elements a slice shows; [None] when its window leaves the array. *)
Definition elements `{Boxed C (list A)} (h : memory C) (s : slice A) : option (list A) :=
  match sl_window s with
  | None => Some []
  | Some w =>
      arr ← h !! wd_array w ≫= unbox;
      if decide (wd_from w + wd_len w ≤ length arr) then Some (take (wd_len w) (drop (wd_from w) arr)) else None
  end.

#[export] Instance slice_repr `{Boxed C (list A)} : Repr C (slice A) (list V) := {|
  view h s := es ← elements h s; mapM (view h) es;
  reach h s := match sl_window s with None => ∅ | Some w => {[wd_array w]} end ∪ ⋃ (reach h <$> default [] (elements h s));
|}.
End reprs.

#[export] Instance gomap_repr {C} `{Boxed C (gmap string string)} : Repr C gomap (gmap string string) := {|
  view h m := match gm_map m with None => Some ∅ | Some l => h !! l ≫= unbox end;
  reach h m := match gm_map m with None => ∅ | Some l => {[l]} end;
|}.

(** Two values side by side, and a struct read through its fields with pointers. *)
Definition pair_repr {C A B V W} `{Repr C A V} `{Repr C B W} : Repr C (A * B) (V * W) := {|
  view h p := v ← view h p.1; w ← view h p.2; Some (v, w);
  reach h p := reach h p.1 ∪ reach h p.2;
|}.
Definition via_repr {C A B V W} `{Repr C B W} (fields : A → B) (whole : A → W → V) : Repr C A V := {|
  view h a := whole a <$> view h (fields a);
  reach h a := reach h (fields a);
|}.

(** ** Copying *)

Section copying.
Context {C : Type}.

(** [out.X = in.X.DeepCopy()] behind [if in.X != nil]: a fresh cell with a copy. *)
Definition copy_ptr {A} `{Boxed C A} `{Zero A} (cp : A → io (memory C) A) (p : ptr A) : io (memory C) (ptr A) :=
  match addr p with
  | None => mret (Ptr None)
  | Some l =>
      i ← load l;
      out ← alloc zero;
      o ← cp i;
      _ ← store out o;
      mret (Ptr (Some out))
  end.

(** [for i := range in.X { in.X[i].DeepCopyInto(&out.X[i]) }], from [i] on. *)
Fixpoint copy_from {A} `{Boxed C (list A)} `{Zero A} (cp : A → io (memory C) A) (w : window) (out : loc) (i n : nat) : io (memory C) unit :=
  match n with
  | 0 => mret tt
  | S n =>
      arr ← load (wd_array w);
      o ← cp (default zero (arr !! (wd_from w + i)));
      _ ← update out <[i := o]>;
      copy_from cp w out (S i) n
  end.

(** [out.X = make([]T, len(in.X))] and that loop. *)
Definition copy_slice {A} `{Boxed C (list A)} `{Zero A} (cp : A → io (memory C) A) (s : slice A) : io (memory C) (slice A) :=
  match sl_window s with
  | None => mret (Slice None)
  | Some w =>
      out ← alloc (replicate (wd_len w) zero);
      _ ← copy_from cp w out 0 (wd_len w);
      mret (Slice (Some (mkWindow out 0 (wd_len w))))
  end.

(** [make] and [copy], or [slices.Clone]: the elements, as they are. *)
Definition clone_slice {A} `{Boxed C (list A)} `{Zero A} (s : slice A) : io (memory C) (slice A) :=
  match sl_window s with
  | None => mret (Slice None)
  | Some w =>
      arr ← load (wd_array w);
      out ← alloc (take (wd_len w) (drop (wd_from w) arr));
      mret (Slice (Some (mkWindow out 0 (wd_len w))))
  end.

(** [make(map[string]string)] and [out.X[key] = val] for each pair. *)
Fixpoint insert_all `{Boxed C (gmap string string)} (out : loc) (kvs : list (string * string)) : io (memory C) unit :=
  match kvs with
  | [] => mret tt
  | (k, v) :: kvs => _ ← update out <[k := v]>; insert_all out kvs
  end.
Definition copy_map `{Boxed C (gmap string string)} (m : gomap) : io (memory C) gomap :=
  match gm_map m with
  | None => mret (GoMap None)
  | Some l =>
      kvs ← load l;
      out ← alloc (∅ : gmap string string);
      _ ← insert_all out (map_to_list kvs);
      mret (GoMap (Some out))
  end.
End copying.

(** A deep copy: the same data, the old memory as it was, and nothing shared with it. *)
Definition copies {C A V} `{Repr C A V} (cp : A → io (memory C) A) : Prop := ∀ h a v,
  view h a = Some v → view (cp a h).2 (cp a h).1 = Some v ∧ h ⊆ (cp a h).2 ∧ reach (cp a h).2 (cp a h).1 ## dom h.

(** ** Lemmas *)

Section lemmas.
Context {C : Type}.
Implicit Types h : memory C.

Lemma agree_subset {A V} `{ReprLaws C A V} h h' (a : A) (v : V) : view h a = Some v → h ⊆ h' → view h' a = Some v ∧ reach h' a = reach h a.
Proof.
  intros Hv Hh. apply (view_frame h h' a v); [done|]. intros l Hl.
  pose proof (reach_live h a v Hv l Hl) as [c Hc]%elem_of_dom. rewrite Hc. by eapply lookup_weaken.
Qed.

Lemma alloc_run {A} `{Boxed C A} (a : A) h : ∃ l, (l ∉ dom h) ∧ alloc a h = (l, <[l := box a]> h).
Proof. exists (fresh (dom h)). split; [apply is_fresh|done]. Qed.

Lemma insert_fresh_subset (l : loc) c h h' : l ∉ dom h → h ⊆ h' → h ⊆ <[l := c]> h'.
Proof. intros Hl Hh. apply insert_subseteq_r; [by apply not_elem_of_dom|done]. Qed.

Lemma at_loc_box {A} `{Boxed C A} `{Zero A} l h (a : A) : h !! l ≫= unbox = Some a → at_loc l h = a.
Proof. unfold at_loc. by intros ->. Qed.

Lemma at_loc_insert {A} `{Boxed C A} `{Zero A} l h (a : A) : at_loc l (<[l := box a]> h) = a.
Proof. apply at_loc_box. by rewrite lookup_insert_eq; simpl; rewrite unbox_box. Qed.

(** Values without pointers. *)
Lemma plain_laws {A} : @ReprLaws C A A plain_repr.
Proof. split; [done|]. simpl. set_solver. Qed.

#[export] Instance gomap_laws `{Boxed C (gmap string string)} : ReprLaws C gomap (gmap string string).
Proof.
  split.
  - intros h h' [[l|]] v Hv Hl; simpl in *; [|done]. rewrite Hl by set_solver. done.
  - intros h [[l|]] v Hv; simpl in *; [|set_solver]. destruct (h !! l) eqn:Hl; [|done].
    apply singleton_subseteq_l. by apply elem_of_dom_2 in Hl.
Qed.

Section laws.
Context {A V : Type} `{ReprLaws C A V}.

#[export] Instance ptr_laws `{Boxed C A} : ReprLaws C (ptr A) (option V).
Proof.
  split.
  - intros h h' [[l|]] v Hv Hl; simpl in *; [|done]. rewrite (Hl l) by set_solver.
    destruct (h !! l ≫= unbox) as [a|]; simpl in *; [|done]. destruct (view h a) as [x|] eqn:Hx; [|done].
    destruct (view_frame h h' a x Hx) as [-> ->]; [intros l' Hl'; apply Hl; set_solver|done].
  - intros h [[l|]] v Hv; simpl in *; [|set_solver].
    destruct (h !! l) as [c|] eqn:Hl; simpl in *; [|done]. destruct (unbox c) as [a|]; simpl in *; [|done].
    destruct (view h a) as [x|] eqn:Hx; [|done]. apply union_subseteq. split; [|by eapply reach_live].
    apply singleton_subseteq_l. by apply elem_of_dom_2 in Hl.
Qed.

Lemma views_frame h h' (es : list A) (vs : list V) : mapM (view h) es = Some vs → (∀ l, l ∈ ⋃ (reach h <$> es) → h' !! l = h !! l) →
  mapM (view h') es = Some vs ∧ reach h' <$> es = reach h <$> es.
Proof.
  revert vs. induction es as [|e es IH]; intros vs Hv Hl; [done|]. cbn [mapM] in Hv. csimpl in Hl.
  destruct (view h e) as [x|] eqn:Hx; [|done]. simpl in Hv. destruct (mapM (view h) es) as [xs|] eqn:Hxs; [|done]. injection Hv as <-.
  destruct (view_frame h h' e x Hx) as [Hx' Hr]; [intros l Hl'; apply Hl; set_solver|].
  destruct (IH xs eq_refl) as [Hxs' Hrs]; [intros l Hl'; apply Hl; set_solver|].
  rewrite !fmap_cons, Hr, Hrs. split; [|done]. cbn [mapM]. rewrite Hx'. cbn. by rewrite Hxs'.
Qed.

Lemma views_live h (es : list A) (vs : list V) : mapM (view h) es = Some vs → ⋃ (reach h <$> es) ⊆ dom h.
Proof.
  revert vs. induction es as [|e es IH]; intros vs Hv; csimpl; [set_solver|]. cbn [mapM] in Hv.
  destruct (view h e) as [x|] eqn:Hx; [|done]. simpl in Hv. destruct (mapM (view h) es) as [xs|] eqn:Hxs; [|done].
  apply union_subseteq. split; [by eapply reach_live|by eapply IH].
Qed.

Lemma elements_frame `{Boxed C (list A)} h h' (s : slice A) :
  (∀ l, l ∈ (match sl_window s with None => ∅ | Some w => {[wd_array w]} end : gset loc) → h' !! l = h !! l) → elements h' s = elements h s.
Proof. intros Hl. unfold elements. destruct (sl_window s) as [w|]; [|done]. by rewrite Hl by set_solver. Qed.

#[export] Instance slice_laws `{Boxed C (list A)} : ReprLaws C (slice A) (list V).
Proof.
  split.
  - intros h h' s v Hv Hl. simpl in *. rewrite (elements_frame h h' s) by (intros l Hl'; apply Hl; set_solver).
    destruct (elements h s) as [es|]; simpl in *; [|done].
    destruct (views_frame h h' es v Hv) as [-> ->]; [intros l Hl'; apply Hl; set_solver|done].
  - intros h s v Hv. simpl in *. destruct (elements h s) as [es|] eqn:He; simpl in *; [|done].
    apply union_subseteq. split; [|by eapply views_live]. unfold elements in He. destruct (sl_window s) as [w|]; [|set_solver].
    destruct (h !! wd_array w) eqn:Hw; simpl in He; [|done]. apply singleton_subseteq_l. by apply elem_of_dom_2 in Hw.
Qed.
End laws.

Lemma pair_laws {A B V W} `{ReprLaws C A V} `{ReprLaws C B W} : @ReprLaws C (A * B) (V * W) pair_repr.
Proof.
  split.
  - intros h h' [a b] x Hx Hl. simpl in *. destruct (view h a) as [v|] eqn:Hv; [|done]. destruct (view h b) as [w|] eqn:Hw; [|done].
    destruct (view_frame h h' a v Hv) as [-> ->]; [intros; apply Hl; set_solver|].
    by destruct (view_frame h h' b w Hw) as [-> ->]; [intros; apply Hl; set_solver|].
  - intros h [a b] x Hx. simpl in *. destruct (view h a) as [v|] eqn:Hv; [|done]. destruct (view h b) as [w|] eqn:Hw; [|done].
    apply union_subseteq. split; by eapply reach_live.
Qed.

Lemma via_laws {A B V W} `{ReprLaws C B W} (fields : A → B) (whole : A → W → V) : @ReprLaws C A V (via_repr fields whole).
Proof.
  split.
  - intros h h' a x Hx Hl. simpl in *. destruct (view h (fields a)) as [w|] eqn:Hw; [|done].
    by destruct (view_frame h h' (fields a) w Hw) as [-> ->].
  - intros h a x Hx. simpl in *. destruct (view h (fields a)) as [w|] eqn:Hw; [|done]. by eapply reach_live.
Qed.

(** ** What copies *)

(** One more step of a routine: a part is copied in a memory that has grown. *)
Lemma copies_grown {A V} `{ReprLaws C A V} cp h0 h (a : A) (v : V) : copies cp → view h0 a = Some v → h0 ⊆ h →
  ∃ a' h', cp a h = (a', h') ∧ view h' a' = Some v ∧ h ⊆ h' ∧ reach h' a' ## dom h.
Proof.
  intros Hcp Hv Hh. destruct (agree_subset h0 h a v Hv Hh) as [Hv' _]. specialize (Hcp h a v Hv').
  destruct (cp a h) as [a' h']. by exists a', h'.
Qed.

Lemma copies_ext {A V} `{Repr C A V} (cp cp' : A → io (memory C) A) : copies (V := V) cp → (∀ a h, cp' a h = cp a h) → copies (V := V) cp'.
Proof. intros Hcp Heq h a v Hv. rewrite !Heq. by apply Hcp. Qed.

Lemma copies_pair {A B V W} `{ReprLaws C A V} `{ReprLaws C B W} (cp : A → io (memory C) A) (cq : B → io (memory C) B) :
  copies (V := V) cp → copies (V := W) cq → copies (H := pair_repr) (V := V * W) (λ p, a ← cp p.1; b ← cq p.2; mret (a, b)).
Proof.
  intros Hcp Hcq h [a b] x Hx. simpl in Hx. destruct (view h a) as [v|] eqn:Hv; [|done]. destruct (view h b) as [w|] eqn:Hw; [|done].
  injection Hx as <-. rewrite bind_run. cbn [fst snd]. destruct (Hcp h a v Hv) as (Hv1 & Hh1 & Hr1). destruct (cp a h) as [a' h1]. cbn [fst snd] in *.
  rewrite bind_run. destruct (copies_grown cq h h1 b w Hcq Hw Hh1) as (b' & h2 & -> & Hw2 & Hh2 & Hr2). cbn [fst snd mret io_ret].
  destruct (agree_subset h1 h2 a' v Hv1 Hh2) as [Hv2 Hra]. cbn. rewrite Hv2, Hw2, Hra. split_and!; [done|by etrans|].
  apply subseteq_dom in Hh1. set_solver.
Qed.

Lemma copies_via {A B V W} `{Repr C B W} (fields : A → B) (whole : A → W → V) (set : A → B → A) (cp : B → io (memory C) B) :
  copies (V := W) cp → (∀ a b, fields (set a b) = b) → (∀ a b w, whole (set a b) w = whole a w) →
  copies (H := via_repr fields whole) (λ a, b ← cp (fields a); mret (set a b)).
Proof.
  intros Hcp Hf Hw h a v Hv. simpl in Hv. destruct (view h (fields a)) as [w|] eqn:Hvw; [|done]. injection Hv as <-.
  rewrite bind_run. cbn. destruct (Hcp h (fields a) w Hvw) as (Hv' & Hh & Hr). rewrite Hf, Hv'. cbn. by rewrite Hw.
Qed.

Lemma copies_mret {A} : copies (H := plain_repr) (C := C) (mret : A → io _ A).
Proof. intros h a v Hv. split_and!; [done|done|apply disjoint_empty_l]. Qed.

(** What stays readable and apart when memory grows, or is written at [out]. *)
Definition apart (h0 : memory C) (out : loc) {A V} `{Repr C A V} (h : memory C) (a : A) (v : V) : Prop :=
  view h a = Some v ∧ reach h a ## dom h0 ∧ out ∉ reach h a.

Lemma apart_grown {A V} `{ReprLaws C A V} h0 out h h' (a : A) (v : V) : apart h0 out h a v → h ⊆ h' → apart h0 out h' a v.
Proof. intros (Hv & Hr & Ho) Hh. unfold apart. by destruct (agree_subset h h' a v Hv Hh) as [-> ->]. Qed.

Lemma apart_written {A V} `{ReprLaws C A V} h0 out c h (a : A) (v : V) : apart h0 out h a v → apart h0 out (<[out := c]> h) a v.
Proof.
  intros (Hv & Hr & Ho). unfold apart. destruct (view_frame h (<[out := c]> h) a v Hv) as [-> ->]; [|done].
  intros l Hl. apply lookup_insert_ne. set_solver.
Qed.

Lemma insert_all_run `{Boxed C (gmap string string)} out kvs h (m : gmap string string) :
  insert_all out kvs (<[out := box m]> h) = (tt, <[out := box (foldl (λ m kv, <[kv.1 := kv.2]> m) m kvs)]> h).
Proof.
  revert m. induction kvs as [|[k v] kvs IH]; intros m; [done|]. cbn [insert_all]. rewrite bind_run.
  unfold update. rewrite bind_run. unfold load, gets, store, modify. cbn [fst snd]. rewrite at_loc_insert, insert_insert_eq. apply IH.
Qed.

Lemma foldl_insert_map (m : gmap string string) : foldl (λ m kv, <[kv.1 := kv.2]> m) ∅ (map_to_list m) = m.
Proof.
  apply map_eq. intros k. rewrite <- (list_to_map_to_list m) at 2.
  assert (NoDup (map_to_list m).*1) as Hnd by apply NoDup_fst_map_to_list. revert Hnd. generalize (map_to_list m). intros kvs Hnd.
  assert (∀ acc : gmap string string, (∀ k, k ∈ kvs.*1 → acc !! k = None) →
    foldl (λ m kv, <[kv.1 := kv.2]> m) acc kvs !! k = ((list_to_map kvs : gmap string string) ∪ acc) !! k) as Hgen; [|rewrite Hgen; [by rewrite (right_id_L ∅ (∪))|done]].
  induction kvs as [|[x y] kvs IH]; intros acc Hacc; [cbn; by rewrite (left_id_L ∅ (∪))|]. rewrite fmap_cons in Hnd, Hacc. cbn [fst] in *. apply NoDup_cons in Hnd as [Hx Hnd]. cbn [foldl].
  rewrite IH; [|done|].
  - rewrite list_to_map_cons. rewrite !lookup_union. destruct (decide (k = x)) as [->|Hk].
    + rewrite !lookup_insert_eq. rewrite not_elem_of_list_to_map_1 by done. by rewrite (Hacc x) by set_solver.
    + by rewrite !lookup_insert_ne.
  - intros k' Hk'. rewrite lookup_insert_ne by set_solver. apply Hacc. set_solver.
Qed.

Lemma copies_map `{Boxed C (gmap string string)} : copies (C := C) copy_map.
Proof.
  intros h [[l|]] m Hm; simpl in *; [|split_and!; [done|done|apply disjoint_empty_l]].
  unfold copy_map; cbn [gm_map]. rewrite bind_run. unfold load, gets. cbn [fst snd]. rewrite (at_loc_box l h m Hm).
  rewrite bind_run. destruct (alloc_run (∅ : gmap string string) h) as (out & Hout & ->). cbn [fst snd]. rewrite bind_run.
  rewrite insert_all_run. cbn [fst snd mret io_ret gm_map].
  rewrite foldl_insert_map, lookup_insert_eq. cbn. rewrite unbox_box. split_and!; [done|by apply insert_fresh_subset|set_solver].
Qed.

Section parts.
Context {A V : Type} `{ReprLaws C A V} `{!Zero A}.

Lemma copies_ptr `{Boxed C A} cp : copies (A := A) (V := V) cp → copies (copy_ptr cp).
Proof.
  intros Hcp h [[l|]] v Hv; [|split_and!; [done|done|apply disjoint_empty_l]]. simpl in Hv.
  destruct (h !! l ≫= unbox) as [a|] eqn:Ha; [|done]. simpl in Hv. destruct (view h a) as [x|] eqn:Hx; [|done]. injection Hv as <-.
  unfold copy_ptr; cbn [addr]. rewrite bind_run. unfold load, gets. cbn [fst snd]. rewrite (at_loc_box l h a Ha).
  rewrite bind_run. destruct (alloc_run (zero : A) h) as (out & Hout & ->). cbn [fst snd]. rewrite bind_run.
  destruct (copies_grown cp h (<[out := box zero]> h) a x Hcp Hx) as (a' & h' & -> & Hv' & Hh & Hr); [by apply insert_fresh_subset|].
  cbn [fst snd]. rewrite bind_run. unfold store, modify. cbn [fst snd mret io_ret].
  destruct (apart_written h out (box a') h' a' x) as (Hw & Hwr & Hwo); [split; [done|set_solver]|].
  assert (h ⊆ <[out := box a']> h') as Hsub by (apply insert_fresh_subset; [done|]; etrans; [|exact Hh]; by apply insert_fresh_subset).
  cbn [view reach ptr_repr addr]. rewrite lookup_insert_eq. cbn. rewrite unbox_box. cbn. rewrite Hw. split_and!; [done|done|set_solver].
Qed.

Lemma elements_Some `{Boxed C (list A)} h (s : slice A) w es : sl_window s = Some w → elements h s = Some es →
  ∃ arr, h !! wd_array w ≫= unbox = Some arr ∧ es = take (wd_len w) (drop (wd_from w) arr) ∧ length es = wd_len w.
Proof.
  intros Hw. unfold elements. rewrite Hw. destruct (h !! wd_array w ≫= unbox) as [arr|]; [|done]. cbn.
  destruct (decide _); [|done]. intros [= <-]. exists arr. split_and!; [done|done|]. rewrite length_take, length_drop. lia.
Qed.

Lemma copy_from_run `{Boxed C (list A)} cp h0 (s : slice A) w out es (vs : list V) : copies (A := A) (V := V) cp →
  sl_window s = Some w → elements h0 s = Some es → mapM (view h0) es = Some vs → out ∉ dom h0 →
  ∀ n i h (done : list A), i + n = wd_len w → h0 ⊆ h → h !! out = Some (box done) → length done = wd_len w →
  Forall2 (apart h0 out h) (take i done) (take i vs) →
  ∃ h' done', copy_from cp w out i n h = (tt, h') ∧ h0 ⊆ h' ∧ h' !! out = Some (box done') ∧ length done' = wd_len w ∧ Forall2 (apart h0 out h') done' vs.
Proof.
  intros Hcp Hw Hes Hvs Hout. destruct (elements_Some h0 s w es Hw Hes) as (arr & Harr & He & Hlen).
  apply mapM_Some in Hvs. pose proof (Forall2_length _ _ _ Hvs) as Hlv.
  induction n as [|n IH]; intros i h dn Hin Hh Ho Hd Hap.
  - exists h, dn. split_and!; [done|done|done|done|]. rewrite !take_ge in Hap by lia. done.
  - cbn [copy_from]. rewrite bind_run. unfold load, gets. cbn [fst snd].
    destruct (lookup_lt_is_Some_2 es i) as [e Hei]; [lia|]. destruct (lookup_lt_is_Some_2 vs i) as [v Hvi]; [lia|].
    rewrite (at_loc_box (wd_array w) h arr).
    2: { destruct (h0 !! wd_array w) eqn:Hl; [|done]. by rewrite (lookup_weaken _ _ _ _ Hl Hh). }
    assert (arr !! (wd_from w + i) = Some e) as Hae.
    { rewrite He, lookup_take, lookup_drop in Hei. by case_decide. }
    rewrite Hae. cbn [default from_option id]. rewrite bind_run.
    pose proof (Forall2_lookup_lr _ _ _ _ _ _ Hvs Hei Hvi) as Hev. cbn in Hev.
    destruct (copies_grown cp h0 h e v Hcp Hev Hh) as (e' & h1 & -> & Hv1 & Hh1 & Hr1). cbn [fst snd].
    rewrite bind_run. unfold update. rewrite bind_run. unfold load, gets, store, modify. cbn [fst snd].
    assert (h1 !! out = Some (box dn)) as Ho1 by by eapply lookup_weaken.
    rewrite (at_loc_box out h1 dn) by (rewrite Ho1; cbn; by rewrite unbox_box).
    destruct (IH (S i) (<[out := box (<[i := e']> dn)]> h1) (<[i := e']> dn)) as (h' & dn' & Hrun & Hh' & Ho' & Hd' & Hap'); [lia|..].
    + apply insert_fresh_subset; [done|]. by etrans.
    + apply lookup_insert_eq.
    + by rewrite length_insert.
    + rewrite (take_S_r _ _ e') by (apply list_lookup_insert_eq; lia). rewrite (take_S_r vs i v) by done.
      rewrite take_insert_ge by lia. apply Forall2_app.
      * eapply Forall2_impl; [exact Hap|]. intros a x Hax. apply apart_written. by eapply apart_grown.
      * constructor; [|constructor]. apply apart_written. split; [done|]. apply elem_of_dom_2 in Ho. apply subseteq_dom in Hh. set_solver.
    + by exists h', dn'.
Qed.

Lemma whole_slice `{Boxed C (list A)} h out (done : list A) : h !! out = Some (box done) →
  elements h (Slice (Some (mkWindow out 0 (length done)))) = Some done.
Proof. intros Ho. unfold elements. cbn. rewrite Ho. cbn. rewrite unbox_box. cbn. rewrite decide_True by lia. by rewrite drop_0, firstn_all. Qed.

Lemma copies_slice `{Boxed C (list A)} cp : copies (A := A) (V := V) cp → copies (copy_slice cp).
Proof.
  intros Hcp h s vs Hv. unfold copy_slice. destruct (sl_window s) as [w|] eqn:Hw.
  2: { simpl in *. unfold elements in *. rewrite Hw in Hv. split_and!; [done|done|]. cbn. set_solver. }
  cbn [view slice_repr] in Hv. destruct (elements h s) as [es|] eqn:Hes; [|done]. cbn in Hv.
  rewrite bind_run. destruct (alloc_run (replicate (wd_len w) (zero : A)) h) as (out & Hout & ->). cbn [fst snd]. rewrite bind_run.
  destruct (copy_from_run cp h s w out es vs Hcp Hw Hes Hv Hout (wd_len w) 0 (<[out := box (replicate (wd_len w) zero)]> h) (replicate (wd_len w) zero))
    as (h' & dn & -> & Hh' & Ho & Hl & Hap); [done|by apply insert_fresh_subset|by rewrite lookup_insert_eq|by rewrite length_replicate|constructor|].
  cbn [fst snd mret io_ret]. cbn [view reach slice_repr sl_window wd_array]. rewrite <- Hl, (whole_slice h' out dn Ho). cbn. split_and!; [|done|].
  - apply mapM_Some. eapply Forall2_impl; [exact Hap|]. by intros a v (Hv' & _).
  - apply disjoint_union_l. split; [set_solver|]. clear -Hap. induction Hap as [|a v dn vs (_ & Hr & _) _ IH]; csimpl; set_solver.
Qed.
End parts.

(** A clone shows what the slice shows, on an array of its own; what the elements
    point to is shared. *)
Lemma clone_slice_run {A V} `{ReprLaws C A V} `{Boxed C (list A)} `{!Zero A} h (s : slice A) (vs : list V) : view h s = Some vs →
  view (clone_slice s h).2 (clone_slice s h).1 = Some vs ∧ h ⊆ (clone_slice s h).2 ∧
  (∀ l, l ∈ reach (clone_slice s h).2 (clone_slice s h).1 → l ∉ dom h ∨ l ∈ ⋃ (reach h <$> default [] (elements h s))).
Proof.
  intros Hv. unfold clone_slice. destruct (sl_window s) as [w|] eqn:Hw.
  2: { simpl in *. unfold elements in *. rewrite Hw in Hv. split_and!; [done|done|]. cbn. set_solver. }
  cbn [view slice_repr] in Hv. destruct (elements h s) as [es|] eqn:Hes; [|done]. cbn in Hv.
  destruct (elements_Some h s w es Hw Hes) as (arr & Harr & He & Hlen).
  rewrite bind_run. unfold load, gets. cbn [fst snd]. rewrite (at_loc_box _ h arr Harr). rewrite bind_run, <- He.
  destruct (alloc_run es h) as (out & Hout & ->). cbn [fst snd mret io_ret]. cbn [view reach slice_repr sl_window wd_array].
  rewrite <- Hlen, (whole_slice _ out es) by apply lookup_insert_eq. cbn.
  destruct (views_frame h (<[out := box es]> h) es vs Hv) as [Hv' ->].
  { intros l Hl. apply lookup_insert_ne. pose proof (views_live h es vs Hv l Hl). set_solver. }
  split_and!; [done|by apply insert_fresh_subset|]. intros l [->%elem_of_singleton|Hl]%elem_of_union; [by left|by right].
Qed.

Lemma copies_clone {A} `{Boxed C (list A)} `{!Zero A} : copies (H := slice_repr (R := plain_repr (A := A))) (C := C) clone_slice.
Proof.
  intros h s vs Hv. destruct (@clone_slice_run A A plain_repr plain_laws _ _ h s vs Hv) as (Hv' & Hh & Hr). split_and!; [done|done|].
  intros l [Hl|Hl]%Hr; [done|]. exfalso. revert Hl. clear. induction (default [] (elements h s)); csimpl; set_solver.
Qed.
End lemmas.
