(* ===== verification/DeepCopy.v ===== *)
(** * Deep copies of the API types (api/v1beta1/zz_generated.deepcopy.go)

    The types of api/v1beta1 as they lie in memory, with their pointers, slices and
    maps, and the generated routines that copy them.  [X_DeepCopyInto] takes the
    struct it copies and returns what it writes to its second argument;
    [X_DeepCopy] and [X_DeepCopyObject] are the methods on pointers.  The metadata
    of the API machinery, and its copies, are parameters. *)

From S2P Require Import Prelude GoStd Api Inventory Memory ApiServer.

(** ** The types in memory *)

Record TypeMeta := mkTypeMeta { tm_Kind : string; tm_APIVersion : string }.

(** metav1.ObjectMeta and metav1.ListMeta, what they stand for, and the cells they
    may point to. *)
Class MetaTypes := {
  lib_cell : Type;
  ObjectMeta : Type;
  ListMeta : Type;
  object_meta : Type;
  list_meta : Type;
  meta_name : object_meta → string;
  ObjectMeta_zero : ObjectMeta;
  ListMeta_zero : ListMeta;
}.

Record InventoryEntry := mkInventoryEntry {
  e_Name : string;
  e_ID : string;
  e_Phase : string;
  e_Template : string;
  e_ClaimRef : string;
  e_Address : string;
  e_Deadline : ptr time;
  e_ClaimedAt : ptr time;
  e_Metadata : string;
  e_CPUCount : Z;
  e_MemoryBytes : Z;
}.

Record PromotedTemplate := mkPromotedTemplate {
  t_Template : string;
  t_Net : string;
  t_Size : string;
  t_ContentDigest : string;
  t_Tenant : string;
  t_CreatedAt : ptr time;
  t_CPUCount : Z;
  t_MemoryBytes : Z;
  t_Labels : gomap;
}.

Record SandboxPauseOptions := mkPauseOptions { po_TypeMeta : TypeMeta }.
Record SandboxResumeOptions := mkResumeOptions { uo_TypeMeta : TypeMeta }.
Record SandboxForkOptions := mkForkOptions { fo_TypeMeta : TypeMeta; fo_Count : Z; fo_TTLSeconds : Z }.
Record SandboxForkResult := mkForkResult { fr_TypeMeta : TypeMeta; fr_Children : slice ForkedSandbox }.
Record SandboxSnapshotOptions := mkSnapshotOptions { no_TypeMeta : TypeMeta; no_Name : string }.
Record SandboxSnapshotResult := mkSnapshotResult {
  nr_TypeMeta : TypeMeta;
  nr_SnapshotID : string;
  nr_Name : string;
  nr_NodeName : string;
  nr_CreationTimestamp : time;
}.

Section types.
Context {M : MetaTypes}.

Record NodeInventory := mkNodeInventory {
  i_TypeMeta : TypeMeta;
  i_ObjectMeta : ObjectMeta;
  i_Node : string;
  i_Entries : slice InventoryEntry;
  i_Address : string;
  i_Pools : slice Api.PoolCapacity;
  i_Templates : slice PromotedTemplate;
  i_PublishedAt : time;
}.

Record NodeInventoryList := mkNodeInventoryList {
  l_TypeMeta : TypeMeta;
  l_ListMeta : ListMeta;
  l_Items : slice NodeInventory;
}.

(** What a location can hold. *)
Inductive cell :=
| CTime (x : time)
| CLabels (x : gmap string string)
| CEntry (x : InventoryEntry)
| CEntries (x : list InventoryEntry)
| CPool (x : Api.PoolCapacity)
| CPools (x : list Api.PoolCapacity)
| CTemplate (x : PromotedTemplate)
| CTemplates (x : list PromotedTemplate)
| CInventory (x : NodeInventory)
| CInventories (x : list NodeInventory)
| CInventoryList (x : NodeInventoryList)
| CPause (x : SandboxPauseOptions)
| CResume (x : SandboxResumeOptions)
| CForkOptions (x : SandboxForkOptions)
| CForkResult (x : SandboxForkResult)
| CChild (x : ForkedSandbox)
| CChildren (x : list ForkedSandbox)
| CSnapshotOptions (x : SandboxSnapshotOptions)
| CSnapshotResult (x : SandboxSnapshotResult)
| CLib (x : lib_cell).

#[export] Instance boxed_CTime : Boxed cell (time).
Proof. refine {| box := CTime; unbox c := match c with CTime x => Some x | _ => None end |}. done. Defined.
#[export] Instance boxed_CLabels : Boxed cell (gmap string string).
Proof. refine {| box := CLabels; unbox c := match c with CLabels x => Some x | _ => None end |}. done. Defined.
#[export] Instance boxed_CEntry : Boxed cell (InventoryEntry).
Proof. refine {| box := CEntry; unbox c := match c with CEntry x => Some x | _ => None end |}. done. Defined.
#[export] Instance boxed_CEntries : Boxed cell (list InventoryEntry).
Proof. refine {| box := CEntries; unbox c := match c with CEntries x => Some x | _ => None end |}. done. Defined.
#[export] Instance boxed_CPool : Boxed cell (Api.PoolCapacity).
Proof. refine {| box := CPool; unbox c := match c with CPool x => Some x | _ => None end |}. done. Defined.
#[export] Instance boxed_CPools : Boxed cell (list Api.PoolCapacity).
Proof. refine {| box := CPools; unbox c := match c with CPools x => Some x | _ => None end |}. done. Defined.
#[export] Instance boxed_CTemplate : Boxed cell (PromotedTemplate).
Proof. refine {| box := CTemplate; unbox c := match c with CTemplate x => Some x | _ => None end |}. done. Defined.
#[export] Instance boxed_CTemplates : Boxed cell (list PromotedTemplate).
Proof. refine {| box := CTemplates; unbox c := match c with CTemplates x => Some x | _ => None end |}. done. Defined.
#[export] Instance boxed_CInventory : Boxed cell (NodeInventory).
Proof. refine {| box := CInventory; unbox c := match c with CInventory x => Some x | _ => None end |}. done. Defined.
#[export] Instance boxed_CInventories : Boxed cell (list NodeInventory).
Proof. refine {| box := CInventories; unbox c := match c with CInventories x => Some x | _ => None end |}. done. Defined.
#[export] Instance boxed_CInventoryList : Boxed cell (NodeInventoryList).
Proof. refine {| box := CInventoryList; unbox c := match c with CInventoryList x => Some x | _ => None end |}. done. Defined.
#[export] Instance boxed_CPause : Boxed cell (SandboxPauseOptions).
Proof. refine {| box := CPause; unbox c := match c with CPause x => Some x | _ => None end |}. done. Defined.
#[export] Instance boxed_CResume : Boxed cell (SandboxResumeOptions).
Proof. refine {| box := CResume; unbox c := match c with CResume x => Some x | _ => None end |}. done. Defined.
#[export] Instance boxed_CForkOptions : Boxed cell (SandboxForkOptions).
Proof. refine {| box := CForkOptions; unbox c := match c with CForkOptions x => Some x | _ => None end |}. done. Defined.
#[export] Instance boxed_CForkResult : Boxed cell (SandboxForkResult).
Proof. refine {| box := CForkResult; unbox c := match c with CForkResult x => Some x | _ => None end |}. done. Defined.
#[export] Instance boxed_CChild : Boxed cell (ForkedSandbox).
Proof. refine {| box := CChild; unbox c := match c with CChild x => Some x | _ => None end |}. done. Defined.
#[export] Instance boxed_CChildren : Boxed cell (list ForkedSandbox).
Proof. refine {| box := CChildren; unbox c := match c with CChildren x => Some x | _ => None end |}. done. Defined.
#[export] Instance boxed_CSnapshotOptions : Boxed cell (SandboxSnapshotOptions).
Proof. refine {| box := CSnapshotOptions; unbox c := match c with CSnapshotOptions x => Some x | _ => None end |}. done. Defined.
#[export] Instance boxed_CSnapshotResult : Boxed cell (SandboxSnapshotResult).
Proof. refine {| box := CSnapshotResult; unbox c := match c with CSnapshotResult x => Some x | _ => None end |}. done. Defined.
#[export] Instance boxed_CLib : Boxed cell (lib_cell).
Proof. refine {| box := CLib; unbox c := match c with CLib x => Some x | _ => None end |}. done. Defined.

#[export] Instance zero_type_meta : Zero TypeMeta := mkTypeMeta zero zero.
#[export] Instance zero_time_value : Zero time := zero_time.
#[export] Instance zero_entry : Zero InventoryEntry := mkInventoryEntry zero zero zero zero zero zero zero zero zero 0 0.
#[export] Instance zero_pool : Zero Api.PoolCapacity := mkPoolCapacity zero zero zero 0 0.
#[export] Instance zero_template : Zero PromotedTemplate := mkPromotedTemplate zero zero zero zero zero zero 0 0 zero.
#[export] Instance zero_inventory : Zero NodeInventory := mkNodeInventory zero ObjectMeta_zero zero zero zero zero zero zero_time.
#[export] Instance zero_list_object : Zero NodeInventoryList := mkNodeInventoryList zero ListMeta_zero zero.
#[export] Instance zero_pause : Zero SandboxPauseOptions := mkPauseOptions zero.
#[export] Instance zero_resume : Zero SandboxResumeOptions := mkResumeOptions zero.
#[export] Instance zero_fork_options : Zero SandboxForkOptions := mkForkOptions zero 0 0.
#[export] Instance zero_fork_result : Zero SandboxForkResult := mkForkResult zero zero.
#[export] Instance zero_child : Zero ForkedSandbox := mkForkedSandbox zero zero zero zero.
#[export] Instance zero_snapshot_options : Zero SandboxSnapshotOptions := mkSnapshotOptions zero zero.
#[export] Instance zero_snapshot_result : Zero SandboxSnapshotResult := mkSnapshotResult zero zero zero zero zero_time.

(** ** What they stand for *)

#[export] Instance time_repr : Repr cell time time := plain_repr.
#[export] Instance pool_repr : Repr cell Api.PoolCapacity Api.PoolCapacity := plain_repr.
#[export] Instance child_repr : Repr cell ForkedSandbox ForkedSandbox := plain_repr.
#[export] Instance pause_repr : Repr cell SandboxPauseOptions SandboxPauseOptions := plain_repr.
#[export] Instance resume_repr : Repr cell SandboxResumeOptions SandboxResumeOptions := plain_repr.
#[export] Instance fork_options_repr : Repr cell SandboxForkOptions SandboxForkOptions := plain_repr.
#[export] Instance snapshot_options_repr : Repr cell SandboxSnapshotOptions SandboxSnapshotOptions := plain_repr.
#[export] Instance snapshot_result_repr : Repr cell SandboxSnapshotResult SandboxSnapshotResult := plain_repr.
#[export] Existing Instance pair_repr.

#[export] Instance entry_repr : Repr cell InventoryEntry Api.InventoryEntry :=
  via_repr (λ e, (e_Deadline e, e_ClaimedAt e)) (λ e '(deadline, claimedAt),
    Api.mkInventoryEntry (e_Name e) (e_ID e) (e_Phase e) (e_Template e) (e_ClaimRef e) (e_Address e) deadline claimedAt
      (e_Metadata e) (e_CPUCount e) (e_MemoryBytes e)).

#[export] Instance template_repr : Repr cell PromotedTemplate Api.PromotedTemplate :=
  via_repr (λ t, (t_CreatedAt t, t_Labels t)) (λ t '(createdAt, labels),
    Api.mkPromotedTemplate (t_Template t) (t_Net t) (t_Size t) (t_ContentDigest t) (t_Tenant t) createdAt (t_CPUCount t) (t_MemoryBytes t) labels).

#[export] Instance fork_result_repr : Repr cell SandboxForkResult (TypeMeta * list ForkedSandbox) :=
  via_repr fr_Children (λ r children, (fr_TypeMeta r, children)).
End types.
#[global] Arguments cell : clear implicits.
#[global] Arguments cell {M}.

(** The copies of the metadata, as the API machinery documents them. *)
Class MetaLib (M : MetaTypes) := {
  meta_repr :: Repr cell ObjectMeta object_meta;
  list_meta_repr :: Repr cell ListMeta list_meta;
  meta_laws :: ReprLaws cell ObjectMeta object_meta;
  list_meta_laws :: ReprLaws cell ListMeta list_meta;
  ObjectMeta_DeepCopyInto : ObjectMeta → io (memory cell) ObjectMeta;
  ListMeta_DeepCopyInto : ListMeta → io (memory cell) ListMeta;
  copies_ObjectMeta : copies ObjectMeta_DeepCopyInto;
  copies_ListMeta : copies ListMeta_DeepCopyInto;
}.

Section deepcopy.
Context {M : MetaTypes} {L : MetaLib M}.

(** A [NodeInventory] with its metadata. *)
Record inventory_object := mkInventoryObject {
  io_TypeMeta : TypeMeta;
  io_ObjectMeta : object_meta;
  io_inventory : Api.NodeInventory;
}.

#[export] Instance inventory_repr : Repr cell NodeInventory inventory_object :=
  via_repr (λ i, (i_ObjectMeta i, i_Entries i, i_Pools i, i_Templates i)) (λ i '(meta, entries, pools, templates),
    mkInventoryObject (i_TypeMeta i) meta
      (Api.mkNodeInventory (meta_name meta) (i_Node i) entries (i_Address i) pools templates (i_PublishedAt i))).

#[export] Instance inventory_list_repr : Repr cell NodeInventoryList (TypeMeta * list_meta * list inventory_object) :=
  via_repr (λ l, (l_ListMeta l, l_Items l)) (λ l '(meta, items), (l_TypeMeta l, meta, items)).

(** ** The generated routines *)

Definition ForkedSandbox_DeepCopyInto (i : ForkedSandbox) : io (memory cell) ForkedSandbox := mret i.
Definition ForkedSandbox_DeepCopy : ptr ForkedSandbox → io (memory cell) (ptr ForkedSandbox) := copy_ptr ForkedSandbox_DeepCopyInto.

(** [metav1.Time]: a value without pointers. *)
Definition Time_DeepCopyInto (i : time) : io (memory cell) time := mret i.

Definition InventoryEntry_DeepCopyInto (i : InventoryEntry) : io (memory cell) InventoryEntry :=
  deadline ← copy_ptr Time_DeepCopyInto (e_Deadline i);
  claimedAt ← copy_ptr Time_DeepCopyInto (e_ClaimedAt i);
  mret (mkInventoryEntry (e_Name i) (e_ID i) (e_Phase i) (e_Template i) (e_ClaimRef i) (e_Address i) deadline claimedAt
    (e_Metadata i) (e_CPUCount i) (e_MemoryBytes i)).
Definition InventoryEntry_DeepCopy : ptr InventoryEntry → io (memory cell) (ptr InventoryEntry) := copy_ptr InventoryEntry_DeepCopyInto.

Definition PoolCapacity_DeepCopyInto (i : Api.PoolCapacity) : io (memory cell) Api.PoolCapacity := mret i.
Definition PoolCapacity_DeepCopy : ptr Api.PoolCapacity → io (memory cell) (ptr Api.PoolCapacity) := copy_ptr PoolCapacity_DeepCopyInto.

Definition PromotedTemplate_DeepCopyInto (i : PromotedTemplate) : io (memory cell) PromotedTemplate :=
  createdAt ← copy_ptr Time_DeepCopyInto (t_CreatedAt i);
  labels ← copy_map (t_Labels i);
  mret (mkPromotedTemplate (t_Template i) (t_Net i) (t_Size i) (t_ContentDigest i) (t_Tenant i) createdAt (t_CPUCount i) (t_MemoryBytes i) labels).
Definition PromotedTemplate_DeepCopy : ptr PromotedTemplate → io (memory cell) (ptr PromotedTemplate) := copy_ptr PromotedTemplate_DeepCopyInto.

Definition NodeInventory_DeepCopyInto (i : NodeInventory) : io (memory cell) NodeInventory :=
  meta ← ObjectMeta_DeepCopyInto (i_ObjectMeta i);
  entries ← copy_slice InventoryEntry_DeepCopyInto (i_Entries i);
  pools ← clone_slice (i_Pools i);
  templates ← copy_slice PromotedTemplate_DeepCopyInto (i_Templates i);
  published ← Time_DeepCopyInto (i_PublishedAt i);
  mret (mkNodeInventory (i_TypeMeta i) meta (i_Node i) entries (i_Address i) pools templates published).
Definition NodeInventory_DeepCopy : ptr NodeInventory → io (memory cell) (ptr NodeInventory) := copy_ptr NodeInventory_DeepCopyInto.

Definition NodeInventoryList_DeepCopyInto (i : NodeInventoryList) : io (memory cell) NodeInventoryList :=
  meta ← ListMeta_DeepCopyInto (l_ListMeta i);
  items ← copy_slice NodeInventory_DeepCopyInto (l_Items i);
  mret (mkNodeInventoryList (l_TypeMeta i) meta items).
Definition NodeInventoryList_DeepCopy : ptr NodeInventoryList → io (memory cell) (ptr NodeInventoryList) := copy_ptr NodeInventoryList_DeepCopyInto.

Definition SandboxForkOptions_DeepCopyInto (i : SandboxForkOptions) : io (memory cell) SandboxForkOptions := mret i.
Definition SandboxForkOptions_DeepCopy : ptr SandboxForkOptions → io (memory cell) (ptr SandboxForkOptions) := copy_ptr SandboxForkOptions_DeepCopyInto.

Definition SandboxForkResult_DeepCopyInto (i : SandboxForkResult) : io (memory cell) SandboxForkResult :=
  children ← clone_slice (fr_Children i);
  mret (mkForkResult (fr_TypeMeta i) children).
Definition SandboxForkResult_DeepCopy : ptr SandboxForkResult → io (memory cell) (ptr SandboxForkResult) := copy_ptr SandboxForkResult_DeepCopyInto.

Definition SandboxPauseOptions_DeepCopyInto (i : SandboxPauseOptions) : io (memory cell) SandboxPauseOptions := mret i.
Definition SandboxPauseOptions_DeepCopy : ptr SandboxPauseOptions → io (memory cell) (ptr SandboxPauseOptions) := copy_ptr SandboxPauseOptions_DeepCopyInto.

Definition SandboxResumeOptions_DeepCopyInto (i : SandboxResumeOptions) : io (memory cell) SandboxResumeOptions := mret i.
Definition SandboxResumeOptions_DeepCopy : ptr SandboxResumeOptions → io (memory cell) (ptr SandboxResumeOptions) := copy_ptr SandboxResumeOptions_DeepCopyInto.

Definition SandboxSnapshotOptions_DeepCopyInto (i : SandboxSnapshotOptions) : io (memory cell) SandboxSnapshotOptions := mret i.
Definition SandboxSnapshotOptions_DeepCopy : ptr SandboxSnapshotOptions → io (memory cell) (ptr SandboxSnapshotOptions) :=
  copy_ptr SandboxSnapshotOptions_DeepCopyInto.

Definition SandboxSnapshotResult_DeepCopyInto (i : SandboxSnapshotResult) : io (memory cell) SandboxSnapshotResult :=
  created ← Time_DeepCopyInto (nr_CreationTimestamp i);
  mret (mkSnapshotResult (nr_TypeMeta i) (nr_SnapshotID i) (nr_Name i) (nr_NodeName i) created).
Definition SandboxSnapshotResult_DeepCopy : ptr SandboxSnapshotResult → io (memory cell) (ptr SandboxSnapshotResult) :=
  copy_ptr SandboxSnapshotResult_DeepCopyInto.

(** ** Objects *)

(** A [runtime.Object] of these types; the nil interface is [None] below. *)
Inductive Object :=
| ObjInventory (p : ptr NodeInventory)
| ObjInventoryList (p : ptr NodeInventoryList)
| ObjForkOptions (p : ptr SandboxForkOptions)
| ObjForkResult (p : ptr SandboxForkResult)
| ObjPause (p : ptr SandboxPauseOptions)
| ObjResume (p : ptr SandboxResumeOptions)
| ObjSnapshotOptions (p : ptr SandboxSnapshotOptions)
| ObjSnapshotResult (p : ptr SandboxSnapshotResult).

(** [if c := in.DeepCopy(); c != nil { return c }; return nil] *)
Definition copied {A} (wrap : ptr A → Object) (m : io (memory cell) (ptr A)) : io (memory cell) (option Object) :=
  c ← m; mret (match addr c with Some _ => Some (wrap c) | None => None end).

Definition NodeInventory_DeepCopyObject (p : ptr NodeInventory) := copied ObjInventory (NodeInventory_DeepCopy p).
Definition NodeInventoryList_DeepCopyObject (p : ptr NodeInventoryList) := copied ObjInventoryList (NodeInventoryList_DeepCopy p).
Definition SandboxForkOptions_DeepCopyObject (p : ptr SandboxForkOptions) := copied ObjForkOptions (SandboxForkOptions_DeepCopy p).
Definition SandboxForkResult_DeepCopyObject (p : ptr SandboxForkResult) := copied ObjForkResult (SandboxForkResult_DeepCopy p).
Definition SandboxPauseOptions_DeepCopyObject (p : ptr SandboxPauseOptions) := copied ObjPause (SandboxPauseOptions_DeepCopy p).
Definition SandboxResumeOptions_DeepCopyObject (p : ptr SandboxResumeOptions) := copied ObjResume (SandboxResumeOptions_DeepCopy p).
Definition SandboxSnapshotOptions_DeepCopyObject (p : ptr SandboxSnapshotOptions) := copied ObjSnapshotOptions (SandboxSnapshotOptions_DeepCopy p).
Definition SandboxSnapshotResult_DeepCopyObject (p : ptr SandboxSnapshotResult) := copied ObjSnapshotResult (SandboxSnapshotResult_DeepCopy p).

Definition DeepCopyObject (o : Object) : io (memory cell) (option Object) :=
  match o with
  | ObjInventory p => NodeInventory_DeepCopyObject p
  | ObjInventoryList p => NodeInventoryList_DeepCopyObject p
  | ObjForkOptions p => SandboxForkOptions_DeepCopyObject p
  | ObjForkResult p => SandboxForkResult_DeepCopyObject p
  | ObjPause p => SandboxPauseOptions_DeepCopyObject p
  | ObjResume p => SandboxResumeOptions_DeepCopyObject p
  | ObjSnapshotOptions p => SandboxSnapshotOptions_DeepCopyObject p
  | ObjSnapshotResult p => SandboxSnapshotResult_DeepCopyObject p
  end.

(** A nil pointer behind the interface. *)
Definition is_nil (o : Object) : bool :=
  match o with
  | ObjInventory (Ptr None) | ObjInventoryList (Ptr None) | ObjForkOptions (Ptr None) | ObjForkResult (Ptr None)
  | ObjPause (Ptr None) | ObjResume (Ptr None) | ObjSnapshotOptions (Ptr None) | ObjSnapshotResult (Ptr None) => true
  | _ => false
  end.

(** What an object stands for. *)
Inductive content :=
| OfInventory (i : inventory_object)
| OfInventoryList (l : TypeMeta * list_meta * list inventory_object)
| OfForkOptions (o : SandboxForkOptions)
| OfForkResult (r : TypeMeta * list ForkedSandbox)
| OfPause (o : SandboxPauseOptions)
| OfResume (o : SandboxResumeOptions)
| OfSnapshotOptions (o : SandboxSnapshotOptions)
| OfSnapshotResult (r : SandboxSnapshotResult).

(** [None] for a nil pointer. *)
Definition object_view (h : memory cell) (o : Object) : option content :=
  match o with
  | ObjInventory p => x ← view h p; OfInventory <$> x
  | ObjInventoryList p => x ← view h p; OfInventoryList <$> x
  | ObjForkOptions p => x ← view h p; OfForkOptions <$> x
  | ObjForkResult p => x ← view h p; OfForkResult <$> x
  | ObjPause p => x ← view h p; OfPause <$> x
  | ObjResume p => x ← view h p; OfResume <$> x
  | ObjSnapshotOptions p => x ← view h p; OfSnapshotOptions <$> x
  | ObjSnapshotResult p => x ← view h p; OfSnapshotResult <$> x
  end.
Definition object_reach (h : memory cell) (o : Object) : gset loc :=
  match o with
  | ObjInventory p => reach h p
  | ObjInventoryList p => reach h p
  | ObjForkOptions p => reach h p
  | ObjForkResult p => reach h p
  | ObjPause p => reach h p
  | ObjResume p => reach h p
  | ObjSnapshotOptions p => reach h p
  | ObjSnapshotResult p => reach h p
  end.
End deepcopy.

(** ** Lemmas *)

#[export] Existing Instance pair_laws.
#[export] Existing Instance plain_laws.
#[export] Existing Instance via_laws.

Section lemmas.
Context {M : MetaTypes} {L : MetaLib M}.

#[export] Instance entry_laws : ReprLaws cell InventoryEntry Api.InventoryEntry.
Proof. apply (via_laws (V := Api.InventoryEntry)). Qed.
#[export] Instance template_laws : ReprLaws cell PromotedTemplate Api.PromotedTemplate.
Proof. apply (via_laws (V := Api.PromotedTemplate)). Qed.
#[export] Instance inventory_laws : ReprLaws cell NodeInventory inventory_object.
Proof. apply (via_laws (V := inventory_object)). Qed.
#[export] Instance inventory_list_laws : ReprLaws cell NodeInventoryList (TypeMeta * list_meta * list inventory_object).
Proof. apply (via_laws (V := TypeMeta * list_meta * list inventory_object)). Qed.
#[export] Instance fork_result_laws : ReprLaws cell SandboxForkResult (TypeMeta * list ForkedSandbox).
Proof. apply (via_laws (V := TypeMeta * list ForkedSandbox)). Qed.

Lemma copies_entry : copies InventoryEntry_DeepCopyInto.
Proof.
  eapply copies_ext.
  - apply (copies_via (λ e, (e_Deadline e, e_ClaimedAt e)) _
      (λ i b, mkInventoryEntry (e_Name i) (e_ID i) (e_Phase i) (e_Template i) (e_ClaimRef i) (e_Address i) b.1 b.2
        (e_Metadata i) (e_CPUCount i) (e_MemoryBytes i))); [|by intros a []..].
    apply (copies_pair (copy_ptr Time_DeepCopyInto) (copy_ptr Time_DeepCopyInto)); apply copies_ptr, copies_mret.
  - intros a h. unfold InventoryEntry_DeepCopyInto. by rewrite !bind_run.
Qed.

Lemma copies_template : copies PromotedTemplate_DeepCopyInto.
Proof.
  eapply copies_ext.
  - apply (copies_via (λ t, (t_CreatedAt t, t_Labels t)) _
      (λ i b, mkPromotedTemplate (t_Template i) (t_Net i) (t_Size i) (t_ContentDigest i) (t_Tenant i) b.1 (t_CPUCount i) (t_MemoryBytes i) b.2));
      [|by intros a []..].
    apply (copies_pair (copy_ptr Time_DeepCopyInto) copy_map); [apply copies_ptr, copies_mret|apply copies_map].
  - intros a h. unfold PromotedTemplate_DeepCopyInto. by rewrite !bind_run.
Qed.

Lemma copies_inventory : copies NodeInventory_DeepCopyInto.
Proof.
  eapply copies_ext.
  - apply (copies_via (λ i, (i_ObjectMeta i, i_Entries i, i_Pools i, i_Templates i)) _
      (λ i b, mkNodeInventory (i_TypeMeta i) b.1.1.1 (i_Node i) b.1.1.2 (i_Address i) b.1.2 b.2 (i_PublishedAt i))); [|by intros a [[[]]]..].
    apply (copies_pair (λ p, q ← (λ p, r ← (λ p, a ← ObjectMeta_DeepCopyInto p.1; b ← copy_slice InventoryEntry_DeepCopyInto p.2; mret (a, b)) p.1;
      b ← clone_slice p.2; mret (r, b)) p; mret q) (copy_slice PromotedTemplate_DeepCopyInto)); [|apply copies_slice, copies_template].
    eapply copies_ext; [apply (copies_pair (λ p, a ← ObjectMeta_DeepCopyInto p.1; b ← copy_slice InventoryEntry_DeepCopyInto p.2; mret (a, b)) clone_slice)|].
    + apply (copies_pair ObjectMeta_DeepCopyInto (copy_slice InventoryEntry_DeepCopyInto)); [apply copies_ObjectMeta|apply copies_slice, copies_entry].
    + apply copies_clone.
    + intros a h. by rewrite !bind_run.
  - intros a h. unfold NodeInventory_DeepCopyInto, Time_DeepCopyInto. by rewrite !bind_run.
Qed.

Lemma copies_inventory_list : copies NodeInventoryList_DeepCopyInto.
Proof.
  eapply copies_ext.
  - apply (copies_via (λ l, (l_ListMeta l, l_Items l)) _ (λ i b, mkNodeInventoryList (l_TypeMeta i) b.1 b.2)); [|by intros a []..].
    apply (copies_pair ListMeta_DeepCopyInto (copy_slice NodeInventory_DeepCopyInto)); [apply copies_ListMeta|apply copies_slice, copies_inventory].
  - intros a h. unfold NodeInventoryList_DeepCopyInto. by rewrite !bind_run.
Qed.

Lemma copies_fork_result : copies SandboxForkResult_DeepCopyInto.
Proof. apply (copies_via fr_Children _ (λ i b, mkForkResult (fr_TypeMeta i) b) clone_slice); [apply copies_clone|done..]. Qed.

Lemma copies_snapshot_result : copies SandboxSnapshotResult_DeepCopyInto.
Proof. intros h [] v Hv. unfold SandboxSnapshotResult_DeepCopyInto. rewrite bind_run. by apply copies_mret. Qed.

(** A pointer's DeepCopyObject, from its DeepCopyInto. *)
Definition independent (h h' : memory cell) (o o' : Object) (v : content) : Prop :=
  object_view h' o' = Some v ∧ h ⊆ h' ∧ object_reach h' o' ## dom h.

Lemma copied_independent {A V} `{Repr cell A V, !ReprLaws cell A V, !Boxed cell A, !Zero A} (into : A → io (memory cell) A) (wrap : ptr A → Object) (inj : V → content)
    h (p : ptr A) v :
  copies into → (∀ h p, object_view h (wrap p) = x ← view h p; inj <$> x) → (∀ h p, object_reach h (wrap p) = reach h p) →
  object_view h (wrap p) = Some v → ∃ o' h', copied wrap (copy_ptr into p) h = (Some o', h') ∧ independent h h' (wrap p) o' v.
Proof.
  intros Hc Hv Hr. rewrite Hv. destruct (view h p) as [[x|]|] eqn:Hp; intros [= <-].
  pose proof (copies_ptr into Hc h p (Some x) Hp) as (Hv' & Hh & Hd). unfold copied. rewrite bind_run.
  destruct (copy_ptr into p h) as [p' h']. cbn [fst snd mret io_ret] in *. destruct (addr p') as [l|] eqn:Ha.
  - exists (wrap p'), h'. split; [done|]. unfold independent. rewrite Hv, Hv', Hr. done.
  - exfalso. destruct p' as [q]. cbn in Ha. subst q. done.
Qed.

Lemma object_frame h h' o v : object_view h o = Some v → (∀ l, l ∈ object_reach h o → h' !! l = h !! l) → object_view h' o = Some v.
Proof.
  destruct o as [p|p|p|p|p|p|p|p]; cbn [object_view object_reach]; destruct (view h p) as [x|] eqn:Hx; intros Hv Hl; try done;
    destruct (view_frame h h' p x Hx Hl) as [-> _]; done.
Qed.

Lemma object_live h o v : object_view h o = Some v → object_reach h o ⊆ dom h.
Proof.
  destruct o as [p|p|p|p|p|p|p|p]; cbn [object_view object_reach]; destruct (view h p) as [x|] eqn:Hx; intros Hv; try done;
    by eapply reach_live.
Qed.
End lemmas.

Create HintDb copies.
#[export] Hint Resolve copies_inventory copies_inventory_list copies_fork_result copies_snapshot_result copies_mret : copies.

(** ** Properties *)

(** C12: DeepCopyObject of any object of the group is a copy that shares nothing: it
    stands for the same data, later writes to any memory that was there before the
    copy, the original's included, leave the copy as it is, and writes to what the
    copy touches leave the original, and every object that was there, as they were.
    The nil pointer's copy is the nil interface. *)
Theorem DeepCopyObject_independent {M : MetaTypes} {L : MetaLib M} (h : memory cell) (o : Object) :
  match object_view h o with
  | Some v => ∃ o' h', DeepCopyObject o h = (Some o', h') ∧ object_view h' o' = Some v ∧
      (∀ h'', (∀ l, l ∉ dom h → h'' !! l = h' !! l) → object_view h'' o' = Some v) ∧
      (∀ h'' old w, object_view h old = Some w → (∀ l, l ∉ object_reach h' o' → h'' !! l = h' !! l) → object_view h'' old = Some w)
  | None => is_nil o = true → DeepCopyObject o h = (None, h)
  end.
Proof.
  destruct (object_view h o) as [v|] eqn:Hv.
  - assert (∃ o' h', DeepCopyObject o h = (Some o', h') ∧ independent h h' o o' v) as (o' & h' & Hrun & Hv' & Hh & Hd).
    { destruct o; (eapply copied_independent; [eauto with copies|done|done|exact Hv]). }
    exists o', h'. split_and!; [done|done|..].
    + intros h'' Hl. eapply object_frame; [exact Hv'|]. intros l Hin. apply Hl. set_solver.
    + intros h'' old w Hw Hl. eapply object_frame; [exact Hw|]. intros l Hin. pose proof (object_live h old w Hw l Hin) as Hdom.
      rewrite Hl by set_solver. apply elem_of_dom in Hdom as [c Hc]. rewrite Hc. by eapply lookup_weaken.
  - destruct o as [[[l|]]|[[l|]]|[[l|]]|[[l|]]|[[l|]]|[[l|]]|[[l|]]|[[l|]]]; by intros.
Qed.

(** ** Witnesses *)

(** Metadata with a name and labels. *)
Definition toy_types : MetaTypes := {|
  lib_cell := Empty_set;
  ObjectMeta := string * gomap;
  ListMeta := string;
  object_meta := string * gmap string string;
  list_meta := string;
  meta_name := fst;
  ObjectMeta_zero := (zero, zero);
  ListMeta_zero := zero;
|}.
#[local] Existing Instance toy_types.

#[local] Instance toy_meta_repr : Repr cell (string * gomap) (string * gmap string string) := via_repr snd (λ m labels, (m.1, labels)).
#[local] Instance toy_list_repr : Repr cell string string := plain_repr.

#[export] Instance toy_meta : MetaLib toy_types.
Proof.
  refine {| meta_repr := toy_meta_repr : Repr cell ObjectMeta object_meta; list_meta_repr := toy_list_repr : Repr cell ListMeta list_meta;
    ObjectMeta_DeepCopyInto (m : string * gomap) := (b ← copy_map m.2; mret (m.1, b)) : io (memory cell) (string * gomap);
    ListMeta_DeepCopyInto (m : string) := mret m : io (memory cell) string |}.
  - apply (copies_via snd (λ m labels, (m.1, labels)) (λ m b, (m.1, b)) copy_map); [apply copies_map|done..].
  - apply copies_mret.
Defined.

(** An inventory with a label map and a deadline behind pointers. *)
Definition sample_cells : list (loc * cell) := [
  (1%positive, CInventory (mkNodeInventory zero ("n1", GoMap None) "n1" (Slice (Some (mkWindow 2 0 1))) "10.0.0.1:7000" (Slice None) (Slice (Some (mkWindow 3 0 1))) 5%Z));
  (2%positive, CEntries [mkInventoryEntry "ns/a" "sb_1" "Running" "" "" "" (Ptr (Some 4%positive)) (Ptr None) "" 1 2]);
  (3%positive, CTemplates [mkPromotedTemplate "e2b/app" "none" "small" "sha256:1" "" (Ptr None) 1 2 (GoMap (Some 5%positive))]);
  (4%positive, CTime 9%Z);
  (5%positive, CLabels {[ "v1" := "sha256:1" ]})
].
Definition sample_memory : memory cell := list_to_map sample_cells.
Definition sample_object : Object := ObjInventory (Ptr (Some 1%positive)).

(** The original's label map is overwritten, and the copy keeps its own. *)
Lemma DeepCopyObject_independent_witness : ∃ o' h' v, DeepCopyObject sample_object sample_memory = (Some o', h') ∧
  object_view sample_memory sample_object = Some v ∧ object_view (<[5%positive := CLabels ∅]> h') sample_object ≠ Some v ∧
  object_view (<[5%positive := CLabels ∅]> h') o' = Some v.
Proof.
  pose proof (@DeepCopyObject_independent toy_types toy_meta sample_memory sample_object) as H.
  destruct (object_view sample_memory sample_object) as [v|] eqn:Hv; [|vm_compute in Hv; discriminate].
  destruct H as (o' & h' & Hrun & _ & Hold & _). exists o', h', v. split_and!; [exact Hrun|reflexivity|..].
  - assert (h' = (DeepCopyObject sample_object sample_memory).2) as -> by (rewrite Hrun; reflexivity).
    rewrite <- Hv. vm_compute. discriminate.
  - apply Hold. intros l Hl. apply lookup_insert_ne. intros <-. apply Hl. apply elem_of_dom. eexists. vm_compute. reflexivity.
Defined.
