(* ===== verification/StaticMemory.v ===== *)
(** * The in-memory inventory source over shared memory (StaticInventorySource in pkg/scale/sandboxstore_impl.go)

    [Inventory.Static] reads the source as a map of values.  Here it holds pointers,
    takes pointers and hands pointers out, in one memory with callers that go on
    writing to what they hold.  A history of calls and writes refines
    [Inventory.Static]: the deep copies at its boundary are what makes it a map of
    values. *)

From S2P Require Import Prelude GoStd Api Inventory Memory DeepCopy.

Section source.
Context {M : MetaTypes} {L : MetaLib M}.

(** ** The source *)

Record StaticInventorySource := mkStatic {
  ms_inv : gmap string (ptr NodeInventory);
  ms_partition : gset string;
  ms_applies : Z;
}.

Definition NewStaticInventorySource : StaticInventorySource := mkStatic ∅ ∅ 0.

Record NodePools := mkNodePools {
  mp_Node : string;
  mp_Address : string;
  mp_Pools : slice Api.PoolCapacity;
  mp_Templates : slice PromotedTemplate;
}.

Definition state : Type := memory cell * StaticInventorySource.

Definition in_memory {A} (m : io (memory cell) A) : io state A := λ st, let '(a, h) := m st.1 in (a, (h, st.2)).
Definition in_source (f : StaticInventorySource → StaticInventorySource) : io state unit := λ st, (tt, (st.1, f st.2)).

(** What a pointer that is not nil points to. *)
Definition deref (h : memory cell) (p : ptr NodeInventory) : result NodeInventory :=
  match addr p with Some l => Ok (at_loc l h) | None => Err (ErrPanic "nil pointer dereference") end.

(** [s.inv[inv.Node] = inv.DeepCopy()] *)
Definition keep (p : ptr NodeInventory) : io state (result unit) :=
  i <-? gets (λ st, deref st.1 p);;
  c ← in_memory (NodeInventory_DeepCopy p);
  _ ← in_source (λ s, mkStatic (<[i_Node i := c]> (ms_inv s)) (ms_partition s) (ms_applies s));
  mret (Ok tt).

Definition Put (p : ptr NodeInventory) : io state (result unit) := keep p.

Definition Apply (p : ptr NodeInventory) : io state (result unit) :=
  _ <-? keep p;;
  _ ← in_source (λ s, mkStatic (ms_inv s) (ms_partition s) (ms_applies s + 1));
  mret (Ok tt).

Definition Partition (node : string) : io state unit :=
  in_source (λ s, mkStatic (ms_inv s) ({[node]} ∪ ms_partition s) (ms_applies s)).

Definition Remove (node : string) : io state unit :=
  in_source (λ s, mkStatic (delete node (ms_inv s)) (ms_partition s ∖ {[node]}) (ms_applies s)).

Definition ListNodes : io state (result (list string)) := gets (λ st, Ok (sorted_keys (ms_inv st.2))).

(** The published inventory of a node that is not partitioned. *)
Definition published (node : string) : io state (result (ptr NodeInventory)) := gets (λ st,
  if decide (node ∈ ms_partition st.2) then Err (Static.errPartitioned node)
  else match ms_inv st.2 !! node with None => Err (Static.errUnpublished node) | Some p => Ok p end).

Definition NodeInventory_of (node : string) : io state (result (ptr NodeInventory)) :=
  p <-? published node;;
  c ← in_memory (NodeInventory_DeepCopy p);
  mret (Ok c).

Definition NodeCapacity (node : string) : io state (result (string * slice Api.PoolCapacity)) :=
  p <-? published node;;
  i <-? gets (λ st, deref st.1 p);;
  pools ← in_memory (clone_slice (i_Pools i));
  mret (Ok (i_Address i, pools)).

Fixpoint capacities (nodes : list string) : io state (result (list NodePools)) :=
  match nodes with
  | [] => mret (Ok [])
  | node :: nodes =>
      skip ← gets (λ st, bool_decide (node ∈ ms_partition st.2));
      if skip : bool then capacities nodes
      else
        i <-? gets (λ st, deref st.1 (default (Ptr None) (ms_inv st.2 !! node)));;
        pools ← in_memory (clone_slice (i_Pools i));
        templates ← in_memory (clone_slice (i_Templates i));
        rest <-? capacities nodes;;
        mret (Ok (mkNodePools node (i_Address i) pools templates :: rest))
  end.
Definition NodeCapacities : io state (result (list NodePools)) :=
  nodes ← gets (λ st, sorted_keys (ms_inv st.2)); capacities nodes.

Definition ObjectCount : io state Z := gets (λ st, Z.of_nat (size (ms_inv st.2))).
Definition ApplyCount : io state Z := gets (λ st, ms_applies st.2).

(** ** Histories *)

(** A call with the data it is given and the data of its answer. *)
Inductive event :=
| EvCaller
| EvPut (inv : Api.NodeInventory) (ans : result unit)
| EvApply (inv : Api.NodeInventory) (ans : result unit)
| EvPartition (node : string)
| EvRemove (node : string)
| EvListNodes (ans : result (list string))
| EvInventory (node : string) (ans : option (result Api.NodeInventory))
| EvCapacity (node : string) (ans : option (result (string * list Api.PoolCapacity)))
| EvCapacities (ans : option (result (list Api.NodePools)))
| EvCounts (objects applies : Z).

(** The data behind an answer. *)
Definition answer {A B} (f : A → option B) (r : result A) : option (result B) :=
  match r with Ok a => Ok <$> f a | Err e => Some (Err e) end.
Definition inventory_at (h : memory cell) (p : ptr NodeInventory) : option Api.NodeInventory :=
  x ← view h p; io_inventory <$> x.
Definition capacity_at (h : memory cell) (c : string * slice Api.PoolCapacity) : option (string * list Api.PoolCapacity) :=
  pair c.1 <$> view h c.2.
Definition pools_at (h : memory cell) (p : NodePools) : option Api.NodePools :=
  pools ← view h (mp_Pools p); templates ← view h (mp_Templates p);
  Some (Api.mkNodePools (mp_Node p) (mp_Address p) pools templates).

(** The memory a caller may write: what it made itself and the inventories it was
    handed.  It holds the rest of the answers too, but "callers never mutate" those of
    NodeCapacities, as the interface says. *)
Definition held (r : result (ptr NodeInventory)) (h : memory cell) : gset loc :=
  match r with Ok p => reach h p | Err _ => ∅ end.

Inductive step : gset loc * state → event → gset loc * state → Prop :=
| step_write K h s l c : l ∈ K → step (K, (h, s)) EvCaller (K, (<[l := c]> h, s))
| step_new K h s l c : l ∉ dom h → step (K, (h, s)) EvCaller ({[l]} ∪ K, (<[l := c]> h, s))
| step_put K st p inv : inventory_at st.1 p = Some inv → step (K, st) (EvPut inv (Put p st).1) (K, (Put p st).2)
| step_apply K st p inv : inventory_at st.1 p = Some inv → step (K, st) (EvApply inv (Apply p st).1) (K, (Apply p st).2)
| step_partition K st n : step (K, st) (EvPartition n) (K, (Partition n st).2)
| step_remove K st n : step (K, st) (EvRemove n) (K, (Remove n st).2)
| step_list K st : step (K, st) (EvListNodes (ListNodes st).1) (K, (ListNodes st).2)
| step_inventory K st n r st' : NodeInventory_of n st = (r, st') →
    step (K, st) (EvInventory n (answer (inventory_at st'.1) r)) (K ∪ held r st'.1, st')
| step_capacity K st n r st' : NodeCapacity n st = (r, st') →
    step (K, st) (EvCapacity n (answer (capacity_at st'.1) r)) (K ∪ match r with Ok c => reach st'.1 c.2 | Err _ => ∅ end, st')
| step_capacities K st r st' : NodeCapacities st = (r, st') →
    step (K, st) (EvCapacities (answer (λ ps, mapM (pools_at st'.1) ps) r)) (K, st')
| step_counts K st : step (K, st) (EvCounts (ObjectCount st).1 (ApplyCount st).1) (K, st).

(** The map of values under the same calls. *)
Definition spec_step (σ : Static.StaticInventorySource) (ev : event) (σ' : Static.StaticInventorySource) : Prop :=
  match ev with
  | EvCaller => σ' = σ
  | EvPut inv ans => ans = Ok tt ∧ σ' = Static.Put inv σ
  | EvApply inv ans => ans = Ok tt ∧ σ' = Static.Apply inv σ
  | EvPartition n => σ' = Static.Partition n σ
  | EvRemove n => σ' = Static.Remove n σ
  | EvListNodes ans => ans = Static.ListNodes σ ∧ σ' = σ
  | EvInventory n ans => ans = Some (Static.NodeInventory σ n) ∧ σ' = σ
  | EvCapacity n ans => ans = Some (Static.NodeCapacity σ n) ∧ σ' = σ
  | EvCapacities ans => ans = Some (Static.NodeCapacities σ) ∧ σ' = σ
  | EvCounts objects applies => objects = Static.ObjectCount σ ∧ applies = Static.ApplyCount σ ∧ σ' = σ
  end.

Inductive runs {S} (R : S → event → S → Prop) : S → list event → S → Prop :=
| runs_nil s : runs R s [] s
| runs_cons s ev s1 evs s2 : R s ev s1 → runs R s1 evs s2 → runs R s (ev :: evs) s2.

(** The source holds [σ], in memory that callers do not reach. *)
Record holds (K : gset loc) (st : state) (σ : Static.StaticInventorySource) : Prop := mkHolds {
  ho_live : K ⊆ dom st.1;
  ho_inv n : match ms_inv st.2 !! n, Static.s_inv σ !! n with
             | Some p, Some inv => inventory_at st.1 p = Some inv ∧ reach st.1 p ## K
             | None, None => True
             | _, _ => False
             end;
  ho_partition : ms_partition st.2 = Static.s_partition σ;
  ho_applies : ms_applies st.2 = Static.s_applies σ;
}.
End source.

(** ** Lemmas *)

Section lemmas.
Context {M : MetaTypes} {L : MetaLib M}.

Lemma inventory_at_frame h h' p inv : inventory_at h p = Some inv → (∀ l, l ∈ reach h p → h' !! l = h !! l) →
  inventory_at h' p = Some inv ∧ reach h' p = reach h p.
Proof.
  unfold inventory_at. destruct (view h p) as [x|] eqn:Hx; [|done]. intros Hinv Hl.
  by destruct (view_frame h h' p x Hx Hl) as [-> ->].
Qed.

Lemma inventory_at_live h p inv : inventory_at h p = Some inv → reach h p ⊆ dom h.
Proof. unfold inventory_at. destruct (view h p) as [x|] eqn:Hx; [|done]. intros _. by eapply reach_live. Qed.

Lemma inventory_at_grown h h' p inv : inventory_at h p = Some inv → h ⊆ h' → inventory_at h' p = Some inv ∧ reach h' p = reach h p.
Proof.
  intros Hi Hh. apply inventory_at_frame; [done|]. intros l Hl.
  pose proof (inventory_at_live h p inv Hi l Hl) as [c Hc]%elem_of_dom. rewrite Hc. by eapply lookup_weaken.
Qed.

(** The struct behind a pointer, field by field. *)
Lemma inventory_deref h p inv : inventory_at h p = Some inv →
  ∃ i, deref h p = Ok i ∧ i_Node i = ni_Node inv ∧ i_Address i = ni_Address inv ∧
    view h (i_Pools i) = Some (ni_Pools inv) ∧ view h (i_Templates i) = Some (ni_Templates inv).
Proof.
  unfold inventory_at, deref. destruct p as [[l|]]; cbn [view ptr_repr addr]; [|done].
  destruct (h !! l ≫= unbox) as [i|] eqn:Hi; [|done]. cbn [mbind option_bind].
  rewrite (at_loc_box l h i Hi). intros Hv. exists i. split; [done|]. revert Hv. cbn [view inventory_repr via_repr pair_repr fst snd].
  destruct (view h (i_ObjectMeta i)) as [m|]; [|done]. destruct (view h (i_Entries i)) as [es|]; [|done].
  destruct (view h (i_Pools i)) as [ps|]; [|done]. destruct (view h (i_Templates i)) as [ts|]; [|done]. by intros [= <-].
Qed.

Lemma DeepCopy_grown h p inv : inventory_at h p = Some inv →
  ∃ p' h', NodeInventory_DeepCopy p h = (p', h') ∧ inventory_at h' p' = Some inv ∧ h ⊆ h' ∧ reach h' p' ## dom h.
Proof.
  unfold inventory_at. destruct (view h p) as [x|] eqn:Hx; [|done]. intros Hinv.
  destruct (copies_ptr _ copies_inventory h p x Hx) as (Hv & Hh & Hr). unfold NodeInventory_DeepCopy.
  destruct (copy_ptr _ p h) as [p' h']. cbn [fst snd] in *. exists p', h'. by rewrite Hv.
Qed.

Lemma in_memory_run {A} (m : io (memory cell) A) h s : in_memory m (h, s) = ((m h).1, ((m h).2, s)).
Proof. unfold in_memory. cbn. by destruct (m h). Qed.

(** Memory grows, and callers hold only what they held or what is new. *)
Lemma holds_grown K K' h h' s σ : holds K (h, s) σ → h ⊆ h' → K' ⊆ dom h' → (∀ l, l ∈ K' → l ∈ K ∨ l ∉ dom h) → holds K' (h', s) σ.
Proof.
  intros [Hd Hi Hp Ha] Hh HK Hnew. split; [done| |done|done]. intros n. specialize (Hi n). cbn [fst snd] in *.
  destruct (ms_inv s !! n) as [p|], (Static.s_inv σ !! n) as [inv|]; try done. destruct Hi as [Hi Hr].
  destruct (inventory_at_grown h h' p inv Hi Hh) as [-> ->]. split; [done|]. pose proof (inventory_at_live h p inv Hi). set_solver.
Qed.

Lemma holds_keys K st σ : holds K st σ → sorted_keys (ms_inv st.2) = sorted_keys (Static.s_inv σ) ∧ size (ms_inv st.2) = size (Static.s_inv σ).
Proof.
  intros Hh. assert (dom (ms_inv st.2) = dom (Static.s_inv σ)) as Hdom.
  { apply set_eq. intros n. rewrite !elem_of_dom. pose proof (ho_inv _ _ _ Hh n) as Hi.
    destruct (ms_inv st.2 !! n), (Static.s_inv σ !! n); try done; split; intros []; eauto; done. }
  split; [|by rewrite <- !size_dom, Hdom].
  apply (Sorted_unique String.le); [apply sorted_keys_sorted..|]. apply NoDup_Permutation; [apply sorted_keys_NoDup..|].
  intros n. rewrite !elem_of_sorted_keys, <- !elem_of_dom. by rewrite Hdom.
Qed.

Lemma keep_holds K st σ p inv : holds K st σ → inventory_at st.1 p = Some inv →
  ∃ st', keep p st = (Ok tt, st') ∧ holds K st' (Static.Put inv σ).
Proof.
  destruct st as [h s]. intros Hh Hp. cbn in Hp. destruct (inventory_deref h p inv Hp) as (i & Hi & Hn & _ & _).
  destruct (DeepCopy_grown h p inv Hp) as (c & h' & Hc & Hic & Hsub & Hr). unfold keep, try. rewrite bind_run. unfold gets. cbn [fst snd].
  rewrite Hi, bind_run, in_memory_run, Hc. cbn [fst snd]. rewrite bind_run. cbn [in_source fst snd mret io_ret]. eexists. split; [done|].
  pose proof (ho_live _ _ _ Hh) as Hlive. cbn in Hlive.
  destruct (holds_grown K K h h' s σ Hh Hsub) as [Hd Hinv Hpt Hap]; [by apply subseteq_dom in Hsub; set_solver|by left|].
  split; [done| |done|done]. intros n. cbn [fst snd ms_inv Static.s_inv Static.Put]. rewrite Hn. destruct (decide (ni_Node inv = n)) as [->|Hne].
  - rewrite !lookup_insert_eq. split; [done|]. set_solver.
  - rewrite !lookup_insert_ne by done. apply Hinv.
Qed.

Lemma published_holds K st σ n : holds K st σ → match Static.NodeInventory σ n with
  | Ok inv => ∃ p, published n st = (Ok p, st) ∧ inventory_at st.1 p = Some inv
  | Err e => published n st = (Err e, st)
  end.
Proof.
  intros [_ Hi Hp _]. unfold published, gets, Static.NodeInventory. rewrite Hp. specialize (Hi n). destruct (decide _); [done|].
  destruct (ms_inv st.2 !! n) as [p|], (Static.s_inv σ !! n) as [inv|]; try done. exists p. by destruct Hi.
Qed.

Lemma capacities_holds K σ : ∀ nodes st, holds K st σ → (∀ n, n ∈ nodes → is_Some (Static.s_inv σ !! n)) →
  ∃ ps h', capacities nodes st = (Ok ps, (h', st.2)) ∧ st.1 ⊆ h' ∧
    mapM (pools_at h') ps = Some (omap (λ node, if decide (node ∈ Static.s_partition σ) then None
      else (λ inv, Api.mkNodePools node (ni_Address inv) (ni_Pools inv) (ni_Templates inv)) <$> Static.s_inv σ !! node) nodes).
Proof.
  induction nodes as [|n nodes IH]; intros [h s] Hh Hn; [by exists [], h|]. cbn [capacities]. rewrite bind_run. unfold gets at 1. cbn [fst snd].
  cbn [omap list_omap]. pose proof (ho_partition _ _ _ Hh) as Hpt. cbn [snd] in Hpt. rewrite Hpt. destruct (decide (n ∈ Static.s_partition σ)) as [Hp|Hp].
  { rewrite bool_decide_eq_true_2 by done. apply (IH (h, s) Hh). intros m Hm. apply Hn. by right. }
  rewrite bool_decide_eq_false_2 by done. destruct (Hn n) as [inv Hinv]; [by left|]. pose proof (ho_inv _ _ _ Hh n) as Hi. cbn [fst snd] in Hi.
  rewrite Hinv in *. destruct (ms_inv s !! n) as [p|] eqn:Hs; [|done]. destruct Hi as [Hi _].
  destruct (inventory_deref h p inv Hi) as (i & Hd & _ & Ha & Hpools & Htempl).
  unfold try. rewrite bind_run. unfold gets. cbn [fst snd]. rewrite Hs. cbn [default from_option id]. rewrite Hd, bind_run, in_memory_run.
  destruct (clone_slice_run h (i_Pools i) _ Hpools) as (Hv1 & Hh1 & _). destruct (clone_slice (i_Pools i) h) as [ps h1]. cbn [fst snd] in *.
  rewrite bind_run, in_memory_run. destruct (agree_subset h h1 (i_Templates i) _ Htempl Hh1) as [Ht1 _].
  destruct (clone_slice_run h1 (i_Templates i) _ Ht1) as (Hv2 & Hh2 & _). destruct (clone_slice (i_Templates i) h1) as [ts h2]. cbn [fst snd] in *.
  destruct (IH (h2, s)) as (rest & h3 & Hrun & Hh3 & Hrest).
  { apply (holds_grown K K h h2 s σ Hh); [by etrans| |by left]. pose proof (ho_live _ _ _ Hh) as HK. cbn in HK.
    apply subseteq_dom in Hh1, Hh2. set_solver. }
  { intros m Hm. apply Hn. by right. }
  rewrite bind_run, Hrun. cbn [fst snd mret io_ret] in *. eexists _, h3. split; [done|]. split; [by do 2 (etrans; [done|])|].
  cbn [mapM]. assert (pools_at h3 (mkNodePools n (i_Address i) ps ts) = Some (Api.mkNodePools n (ni_Address inv) (ni_Pools inv) (ni_Templates inv))) as ->.
  { unfold pools_at. cbn [mp_Pools mp_Templates mp_Node mp_Address]. destruct (agree_subset h2 h3 ts _ Hv2 Hh3) as [-> _].
    destruct (agree_subset h1 h3 ps _ Hv1) as [-> _]; [by etrans|]. by rewrite Ha. }
  cbn [mbind option_bind]. by rewrite Hrest.
Qed.

Lemma holds_start : holds ∅ (∅, NewStaticInventorySource) Static.NewStaticInventorySource.
Proof. split; [done| |done|done]. intros n. cbn. by rewrite !lookup_empty. Qed.

Lemma write_holds K h s σ l c : holds K (h, s) σ → l ∈ K → holds K (<[l := c]> h, s) σ.
Proof.
  intros [Hd Hi Hp Ha] Hl. split; [cbn; set_solver| |done|done]. intros n. specialize (Hi n). cbn [fst snd] in *.
  destruct (ms_inv s !! n) as [p|], (Static.s_inv σ !! n) as [inv|]; try done. destruct Hi as [Hi Hr].
  destruct (inventory_at_frame h (<[l := c]> h) p inv Hi) as [-> ->]; [|done].
  intros l' Hl'. apply lookup_insert_ne. set_solver.
Qed.

Lemma inventory_holds K st σ n : holds K st σ → ∃ r h', NodeInventory_of n st = (r, (h', st.2)) ∧
  answer (inventory_at h') r = Some (Static.NodeInventory σ n) ∧ holds (K ∪ held r h') (h', st.2) σ.
Proof.
  destruct st as [h s]. intros Hh. pose proof (published_holds K (h, s) σ n Hh) as Hp. unfold NodeInventory_of, try. rewrite bind_run.
  destruct (Static.NodeInventory σ n) as [inv|e].
  - destruct Hp as (p & -> & Hp). cbn [fst snd] in *. destruct (DeepCopy_grown h p inv Hp) as (c & h' & Hc & Hi & Hsub & Hr).
    rewrite bind_run, in_memory_run, Hc. cbn [fst snd mret io_ret]. eexists _, h'. split; [done|]. cbn [answer held]. rewrite Hi. split; [done|].
    apply (holds_grown K (K ∪ reach h' c) h h' s σ Hh Hsub); [|set_solver].
    pose proof (ho_live _ _ _ Hh) as HK. cbn in HK. pose proof (inventory_at_live h' c inv Hi). apply subseteq_dom in Hsub. set_solver.
  - rewrite Hp. cbn [fst snd mret io_ret]. eexists _, h. split; [reflexivity|]. cbn [answer held]. split; [done|]. rewrite (right_id_L ∅ (∪)). exact Hh.
Qed.

Lemma capacity_holds K st σ n : holds K st σ → ∃ r h', NodeCapacity n st = (r, (h', st.2)) ∧
  answer (capacity_at h') r = Some (Static.NodeCapacity σ n) ∧ holds (K ∪ match r with Ok c => reach h' c.2 | Err _ => ∅ end) (h', st.2) σ.
Proof.
  destruct st as [h s]. intros Hh. pose proof (published_holds K (h, s) σ n Hh) as Hp. unfold NodeCapacity, try. rewrite bind_run.
  assert (Static.NodeCapacity σ n = (λ inv, (ni_Address inv, ni_Pools inv)) <$> Static.NodeInventory σ n) as ->.
  { unfold Static.NodeCapacity, Static.NodeInventory. case_decide; [done|]. by destruct (Static.s_inv σ !! n). }
  destruct (Static.NodeInventory σ n) as [inv|e].
  - destruct Hp as (p & -> & Hp). cbn [fst snd] in *. destruct (inventory_deref h p inv Hp) as (i & Hd & _ & Ha & Hps & _).
    rewrite bind_run. unfold gets. cbn [fst snd]. rewrite Hd, bind_run, in_memory_run.
    destruct (copies_clone h (i_Pools i) _ Hps) as (Hv & Hsub & Hr). destruct (clone_slice (i_Pools i) h) as [ps h']. cbn [fst snd mret io_ret] in *.
    assert (view h' ps = Some (ni_Pools inv)) as Hv' by exact Hv.
    eexists _, h'. split; [reflexivity|]. cbn [answer snd]. unfold capacity_at. cbn [snd fst]. rewrite Hv', Ha. split; [done|].
    apply (holds_grown K _ h h' s σ Hh Hsub); [|set_solver].
    pose proof (ho_live _ _ _ Hh) as HK. cbn in HK. pose proof (reach_live h' ps _ Hv'). apply subseteq_dom in Hsub. set_solver.
  - rewrite Hp. cbn [fst snd mret io_ret]. eexists _, h. split; [reflexivity|]. cbn [answer]. split; [done|]. rewrite (right_id_L ∅ (∪)). exact Hh.
Qed.

(** A caller that makes cells, the last one first. *)
Lemma runs_snoc {S} (R : S → event → S → Prop) s evs s1 ev s2 : runs R s evs s1 → R s1 ev s2 → runs R s (evs ++ [ev]) s2.
Proof. intros Hr Hs. induction Hr as [s|s ev' s' evs s1 Hs' _ IH]; cbn; econstructor; [done|constructor|done|by apply IH]. Qed.

Lemma runs_app {S} (R : S → event → S → Prop) s evs s1 evs' s2 : runs R s evs s1 → runs R s1 evs' s2 → runs R s (evs ++ evs') s2.
Proof. intros Hr Hr'. induction Hr as [s|s ev' s' evs s1 Hs' _ IH]; cbn; [done|]. econstructor; [done|by apply IH]. Qed.

Lemma runs_made s (cells : list (loc * cell)) : NoDup cells.*1 →
  runs step (∅, (∅, s)) (replicate (length cells) EvCaller) (list_to_set cells.*1, (list_to_map cells, s)).
Proof.
  induction cells as [|[l c] cells IH]; intros Hnd; [constructor|]. rewrite fmap_cons in Hnd. apply NoDup_cons in Hnd as [Hl Hnd].
  cbn [length]. rewrite replicate_S_end. eapply runs_snoc; [by apply IH|].
  apply (step_new _ (list_to_map cells)), not_elem_of_dom. by apply not_elem_of_list_to_map_1.
Qed.

(** Every step is a step of the map of values. *)
Lemma step_holds c ev c' σ : step c ev c' → holds c.1 c.2 σ → ∃ σ', spec_step σ ev σ' ∧ holds c'.1 c'.2 σ'.
Proof.
  intros [K h s l v Hl|K h s l v Hl|K st p inv Hp|K st p inv Hp|K st n|K st n|K st|K st n r st' Hr|K st n r st' Hr|K st r st' Hr|K st] Hh;
    cbn [fst snd] in Hh |- *.
  - exists σ. split; [done|]. by apply write_holds.
  - exists σ. split; [done|]. eapply holds_grown; [exact Hh|by apply insert_fresh_subset| |set_solver].
    pose proof (ho_live _ _ _ Hh) as HK. cbn in *. set_solver.
  - destruct (keep_holds K st σ p inv Hh Hp) as (st1 & Hk & Hst1). unfold Put. rewrite Hk. by exists (Static.Put inv σ).
  - destruct (keep_holds K st σ p inv Hh Hp) as (st1 & Hk & [Hd Hi Hpt Ha]). unfold Apply, try. rewrite bind_run, Hk.
    exists (Static.Apply inv σ). split; [done|]. split; [done|done|done|]. change (ms_applies st1.2 + 1 = Static.s_applies σ + 1)%Z. by rewrite Ha.
  - exists (Static.Partition n σ). split; [done|]. destruct Hh as [Hd Hi Hp Ha]. split; [done|done| |done]. cbn. by rewrite Hp.
  - exists (Static.Remove n σ). split; [done|]. destruct Hh as [Hd Hi Hp Ha]. split; [done| | |done]; cbn; [|by rewrite Hp].
    intros m. specialize (Hi m). destruct (decide (n = m)) as [->|Hne]; [by rewrite !lookup_delete_eq|by rewrite !lookup_delete_ne].
  - exists σ. split; [|done]. split; [|done]. unfold ListNodes, gets, Static.ListNodes. cbn. by destruct (holds_keys K st σ Hh) as [-> _].
  - destruct (inventory_holds K st σ n Hh) as (r' & h' & Hr' & Hans & Hh'). rewrite Hr in Hr'. injection Hr' as <- ->. by exists σ.
  - destruct (capacity_holds K st σ n Hh) as (r' & h' & Hr' & Hans & Hh'). rewrite Hr in Hr'. injection Hr' as <- ->. by exists σ.
  - unfold NodeCapacities in Hr. rewrite bind_run in Hr. unfold gets in Hr. cbn [fst snd] in Hr. destruct (holds_keys K st σ Hh) as [Hk _]. rewrite Hk in Hr.
    destruct (capacities_holds K σ (sorted_keys (Static.s_inv σ)) st Hh) as (ps & h' & Hc & Hsub & Hps); [by intros n ?%elem_of_sorted_keys|].
    rewrite Hc in Hr. injection Hr as <- <-. exists σ. cbn [answer fst]. split; [by rewrite Hps|]. destruct st as [h s].
    apply (holds_grown K K h h' s σ Hh Hsub); [|by left]. pose proof (ho_live _ _ _ Hh) as HK. cbn in HK. apply subseteq_dom in Hsub. set_solver.
  - exists σ. split; [|done]. destruct (holds_keys K st σ Hh) as [_ Hsz]. unfold ObjectCount, ApplyCount, gets, Static.ObjectCount, Static.ApplyCount. cbn.
    by rewrite Hsz, (ho_applies _ _ _ Hh).
Qed.
End lemmas.

(** ** Properties *)

(** C11: the in-memory source is a map of values: in every history in which callers
    write at will to what they made and to the inventories they were handed, put
    what they made, and read, each call answers what the map of the inventories as
    they were when they were put would. *)
Theorem static_refines {M : MetaTypes} {L : MetaLib M} (evs : list event) (K : gset loc) (st : state) :
  runs step (∅, (∅, NewStaticInventorySource)) evs (K, st) →
  ∃ σ, runs spec_step Static.NewStaticInventorySource evs σ ∧ holds K st σ.
Proof.
  pose proof holds_start as Hh. revert Hh. generalize (∅ : gset loc) at 1 2. generalize (∅ : memory cell, NewStaticInventorySource).
  generalize Static.NewStaticInventorySource. intros σ st0 K0 Hh Hr. remember (K0, st0) as c0 eqn:Hc0. remember (K, st) as c1 eqn:Hc1.
  revert σ K0 st0 Hh Hc0. induction Hr as [c|c0 ev [K1 st1] evs c1 Hs _ IH]; intros σ K0 st0 Hh ->.
  - injection Hc1 as <- <-. exists σ. split; [constructor|done].
  - destruct (step_holds _ _ _ σ Hs Hh) as (σ1 & Hspec & Hh1).
    destruct (IH Hc1 σ1 K1 st1 Hh1 eq_refl) as (σ2 & Hruns & Hh2). exists σ2. split; [by econstructor|done].
Qed.

(** ** Witnesses *)

#[local] Existing Instance toy_types.

Definition sample_inventory : Api.NodeInventory :=
  Api.mkNodeInventory "n1" "n1" [Api.mkInventoryEntry "ns/a" "sb_1" "Running" "" "" "" (Some 9%Z) None "" 1 2] "10.0.0.1:7000" []
    [Api.mkPromotedTemplate "e2b/app" "none" "small" "sha256:1" "" None 1 2 {[ "v1" := "sha256:1" ]}] 5%Z.

(** The object is put, its label map is cleared, and it is read. *)
Definition sample_put : state := (Put (Ptr (Some 1%positive)) (sample_memory, NewStaticInventorySource)).2.
Definition sample_cleared : state := (<[5%positive := CLabels ∅]> sample_put.1, sample_put.2).
Definition sample_history : list event :=
  replicate 5 EvCaller ++ [EvPut sample_inventory (Ok tt); EvCaller; EvInventory "n1" (Some (Ok sample_inventory))].

Lemma static_refines_witness : ∃ K st σ,
  runs step (∅, (∅, NewStaticInventorySource)) sample_history (K, st) ∧ runs spec_step Static.NewStaticInventorySource sample_history σ.
Proof.
  assert (∃ c, runs step (∅, (∅, NewStaticInventorySource)) sample_history c) as [[K st] Hr].
  { eexists. eapply runs_app; [apply (runs_made _ sample_cells); apply (bool_decide_eq_true_1 (NoDup _)); vm_compute; reflexivity|].
    eapply runs_cons; [refine (step_put _ (sample_memory, NewStaticInventorySource) (Ptr (Some 1%positive)) _ _); vm_compute; reflexivity|].
    eapply runs_cons; [refine (step_write _ sample_put.1 sample_put.2 5%positive (CLabels ∅) _); apply (bool_decide_eq_true_1 _); vm_compute; reflexivity|].
    eapply runs_cons; [|constructor].
    assert (Some (Ok sample_inventory) = answer (inventory_at (NodeInventory_of "n1" sample_cleared).2.1) (NodeInventory_of "n1" sample_cleared).1) as ->
      by (vm_compute; reflexivity).
    apply step_inventory. apply surjective_pairing. }
  destruct (static_refines _ _ _ Hr) as (σ & Hs & _). exists K, st, σ. split; [exact Hr|exact Hs].
Defined.

(** Why callers may not write what NodeCapacities answers: its templates are copied
    as they lie in the array, and their label maps are the source's own. *)
Definition first_labels (r : result (list NodePools)) (h : memory cell) : option loc :=
  match r with
  | Ok (p :: _) => match elements h (mp_Templates p) with Some (t :: _) => gm_map (t_Labels t) | _ => None end
  | _ => None
  end.
Definition read_back (st : state) : option (result Api.NodeInventory) :=
  let '(r, st') := NodeInventory_of "n1" st in answer (inventory_at st'.1) r.

Definition labels_of_capacities : option loc := first_labels (NodeCapacities sample_put).1 (NodeCapacities sample_put).2.1.

Example capacities_share_labels : ∃ l, labels_of_capacities = Some l ∧ read_back (NodeCapacities sample_put).2 = Some (Ok sample_inventory) ∧
  read_back (<[l := CLabels ∅]> (NodeCapacities sample_put).2.1, (NodeCapacities sample_put).2.2) ≠ Some (Ok sample_inventory).
Proof. eexists. split_and!; [vm_compute; reflexivity|vm_compute; reflexivity|vm_compute; discriminate]. Qed.
