(* ===== verification/SandboxId.v ===== *)
(** * Public sandbox ids (pkg/e2bcompat/sandboxid.go)

    The DNS-safe rendering of a node-local claim id that e2b clients see, its
    inverse, and the comparison that accepts both. *)

From S2P Require Import Prelude GoStd GoText.

Section sandbox_id.
Context {U : CaseMap}.

(** A byte legal inside a DNS label; no rune outside ASCII is. *)
Definition isDNSSafe (c : ascii) : bool := within 97 122 c || within 48 57 c || bool_decide (code c = 45%N).

Definition needsRewrite (s : string) : bool := negb (all_bytes isDNSSafe s).

Definition isASCII (s : string) : bool := all_bytes is_ascii s.

Definition dns_byte (c : ascii) : ascii := if isDNSSafe c then c else "-"%char.

Definition PublicID (claimID : string) : string :=
  if negb (needsRewrite claimID) then claimID else map_runes dns_byte "-" (to_lower claimID).

Definition ClaimID (sandboxID : string) : string :=
  match cut_prefix "sb-" sandboxID with
  | Some rest => "sb_" +:+ rest
  | None => sandboxID
  end.

(** The in-place comparison, byte by byte on strings of one length. *)
Fixpoint matches_bytes (claimID requested : string) : bool :=
  match claimID, requested with
  | String c claimID, String r requested => bool_decide (r = dns_byte (lower_byte c)) && matches_bytes claimID requested
  | _, _ => true
  end.

Definition MatchesID (claimID requested : string) : bool :=
  if bool_decide (claimID = "") || bool_decide (requested = "") then false
  else if bool_decide (claimID = requested) then true
  else if negb (isASCII claimID) then bool_decide (PublicID claimID = requested)
  else if negb (bool_decide (String.length claimID = String.length requested)) then false
  else matches_bytes claimID requested.

(** ** Lemmas *)

Lemma dns_byte_safe c : isDNSSafe (dns_byte c) = true.
Proof. unfold dns_byte. destruct (isDNSSafe c) eqn:?; done. Qed.

Lemma isDNSSafe_code c : isDNSSafe c = true → (97 ≤ code c ≤ 122)%N ∨ (48 ≤ code c ≤ 57)%N ∨ code c = 45%N.
Proof. unfold isDNSSafe, within. rewrite !orb_true_iff, !bool_decide_eq_true. tauto. Qed.

Lemma isDNSSafe_ascii c : isDNSSafe c = true → is_ascii c = true.
Proof. intros H%isDNSSafe_code. unfold is_ascii. apply bool_decide_eq_true_2. lia. Qed.

Lemma lower_safe c : isDNSSafe c = true → dns_byte (lower_byte c) = c.
Proof.
  intros H. unfold lower_byte. rewrite decide_False; [unfold dns_byte; by rewrite H|].
  apply isDNSSafe_code in H. unfold code in H. lia.
Qed.

Lemma matches_bytes_spec s t :
  String.length s = String.length t → matches_bytes s t = true ↔ t = str_map (λ c, dns_byte (lower_byte c)) s.
Proof.
  revert t. induction s as [|c s IH]; intros [|d t]; simpl; try done. intros [= Hl].
  rewrite andb_true_iff, bool_decide_eq_true, IH by done. split; [by intros [-> ->]|by intros [= -> ->]].
Qed.

Lemma str_map_length f s : String.length (str_map f s) = String.length s.
Proof. induction s as [|c s IH]; simpl; [done|]. by rewrite IH. Qed.

Lemma PublicID_ascii `{!CaseMapLaws U} s :
  isASCII s = true → PublicID s = str_map (λ c, dns_byte (lower_byte c)) s.
Proof.
  intros Hs. unfold PublicID, needsRewrite. rewrite negb_involutive. destruct (all_bytes isDNSSafe s) eqn:Hd.
  - symmetry. by eapply str_map_id, lower_safe.
  - rewrite to_lower_ascii by done. rewrite map_runes_ascii; [by rewrite str_map_map|].
    clear Hd. induction s as [|c s IH]; [done|]. unfold isASCII in *. simpl in *. apply andb_true_iff in Hs as [Hc Hs].
    rewrite IH by done. rewrite andb_true_r. unfold lower_byte. case_decide as Hl; [|done].
    unfold is_ascii, code in *. rewrite bool_decide_eq_true in Hc |- *. rewrite Ascii.N_ascii_embedding; lia.
Qed.

(** ** Properties *)

(** a claim id matches exactly itself and its published rendering: the
    in-place comparison agrees with computing [PublicID] and comparing, for ids
    in and outside ASCII, and an empty id matches nothing. *)
Theorem MatchesID_spec `{!CaseMapLaws U} (claimID requested : string) :
  MatchesID claimID requested = true ↔
  claimID ≠ "" ∧ requested ≠ "" ∧ (requested = claimID ∨ requested = PublicID claimID).
Proof.
  unfold MatchesID. destruct (bool_decide (claimID = "")) eqn:He; [apply bool_decide_eq_true in He; simpl; by split; [|tauto]|].
  destruct (bool_decide (requested = "")) eqn:Hr; [apply bool_decide_eq_true in Hr; simpl; by split; [|tauto]|].
  apply bool_decide_eq_false in He, Hr. simpl.
  case_bool_decide as Heq; [by subst; tauto|]. destruct (isASCII claimID) eqn:Ha; simpl.
  - rewrite PublicID_ascii by done. case_bool_decide as Hl; simpl.
    + rewrite matches_bytes_spec by done. intuition congruence.
    + split; [done|]. intros (_ & _ & [->| ->]); [done|]. by rewrite str_map_length in Hl.
  - rewrite bool_decide_eq_true. intuition congruence.
Qed.

(** a published id is fit for a host name and loses nothing: every id renders
    to a DNS label's bytes, and for the "sb_" + hex ids of sandboxd the rendering
    inverts, so two of them never share a public id. *)
Theorem PublicID_invertible `{!CaseMapLaws U} (claimID hex : string) :
  all_bytes isDNSSafe (PublicID claimID) = true ∧
  (claimID = "sb_" +:+ hex → all_bytes (λ c, within 48 57 c || within 97 102 c) hex = true →
     PublicID claimID = "sb-" +:+ hex ∧ ClaimID (PublicID claimID) = claimID ∧ MatchesID claimID (PublicID claimID) = true).
Proof.
  split.
  - unfold PublicID, needsRewrite. rewrite negb_involutive. destruct (all_bytes isDNSSafe claimID) eqn:Hd; [done|].
    by apply map_runes_all; [apply dns_byte_safe|].
  - intros -> Hh.
    assert (all_bytes isDNSSafe hex = true) as Hs.
    { eapply all_bytes_impl; [|done]. intros c. unfold isDNSSafe, within. rewrite !orb_true_iff, !bool_decide_eq_true. lia. }
    assert (PublicID ("sb_" +:+ hex) = "sb-" +:+ hex) as Hp.
    { rewrite PublicID_ascii.
      - rewrite str_map_app. rewrite (str_map_id (λ c, dns_byte (lower_byte c)) hex isDNSSafe Hs lower_safe). done.
      - unfold isASCII. rewrite all_bytes_app. by rewrite (all_bytes_impl isDNSSafe is_ascii hex isDNSSafe_ascii Hs). }
    rewrite Hp. split; [done|]. unfold ClaimID. rewrite cut_prefix_app. split; [done|].
    unfold MatchesID.
    rewrite (bool_decide_eq_false_2 ("sb_" +:+ hex = "")), (bool_decide_eq_false_2 ("sb-" +:+ hex = "")) by (intros [=]).
    rewrite (bool_decide_eq_false_2 ("sb_" +:+ hex = "sb-" +:+ hex)) by (intros [=]).
    unfold isASCII. change (all_bytes is_ascii ("sb_" +:+ hex)) with (all_bytes is_ascii hex).
    rewrite (all_bytes_impl isDNSSafe is_ascii hex isDNSSafe_ascii Hs). cbn [negb orb].
    rewrite bool_decide_eq_true_2 by done. cbn [negb]. change (matches_bytes hex hex = true).
    apply matches_bytes_spec; [done|]. symmetry. by eapply str_map_id, lower_safe.
Qed.
End sandbox_id.

(** ** Witnesses *)

(** Case mapping by the ASCII letters alone. *)
Definition ascii_case : CaseMap := {| to_lower := str_map lower_byte |}.
Definition ascii_case_laws : CaseMapLaws ascii_case.
Proof. by split. Defined.

Lemma MatchesID_spec_witness : @MatchesID ascii_case "sb_0A" "sb-0a" = true.
Proof.
  apply (@MatchesID_spec ascii_case ascii_case_laws). split; [discriminate|]. split; [discriminate|].
  right. vm_compute. reflexivity.
Defined.

Lemma PublicID_invertible_witness : @ClaimID (@PublicID ascii_case "sb_0fe2") = "sb_0fe2".
Proof.
  destruct (@PublicID_invertible ascii_case ascii_case_laws "sb_0fe2" "0fe2") as [_ H].
  destruct H as (_ & H & _); [reflexivity|vm_compute; reflexivity|exact H].
Defined.
