(* ===== verification/E2bServer.v ===== *)
(** * The e2b server: requests, replies, keys and views (pkg/e2bcompat/server.go, lifecycle.go, http.go, types.go)

    What every handler of the e2b surface shares: the server's configuration, the
    API key that scopes a request to a namespace, the lookup of a sandbox by its
    public id, the refusal a store error becomes, and the rendering, filtering and
    paging of lists.

    A handler gets the namespace of its request, the values of its path and query,
    and its body as decoded ([E2bApi] routes a request to it); a reply is a value. *)

From S2P Require Import Prelude GoStd GoNum GoText GoCodec Api PoolKeys SandboxView Inventory Client StoreRead Store SandboxId.

Definition StateRunning : string := "running".
Definition StatePaused : string := "paused".
Definition DefaultEnvdVersion : string := "0.8.0".
Definition DefaultTimeoutSeconds : Z := 300.
Definition maxListLimit : Z := 100.
Definition templatePrefix : string := "e2b/".
Definition namePrefix : string := "e2b-".

(** ** Bodies and replies *)

(** A request body as the decoder leaves it: malformed, empty, or a value. *)
Inductive body (A : Type) :=
| Malformed (why : list string)
| Empty
| Decoded (a : A).
Arguments Malformed {A} why.
Arguments Empty {A}.
Arguments Decoded {A} a.

Record NewSandbox := mkNewSandbox {
  nw_TemplateID : string;
  nw_Timeout : option Z;
  nw_Metadata : gmap string string;
  nw_AutoPause : option bool;
  nw_EnvVars : gmap string string;
  nw_Secure : option bool;
  nw_AllowInternetAccess : option bool;
  nw_Network : list string;
  nw_VolumeMounts : list string;
  nw_AutoPauseMemory : option bool;
  nw_AutoResume : option bool;
  nw_MCP : list string;
  nw_IAM : list string;
}.

(** The [Sandbox] reply. *)
Record SandboxReply := mkSandboxReply {
  sy_TemplateID : string;
  sy_SandboxID : string;
  sy_ClientID : string;
  sy_EnvdVersion : string;
  sy_EnvdAccessToken : string;
  sy_Domain : string;
  sy_Alias : string;
}.

Record SandboxDetail := mkDetail {
  sd_TemplateID : string;
  sd_SandboxID : string;
  sd_ClientID : string;
  sd_StartedAt : string;
  sd_EndAt : string;
  sd_State : string;
  sd_EnvdVersion : string;
  sd_CPUCount : Z;
  sd_MemoryMB : Z;
  sd_Alias : string;
  sd_Metadata : string;
  sd_Domain : string;
  sd_startedAtKey : string;
}.

Record SnapshotInfo := mkSnapshotInfo { si_SnapshotID : string; si_Names : list string }.

Record SandboxMetric := mkMetric {
  mt_Timestamp : string;
  mt_TimestampUnix : Z;
  mt_CPUCount : Z;
  mt_CPUUsedPct : Z;
  mt_MemUsed : Z;
  mt_MemTotal : Z;
  mt_MemCache : Z;
  mt_DiskUsed : Z;
  mt_DiskTotal : Z;
}.

(** The templates listing, a template's builds and its tags; a time is rendered. *)
Record TemplateInfo := mkTemplateInfo {
  ti_TemplateID : string;
  ti_BuildID : string;
  ti_CPUCount : Z;
  ti_MemoryMB : Z;
  ti_Aliases : list string;
  ti_Names : list string;
  ti_CreatedAt : string;
  ti_BuildCount : Z;
  ti_EnvdVersion : string;
}.
Record TemplateBuild := mkTemplateBuild {
  tb_BuildID : string;
  tb_CreatedAt : string;
  tb_CPUCount : Z;
  tb_MemoryMB : Z;
  tb_EnvdVersion : string;
}.
Record TemplateTag := mkTemplateTag { tt_Tag : string; tt_BuildID : string; tt_CreatedAt : string }.

(** A build's status and its log; a message is kept as its format and arguments. *)
Record BuildLogEntry := mkBuildLogEntry {
  bl_Timestamp : string;
  bl_Message : list string;
  bl_Level : string;
  bl_Step : string;
}.
Record BuildStatusReason := mkBuildStatusReason {
  br_Message : list string;
  br_Step : string;
  br_LogEntries : list BuildLogEntry;
}.
Record TemplateBuildInfo := mkTemplateBuildInfo {
  bi_TemplateID : string;
  bi_BuildID : string;
  bi_Status : string;
  bi_LogEntries : list BuildLogEntry;
  bi_Reason : option BuildStatusReason;
}.

(** The JSON documents the handlers answer with. *)
Inductive document :=
| DSandbox (sb : SandboxReply)
| DDetail (d : SandboxDetail)
| DDetails (ds : list SandboxDetail)
| DForks (sbs : list SandboxReply)
| DSnapshot (s : SnapshotInfo)
| DSnapshots (ss : list SnapshotInfo)
| DMetrics (ms : list SandboxMetric)
| DMetricsById (ms : list (string * SandboxMetric))
| DLogs
| DLogsV2
| DTemplates (ts : list TemplateInfo)
| DTemplate (id : string) (names : list string) (created : string) (builds : list TemplateBuild)
| DTags (ts : list TemplateTag)
| DAlias (templateID : string)
| DAssigned (tags : list string) (buildID : string)
| DUpload (present : bool) (url : string) (headers : gmap string string)
| DBuild (templateID buildID : string) (public : bool) (names tags aliases : list string)
| DBuildStatus (info : TemplateBuildInfo).

(** [writeError], a bare status, [writeJSON] with the X-Next-Token header, empty
    when there is none, or a handler that panicked, whose connection is cut. *)
Inductive reply :=
| RError (status : Z) (msg : list string)
| RStatus (status : Z)
| RJSON (status : Z) (next : string) (doc : document)
| RPanic.

Definition writeJSON (status : Z) (doc : document) : reply := RJSON status "" doc.

Definition is_success (r : reply) : bool :=
  match r with RError _ _ | RPanic => false | RStatus s | RJSON s _ _ => bool_decide (200 ≤ s < 300)%Z end.

Definition badBody (why : list string) : reply := RError 400 ("invalid request body: %v" :: why).

(** [decodeBody] and [decodeOptionalBody] in front of the rest of a handler; an
    empty body is a value of its own only where it is optional. *)
Definition decodeBody {S A} (b : body A) (k : A → io S reply) : io S reply :=
  match b with
  | Malformed why => mret (badBody why)
  | Empty => mret (badBody ["EOF"])
  | Decoded a => k a
  end.
Definition decodeOptionalBody {S A} (zero : A) (b : body A) (k : A → io S reply) : io S reply :=
  match b with
  | Malformed why => mret (badBody why)
  | Empty => k zero
  | Decoded a => k a
  end.

(** ** The server *)

(** An upload store is its handle, when there is one. *)
Record BuildOptions := mkBuildOptions {
  bo_Parallel : Z;
  bo_Timeout : Z;
  bo_LogLines : Z;
  bo_Uploads : bool;
}.
Definition no_builds : BuildOptions := mkBuildOptions 0 0 0 false.

Record Options := mkOptions {
  op_Namespace : string;
  op_Domain : string;
  op_EnvdVersion : string;
  op_DefaultTimeoutSeconds : Z;
  op_APIKeys : list string;
  op_AllowAnonymous : bool;
  op_Inventory : bool;
  op_TemplateAliases : list string;
  op_EnvdSecret : string;
  op_Builds : BuildOptions;
}.

Record Server := mkServer {
  sv_opts : Options;
  sv_keys : gmap string string;
  sv_aliases : gmap string PoolKey;
  sv_imageAliases : gmap string (list string);
}.

(** The API keys: an entry is a key, or a key and its namespace. *)
Fixpoint api_keys (namespace : string) (entries : list string) (keys : gmap string string) : result (gmap string string) :=
  match entries with
  | [] => Ok keys
  | entry :: entries =>
      match fields entry with
      | [] => api_keys namespace entries keys
      | [k] => api_keys namespace entries (<[k := namespace]> keys)
      | [k; ns] => api_keys namespace entries (<[k := ns]> keys)
      | _ => Err (ErrText "e2bcompat: api key entry %q: want key or key namespace" [entry])
      end
  end.

Definition sizeClasses : list string := [SizeClassSmall; SizeClassMedium; SizeClassLarge].

(** The template aliases, and the aliases of each image. *)
Fixpoint template_aliases (entries : list string) (aliases : gmap string PoolKey) (images : gmap string (list string)) :
    result (gmap string PoolKey * gmap string (list string)) :=
  match entries with
  | [] => Ok (aliases, images)
  | entry :: entries =>
      match fields entry with
      | alias :: image :: rest =>
          let add (size : string) :=
            template_aliases entries (<[alias := mkPoolKey image "" size]> aliases)
              (<[image := default [] (images !! image) ++ [alias]]> images) in
          if decide (1 < length rest) then Err (ErrText "e2bcompat: template alias entry %q: want alias image [size]" [entry])
          else if decide (is_Some (aliases !! alias)) then Err (ErrText "e2bcompat: template alias %q is named twice" [alias])
          else match rest with
               | [] => add SizeClassSmall
               | size :: _ =>
                   if decide (size ∈ sizeClasses) then add size
                   else Err (ErrText "e2bcompat: template alias %q: size %q is not one of %v" [alias; size])
               end
      | _ => Err (ErrText "e2bcompat: template alias entry %q: want alias image [size]" [entry])
      end
  end.

Definition with_defaults (o : Options) : Options :=
  mkOptions (str_or (op_Namespace o) "default") (op_Domain o) (str_or (op_EnvdVersion o) DefaultEnvdVersion)
    (z_or (op_DefaultTimeoutSeconds o) DefaultTimeoutSeconds) (op_APIKeys o) (op_AllowAnonymous o) (op_Inventory o)
    (op_TemplateAliases o) (op_EnvdSecret o) (op_Builds o).

(** [NewServer]; [store] and [resolver] say whether there is a store and whether it
    resolves claim ids. *)
Definition NewServer (store resolver : bool) (opts : Options) : result Server :=
  if negb store then Err (ErrText "e2bcompat: store is required" [])
  else if negb resolver then Err (ErrText "e2bcompat: store does not implement scale.ClaimIDResolver" [])
  else
    let opts := with_defaults opts in
    match api_keys (op_Namespace opts) (op_APIKeys opts) ∅ with
    | Err e => Err e
    | Ok keys =>
        if bool_decide (keys = ∅) && negb (op_AllowAnonymous opts) then
          Err (ErrText "e2bcompat: no API key configured; set one or enable anonymous access explicitly" [])
        else if decide (trim_space (op_Domain opts) = "") then
          Err (ErrText "e2bcompat: no domain configured; the SDK cannot reach a sandbox without one" [])
        else if decide (op_EnvdSecret opts = "") then
          Err (ErrText "e2bcompat: an envd secret is required: every sandbox's access token derives from it" [])
        else match template_aliases (op_TemplateAliases opts) ∅ ∅ with
             | Err e => Err e
             | Ok (aliases, images) => Ok (mkServer opts keys aliases (merge_sort String.le <$> images))
             end
    end.

(** ** API keys *)

Definition namespaceForKey (s : Server) (presented : string) : option string :=
  if decide (presented = "") then None else sv_keys s !! presented.

(** [auth]: the handler [next] in the namespace of the key, which is the configured
    one when there are no keys. *)
Definition auth {S} (s : Server) (presented : string) (next : string → io S reply) : io S reply :=
  if decide (sv_keys s = ∅) then next (op_Namespace (sv_opts s))
  else match namespaceForKey s presented with
       | None => mret (RError 401 ["invalid API key"])
       | Some ns => next ns
       end.

(** ** Sandboxes by id *)

Definition errSandboxNotFound : error := ErrSentinel "e2bcompat.errSandboxNotFound".

Definition claimIDOf (sb : Api.Sandbox) : string := default "" (sb_Annotations sb !! ClaimIDAnnotation).

Definition lookup_sandbox {S} {T : SandboxStore S} {U : CaseMap} (ns id : string) : io S (result Api.Sandbox) :=
  if decide (trim_space id = "") then mret (Err errSandboxNotFound)
  else
    sb ← GetByClaimID ns (ClaimID id) (λ claimID, MatchesID claimID id);
    mret match sb with
         | Err e => if IsNotFound e then Err errSandboxNotFound else Err e
         | Ok sb => Ok sb
         end.

Definition writeVerbError (id : string) (e : error) (msg : string) : reply :=
  if IsNotFound e || bool_decide (errSandboxNotFound ∈ unwrap_all e) then RError 404 ["sandbox %q not found"; id]
  else match errors_as status_of e with
       | Some (code, m) => if decide (400 ≤ code < 500)%Z then RError code m else RError 500 [msg]
       | None => RError 500 [msg]
       end.

Definition writeLookupError (id : string) (e : error) : reply := writeVerbError id e "failed to resolve the sandbox".

Definition timeoutSeconds (s : Server) (v : option Z) : Z := default (op_DefaultTimeoutSeconds (sv_opts s)) v.

(** ** Templates of a request and of a sandbox *)

Definition aliasOf (s : Server) (image : string) : string := default "" (head (default [] (sv_imageAliases s !! image))).

Definition poolKey (s : Server) (templateID : string) : PoolKey :=
  match sv_aliases s !! templateID with
  | Some key => key
  | None => mkPoolKey templateID "" SizeClassSmall
  end.

Definition templateOf (sb : Api.Sandbox) : string :=
  let t := default "" (sb_Labels sb !! TemplateLabel) in
  default t (cut_prefix (templatePrefix +:+ sb_Namespace sb +:+ "/") t).

Definition netFor (allowInternet : option bool) : string :=
  match allowInternet with Some true => NetEgress | _ => NetDefault end.

(** The first option the backend cannot honor. *)
Definition unsupportedCreateOption (req : NewSandbox) : option string :=
  if bool_decide (nw_Secure req = Some false) then
    Some "secure=false is not supported; every sandbox this backend hands out is reachable only with its own access token"
  else if bool_decide (nw_AutoPause req = Some true) && bool_decide (nw_AllowInternetAccess req = Some true) then
    Some "autoPause is not supported with allow_internet_access: the internet lane cannot pause"
  else if bool_decide (nw_Network req ≠ []) then
    Some "network rules are not supported; allow_internet_access picks the pool's lane and nothing else is enforced"
  else if bool_decide (nw_VolumeMounts req ≠ []) then Some "volumeMounts are not supported"
  else if bool_decide (is_Some (nw_AutoPauseMemory req)) then
    Some "autoPauseMemory is not supported; a pause always keeps memory"
  else if bool_decide (nw_AutoResume req = Some true) then
    Some "autoResume is not supported; resume explicitly with connect"
  else if bool_decide (nw_MCP req ≠ []) then Some "mcp is not supported"
  else if bool_decide (nw_IAM req ≠ []) then Some "iam is not supported"
  else None.

(** ** Rendering a sandbox *)

Definition annotationInt (sb : Api.Sandbox) (key : string) : Z :=
  let raw := default "" (sb_Annotations sb !! key) in
  if decide (raw = "") then 0%Z else parse_int_value raw.

(** [time.Duration(n) * time.Second] *)
Definition seconds_of (n : Z) : Z := int64_wrap (n * second).

Definition detailFor {U : CaseMap} (s : Server) (now : time) (sb : Api.Sandbox) : SandboxDetail :=
  let started := if time_is_zero (sb_CreationTimestamp sb) then now else sb_CreationTimestamp sb in
  let state := if decide (default "" (sb_Labels sb !! PhaseLabel) = PhaseHibernated) then StatePaused else StateRunning in
  let endAt := default (started + seconds_of (op_DefaultTimeoutSeconds (sv_opts s)))%Z
                 (parse_rfc3339 (default "" (sb_Annotations sb !! DeadlineAnnotation))) in
  {| sd_TemplateID := templateOf sb;
     sd_SandboxID := PublicID (claimIDOf sb);
     sd_ClientID := sb_NodeName sb;
     sd_StartedAt := format_rfc3339 started;
     sd_EndAt := format_rfc3339 endAt;
     sd_State := state;
     sd_EnvdVersion := op_EnvdVersion (sv_opts s);
     sd_CPUCount := int32_wrap (annotationInt sb CPUCountAnnotation);
     sd_MemoryMB := int32_wrap (Z.shiftr (annotationInt sb MemoryBytesAnnotation) 20);
     sd_Alias := aliasOf s (templateOf sb);
     sd_Metadata := default "" (sb_Annotations sb !! MetadataAnnotation);
     sd_Domain := op_Domain (sv_opts s);
     sd_startedAtKey := format_rfc3339 (sb_CreationTimestamp sb) |}.

(** ** List filters *)

(** A parsed query string. *)
Abbreviation query := (gmap string (list string)).
Definition q_Get (k : string) (q : query) : string := default "" (head (default [] (q !! k))).

Record listFilter := mkFilter {
  lf_states : list string;
  lf_template : string;
  lf_startedAfter : time;
  lf_metadata : gmap string string;
}.

Definition unescapeTwice (s : string) : option string := once ← QueryUnescape s; PathUnescape once.

Fixpoint metadata_pairs (q : string) (pairs : list string) (md : gmap string string) : result (gmap string string) :=
  match pairs with
  | [] => Ok md
  | kv :: pairs =>
      match str_cut "=" kv with
      | None => Err (ErrText "metadata filter %q must be URL-encoded key=value pairs joined by &" [q])
      | Some (rawKey, rawValue) =>
          match unescapeTwice rawKey, unescapeTwice rawValue with
          | Some key, Some value =>
              if decide (key = "") then Err (ErrText "metadata filter %q must be URL-encoded key=value pairs joined by &" [q])
              else if decide (is_Some (md !! key)) then Err (ErrText "metadata filter repeats key %q" [key])
              else metadata_pairs q pairs (<[key := value]> md)
          | _, _ => Err (ErrText "metadata filter %q must be URL-encoded key=value pairs joined by &" [q])
          end
      end
  end.
Definition metadataFilterOf (q : string) : result (gmap string string) := metadata_pairs q (split_byte "&" q) ∅.

Definition listFilterOf (q : query) : result listFilter :=
  match (if decide (q_Get "metadata" q = "") then Ok ∅ else metadataFilterOf (q_Get "metadata" q)) with
  | Err e => Err e
  | Ok md =>
      let states := concat (split_byte "," <$> default [] (q !! "state")) in
      match find_first (λ st, negb (bool_decide (st = StateRunning ∨ st = StatePaused))) states with
      | Some st => Err (ErrText "unknown state %q" [st])
      | None =>
          let v := q_Get "startedAfter" q in
          if decide (v = "") then Ok (mkFilter states (q_Get "template" q) zero_time md)
          else match parse_rfc3339 v with
               | None => Err (ErrText "startedAfter: %w" [v])
               | Some t => Ok (mkFilter states (q_Get "template" q) t md)
               end
      end
  end.

Definition keeps (f : listFilter) (d : SandboxDetail) : bool :=
  (bool_decide (lf_states f = []) || bool_decide (sd_State d ∈ lf_states f)) &&
  (bool_decide (lf_template f = "") || bool_decide (sd_TemplateID d = lf_template f)) &&
  (time_is_zero (lf_startedAfter f) ||
   negb (bool_decide (default zero_time (parse_rfc3339 (sd_StartedAt d)) < truncate_second (lf_startedAfter f))%Z)).

Definition matchesMetadata {C : MetadataCodec} (f : listFilter) (sb : Api.Sandbox) : bool :=
  bool_decide (map_Forall (λ k v, MetadataOf sb !! k = Some v) (lf_metadata f)).

(** ** Pages *)

Record pageKey := mkPageKey { pk_startedAt : string; pk_sandboxID : string }.
#[export] Instance pageKey_eq_dec : EqDecision pageKey.
Proof. solve_decision. Defined.

Record listPage := mkPage { lp_limit : Z; lp_desc : bool; lp_after : pageKey }.

Definition no_key : pageKey := mkPageKey "" "".
Definition keyOf (d : SandboxDetail) : pageKey := mkPageKey (sd_startedAtKey d) (sd_SandboxID d).

Definition tokenOf (k : pageKey) : string := b64_encode (pk_startedAt k +:+ " " +:+ pk_sandboxID k).

Definition listPageOf (q : query) : result listPage :=
  let v := q_Get "limit" q in
  match (if decide (v = "") then Some maxListLimit
         else match atoi v with
              | Some n => if decide (1 ≤ n ≤ maxListLimit)%Z then Some n else None
              | None => None
              end) with
  | None => Err (ErrText "limit must be between 1 and %d, got %q" [v])
  | Some limit =>
      let order := q_Get "order" q in
      if negb (bool_decide (order ∈ [""; "desc"; "asc"])) then Err (ErrText "order must be asc or desc, got %q" [order])
      else
        let desc := negb (bool_decide (order = "asc")) in
        let token := q_Get "nextToken" q in
        if decide (token = "") then Ok (mkPage limit desc no_key)
        else match b64_decode token ≫= str_cut " " with
             | None => Err (ErrText "nextToken %q was not issued by this server" [token])
             | Some (started, id) => Ok (mkPage limit desc (mkPageKey started id))
             end
  end.

(** [p.compare(a, b) <= 0] *)
Definition key_asc (a b : pageKey) : Prop :=
  if decide (pk_startedAt a = pk_startedAt b) then String.le (pk_sandboxID a) (pk_sandboxID b)
  else String.le (pk_startedAt a) (pk_startedAt b).
Definition page_le (p : listPage) (a b : pageKey) : Prop := if lp_desc p then key_asc b a else key_asc a b.
#[export] Instance key_asc_dec : RelDecision key_asc.
Proof. intros a b. unfold key_asc. destruct (decide _); apply _. Defined.
#[export] Instance page_le_dec p : RelDecision (page_le p).
Proof. intros a b. unfold page_le. destruct (lp_desc p); apply _. Defined.

Definition item_le (p : listPage) (a b : SandboxDetail) : Prop := page_le p (keyOf a) (keyOf b).
#[export] Instance item_le_dec p : RelDecision (item_le p).
Proof. intros a b. unfold item_le. apply _. Defined.

Definition cut (p : listPage) (items : list SandboxDetail) : list SandboxDetail * string :=
  let items := if decide (lp_after p = no_key) then items
               else delete_func (λ d, bool_decide (page_le p (keyOf d) (lp_after p))) items in
  let items := merge_sort (item_le p) items in
  let n := Z.to_nat (lp_limit p) in
  if decide (length items ≤ n) then (items, "")
  else (take n items, match last (take n items) with Some d => tokenOf (keyOf d) | None => "" end).

(** ** The list handlers *)

Section lists.
Context {S : Type} {T : SandboxStore S} {C : MetadataCodec} {U : CaseMap}.

Definition listed (s : Server) (ns : string) (now : time) (q : query) : io S (list SandboxDetail + reply) :=
  match listFilterOf q with
  | Err e => mret (inr (RError 400 (error_text e)))
  | Ok f =>
      let f := mkFilter (lf_states f) (pk_Template (poolKey s (lf_template f))) (lf_startedAfter f) (lf_metadata f) in
      items ← List (mkListOptions ns "" "" false);
      mret match items with
           | Err _ => inr (RError 500 ["failed to list sandboxes"])
           | Ok items => inl (List.filter (keeps f) (detailFor s now <$> List.filter (matchesMetadata f) items))
           end
  end.

Definition listSandboxes (s : Server) (ns : string) (now : time) (q : query) : io S reply :=
  out ← listed s ns now q;
  mret match out with inl ds => writeJSON 200 (DDetails ds) | inr r => r end.

Definition listSandboxesV2 (s : Server) (ns : string) (now : time) (q : query) : io S reply :=
  match listPageOf q with
  | Err e => mret (RError 400 (error_text e))
  | Ok page =>
      out ← listed s ns now q;
      mret match out with
           | inl ds => let '(ds, next) := cut page ds in RJSON 200 next (DDetails ds)
           | inr r => r
           end
  end.
End lists.

(** ** Specification: reading a list page by page *)

(** A client that follows the next tokens over a list that stays the same, for at
    most [fuel] pages after the first. *)
Fixpoint pages (fuel : nat) (p : listPage) (items : list SandboxDetail) : list (list SandboxDetail) :=
  let '(page, next) := cut p items in
  page :: match fuel with
          | 0 => []
          | S fuel =>
              if decide (next = "") then []
              else match listPageOf {[ "nextToken" := [next] ]} with
                   | Ok p' => pages fuel (mkPage (lp_limit p) (lp_desc p) (lp_after p')) items
                   | Err _ => []
                   end
          end.

(** ** Lemmas: the order of a page *)

#[export] Instance key_asc_trans : Transitive key_asc.
Proof.
  intros a b c. unfold key_asc. intros Hab Hbc.
  destruct (decide (pk_startedAt a = pk_startedAt b)) as [He|Hne]; destruct (decide (pk_startedAt b = pk_startedAt c)) as [He'|Hne'].
  - rewrite decide_True by congruence. by etrans.
  - rewrite decide_False by congruence. by rewrite He.
  - rewrite decide_False by congruence. by rewrite <-He'.
  - rewrite decide_False; [by etrans|]. intros Heq. apply Hne. apply (anti_symm String.le); [done|by rewrite Heq].
Qed.

Lemma key_asc_anti a b : key_asc a b → key_asc b a → a = b.
Proof.
  destruct a as [s i], b as [s' i']. unfold key_asc. simpl. intros H1 H2. destruct (decide (s = s')) as [->|Hne].
  - rewrite decide_True in H2 by done. f_equal. by apply (anti_symm String.le).
  - rewrite decide_False in H2 by congruence. exfalso. apply Hne. by apply (anti_symm String.le).
Qed.

Lemma key_asc_total a b : key_asc a b ∨ key_asc b a.
Proof.
  unfold key_asc. destruct (decide (pk_startedAt a = pk_startedAt b)) as [He|Hne].
  - rewrite decide_True by done. apply (total String.le).
  - rewrite decide_False by congruence. apply (total String.le).
Qed.

#[export] Instance item_le_trans p : Transitive (item_le p).
Proof. intros a b c. unfold item_le, page_le. destruct (lp_desc p); [intros H1 H2; by eapply key_asc_trans|apply key_asc_trans]. Qed.
#[export] Instance item_le_total p : Total (item_le p).
Proof. intros a b. unfold item_le, page_le. destruct (lp_desc p); [destruct (key_asc_total (keyOf a) (keyOf b)); auto|apply key_asc_total]. Qed.
Lemma item_le_keys p a b : item_le p a b → item_le p b a → keyOf a = keyOf b.
Proof. unfold item_le, page_le. destruct (lp_desc p); intros; by apply key_asc_anti. Qed.

Lemma delete_func_perm {A} (f : A → bool) l l' : l ≡ₚ l' → delete_func f l ≡ₚ delete_func f l'.
Proof.
  unfold delete_func. induction 1 as [|x l l' _ IH|x y l|l1 l2 l3 _ IH1 _ IH2]; simpl; [done| | |by etrans].
  - destruct (negb (f x)); [by constructor|done].
  - destruct (negb (f y)), (negb (f x)); try done. constructor.
Qed.
Lemma delete_func_all {A} (f : A → bool) l : Forall (λ x, f x = true) l → delete_func f l = [].
Proof. unfold delete_func. induction 1 as [|x l Hx _ IH]; simpl; [done|]. by rewrite Hx. Qed.
Lemma delete_func_none {A} (f : A → bool) l : Forall (λ x, f x = false) l → delete_func f l = l.
Proof. unfold delete_func. induction 1 as [|x l Hx _ IH]; simpl; [done|]. rewrite Hx. simpl. by rewrite IH. Qed.
Lemma delete_func_app {A} (f : A → bool) l l' : delete_func f (l ++ l') = delete_func f l ++ delete_func f l'.
Proof. apply List.filter_app. Qed.

(** What is past the key of [x] is what the sorted list holds after [x]. *)
Lemma after_key p items pre x suf :
  NoDup (keyOf <$> items) → merge_sort (item_le p) items = pre ++ x :: suf →
  merge_sort (item_le p) (delete_func (λ d, bool_decide (page_le p (keyOf d) (keyOf x))) items) = suf.
Proof.
  intros Hnd Hs. set (f := λ d, bool_decide (page_le p (keyOf d) (keyOf x))).
  pose proof (merge_sort_Permutation (item_le p) items) as Hp. rewrite Hs in Hp.
  pose proof (StronglySorted_merge_sort (item_le p) items) as Hsort. rewrite Hs in Hsort.
  rewrite <-Hp in Hnd. rewrite fmap_app in Hnd. apply NoDup_app in Hnd as (_ & _ & Hnd). csimpl in Hnd. apply NoDup_cons in Hnd as [Hx Hnd].
  assert (delete_func f items ≡ₚ suf) as Hd.
  { rewrite <-(delete_func_perm f _ _ Hp), delete_func_app. rewrite (delete_func_all f pre), app_nil_l.
    - change (x :: suf) with ([x] ++ suf). rewrite delete_func_app, (delete_func_all f [x]), app_nil_l; [rewrite delete_func_none; [done|]|].
      + apply Forall_forall. intros y Hy. apply bool_decide_eq_false. intros Hle. apply Hx. apply list_elem_of_fmap. exists y. split; [|done].
        apply (item_le_keys p); [|done]. apply StronglySorted_app_1_r in Hsort. apply StronglySorted_inv in Hsort as [_ Hall].
        rewrite Forall_forall in Hall. by apply Hall.
      + apply Forall_singleton, bool_decide_eq_true. destruct (item_le_total p x x); done.
    - apply Forall_forall. intros y Hy. apply bool_decide_eq_true. by eapply (StronglySorted_app_1_elem_of (item_le p)); [exact Hsort|done|constructor]. }
  apply (StronglySorted_unique_strong (item_le p)).
  - intros y z Hy Hz H1 H2. rewrite merge_sort_Permutation, Hd in Hy.
    pose proof (item_le_keys p _ _ H1 H2) as Hk. apply list_elem_of_lookup in Hy as [i Hi]. apply list_elem_of_lookup in Hz as [j Hj].
    assert (i = j) as ->; [|congruence]. eapply (NoDup_lookup (keyOf <$> suf)); [done|..]; rewrite list_lookup_fmap; [by rewrite Hi|by rewrite Hj, Hk].
  - apply StronglySorted_merge_sort; apply _.
  - apply StronglySorted_app_1_r in Hsort. by apply StronglySorted_inv in Hsort as [? _].
  - by rewrite merge_sort_Permutation.
Qed.

Lemma q_Get_single k v k' : q_Get k' ({[ k := [v] ]} : gmap string (list string)) = if decide (k = k') then v else "".
Proof.
  unfold q_Get. case_decide as Hk; [subst; by rewrite lookup_singleton_eq|]. by rewrite lookup_singleton_ne.
Qed.

(** The token of a page's last key resumes right after it. *)
Lemma resume_at k : has_byte " " (pk_startedAt k) = false →
  tokenOf k ≠ "" ∧ listPageOf {[ "nextToken" := [tokenOf k] ]} = Ok (mkPage maxListLimit true k).
Proof.
  intros Hk. assert (tokenOf k ≠ "") as Hne.
  { intros He. unfold tokenOf in He. pose proof (b64_round_trip (pk_startedAt k +:+ " " +:+ pk_sandboxID k)) as Hr.
    rewrite He in Hr. by destruct (pk_startedAt k). }
  split; [done|]. unfold listPageOf. rewrite !q_Get_single. rewrite !(decide_False (P := "nextToken" = _)) by done.
  rewrite (decide_True (P := "nextToken" = "nextToken")) by done.
  rewrite decide_True by done. rewrite (bool_decide_eq_true_2 ("" ∈ [""; "desc"; "asc"])) by set_solver. simpl negb.
  rewrite decide_False by done. unfold tokenOf. rewrite b64_round_trip. simpl.
  change (" " +:+ pk_sandboxID k) with (String " " (pk_sandboxID k)). rewrite str_cut_byte by done. by destruct k.
Qed.

Lemma key_started {U : CaseMap} s now sb : let k := keyOf (detailFor s now sb) in has_byte " " (pk_startedAt k) = false ∧ k ≠ no_key.
Proof.
  split.
  - apply (has_byte_all " " time_byte); [apply format_rfc3339_bytes|done].
  - intros [= He _]. by apply (format_rfc3339_nonempty (sb_CreationTimestamp sb)).
Qed.

(** One page: what is left of the sorted list, cut at the limit. *)
Lemma cut_suffix p items pre suf :
  NoDup (keyOf <$> items) → merge_sort (item_le p) items = pre ++ suf →
  (match last pre with Some x => lp_after p = keyOf x ∧ keyOf x ≠ no_key | None => lp_after p = no_key end) →
  cut p items = if decide (length suf ≤ Z.to_nat (lp_limit p)) then (suf, "")
    else (take (Z.to_nat (lp_limit p)) suf, match last (take (Z.to_nat (lp_limit p)) suf) with Some d => tokenOf (keyOf d) | None => "" end).
Proof.
  intros Hnd Hs Ha. unfold cut.
  assert (merge_sort (item_le p) (if decide (lp_after p = no_key) then items
            else delete_func (λ d, bool_decide (page_le p (keyOf d) (lp_after p))) items) = suf) as ->; [|done].
  destruct pre as [|x pre _] using rev_ind; [by rewrite decide_True|].
  rewrite last_snoc in Ha. destruct Ha as [-> Hx]. rewrite decide_False by done.
  apply (after_key p items pre x suf Hnd). by rewrite Hs, <-app_assoc.
Qed.

(** ** Properties *)

(** C32: reading a list page by page neither misses nor repeats a sandbox: over an
    unchanged fleet whose sandboxes have distinct keys, following the next tokens
    from the first page ends, and its pages, none longer than the limit, are one
    after the other exactly the whole list in the order asked for. *)
Theorem pages_exhaustive {U : CaseMap} (s : Server) (now : time) (sbs : list Api.Sandbox) (p : listPage) (fuel : nat) :
  let items := detailFor s now <$> sbs in
  lp_after p = no_key → (1 ≤ lp_limit p)%Z → NoDup (keyOf <$> items) → length items ≤ fuel →
  concat (pages fuel p items) = merge_sort (item_le p) items ∧
  Forall (λ page, length page ≤ Z.to_nat (lp_limit p)) (pages fuel p items).
Proof.
  intros items Hafter Hlim Hnd Hfuel.
  assert (∀ d, d ∈ merge_sort (item_le p) items → has_byte " " (pk_startedAt (keyOf d)) = false ∧ keyOf d ≠ no_key) as Hkeys.
  { intros d Hd. rewrite merge_sort_Permutation in Hd. apply list_elem_of_fmap in Hd as (sb & -> & _). apply key_started. }
  assert (∀ fuel pre suf after, length suf ≤ fuel → merge_sort (item_le p) items = pre ++ suf →
    match last pre with Some x => after = keyOf x ∧ keyOf x ≠ no_key | None => after = no_key end →
    concat (pages fuel (mkPage (lp_limit p) (lp_desc p) after) items) = suf ∧
    Forall (λ page, length page ≤ Z.to_nat (lp_limit p)) (pages fuel (mkPage (lp_limit p) (lp_desc p) after) items)) as Hrun.
  { clear fuel Hfuel. intros fuel. induction fuel as [|fuel IH]; intros pre suf after Hl Hs Ha.
    - assert (suf = []) as -> by (destruct suf; simpl in *; [done|lia]). cbn [pages].
      rewrite (cut_suffix _ items pre []) by done. rewrite decide_True by (simpl; lia). split; [done|]. by apply Forall_singleton; simpl; lia.
    - cbn [pages]. rewrite (cut_suffix _ items pre suf) by done. simpl lp_limit. case_decide as Hc.
      + rewrite decide_True by done. simpl. rewrite app_nil_r. split; [done|]. by apply Forall_singleton.
      + set (n := Z.to_nat (lp_limit p)) in *. assert (0 < n) as Hn by lia.
        destruct (last (take n suf)) as [d|] eqn:Hd; [|apply last_None in Hd; apply (f_equal length) in Hd; rewrite length_take in Hd; simpl in Hd; lia].
        assert (d ∈ merge_sort (item_le p) items) as Hin.
        { rewrite Hs. apply elem_of_app. right. apply last_Some in Hd as [l' Hd]. rewrite <-(take_drop n suf), Hd.
          apply elem_of_app. left. apply elem_of_app. right. constructor. }
        destruct (Hkeys d Hin) as [Hk Hno]. destruct (resume_at (keyOf d) Hk) as [Hne Hres].
        rewrite decide_False by done. rewrite Hres. cbn [lp_after].
        destruct (IH (pre ++ take n suf) (drop n suf) (keyOf d)) as [H1 H2].
        * rewrite length_drop. lia.
        * by rewrite <-app_assoc, take_drop.
        * rewrite last_app, Hd. done.
        * simpl. rewrite H1, take_drop. split; [done|]. constructor; [|done]. rewrite length_take. lia. }
  destruct (Hrun fuel [] (merge_sort (item_le p) items) no_key) as [H1 H2]; [by rewrite merge_sort_Permutation|done|done|].
  destruct p as [limit desc after]. simpl in *. by subst after.
Qed.

(** ** Witnesses *)

(** Three sandboxes, two of them created in the same second, in pages of two. *)
Definition listed_at (id : string) (created : time) : Api.Sandbox :=
  mkSandbox "team" "web" ∅ {[ ClaimIDAnnotation := id ]} "" created "n1" [] [].
Definition listed_sandboxes : list Api.Sandbox :=
  [listed_at "sb_b" (5 * second)%Z; listed_at "sb_a" (5 * second)%Z; listed_at "sb_c" (9 * second)%Z].
Definition list_server : Server :=
  mkServer (mkOptions "default" "sandbox.example.com" "0.8.0" 300 [] true true [] "s3" no_builds) ∅ ∅ ∅.

Definition listed_details : list SandboxDetail := @detailFor ascii_case list_server 0%Z <$> listed_sandboxes.

Lemma pages_exhaustive_witness :
  map (map sd_SandboxID) (pages 3 (mkPage 2 false no_key) listed_details) = [["sb-a"; "sb-b"]; ["sb-c"]] ∧
  concat (pages 3 (mkPage 2 false no_key) listed_details) = merge_sort (item_le (mkPage 2 false no_key)) listed_details.
Proof.
  split; [vm_compute; reflexivity|]. apply (@pages_exhaustive ascii_case list_server 0%Z listed_sandboxes (mkPage 2 false no_key) 3);
    [reflexivity|simpl; lia| |vm_compute; lia]. apply (bool_decide_unpack _). vm_compute. exact I.
Defined.
