(* ===== verification/E2bGuest.v ===== *)
(** * envd inside a guest (pkg/e2bcompat/envd.go)

    The calls the e2b surface makes to a sandbox's envd, over its node's port
    relay: initialization, the environment of a built template, metrics, the
    hand-over of a forked child; and the line splitter of a process stream.

    An HTTP exchange over an open connection, the JSON decoders and the two hashes
    are parameters. *)

From S2P Require Import Prelude GoStd GoNum GoText GoCodec Api SandboxView Client StoreRead Store SandboxId E2bServer.

Definition envdPort : Z := 49983.
Definition envdReplyMax : nat := Z.to_nat (Z.shiftl 64 10).
Definition envdDefaultUser : string := "user".
Definition envdDefaultWorkdir : string := "/home/user".
Definition logLineMax : nat := Z.to_nat (Z.shiftl 64 10).

Record envdMetrics := mkEnvdMetrics {
  em_Timestamp : Z;
  em_CPUCount : Z;
  em_CPUUsedPct : Z;
  em_MemTotal : Z;
  em_MemUsed : Z;
  em_MemCache : Z;
  em_DiskUsed : Z;
  em_DiskTotal : Z;
}.

(** An absent map is an empty one: both are left out of the body. *)
Record envdInit := mkEnvdInit {
  ei_AccessToken : string;
  ei_EnvVars : gmap string string;
  ei_DefaultUser : string;
  ei_DefaultWorkdir : string;
  ei_Timestamp : time;
}.

(** A request to envd; the one body these calls send is [envdInit]. *)
Record guest_request := mkGuestRequest {
  gr_Method : string;
  gr_Path : string;
  gr_AccessToken : string;
  gr_Body : option envdInit;
}.

(** One request and its reply over a connection to the guest: [http.Request.Write],
    [http.ReadResponse] and the read of the body. *)
Class GuestHTTP (S : Type) := {
  exchange (conn : Conn) (req : guest_request) : io S (result (Z * string));
}.

(** [json.Unmarshal] into the two replies that are read. *)
Class GuestCodec := {
  decode_metrics : string → result envdMetrics;
  decode_envs : string → result (gmap string string);
}.

(** [AccessToken] is an HMAC of the claim token under the secret, [sha512_hex] the
    hexadecimal SHA-512 of a string. *)
Class EnvdHashes := {
  AccessToken : string → string → string;
  sha512_hex : string → string;
}.

Definition withRelay (route : string) (envs : gmap string string) : gmap string string :=
  if decide (route = NetRouteRelay) then envs ∪ RelayEnv else envs.

Section guest.
Context {S : Type} {T : SandboxStore S} {G : GuestHTTP S} {GC : GuestCodec} {H : EnvdHashes}.

(** [envdRoundTrip] and the bounded read of the reply. *)
Definition envdCallOver (node id relay method path token : string) (b : option envdInit) : io S (result (Z * string)) :=
  conn <-? DialGuestPort node id relay envdPort;;
  resp <-? exchange conn (mkGuestRequest method path token b);;
  mret (Ok (resp.1, str_take envdReplyMax resp.2)).

Definition envdCall (node id method path token : string) (b : option envdInit) : io S (result (Z * string)) :=
  envdCallOver node id "" method path token b.

Definition initEnvd (now : time) (node id relay : string) (req : envdInit) : io S (result unit) :=
  let req := mkEnvdInit (ei_AccessToken req) (ei_EnvVars req) (ei_DefaultUser req) (ei_DefaultWorkdir req) now in
  r ← envdCallOver node id relay "POST" "/init" "" (Some req);
  mret match r with
       | Err e => Err (ErrWrap "envd init of %s" [id] e)
       | Ok (status, _) =>
           if decide (status = 204)%Z then Ok tt else Err (ErrText "envd init of %s: envd answered %d" [id; format_int status])
       end.

(** The environment a built template's create sends: nothing keeps the template's,
    and a request's own come on top of it. *)
Definition templateEnvs (a : Assignment) (envs : gmap string string) : io S (result (gmap string string)) :=
  if decide (envs = ∅) then mret (Ok ∅)
  else
    r ← envdCall (as_Node a) (as_SandboxName a) "GET" "/envs" "" None;
    mret match r with
         | Err e => Err (ErrWrap "envd envs of %s" [as_SandboxName a] e)
         | Ok (status, b) =>
             if decide (status = 200)%Z then
               match decode_envs b with
               | Err e => Err (ErrWrap "decode envd envs of %s" [as_SandboxName a] e)
               | Ok out => Ok (envs ∪ out)
               end
             else Err (ErrText "envd envs of %s: envd answered %d" [as_SandboxName a; format_int status])
         end.

(** The metrics of a running sandbox; [None] for a paused one, which is never woken. *)
Definition readEnvdMetrics (secret node id : string) : io S (result (option envdMetrics)) :=
  rec <-? Read node id;;
  if sr_Paused rec then mret (Ok None)
  else
    r ← envdCall node id "GET" "/metrics" (AccessToken secret (sr_Token rec)) None;
    mret match r with
         | Err e => if IsConflict e then Ok None else Err (ErrWrap "envd metrics of %s" [id] e)
         | Ok (status, b) =>
             if decide (status = 200)%Z then
               match decode_metrics b with
               | Err e => Err (ErrWrap "decode envd metrics of %s" [id] e)
               | Ok m => Ok (Some m)
               end
             else Err (ErrText "envd metrics of %s: envd answered %d" [id; format_int status])
         end.

(** A forked child starts with its parent's token, which only the metadata hash
    overrides. *)
Definition token_document (token : string) : string :=
  let q := String "034" "" in
  "{" +:+ q +:+ "accessTokenHash" +:+ q +:+ ":" +:+ q +:+ sha512_hex token +:+ q +:+ "}".

Definition handOver (now : time) (child : Assignment) (token : string) : io S (result unit) :=
  _ <-? SetInstanceMetadata (as_Node child) (as_SandboxName child) (token_document token);;
  initEnvd now (as_Node child) (as_SandboxName child) "" (mkEnvdInit token ∅ "" "" zero_time).

(** Every claim is given back; a failed release is left to the lease. *)
Fixpoint releaseAll (claims : list Assignment) : io S unit :=
  match claims with
  | [] => mret tt
  | a :: claims => _ ← Release (as_Node a) (as_SandboxName a); releaseAll claims
  end.
End guest.

(** ** The line splitter *)

(** The buffer, and the lines handed out so far. *)
Record lineSplitter := mkSplitter { ls_buf : string; ls_out : list string }.

Definition flush (l : lineSplitter) : lineSplitter :=
  if decide (ls_buf l = "") then l else mkSplitter "" (ls_out l ++ [ls_buf l]).

(** The complete lines of a buffer, and what follows the last line break. *)
Fixpoint take_lines (buf : string) : list string * string :=
  match buf with
  | "" => ([], "")
  | String c r =>
      let '(lines, rest) := take_lines r in
      if decide (c = "010"%char) then ("" :: lines, rest)
      else match lines with
           | [] => ([], String c rest)
           | l :: lines => (String c l :: lines, rest)
           end
  end.

Definition write (p : string) (l : lineSplitter) : lineSplitter :=
  let '(lines, rest) := take_lines (ls_buf l +:+ p) in
  let l := mkSplitter rest (ls_out l ++ lines) in
  if decide (logLineMax < String.length (ls_buf l)) then flush l else l.

(** ** Lemmas *)

Definition text_lines (s : string) : list string :=
  let '(lines, rest) := take_lines s in lines ++ (if decide (rest = "") then [] else [rest]).

Definition split_stream (chunks : list string) : lineSplitter := flush (fold_left (λ l p, write p l) chunks (mkSplitter "" [])).

Lemma take_lines_app a b :
  take_lines (a +:+ b) = ((take_lines a).1 ++ (take_lines ((take_lines a).2 +:+ b)).1, (take_lines ((take_lines a).2 +:+ b)).2).
Proof.
  induction a as [|c a IH]; [cbn [take_lines fst snd app String.append]; apply surjective_pairing|].
  change (String c a +:+ b) with (String c (a +:+ b)). cbn [take_lines]. rewrite IH.
  destruct (take_lines a) as [la ra]. cbn [fst snd]. destruct (decide (c = "010"%char)) as [->|Hc]; [done|].
  destruct la as [|l la]; [|done]. cbn [app fst snd]. change (String c ra +:+ b) with (String c (ra +:+ b)). cbn [take_lines].
  destruct (take_lines (ra +:+ b)) as [lb rb]. rewrite !decide_False by done. by destruct lb.
Qed.

Lemma take_lines_rest a : has_byte "010" (take_lines a).2 = false.
Proof.
  induction a as [|c a IH]; [done|]. cbn [take_lines]. destruct (take_lines a) as [la ra]. cbn [snd] in IH.
  destruct (decide (c = "010"%char)) as [->|Hc]; [done|]. destruct la as [|l la]; [|done]. simpl.
  rewrite bool_decide_eq_false_2 by congruence. done.
Qed.

(** A text without a line break is put in front of the first line of what follows. *)
Lemma take_lines_prefix r b : has_byte "010" r = false →
  take_lines (r +:+ b) = match take_lines b with ([], rest) => ([], r +:+ rest) | (l :: ls, rest) => ((r +:+ l) :: ls, rest) end.
Proof.
  induction r as [|c r IH]; [intros _; change ("" +:+ b) with b; destruct (take_lines b) as [[|l ls] rest]; reflexivity|].
  simpl has_byte. intros [Hc Hr]%orb_false_iff. apply bool_decide_eq_false in Hc.
  change (String c r +:+ b) with (String c (r +:+ b)). cbn [take_lines]. rewrite IH by done.
  destruct (take_lines b) as [[|l ls] rest]; rewrite decide_False by (by intros ->); reflexivity.
Qed.

(** An unfinished line is no longer than the line it becomes. *)
Lemma unfinished_length a b n :
  Forall (λ l, String.length l ≤ n) (text_lines (a +:+ b)) → String.length (take_lines a).2 ≤ n.
Proof.
  unfold text_lines. rewrite take_lines_app, (take_lines_prefix (take_lines a).2 b) by apply take_lines_rest.
  set (ra := (take_lines a).2). destruct (take_lines b) as [[|l ls] rest]; cbn [fst snd]; rewrite !Forall_app.
  - intros [_ Hr]. case_decide as He.
    + destruct ra; [simpl; lia|done].
    + apply Forall_cons in Hr as [Hr _]. rewrite str_length_app in Hr. lia.
  - intros [[_ Hl] _]. apply Forall_cons in Hl as [Hl _]. rewrite str_length_app in Hl. lia.
Qed.

(** A build's log does not depend on how the stream is cut into messages: when
    no line outgrows [logLineMax], the lines handed out are exactly the lines of
    the whole output, whatever chunks it arrived in, the last one with or without
    its line break. *)
Lemma lines_of_stream (chunks : list string) :
  let text := join "" chunks in
  Forall (λ l, String.length l ≤ logLineMax) (text_lines text) → ls_out (split_stream chunks) = text_lines text.
Proof.
  intros text Hall. unfold split_stream.
  assert (∀ pre suf, chunks = pre ++ suf → fold_left (λ l p, write p l) pre (mkSplitter "" []) =
    mkSplitter (take_lines (join "" pre)).2 (take_lines (join "" pre)).1) as Hrun.
  { assert (∀ pre c, join "" (pre ++ [c]) = join "" pre +:+ c) as Hj.
    { intros pre c. induction pre as [|w [|w' ws] IH]; [done|done|]. change ((w :: w' :: ws) ++ [c]) with (w :: (w' :: ws) ++ [c]).
      simpl in *. rewrite IH. by rewrite !str_app_assoc. }
    assert (∀ pre suf, join "" (pre ++ suf) = join "" pre +:+ join "" suf) as Hjj.
    { intros pre suf. revert pre. induction suf as [|c suf IH]; intros pre; [by rewrite app_nil_r, str_app_nil_r|].
      change (c :: suf) with ([c] ++ suf). rewrite app_assoc, IH, Hj. destruct suf; simpl; by rewrite ?str_app_assoc, ?str_app_nil_r. }
    intros pre. induction pre as [|c pre IH] using rev_ind; intros suf Hsuf; [done|].
    rewrite fold_left_app, (IH (c :: suf)) by (by rewrite Hsuf, <-app_assoc). simpl. unfold write. cbn [ls_buf ls_out].
    rewrite Hj, (take_lines_app (join "" pre) c). destruct (take_lines ((take_lines (join "" pre)).2 +:+ c)) as [lines rest] eqn:Hl. cbn [fst snd ls_buf].
    rewrite decide_False; [done|]. apply Nat.nlt_ge.
    assert (rest = (take_lines (join "" (pre ++ [c]))).2) as ->.
    { rewrite Hj, (take_lines_app (join "" pre) c), Hl. done. }
    apply (unfinished_length _ (join "" suf)). rewrite <-Hjj, <-Hsuf. done. }
  rewrite (Hrun chunks []) by (by rewrite app_nil_r). fold text. unfold flush, text_lines. cbn [ls_buf ls_out].
  destruct (take_lines text) as [lines rest]. cbn [fst snd]. case_decide; simpl; [by rewrite app_nil_r|done].
Qed.

(** ** Witnesses *)

Lemma lines_of_stream_witness :
  ls_out (split_stream ["one"; ("" +:+ String "010" "tw"); "o"]) = ["one"; "two"].
Proof.
  apply (lines_of_stream ["one"; ("" +:+ String "010" "tw"); "o"]).
  apply (bool_decide_unpack _). vm_compute. reflexivity.
Defined.
