(* ===== verification/E2bTemplates.v ===== *)
(** * Built templates and their tags (pkg/e2bcompat/templates.go)

    A built template is a sandboxd template named e2b/<namespace>/<name> that some
    nodes hold; its tags are the labels of its newest copy.  Everything is read from
    the inventory, and what is written is read from the node first. *)

From S2P Require Import Prelude GoStd GoNum GoText GoCodec Api PoolKeys SandboxView Inventory Client StoreRead Store SandboxId E2bServer.

Definition defaultTag : string := "default".

Record templateHolder := mkHolder {
  th_node : string;
  th_key : PoolKey;
  th_digest : string;
  th_labels : gmap string string;
  th_created : time;
}.

Record builtTemplate := mkBuilt {
  bt_name : string;
  bt_holders : list templateHolder;
  bt_digests : gmap string Z;
  bt_created : time;
  bt_cpuCount : Z;
  bt_memoryMB : Z;
}.

(** The newest holder; the index of none panics. *)
Definition current (b : builtTemplate) : option templateHolder :=
  find_first (λ h, bool_decide (th_created h = bt_created b)) (bt_holders b).

(** The tags whose digest a holder still reports. *)
Definition liveOnly (b : builtTemplate) (labels : gmap string string) : gmap string string :=
  filter (λ p, 0 < default 0 (bt_digests b !! p.2))%Z labels.

Definition taggedNames (name : string) (tags : list string) : list string :=
  name :: ((λ tag, name +:+ ":" +:+ tag) <$> tags).

(** ** Grouping *)

Definition holder_of (node : string) (t : PromotedTemplate) : templateHolder :=
  mkHolder node (mkPoolKey (pt_Template t) (pt_Net t) (pt_Size t)) (pt_ContentDigest t) (pt_Labels t) (default zero_time (pt_CreatedAt t)).

(** The bare name of an operator-owned template under [scope]. *)
Definition built_name (scope only : string) (t : PromotedTemplate) : option string :=
  name ← cut_prefix scope (pt_Template t);
  if bool_decide (pt_Tenant t ≠ "") || (bool_decide (only ≠ "") && bool_decide (name ≠ only)) then None else Some name.

Definition add_holder (name node : string) (t : PromotedTemplate) (out : gmap string builtTemplate) : gmap string builtTemplate :=
  let b := default (mkBuilt name [] ∅ zero_time (pt_CPUCount t) (int32_wrap (Z.shiftr (pt_MemoryBytes t) 20))) (out !! name) in
  let h := holder_of node t in
  <[name := mkBuilt (bt_name b) (bt_holders b ++ [h])
      (<[th_digest h := (default 0 (bt_digests b !! th_digest h) + 1)%Z]> (bt_digests b))
      (if decide (bt_created b < th_created h)%Z then th_created h else bt_created b)
      (bt_cpuCount b) (bt_memoryMB b)]> out.

Definition add_template (scope only node : string) (out : gmap string builtTemplate) (t : PromotedTemplate) : gmap string builtTemplate :=
  match built_name scope only t with None => out | Some name => add_holder name node t out end.

Definition builtTemplates (nodes : list NodePools) (scope only : string) : gmap string builtTemplate :=
  fold_left (λ out inv, fold_left (add_template scope only (nps_Node inv)) (nps_Templates inv) out) nodes ∅.

Definition advertisedIn (nodes : list NodePools) (image : string) : bool :=
  existsb (λ inv, existsb (λ pc, bool_decide (pc_Template pc = image)) (nps_Pools inv)) nodes.

Definition templateScope (ns : string) : string := templatePrefix +:+ ns +:+ "/".

(** [strings.Cut(s, ":")]: what follows is empty without a colon. *)
Definition cut_tag (ref : string) : string * string := default (ref, "") (str_cut ":" ref).

(** A tag that names another build than the current one. *)
Definition other_tag (tag : string) : bool := bool_decide (tag ≠ "") && bool_decide (tag ≠ defaultTag).

(** ** Handlers *)

Section templates.
(** [buildUUID] is a UUID derived from a content digest. *)
Context {S : Type} {T : SandboxStore S} {I : InventorySource S} (buildUUID : string → string).

Definition inventories (s : Server) : io S (result (list NodePools)) :=
  if op_Inventory (sv_opts s) then gets NodeCapacities else mret (Err (ErrText "e2bcompat: no inventory source configured" [])).

(** The built template of a reference, or none, and whether an alias or a pool image
    has its name. *)
Definition resolveTemplate (s : Server) (ns ref : string) : io S (option builtTemplate * bool * option error) :=
  let aliased := bool_decide (is_Some (sv_aliases s !! ref)) in
  nodes ← inventories s;
  mret match nodes with
       | Err e => (None, aliased, Some e)
       | Ok nodes =>
           let '(name, tag) := cut_tag ref in
           let b := builtTemplates nodes (templateScope ns) name !! name in
           let b := match b with
                    | Some b =>
                        if other_tag tag && bool_decide (default "" (liveOnly b (default ∅ (th_labels <$> current b)) !! tag) = "")
                        then None else Some b
                    | None => None
                    end in
           (b, aliased || advertisedIn nodes ref, None)
       end.

(** [builtTemplate]: the refusal unless the name is a built template. *)
Definition builtTemplate_or (s : Server) (ns name : string) : io S (builtTemplate + reply) :=
  '(b, pool, err) ← resolveTemplate s ns name;
  mret match err, b with
       | Some _, _ => inr (RError 500 ["failed to look up the template"])
       | None, Some b => inl b
       | None, None =>
           if pool : bool then inr (RError 404 ["template %q is a pool image, not a built template"; name])
           else inr (RError 404 ["template %q not found"; name])
       end.

(** The tags as the current build's holder itself reports them. *)
Definition liveTags (b : builtTemplate) (h : templateHolder) : io S (result (gmap string string)) :=
  held ← NodeTemplates (th_node h);
  mret match held with
       | Err e => Err e
       | Ok held =>
           match find_first (λ t, bool_decide (mkPoolKey (pt_Template t) (pt_Net t) (pt_Size t) = th_key h)) held with
           | None => Ok ∅
           | Some t => Ok (liveOnly b (pt_Labels t))
           end
       end.

(** Every holder, in the order the fan-out reaches them; the first error is kept. *)
Fixpoint forEach (holders : list templateHolder) (fn : templateHolder → io S (result unit)) : io S (result unit) :=
  match holders with
  | [] => mret (Ok tt)
  | h :: holders =>
      r ← fn h;
      rest ← forEach holders fn;
      mret match r with Err e => Err (ErrWrap "node %s" [th_node h] e) | Ok _ => rest end
  end.
Definition forEachHolder (ord : list templateHolder → list templateHolder) (holders : list templateHolder)
    (fn : templateHolder → io S (result unit)) : io S (result unit) := forEach (ord holders) fn.

Definition writeTags (ord : list templateHolder → list templateHolder) (b : builtTemplate) (tags : gmap string string) : io S (result unit) :=
  forEachHolder ord (bt_holders b) (λ h, SetTemplateLabels (th_node h) (th_key h) tags (th_digest h)).

Definition writeTagError (e : error) : reply :=
  match errors_as status_of e with
  | Some (code, m) => if decide (400 ≤ code < 500)%Z then RError code m else RError 500 ["failed to update the template's tags"]
  | None => RError 500 ["failed to update the template's tags"]
  end.

(** A built template, its newest holder and its tags, for the tag handlers. *)
Definition with_tags (s : Server) (ns name : string)
    (k : builtTemplate → templateHolder → gmap string string → io S reply) : io S reply :=
  found ← builtTemplate_or s ns name;
  match found with
  | inr r => mret r
  | inl b =>
      match current b with
      | None => mret RPanic
      | Some h =>
          tags ← liveTags b h;
          match tags with Err e => mret (writeTagError e) | Ok tags => k b h tags end
      end
  end.

(** [tags[t] = digest] for every [t]. *)
Definition set_tags (digest : string) (ts : list string) (tags : gmap string string) : gmap string string :=
  fold_left (λ m t, <[t := digest]> m) ts tags.
Definition drop_tags (ts : list string) (tags : gmap string string) : gmap string string :=
  fold_left (λ m t, delete t m) ts tags.

Definition assignTemplateTags (s : Server) (ord : list templateHolder → list templateHolder) (ns : string)
    (b : body (string * list string)) : io S reply :=
  decodeBody b (λ '(target, newTags),
    if bool_decide (newTags = []) || bool_decide ("" ∈ newTags) then mret (RError 400 ["tags must name at least one non-empty tag"])
    else
      let '(name, tag) := cut_tag target in
      with_tags s ns name (λ b h tags,
        match (if other_tag tag then tags !! tag else Some (th_digest h)) with
        | None => mret (RError 404 ["template %q has no tag %q"; name; tag])
        | Some digest =>
            r ← writeTags ord b (set_tags digest newTags tags);
            mret match r with Err e => writeTagError e | Ok _ => writeJSON 201 (DAssigned newTags (buildUUID digest)) end
        end)).

Definition deleteTemplateTags (s : Server) (ord : list templateHolder → list templateHolder) (ns : string)
    (b : body (string * list string)) : io S reply :=
  decodeBody b (λ '(target, oldTags),
    with_tags s ns (cut_tag target).1 (λ b h tags,
      r ← writeTags ord b (drop_tags oldTags tags);
      mret match r with Err e => writeTagError e | Ok _ => RStatus 204 end)).

(** [deleteTemplate]; [deleteSnapshot] is what it does with an id no built template has. *)
Definition deleteTemplate (s : Server) (ord : list templateHolder → list templateHolder) (ns name : string)
    (deleteSnapshot : io S reply) : io S reply :=
  '(b, _, err) ← resolveTemplate s ns name;
  match err, b with
  | Some _, _ => mret (RError 500 ["failed to delete the template"])
  | None, None => deleteSnapshot
  | None, Some b =>
      r ← forEachHolder ord (bt_holders b) (λ h, DeleteTemplate (th_node h) (th_key h) "");
      mret match r with Err _ => RError 500 ["failed to delete the template"] | Ok _ => RStatus 204 end
  end.

(** *** Reads *)

Definition digests_sorted (b : builtTemplate) : list string := sorted_keys (bt_digests b).

Definition names (b : builtTemplate) : list string :=
  taggedNames (bt_name b) (sorted_keys (liveOnly b (default ∅ (th_labels <$> current b)))).
Definition digest (b : builtTemplate) : string := default "" (th_digest <$> current b).

(** The pool images, each once in the order first seen, then the built templates. *)
Fixpoint pool_templates (s : Server) (pools : list PoolCapacity) (seen : list string) : list TemplateInfo :=
  match pools with
  | [] => []
  | pc :: pools =>
      if decide (pc_Template pc = "" ∨ pc_Template pc ∈ seen) then pool_templates s pools seen
      else mkTemplateInfo (pc_Template pc) (pc_Template pc) 0 0 (default [] (sv_imageAliases s !! pc_Template pc)) [pc_Template pc] "" 0
             (op_EnvdVersion (sv_opts s)) :: pool_templates s pools (pc_Template pc :: seen)
  end.

Definition built_info (s : Server) (b : builtTemplate) : TemplateInfo :=
  mkTemplateInfo (bt_name b) (buildUUID (digest b)) (bt_cpuCount b) (bt_memoryMB b) [bt_name b] (names b)
    (format_rfc3339 (bt_created b)) (Z.of_nat (size (bt_digests b))) (op_EnvdVersion (sv_opts s)).

Definition listTemplates (s : Server) (ns : string) : io S reply :=
  nodes ← inventories s;
  mret match nodes with
       | Err _ => RError 500 ["failed to list templates"]
       | Ok nodes =>
           let built := builtTemplates nodes (templateScope ns) "" in
           writeJSON 200 (DTemplates (pool_templates s (concat (nps_Pools <$> nodes)) [] ++
                                      omap (λ name, built_info s <$> built !! name) (sorted_keys built)))
       end.

Definition getTemplate (s : Server) (ns name : string) : io S reply :=
  found ← builtTemplate_or s ns name;
  mret match found with
       | inr r => r
       | inl b =>
           let created := format_rfc3339 (bt_created b) in
           writeJSON 200 (DTemplate (bt_name b) (names b) created
             ((λ d, mkTemplateBuild (buildUUID d) created (bt_cpuCount b) (bt_memoryMB b) (op_EnvdVersion (sv_opts s))) <$> digests_sorted b))
       end.

Definition templateSub (s : Server) (ns name sub : string) : io S reply :=
  if negb (bool_decide (sub = "tags")) then mret (RError 404 ["not found"])
  else with_tags s ns name (λ b _ tags,
    let created := format_rfc3339 (bt_created b) in
    mret (writeJSON 200 (DTags ((λ tag, mkTemplateTag tag (buildUUID (default "" (tags !! tag))) created) <$> sorted_keys tags)))).

Definition templateAlias (s : Server) (ns alias : string) : io S reply :=
  match sv_aliases s !! alias with
  | Some key => mret (writeJSON 200 (DAlias (pk_Template key)))
  | None =>
      '(b, pool, err) ← resolveTemplate s ns alias;
      mret match err with
           | None => if bool_decide (is_Some b) || pool then writeJSON 200 (DAlias alias) else RError 404 ["template alias %q not found"; alias]
           | Some _ => RError 404 ["template alias %q not found"; alias]
           end
  end.

Definition patchTemplate (s : Server) (ns name : string) (b : body unit) : io S reply :=
  decodeOptionalBody tt b (λ _,
    found ← builtTemplate_or s ns name;
    mret match found with inr r => r | inl _ => RStatus 200 end).
End templates.

(** ** Specification *)

(** The copies of a template the inventory reports, in its order. *)
Definition copies (nodes : list NodePools) : list (string * PromotedTemplate) :=
  concat ((λ inv, pair (nps_Node inv) <$> nps_Templates inv) <$> nodes).
Definition holder_named (scope only name : string) (c : string * PromotedTemplate) : option templateHolder :=
  if decide (built_name scope only c.2 = Some name) then Some (holder_of c.1 c.2) else None.

(** A built template as its holders make it. *)
Record built_from (name : string) (hs : list templateHolder) (b : builtTemplate) : Prop := {
  bf_name : bt_name b = name;
  bf_holders : bt_holders b = hs;
  bf_newest : ∀ h, h ∈ hs → (th_created h ≤ bt_created b)%Z;
  bf_created : bt_created b = zero_time ∨ ∃ h, h ∈ hs ∧ th_created h = bt_created b;
  bf_digests : ∀ d, (0 < default 0 (bt_digests b !! d))%Z ↔ ∃ h, h ∈ hs ∧ th_digest h = d;
  bf_counts : ∀ d, (0 ≤ default 0 (bt_digests b !! d))%Z;
}.

(** ** Lemmas: grouping *)

Lemma builtTemplates_copies nodes scope only :
  builtTemplates nodes scope only = fold_left (λ out c, add_template scope only c.1 out c.2) (copies nodes) ∅.
Proof.
  unfold builtTemplates, copies. generalize (∅ : gmap string builtTemplate). induction nodes as [|inv nodes IH]; intros out; [done|].
  csimpl. rewrite fold_left_app, IH. f_equal. clear. generalize dependent out. induction (nps_Templates inv) as [|t ts IHt]; intros out; [done|].
  csimpl. by rewrite IHt.
Qed.

Lemma built_from_add name hs b h :
  built_from name hs b →
  built_from name (hs ++ [h]) (mkBuilt (bt_name b) (bt_holders b ++ [h])
    (<[th_digest h := (default 0 (bt_digests b !! th_digest h) + 1)%Z]> (bt_digests b))
    (if decide (bt_created b < th_created h)%Z then th_created h else bt_created b) (bt_cpuCount b) (bt_memoryMB b)).
Proof.
  intros [Hn Hh Hnew Hc Hd Hpos]. split; simpl; [done|by rewrite Hh| | | |].
  - intros h' [Hin| ->%list_elem_of_singleton]%elem_of_app; [specialize (Hnew _ Hin)|]; case_decide; lia.
  - case_decide as Hlt.
    + right. exists h. split; [apply elem_of_app; right; constructor|done].
    + destruct Hc as [?|(h' & ? & ?)]; [by left|right]. exists h'. split; [by apply elem_of_app; left|done].
  - intros d. destruct (decide (th_digest h = d)) as [<-|Hne].
    + rewrite lookup_insert_eq. simpl. specialize (Hpos (th_digest h)). split; [|lia].
      intros _. exists h. split; [apply elem_of_app; right; constructor|done].
    + rewrite lookup_insert_ne by done. rewrite Hd. split.
      * intros (h' & ? & ?). exists h'. split; [by apply elem_of_app; left|done].
      * intros (h' & [?| ->%list_elem_of_singleton]%elem_of_app & ?); [by exists h'|done].
  - intros d. destruct (decide (th_digest h = d)) as [<-|Hne].
    + rewrite lookup_insert_eq. simpl. specialize (Hpos (th_digest h)). lia.
    + rewrite lookup_insert_ne by done. apply Hpos.
Qed.

Lemma built_from_none name cpu mem : built_from name [] (mkBuilt name [] ∅ zero_time cpu mem).
Proof.
  split; simpl; [done|done|by intros h Hh%not_elem_of_nil|by left| |intros d; by rewrite lookup_empty].
  intros d. rewrite lookup_empty. simpl. split; [lia|]. by intros (h & Hh%not_elem_of_nil & _).
Qed.

(** The newest copy is held, when no copy is older than time itself. *)
Lemma current_held name hs b : built_from name hs b → hs ≠ [] → Forall (λ h, (zero_time ≤ th_created h)%Z) hs →
  ∃ h, current b = Some h ∧ h ∈ hs ∧ ∀ h', h' ∈ hs → (th_created h' ≤ th_created h)%Z.
Proof.
  intros [_ Hh Hnew Hc _ _] Hne Hz. unfold current. rewrite Hh.
  assert (∃ h, h ∈ hs ∧ th_created h = bt_created b) as (h0 & Hin & He).
  { destruct Hc as [Hc|?]; [|done]. destruct hs as [|h hs]; [done|]. exists h. split; [constructor|].
    apply Forall_cons in Hz as [Hz _]. specialize (Hnew h ltac:(constructor)). lia. }
  destruct (find_first (λ h, bool_decide (th_created h = bt_created b)) hs) as [h|] eqn:Hf.
  - apply find_first_Some in Hf as [Hi Hb%bool_decide_eq_true]. exists h. split; [done|]. split; [done|]. intros h' Hh'.
    rewrite Hb. by apply Hnew.
  - pose proof (proj1 (find_first_None _ _) Hf _ Hin) as Hb. by apply bool_decide_eq_false in Hb.
Qed.

(** The copies of one name, grouped. *)
Lemma builtTemplates_groups (nodes : list NodePools) (scope only name : string) :
  let hs := omap (holder_named scope only name) (copies nodes) in
  match builtTemplates nodes scope only !! name with
  | None => hs = []
  | Some b => hs ≠ [] ∧ built_from name hs b
  end.
Proof.
  rewrite builtTemplates_copies. intros hs.
  set (P := λ (cs : list (string * PromotedTemplate)) (out : gmap string builtTemplate),
    match out !! name with
    | None => omap (holder_named scope only name) cs = []
    | Some b => omap (holder_named scope only name) cs ≠ [] ∧ built_from name (omap (holder_named scope only name) cs) b
    end).
  change (P (copies nodes) (fold_left (λ out c, add_template scope only c.1 out c.2) (copies nodes) ∅)).
  apply (fold_left_inv _ P); [unfold P; by rewrite lookup_empty|]. intros cs c suf out _ Hout. unfold P in *. rewrite omap_app. csimpl.
  unfold add_template, holder_named at 2 4 6. destruct (built_name scope only c.2) as [name'|] eqn:Hb; [|by rewrite decide_False, app_nil_r].
  unfold add_holder. destruct (decide (name' = name)) as [->|Hne].
  - rewrite lookup_insert_eq, decide_True by done. split; [by destruct (omap _ cs)|].
    destruct (out !! name) as [b|]; simpl; [apply built_from_add, Hout|]. rewrite Hout.
    exact (built_from_add name [] _ (holder_of c.1 c.2) (built_from_none name _ _)).
  - rewrite lookup_insert_ne by done. rewrite decide_False by congruence. rewrite app_nil_r. done.
Qed.

(** ** Properties: grouping *)

(** the built templates of a namespace are exactly what the fleet holds under
    its prefix: a name is listed if and only if some node reports an operator-owned
    copy of it, its holders are all these copies and no others, its live digests are
    theirs, and its current build is a newest copy. *)
Theorem builtTemplates_spec (nodes : list NodePools) (scope only name : string) :
  let hs := omap (holder_named scope only name) (copies nodes) in
  match builtTemplates nodes scope only !! name with
  | None => hs = []
  | Some b => hs ≠ [] ∧ built_from name hs b ∧
      (Forall (λ h, (zero_time ≤ th_created h)%Z) hs →
       ∃ h, current b = Some h ∧ h ∈ hs ∧ ∀ h', h' ∈ hs → (th_created h' ≤ th_created h)%Z)
  end.
Proof.
  pose proof (builtTemplates_groups nodes scope only name) as Hg. cbv zeta in *.
  destruct (_ !! name) as [b|]; [|done]. destruct Hg as [Hne Hb]. split; [done|]. split; [done|].
  intros Hz. by eapply current_held.
Qed.

(** ** What the tag handlers write *)

Section recorded.
Context {S : Type} (T : SandboxStore S) (I : InventorySource S) (buildUUID : string → string).

(** A handler's calls, one per holder in the order they are reached. *)
Lemma forEach_recorded (fn : templateHolder → io (list store_call * S) (result unit)) (mk : templateHolder → result unit → store_call) :
  (∀ h l st, (fn h (l, st)).2.1 = l ++ [mk h (fn h (l, st)).1]) →
  ∀ hs l st, ∃ rs, (forEach hs fn (l, st)).2.1 = l ++ zip_with mk hs rs ∧ length rs = length hs ∧
    is_ok (forEach hs fn (l, st)).1 = forallb is_ok rs.
Proof.
  intros Hfn hs. induction hs as [|h hs IH]; intros l st; [by exists []; rewrite app_nil_r|]. cbn [forEach].
  rewrite !bind_run. specialize (Hfn h l st). destruct (fn h (l, st)) as [r [l1 st1]]. cbn [fst snd] in *. subst l1.
  destruct (IH (l ++ [mk h r]) st1) as (rs & Hl & Hlen & Hok).
  destruct (forEach hs fn (l ++ [mk h r], st1)) as [rest [l2 st2]]. cbn [fst snd mret io_ret] in *. subst l2.
  exists (r :: rs). cbn [zip_with length forallb]. split; [by rewrite <-app_assoc|]. split; [by rewrite Hlen|].
  destruct r; simpl; [done|done].
Qed.

(** The two handlers that write tags. *)
Inductive tag_op := Assign (target : string) (ts : list string) | Unassign (target : string) (ts : list string).
Definition tag_target (op : tag_op) : string := match op with Assign t _ | Unassign t _ => t end.
Definition run_tags (s : Server) (ord : list templateHolder → list templateHolder) (ns : string) (op : tag_op) :
    io (list store_call * S) reply :=
  match op with
  | Assign t ts => assignTemplateTags (T := recorded_store T) (I := logged_source I) buildUUID s ord ns (Decoded (t, ts))
  | Unassign t ts => deleteTemplateTags (T := recorded_store T) (I := logged_source I) s ord ns (Decoded (t, ts))
  end.

(** The tags wanted, over the live ones: the named tags point at one live build, or
    are gone, and the others are as they were. *)
Definition tags_wanted (op : tag_op) (b : builtTemplate) (h : templateHolder) (live tags : gmap string string) : Prop :=
  match op with
  | Assign target ts =>
      ts ≠ [] ∧ ("" ∉ ts) ∧
      ∃ d, (let tag := (cut_tag target).2 in if other_tag tag then live !! tag = Some d else d = th_digest h) ∧
        ∀ t, tags !! t = if decide (t ∈ ts) then Some d else live !! t
  | Unassign _ ts => ∀ t, tags !! t = if decide (t ∈ ts) then None else live !! t
  end.

Lemma set_tags_lookup d ts tags t : set_tags d ts tags !! t = if decide (t ∈ ts) then Some d else tags !! t.
Proof.
  unfold set_tags. revert tags. induction ts as [|x ts IH]; intros tags; [by rewrite decide_False by apply not_elem_of_nil|].
  simpl. rewrite IH. destruct (decide (t ∈ ts)) as [Hin|Hni]; [by rewrite decide_True by (by right)|].
  destruct (decide (t = x)) as [->|Hne]; [by rewrite lookup_insert_eq, decide_True by constructor|].
  rewrite lookup_insert_ne by done. rewrite decide_False; [done|]. by intros [?|?]%elem_of_cons.
Qed.
Lemma drop_tags_lookup ts tags t : drop_tags ts tags !! t = if decide (t ∈ ts) then None else tags !! t.
Proof.
  unfold drop_tags. revert tags. induction ts as [|x ts IH]; intros tags; [by rewrite decide_False by apply not_elem_of_nil|].
  simpl. rewrite IH. destruct (decide (t ∈ ts)) as [Hin|Hni]; [by rewrite decide_True by (by right)|].
  destruct (decide (t = x)) as [->|Hne]; [by rewrite lookup_delete_eq, decide_True by constructor|].
  rewrite lookup_delete_ne by done. rewrite decide_False; [done|]. by intros [?|?]%elem_of_cons.
Qed.

Lemma cut_tag_bare ref : cut_tag (cut_tag ref).1 = ((cut_tag ref).1, "").
Proof.
  unfold cut_tag. destruct (str_cut ":" ref) as [[a b]|] eqn:Hc; simpl.
  - apply str_cut_byte_Some in Hc as [_ Ha]. by rewrite (proj2 (str_cut_byte_None ":" a)).
  - by rewrite Hc.
Qed.

Lemma resolveTemplate_run s ns name (l : list store_call) st : cut_tag name = (name, "") →
  resolveTemplate (I := logged_source I) s ns name (l, st) =
  (match (if op_Inventory (sv_opts s) then NodeCapacities st else Err (ErrText "e2bcompat: no inventory source configured" [])) with
   | Err e => (None, bool_decide (is_Some (sv_aliases s !! name)), Some e)
   | Ok nodes => (builtTemplates nodes (templateScope ns) name !! name, bool_decide (is_Some (sv_aliases s !! name)) || advertisedIn nodes name, None)
   end, (l, st)).
Proof.
  intros Hcut. unfold resolveTemplate, inventories. rewrite Hcut. destruct (op_Inventory (sv_opts s)); [|done]. rewrite bind_run.
  cbn [gets fst snd logged_source NodeCapacities]. destruct (NodeCapacities st) as [nodes|]; [|done].
  cbn [fst snd mret io_ret]. destruct (builtTemplates nodes (templateScope ns) name !! name); reflexivity.
Qed.

Lemma builtTemplate_or_run s ns name (l : list store_call) st : cut_tag name = (name, "") →
  (∃ r, builtTemplate_or (I := logged_source I) s ns name (l, st) = (inr r, (l, st)) ∧ is_success r = false) ∨
  ∃ nodes b, builtTemplate_or (I := logged_source I) s ns name (l, st) = (inl b, (l, st)) ∧
    NodeCapacities st = Ok nodes ∧ builtTemplates nodes (templateScope ns) name !! name = Some b.
Proof.
  intros Hcut. unfold builtTemplate_or. rewrite bind_run, (resolveTemplate_run s ns name l st Hcut).
  destruct (op_Inventory (sv_opts s)); [|left; by eexists]. destruct (NodeCapacities st) as [nodes|]; [|left; by eexists].
  destruct (builtTemplates nodes (templateScope ns) name !! name) as [b|] eqn:Hb; [right; by exists nodes, b|].
  left. destruct (_ || _); by eexists.
Qed.

(** A built template of the caller's, its newest copy and its tags as its own node
    reports them. *)
Record tagged (ns name : string) (st : S) (b : builtTemplate) (h : templateHolder) (live : gmap string string) (hs : list templateHolder) : Prop := {
  tg_copies : ∃ nodes, NodeCapacities st = Ok nodes ∧ hs = omap (holder_named (templateScope ns) name name) (copies nodes);
  tg_built : built_from name hs b;
  tg_current : current b = Some h;
  tg_live : ∃ held, (NodeTemplates (th_node h) st).1 = Ok held ∧
    live = default ∅ ((λ t, liveOnly b (pt_Labels t)) <$>
      find_first (λ t, bool_decide (mkPoolKey (pt_Template t) (pt_Net t) (pt_Size t) = th_key h)) held);
}.

(** What precedes the write calls nobody, and ends early only in a refusal. *)
Lemma with_tags_run s ns name k (l : list store_call) st : cut_tag name = (name, "") →
  (∃ r st', with_tags (T := recorded_store T) (I := logged_source I) s ns name k (l, st) = (r, (l, st')) ∧ is_success r = false) ∨
  ∃ b h live hs st', with_tags (T := recorded_store T) (I := logged_source I) s ns name k (l, st) = k b h live (l, st') ∧ tagged ns name st b h live hs.
Proof.
  intros Hcut. unfold with_tags. rewrite bind_run.
  destruct (builtTemplate_or_run s ns name l st Hcut) as [(r & -> & Hr)|(nodes & b & -> & Hn & Hb)]; cbn [fst snd];
    [left; by exists r, st|].
  pose proof (builtTemplates_groups nodes (templateScope ns) name name) as Hs. cbv zeta in Hs. rewrite Hb in Hs. destruct Hs as (_ & Hs).
  destruct (current b) as [h|] eqn:Hcur; [|left; by eexists _, _]. unfold liveTags. rewrite !bind_run, recorded_NodeTemplates. cbn [fst snd].
  destruct (NodeTemplates (th_node h) st) as [[held|e] st1] eqn:Hh; cbn [fst snd mret io_ret].
  2:{ left. eexists _, _. split; [done|]. unfold writeTagError. by repeat case_match. }
  right. exists b, h, (default ∅ ((λ t, liveOnly b (pt_Labels t)) <$>
    find_first (λ t, bool_decide (mkPoolKey (pt_Template t) (pt_Net t) (pt_Size t) = th_key h)) held)), (omap (holder_named (templateScope ns) name name) (copies nodes)), st1.
  split; [by destruct (find_first _ held)|]. split; [by exists nodes|done|done|]. exists held. by rewrite Hh.
Qed.

(** Writing one set of tags to every copy. *)
Lemma writeTags_run ord (b : builtTemplate) tags hs name l (st : S) : built_from name hs b → ∃ rs,
  (writeTags (T := recorded_store T) ord b tags (l, st)).2.1 =
    l ++ zip_with (λ h r, SCSetTemplateLabels (th_node h) (th_key h) tags (th_digest h) r) (ord hs) rs ∧
  length rs = length (ord hs) ∧ is_ok (writeTags (T := recorded_store T) ord b tags (l, st)).1 = forallb is_ok rs.
Proof.
  intros [_ Hh _ _ _ _]. unfold writeTags, forEachHolder. rewrite Hh.
  apply (forEach_recorded _ (λ h r, SCSetTemplateLabels (th_node h) (th_key h) tags (th_digest h) r)).
  intros h l1 st1. by rewrite recorded_SetTemplateLabels.
Qed.

(** The outcome of a tag handler: the calls it made and the set it wrote. *)
Definition tags_outcome (ord : list templateHolder → list templateHolder) (ns : string) (op : tag_op) (st : S)
    (l l' : list store_call) (r : reply) : Prop :=
  (l' = l ∧ is_success r = false) ∨
  ∃ b h live hs tags rs, tagged ns (cut_tag (tag_target op)).1 st b h live hs ∧ tags_wanted op b h live tags ∧
    l' = l ++ zip_with (λ h r, SCSetTemplateLabels (th_node h) (th_key h) tags (th_digest h) r) (ord hs) rs ∧
    length rs = length (ord hs) ∧ is_success r = forallb is_ok rs.

Lemma writeTagError_fails e : is_success (writeTagError e) = false.
Proof. unfold writeTagError. by repeat case_match. Qed.

(** The end of both handlers: the tags are written and the result is answered. *)
Lemma write_outcome ord ns op st st' (b : builtTemplate) h live hs tags (good : reply) (l : list store_call) :
  tagged ns (cut_tag (tag_target op)).1 st b h live hs → tags_wanted op b h live tags → is_success good = true →
  let res := (r ← writeTags (T := recorded_store T) ord b tags;
              mret match r with Err e => writeTagError e | Ok _ => good end) (l, st') in
  tags_outcome ord ns op st l res.2.1 res.1.
Proof.
  intros Htg Hw Hgood. cbv zeta. rewrite bind_run. destruct (writeTags_run ord b tags hs _ l st' (tg_built _ _ _ _ _ _ _ Htg)) as (rs & Hl & Hlen & Hok).
  destruct (writeTags _ _ _ _) as [r [l' st'']]. cbn [fst snd mret io_ret] in *. right. exists b, h, live, hs, tags, rs.
  split; [done|]. split; [done|]. split; [done|]. split; [done|]. rewrite <-Hok. destruct r; [done|apply writeTagError_fails].
Qed.

(** C27: a tag is written where its template lives and nowhere else: assigning or
    removing tags either calls nobody and fails, or writes one and the same set of
    tags to every copy of the named template of the caller's namespace, each under
    the build that copy was seen with, and succeeds exactly when every node took
    it.  The set is the tags the newest copy's node itself reports, with the named
    ones set to one live build or removed. *)
Theorem tags_written (s : Server) (ord : list templateHolder → list templateHolder) (ns : string) (op : tag_op) (l : list store_call) (st : S) :
  let res := run_tags s ord ns op (l, st) in tags_outcome ord ns op st l res.2.1 res.1.
Proof.
  cbv zeta. destruct op as [target ts|target ts]; unfold run_tags.
  - unfold assignTemplateTags, decodeBody. destruct (_ || _) eqn:Hts; [by left|].
    apply orb_false_iff in Hts as [Hne%bool_decide_eq_false Hni%bool_decide_eq_false].
    pose proof (cut_tag_bare target) as Hbare. destruct (cut_tag target) as [name tag] eqn:Hcut. cbn [fst] in *.
    match goal with |- context [with_tags s ns name ?k] =>
      destruct (with_tags_run s ns name k l st Hbare) as [(r & st' & -> & ?)|(b & h & live & hs & st' & -> & Htg)] end; [by left|].
    destruct (if other_tag tag then live !! tag else _) as [d|] eqn:Hd; [|by left].
    apply (write_outcome ord ns (Assign target ts) st st' b h live hs); [by cbn [tag_target]; rewrite Hcut| |done].
    split; [done|]. split; [done|]. exists d. rewrite Hcut. cbn [snd]. split; [|intros t; apply set_tags_lookup].
    destruct (other_tag tag); [done|by simplify_eq].
  - unfold deleteTemplateTags, decodeBody.
    match goal with |- context [with_tags s ns _ ?k] =>
      destruct (with_tags_run s ns _ k l st (cut_tag_bare target)) as [(r & st' & -> & ?)|(b & h & live & hs & st' & -> & Htg)] end; [by left|].
    apply (write_outcome ord ns (Unassign target ts) st st' b h live hs); [done|intros t; apply drop_tags_lookup|done].
Qed.
End recorded.
