(* ===== verification/E2bSandboxes.v ===== *)
(** * The sandbox handlers of the e2b surface (pkg/e2bcompat/server.go, lifecycle.go)

    Create, read, delete, lease renewal, pause, connect and resume, fork, snapshots,
    metrics and logs, as translations of a request to calls of the store. *)

From S2P Require Import Prelude GoStd GoNum GoText GoCodec Api PoolKeys SandboxView Inventory Client StoreRead StoreLifecycle StoreClaim Store.
From S2P Require Import SandboxId E2bServer E2bGuest E2bTemplates.

Definition maxMetricsIDs : nat := 100.
Definition connectFailure : string := "failed to connect the sandbox".

(** The bodies of the lifecycle requests; an absent field is [None]. *)
Record ConnectSandbox := mkConnect { cn_Timeout : option Z; cn_Memory : option bool }.
Record ResumedSandbox := mkResumed { re_Connect : ConnectSandbox; re_AutoPause : option bool }.
Record SandboxForkRequest := mkForkRequest { fr_Timeout : option Z; fr_Count : option Z }.

(** [int(math.Ceil(d.Seconds()))] of a duration of either sign: the seconds of a
    negative one are those of its opposite, negated. *)
Definition floor64 (a : float64) : Z := if decide (f_e a < 0)%Z then (f_m a / 2 ^ (- f_e a))%Z else (f_m a * 2 ^ f_e a)%Z.
Definition ceil_secs (d : Z) : Z := if decide (d < 0)%Z then (- floor64 (seconds64 (- d)))%Z else ceil_seconds d.

(** [expireFor] *)
Definition expireFor (autoPause : option bool) : ExpireAction :=
  match autoPause with None => "" | Some true => ExpireArchive | Some false => ExpireDestroy end.

Definition snapshotInfo (snap : Api.Snapshot) : SnapshotInfo :=
  mkSnapshotInfo (sn_ID snap) (if decide (sn_Name snap = "") then [] else [sn_Name snap]).

(** A sample without a time of its own is stamped with the clock. *)
Definition metricOf (now : time) (m : envdMetrics) : SandboxMetric :=
  let at_ := if decide (em_Timestamp m = 0)%Z then now else (em_Timestamp m * second)%Z in
  mkMetric (format_rfc3339 at_) (unix_seconds at_) (em_CPUCount m) (em_CPUUsedPct m) (em_MemUsed m) (em_MemTotal m)
    (em_MemCache m) (em_DiskUsed m) (em_DiskTotal m).

Fixpoint sandbox_ids (raw : list string) (ids : list string) : result (list string) :=
  match raw with
  | [] => Ok ids
  | id :: raw =>
      let id := trim_space id in
      if decide (id = "") then Err (ErrText "sandbox_ids must list comma-separated sandbox ids" [])
      else if decide (length ids = maxMetricsIDs) then Err (ErrText "sandbox_ids must list at most %d ids" [])
      else if decide (id ∈ ids) then Err (ErrText "sandbox_ids repeats %q" [id])
      else sandbox_ids raw (ids ++ [id])
  end.
Definition sandboxIDsOf (raw : string) : result (list string) := sandbox_ids (split_byte "," raw) [].

Section sandboxes.
Context {S : Type} {T : SandboxStore S} {I : InventorySource S} {G : GuestHTTP S} {GC : GuestCodec} {H : EnvdHashes} {U : CaseMap}.

(** ** Create *)

(** The pool a create claims from, and what it asks of the claim. *)
Definition createPool (s : Server) (req : NewSandbox) : PoolKey :=
  let pool := poolKey s (nw_TemplateID req) in
  mkPoolKey (pk_Template pool) (netFor (nw_AllowInternetAccess req)) (pk_Size pool).
Definition createOptions (s : Server) (req : NewSandbox) (promoted : bool) : ClaimOptions :=
  mkClaimOptions (timeoutSeconds s (nw_Timeout req)) (nw_Metadata req)
    (if decide (nw_AutoPause req = Some true) then ExpireArchive else "")
    (bool_decide (nw_AllowInternetAccess req = Some false)) promoted.

(** The claim: from the warm pool, else from a built template of that name when no
    pool has it.  With it, whether the template is known and whether it was built;
    [None] is the panic of [current]. *)
Definition createClaim (s : Server) (ns name : string) (req : NewSandbox) : io S (option (result Assignment * bool * bool)) :=
  a ← Claim ns name (createPool s req) (createOptions s req false);
  match a with
  | Err e =>
      if IsNoWarmCapacity e then
        '(b, pooled, lookupErr) ← resolveTemplate s ns (nw_TemplateID req);
        match lookupErr, b with
        | None, Some b =>
            if pooled : bool then mret (Some (a, true, false))
            else match current b with
                 | None => mret None
                 | Some h =>
                     a ← Claim ns name (th_key h) (createOptions s req true);
                     mret (Some (a, true, true))
                 end
        | None, None => mret (Some (a, pooled, false))
        | Some _, _ => mret (Some (a, true, false))
        end
      else mret (Some (a, true, false))
  | Ok _ => mret (Some (a, true, false))
  end.

Definition createRefusal (req : NewSandbox) (known : bool) (e : error) : reply :=
  if IsNoWarmCapacity e then
    if negb known then RError 404 ["template %q not found"; nw_TemplateID req]
    else RError 503 ["no warm sandbox available for template %q; retry as warm capacity refills"; nw_TemplateID req]
  else match errors_as http_of e with
       | Some (code, m) => if decide (code = 400 ∨ code = 409)%Z then RError code [m] else RError 500 ["failed to claim a sandbox"]
       | None => RError 500 ["failed to claim a sandbox"]
       end.

(** The claimed sandbox's envd, initialized. *)
Definition createInit (now : time) (req : NewSandbox) (built : bool) (token : string) (a : Assignment) : io S (result unit) :=
  if built then
    envs <-? templateEnvs a (nw_EnvVars req);;
    initEnvd now (as_Node a) (as_SandboxName a) "" (mkEnvdInit token envs "" "" zero_time)
  else
    initEnvd now (as_Node a) (as_SandboxName a) ""
      (mkEnvdInit token (withRelay (as_NetRoute a) (nw_EnvVars req)) envdDefaultUser envdDefaultWorkdir zero_time).

Definition createFinish (s : Server) (now : time) (req : NewSandbox) (claimed : option (result Assignment * bool * bool)) : io S reply :=
  match claimed with
  | None => mret RPanic
  | Some (Err e, known, _) => mret (createRefusal req known e)
  | Some (Ok a, _, built) =>
      let token := AccessToken (op_EnvdSecret (sv_opts s)) (as_Token a) in
      r ← createInit now req built token a;
      match r with
      | Err _ => _ ← releaseAll [a]; mret (RError 500 ["failed to start the sandbox"])
      | Ok _ =>
          let template := pk_Template (createPool s req) in
          mret (writeJSON 201 (DSandbox (mkSandboxReply template (PublicID (as_SandboxName a)) (as_Node a) (op_EnvdVersion (sv_opts s))
            token (op_Domain (sv_opts s)) (aliasOf s template))))
      end
  end.

(** The guards of a create, in the code's order. *)
Definition createGuard (req : NewSandbox) : option reply :=
  if decide (trim_space (nw_TemplateID req) = "") then Some (RError 400 ["templateID is required"])
  else if has_prefix templatePrefix (nw_TemplateID req) then Some (RError 404 ["template %q not found"; nw_TemplateID req])
  else if bool_decide (default 0 (nw_Timeout req) < 0)%Z then Some (RError 400 ["timeout must be >= 0"])
  else match unsupportedCreateOption req with Some msg => Some (RError 400 [msg]) | None => None end.

(** [createSandbox]; [name] is the generated one. *)
Definition createSandbox (s : Server) (now : time) (ns name : string) (b : body NewSandbox) : io S reply :=
  decodeBody b (λ req,
    match createGuard req with
    | Some r => mret r
    | None => claimed ← createClaim s ns name req; createFinish s now req claimed
    end).

(** ** Read, delete, renew *)

(** The sandbox of the request's id, or the refusal. *)
Definition with_sandbox (ns id : string) (k : Api.Sandbox → io S reply) : io S reply :=
  sb ← lookup_sandbox ns id;
  match sb with
  | Err e => mret (writeLookupError id e)
  | Ok sb => k sb
  end.

Definition getSandbox (s : Server) (now : time) (ns id : string) : io S reply :=
  with_sandbox ns id (λ sb,
    rec ← Read (sb_NodeName sb) (claimIDOf sb);
    mret match rec with
         | Err e => writeVerbError id e "failed to read the sandbox"
         | Ok rec =>
             let d := detailFor s now sb in
             writeJSON 200 (DDetail
               {| sd_TemplateID := sd_TemplateID d; sd_SandboxID := sd_SandboxID d; sd_ClientID := sd_ClientID d;
                  sd_StartedAt := sd_StartedAt d;
                  sd_EndAt := if time_is_zero (sr_Deadline rec) then sd_EndAt d else format_rfc3339 (sr_Deadline rec);
                  sd_State := if sr_Paused rec then StatePaused else StateRunning;
                  sd_EnvdVersion := sd_EnvdVersion d; sd_CPUCount := sd_CPUCount d; sd_MemoryMB := sd_MemoryMB d;
                  sd_Alias := sd_Alias d; sd_Metadata := sd_Metadata d; sd_Domain := sd_Domain d; sd_startedAtKey := sd_startedAtKey d |})
         end).

Definition deleteSandbox (ns id : string) : io S reply :=
  with_sandbox ns id (λ sb,
    if decide (sb_NodeName sb = "") then mret (RError 500 ["failed to release the sandbox"])
    else
      r ← Release (sb_NodeName sb) (claimIDOf sb);
      mret match r with Err _ => RError 500 ["failed to release the sandbox"] | Ok _ => RStatus 204 end).

Definition renew (ns id : string) (ttlSeconds : Z) : io S reply :=
  with_sandbox ns id (λ sb,
    r ← Renew (sb_NodeName sb) (claimIDOf sb) ttlSeconds "";
    mret match r with Err e => writeVerbError id e "failed to extend the sandbox lease" | Ok _ => RStatus 204 end).

Definition setTimeout (ns id : string) (b : body Z) : io S reply :=
  decodeBody b (λ timeout, if decide (timeout < 0)%Z then mret (RError 400 ["timeout must be >= 0"]) else renew ns id timeout).

Definition refresh (s : Server) (ns id : string) (b : body (option Z)) : io S reply :=
  decodeOptionalBody None b (λ duration,
    renew ns id match duration with
                | Some d => if decide (0 < d)%Z then d else op_DefaultTimeoutSeconds (sv_opts s)
                | None => op_DefaultTimeoutSeconds (sv_opts s)
                end).

(** ** Pause, connect, fork *)

(** The owning node's word on whether a sandbox is paused; the inventory's phase when
    it cannot be asked. *)
Definition isPaused (sb : Api.Sandbox) : io S (result bool) :=
  let phase := bool_decide (default "" (sb_Labels sb !! PhaseLabel) = PhaseHibernated) in
  if decide (sb_NodeName sb = "" ∨ claimIDOf sb = "") then mret (Ok phase)
  else
    rec ← Read (sb_NodeName sb) (claimIDOf sb);
    mret match rec with
         | Ok rec => Ok (sr_Paused rec)
         | Err e => if IsNotFound e then Err errSandboxNotFound else Ok phase
         end.

Definition pauseSandbox (ns id : string) (b : body (option bool)) : io S reply :=
  decodeOptionalBody None b (λ memory,
    if decide (memory = Some false) then
      mret (RError 400 ["filesystem-only pause (memory=false) is not supported; this backend always snapshots memory"])
    else with_sandbox ns id (λ sb,
      paused ← isPaused sb;
      match paused with
      | Err e => mret (writeLookupError id e)
      | Ok true => mret (RError 409 ["sandbox %q is already paused"; id])
      | Ok false =>
          r ← Pause (sb_NodeName sb) (claimIDOf sb);
          mret match r with Err e => writeVerbError id e "failed to pause the sandbox" | Ok _ => RStatus 204 end
      end)).

Definition sandboxOf (s : Server) (template sandboxName node token : string) : SandboxReply :=
  mkSandboxReply template (PublicID sandboxName) node (op_EnvdVersion (sv_opts s)) token (op_Domain (sv_opts s)) (aliasOf s template).

Definition connectFailed (id : string) (e : error) : reply := writeVerbError id e connectFailure.

(** The lease of a connected sandbox: extended to the asked time, never below what is
    left, and with a new lease end only when one is named. *)
Definition connectLease (s : Server) (now : time) (id : string) (sb : Api.Sandbox) (timeout : option Z) (autoPause : option bool)
    (status : Z) (rec : SandboxRecord) : io S reply :=
  let ttl := timeoutSeconds s timeout in
  let left := ceil_secs (time_sub (sr_Deadline rec) now) in
  let onExpire := expireFor autoPause in
  let connected := writeJSON status (DSandbox (sandboxOf s (templateOf sb) (claimIDOf sb) (sb_NodeName sb)
                     (AccessToken (op_EnvdSecret (sv_opts s)) (sr_Token rec)))) in
  if decide (left < ttl ∨ onExpire ≠ "")%Z then
    r ← Renew (sb_NodeName sb) (claimIDOf sb) (Z.max ttl left) onExpire;
    mret match r with Err e => connectFailed id e | Ok _ => connected end
  else mret connected.

(** [connect] once the sandbox is found: a paused one is resumed and read again. *)
Definition connectTo (s : Server) (now : time) (id : string) (timeout : option Z) (refuseRunning : bool) (autoPause : option bool)
    (sb : Api.Sandbox) : io S reply :=
  rec ← Read (sb_NodeName sb) (claimIDOf sb);
  match rec with
  | Err e => mret (connectFailed id e)
  | Ok rec =>
      if negb (sr_Paused rec) && refuseRunning then mret (RError 409 ["sandbox %q is already running"; id])
      else if sr_Paused rec then
        r ← Resume (sb_NodeName sb) (claimIDOf sb);
        match r with
        | Err e => mret (writeVerbError id e "failed to resume the sandbox")
        | Ok _ =>
            rec ← Read (sb_NodeName sb) (claimIDOf sb);
            match rec with
            | Err e => mret (connectFailed id e)
            | Ok rec => connectLease s now id sb timeout autoPause 201 rec
            end
        end
      else connectLease s now id sb timeout autoPause 200 rec
  end.

Definition connect (s : Server) (now : time) (ns id : string) (req : ConnectSandbox) (refuseRunning : bool) (autoPause : option bool) : io S reply :=
  if decide (cn_Memory req = Some false) then
    mret (RError 400 ["memory=false is not supported; a paused sandbox resumes from its memory snapshot"])
  else with_sandbox ns id (connectTo s now id (cn_Timeout req) refuseRunning autoPause).

Definition connectSandbox (s : Server) (now : time) (ns id : string) (b : body ConnectSandbox) : io S reply :=
  decodeOptionalBody (mkConnect None None) b (λ req, connect s now ns id req false None).
Definition resumeSandbox (s : Server) (now : time) (ns id : string) (b : body ResumedSandbox) : io S reply :=
  decodeOptionalBody (mkResumed (mkConnect None None) None) b (λ req, connect s now ns id (re_Connect req) true (re_AutoPause req)).

(** Every child gets its own token, in the order the goroutines reach them; the first
    error is kept. *)
Fixpoint handOverAll (s : Server) (clock : Assignment → time) (children : list Assignment) : io S (result unit) :=
  match children with
  | [] => mret (Ok tt)
  | child :: children =>
      r ← handOver (clock child) child (AccessToken (op_EnvdSecret (sv_opts s)) (as_Token child));
      rest ← handOverAll s clock children;
      mret match r with Err e => Err e | Ok _ => rest end
  end.

Definition forkGuard (req : SandboxForkRequest) : option reply :=
  let count := default 1%Z (fr_Count req) in
  if decide (count < 1)%Z then Some (RError 400 ["count must be >= 1, got %d"; format_int count])
  else if bool_decide (default 0 (fr_Timeout req) < 0)%Z then Some (RError 400 ["timeout must be >= 0"])
  else None.

Definition forkChildren (s : Server) (clock : Assignment → time) (ord : list Assignment → list Assignment) (ns id : string)
    (req : SandboxForkRequest) (sb : Api.Sandbox) : io S reply :=
  children ← Fork ns (sb_NodeName sb) (claimIDOf sb) (default 1%Z (fr_Count req)) (timeoutSeconds s (fr_Timeout req));
  match children with
  | Err e => mret (writeVerbError id e "failed to fork the sandbox")
  | Ok children =>
      r ← handOverAll s clock (ord children);
      match r with
      | Err e => _ ← releaseAll children; mret (writeVerbError id e "failed to fork the sandbox")
      | Ok _ =>
          mret (writeJSON 201 (DForks ((λ child, sandboxOf s (templateOf sb) (as_SandboxName child) (as_Node child)
            (AccessToken (op_EnvdSecret (sv_opts s)) (as_Token child))) <$> children)))
      end
  end.

(** [forkSandbox] once the sandbox is found. *)
Definition forkTo (s : Server) (clock : Assignment → time) (ord : list Assignment → list Assignment) (ns id : string)
    (req : SandboxForkRequest) (sb : Api.Sandbox) : io S reply :=
  paused ← isPaused sb;
  match paused with
  | Err e => mret (writeLookupError id e)
  | Ok true => mret (RError 409 ["sandbox %q is paused and cannot be forked; resume it first"; id])
  | Ok false => forkChildren s clock ord ns id req sb
  end.

Definition forkSandbox (s : Server) (clock : Assignment → time) (ord : list Assignment → list Assignment) (ns id : string)
    (b : body SandboxForkRequest) : io S reply :=
  decodeOptionalBody (mkForkRequest None None) b (λ req,
    match forkGuard req with
    | Some r => mret r
    | None => with_sandbox ns id (forkTo s clock ord ns id req)
    end).

(** ** Snapshots *)

Definition createSnapshot (ns id : string) (b : body string) : io S reply :=
  decodeOptionalBody "" b (λ reqName, with_sandbox ns id (λ sb,
    match CheckpointName ns reqName with
    | Err e => mret (writeVerbError id e "failed to snapshot the sandbox")
    | Ok name =>
        snap ← Snapshot (sb_NodeName sb) (claimIDOf sb) name;
        mret match snap with
             | Err e => writeVerbError id e "failed to snapshot the sandbox"
             | Ok snap => writeJSON 201 (DSnapshot (snapshotInfo
                 (mkSnapshot (sn_ID snap) reqName (sn_SandboxID snap) (sn_Pool snap) (sn_CreatedAt snap) (sn_Node snap))))
             end
    end)).

(** The nodes' answers, in the order the fan-out reaches them. *)
Fixpoint askSnapshots (nodes : list (nat * string)) : io S (list (nat * result (list Api.Snapshot))) :=
  match nodes with
  | [] => mret []
  | (i, node) :: nodes =>
      r ← Snapshots node;
      rest ← askSnapshots nodes;
      mret ((i, r) :: rest)
  end.

(** The caller's checkpoints of one answer, their stamp stripped. *)
Definition ownSnapshots (ns : string) (snaps : list Api.Snapshot) : list Api.Snapshot :=
  omap (λ snap, (λ name, mkSnapshot (sn_ID snap) name (sn_SandboxID snap) (sn_Pool snap) (sn_CreatedAt snap) (sn_Node snap)) <$>
                CheckpointNameIn ns (sn_Name snap)) snaps.

(** The answer of the [i]-th node. *)
Definition answer_of (answers : list (nat * result (list Api.Snapshot))) (i : nat) : result (list Api.Snapshot) :=
  default (Err (ErrText "unanswered" [])) (snd <$> find_first (λ a, bool_decide (a.1 = i)) answers).

Definition snapshotsOf (s : Server) (ord : list (nat * string) → list (nat * string)) (ns : string) :
    io S (result (list Api.Snapshot * bool)) :=
  nodes ← (if op_Inventory (sv_opts s) then gets ListNodes else mret (Err (ErrText "e2bcompat: no inventory source configured" [])));
  match nodes with
  | Err e => mret (Err e)
  | Ok nodes =>
      answers ← askSnapshots (ord (imap pair nodes));
      let perNode := answer_of answers <$> seq 0 (length nodes) in
      mret (Ok (concat ((λ r, match r with Ok snaps => ownSnapshots ns snaps | Err _ => [] end) <$> perNode), forallb is_ok perNode))
  end.

Definition listSnapshots (s : Server) (ord : list (nat * string) → list (nat * string)) (ns : string) (q : query) : io S reply :=
  snaps ← snapshotsOf s ord ns;
  mret match snaps with
       | Err _ => RError 500 ["failed to list snapshots"]
       | Ok (snaps, _) =>
           let sandboxID := q_Get "sandboxID" q in
           let name := q_Get "name" q in
           writeJSON 200 (DSnapshots (snapshotInfo <$> List.filter (λ snap,
             negb ((bool_decide (sandboxID ≠ "") && negb (MatchesID (sn_SandboxID snap) sandboxID)) ||
                   (bool_decide (name ≠ "") && negb (bool_decide (sn_Name snap = name))))) snaps))
       end.

Definition deleteSnapshot (s : Server) (ord : list (nat * string) → list (nat * string)) (ns snapshotID : string) : io S reply :=
  snaps ← snapshotsOf s ord ns;
  match snaps with
  | Err _ => mret (RError 500 ["failed to delete the snapshot"])
  | Ok (snaps, complete) =>
      match find_first (λ snap, bool_decide (sn_ID snap = snapshotID)) snaps with
      | None => if complete : bool then mret (RError 404 ["snapshot not found"])
                else mret (RError 500 ["failed to delete the snapshot: a node did not answer"])
      | Some snap =>
          r ← DeleteSnapshot (sn_Node snap) snapshotID;
          mret match r with Err _ => RError 500 ["failed to delete the snapshot"] | Ok _ => RStatus 204 end
      end
  end.

(** ** Metrics and logs *)

Definition sandboxMetrics (s : Server) (now : time) (ns id : string) : io S reply :=
  with_sandbox ns id (λ sb,
    m ← readEnvdMetrics (op_EnvdSecret (sv_opts s)) (sb_NodeName sb) (claimIDOf sb);
    mret match m with
         | Err e => writeVerbError id e "failed to read sandbox metrics"
         | Ok None => writeJSON 200 (DMetrics [])
         | Ok (Some m) => writeJSON 200 (DMetrics [metricOf now m])
         end).

(** The live sandboxes of the ids, in the order the goroutines reach them. *)
Fixpoint metricsOfAll (s : Server) (now : time) (ns : string) (ids : list string) (out : gmap string SandboxMetric) :
    io S (gmap string SandboxMetric) :=
  match ids with
  | [] => mret out
  | id :: ids =>
      sb ← lookup_sandbox ns id;
      match sb with
      | Err _ => metricsOfAll s now ns ids out
      | Ok sb =>
          m ← readEnvdMetrics (op_EnvdSecret (sv_opts s)) (sb_NodeName sb) (claimIDOf sb);
          metricsOfAll s now ns ids match m with Ok (Some m) => <[id := metricOf now m]> out | _ => out end
      end
  end.

Definition sandboxesMetrics (s : Server) (now : time) (ord : list string → list string) (ns : string) (q : query) : io S reply :=
  match sandboxIDsOf (q_Get "sandbox_ids" q) with
  | Err e => mret (RError 400 (error_text e))
  | Ok ids =>
      out ← metricsOfAll s now ns (ord ids) ∅;
      mret (writeJSON 200 (DMetricsById (omap (λ id, pair id <$> out !! id) (sorted_keys out))))
  end.

Definition sandboxLogs (reply : document) (ns id : string) : io S E2bServer.reply := with_sandbox ns id (λ _, mret (writeJSON 200 reply)).
End sandboxes.

(** [DELETE /templates/{templateID}]: a built template, else a snapshot. *)
Definition deleteTemplateOrSnapshot {S} {T : SandboxStore S} {I : InventorySource S} (s : Server)
    (ord : list templateHolder → list templateHolder) (ord' : list (nat * string) → list (nat * string)) (ns name : string) : io S reply :=
  deleteTemplate s ord ns name (deleteSnapshot s ord' ns name).

(** ** Specification *)

(** A guest reached through the recorder: its exchanges are not calls of the store. *)
#[export] Instance logged_guest {L S} (G : GuestHTTP S) : GuestHTTP (list L * S) := {| exchange conn req := silently (exchange conn req) |}.

(** The sandbox a request may act on: the one the store resolves the requested id to
    in the caller's namespace, and so the caller's own. *)
Record owned {S} (T : SandboxStore S) {U : CaseMap} (ns id : string) (sb : Api.Sandbox) : Prop := {
  ow_resolved : ∃ st, (GetByClaimID (SandboxStore := T) ns (ClaimID id) (λ claimID, MatchesID claimID id) st).1 = Ok sb;
  ow_namespace : sb_Namespace sb = ns;
  ow_id : MatchesID (claimIDOf sb) id = true;
}.

(** A call into the envd of a sandbox. *)
Definition guest_call (node id : string) (c : store_call) : Prop :=
  match c with
  | SCDialGuestPort n i relay port _ => n = node ∧ i = id ∧ relay = "" ∧ port = envdPort
  | SCSetInstanceMetadata n i _ _ => n = node ∧ i = id
  | _ => False
  end.

(** The node and the claim id a call acts on; a claim or a template has none. *)
Definition call_target (c : store_call) : option (string * string) :=
  match c with
  | SCRelease n i _ | SCPause n i _ | SCResume n i _ | SCFork _ n i _ _ _ | SCSnapshot n i _ _ | SCPromote n i _ _
  | SCDialGuestPort n i _ _ _ | SCSetInstanceMetadata n i _ _ | SCRenew n i _ _ _ => Some (n, i)
  | _ => None
  end.

(** A call that stays within a sandbox, among the calls of its request: on the
    sandbox itself, or on a child forked from it, and under the caller's namespace. *)
Definition within_sandbox (ns : string) (sb : Api.Sandbox) (calls : list store_call) (c : store_call) : Prop :=
  (call_target c = Some (sb_NodeName sb, claimIDOf sb) ∨
   ∃ count ttl children child, SCFork ns (sb_NodeName sb) (claimIDOf sb) count ttl (Ok children) ∈ calls ∧ child ∈ children ∧
     call_target c = Some (as_Node child, as_SandboxName child)) ∧
  match c with
  | SCFork ns' _ _ _ _ _ => ns' = ns
  | SCSnapshot _ _ name _ => has_prefix (ns +:+ "/") name = true
  | SCPromote _ _ _ _ => False
  | _ => True
  end.

(** The calls that give every claim back, with how each ended. *)
Definition releases (claims : list Assignment) (rs : list (result unit)) : list store_call :=
  zip_with (λ a r, SCRelease (as_Node a) (as_SandboxName a) r) claims rs.

(** How a claimed sandbox is settled: handed out once its envd took the token, or
    given back. *)
Definition settled {U : CaseMap} {H : EnvdHashes} (s : Server) (a : Assignment) (calls : list store_call) (r : reply) : Prop :=
  ∃ guest, Forall (guest_call (as_Node a) (as_SandboxName a)) guest ∧
    ((calls = guest ∧ ∃ sy, r = RJSON 201 "" (DSandbox sy) ∧ sy_SandboxID sy = PublicID (as_SandboxName a) ∧ sy_ClientID sy = as_Node a ∧
        sy_EnvdAccessToken sy = AccessToken (op_EnvdSecret (sv_opts s)) (as_Token a) ∧
        ∃ conn, last guest = Some (SCDialGuestPort (as_Node a) (as_SandboxName a) "" envdPort (Ok conn))) ∨
     (∃ res, calls = guest ++ [SCRelease (as_Node a) (as_SandboxName a) res] ∧ is_success r = false)).

(** The end of one claim of a create: nothing follows a failed one. *)
Definition claim_settled {U : CaseMap} {H : EnvdHashes} (s : Server) (a : result Assignment) (calls : list store_call) (r : reply) : Prop :=
  match a with Ok a => settled s a calls r | Err _ => calls = [] ∧ is_success r = false end.

(** How a fork ends: every child handed over with a token of its own, or all of them
    given back. *)
Definition fork_outcome {U : CaseMap} {H : EnvdHashes} (s : Server) (ns : string) (req : SandboxForkRequest) (sb : Api.Sandbox)
    (calls : list store_call) (r : reply) : Prop :=
  ∃ res rest, calls = SCFork ns (sb_NodeName sb) (claimIDOf sb) (default 1%Z (fr_Count req)) (timeoutSeconds s (fr_Timeout req)) res :: rest ∧
    match res with
    | Err _ => rest = [] ∧ is_success r = false
    | Ok children =>
        ∃ handed, Forall (λ c, ∃ child, child ∈ children ∧ guest_call (as_Node child) (as_SandboxName child) c) handed ∧
          ((rest = handed ∧
            (∀ child, child ∈ children → SCSetInstanceMetadata (as_Node child) (as_SandboxName child)
               (token_document (AccessToken (op_EnvdSecret (sv_opts s)) (as_Token child))) (Ok tt) ∈ handed) ∧
            r = RJSON 201 "" (DForks ((λ child, sandboxOf s (templateOf sb) (as_SandboxName child) (as_Node child)
                  (AccessToken (op_EnvdSecret (sv_opts s)) (as_Token child))) <$> children))) ∨
           (∃ rs, rest = handed ++ releases children rs ∧ length rs = length children ∧ is_success r = false))
    end.

(** The copies of a built template a create may fall back to. *)
Definition own_copy {S} {I : InventorySource S} (ns ref : string) (h : templateHolder) : Prop :=
  pk_Template (th_key h) = templateScope ns +:+ (cut_tag ref).1 ∧
  ∃ st nodes node t, NodeCapacities st = Ok nodes ∧ (node, t) ∈ copies nodes ∧ pt_Tenant t = "" ∧ h = holder_of node t.

(** What a create asks of the store: nothing, or a claim in the caller's namespace
    from the template's pool, and a second one only when that pool had no warm
    capacity, from a built template of the caller's own. *)
Definition create_outcome {S} {I : InventorySource S} {U : CaseMap} {H : EnvdHashes} (s : Server) (ns name : string) (b : body NewSandbox)
    (calls : list store_call) (r : reply) : Prop :=
  (calls = [] ∧ is_success r = false) ∨
  ∃ req a rest, b = Decoded req ∧ createGuard req = None ∧
    (is_Some (sv_aliases s !! nw_TemplateID req) ∨ has_prefix templatePrefix (pk_Template (createPool s req)) = false) ∧
    calls = SCClaim ns name (createPool s req) (createOptions s req false) a :: rest ∧
    (claim_settled s a rest r ∨
     ∃ e h a' rest', a = Err e ∧ IsNoWarmCapacity e = true ∧ own_copy (I := I) ns (nw_TemplateID req) h ∧
       rest = SCClaim ns name (th_key h) (createOptions s req true) a' :: rest' ∧ claim_settled s a' rest' r).

(** How the lease of a connected sandbox ends up: left alone only when what is left of
    it reaches the asked time, to the second it is rounded up to, and else renewed
    for no less than the asked time and no less than what is left. *)
Definition lease_outcome {U : CaseMap} {H : EnvdHashes} (s : Server) (now : time) (sb : Api.Sandbox) (timeout : option Z)
    (autoPause : option bool) (status : Z) (rec : SandboxRecord) (calls : list store_call) (r : reply) : Prop :=
  let asked := timeoutSeconds s timeout in
  let running := (0 < sr_Deadline rec - now < (2 ^ 24 - 1) * second)%Z in
  let connected := RJSON status "" (DSandbox (sandboxOf s (templateOf sb) (claimIDOf sb) (sb_NodeName sb)
                     (AccessToken (op_EnvdSecret (sv_opts s)) (sr_Token rec)))) in
  (calls = [] ∧ r = connected ∧ autoPause = None ∧ (running → ((asked - 1) * second < sr_Deadline rec - now)%Z)) ∨
  ∃ ttl res, calls = [SCRenew (sb_NodeName sb) (claimIDOf sb) ttl (expireFor autoPause) res] ∧
    (asked ≤ ttl)%Z ∧ (running → (sr_Deadline rec ≤ now + ttl * second)%Z) ∧
    match res with Ok _ => r = connected | Err _ => is_success r = false end.

(** What a connect does: it resumes a paused sandbox and only such a one, and then
    settles the lease the node reports. *)
Definition connect_outcome {S} (T : SandboxStore S) {U : CaseMap} {H : EnvdHashes} (s : Server) (now : time) (sb : Api.Sandbox)
    (timeout : option Z) (refuseRunning : bool) (autoPause : option bool) (calls : list store_call) (r : reply) : Prop :=
  let reads rec := ∃ st, (Read (sb_NodeName sb) (claimIDOf sb) st).1 = Ok rec in
  (calls = [] ∧ is_success r = false) ∨
  ∃ rec, reads rec ∧
    if sr_Paused rec then
      ∃ res rest, calls = SCResume (sb_NodeName sb) (claimIDOf sb) res :: rest ∧
        ((rest = [] ∧ is_success r = false) ∨
         (res = Ok tt ∧ ∃ rec', reads rec' ∧ lease_outcome s now sb timeout autoPause 201 rec' rest r))
    else refuseRunning = false ∧ lease_outcome s now sb timeout autoPause 200 rec calls r.

(** A checkpoint of the caller's, as its node lists it. *)
Definition own_snapshot {S} {T : SandboxStore S} (ns snapshotID node : string) : Prop :=
  ∃ lister st snaps stored, (Snapshots lister st).1 = Ok snaps ∧ stored ∈ snaps ∧ is_Some (CheckpointNameIn ns (sn_Name stored)) ∧
    sn_ID stored = snapshotID ∧ sn_Node stored = node.

(** A node that answered, and listed no such checkpoint of the caller's. *)
Definition without_snapshot {S} {T : SandboxStore S} (ns snapshotID node : string) : Prop :=
  ∃ st snaps, (Snapshots node st).1 = Ok snaps ∧
    ∀ stored, stored ∈ snaps → is_Some (CheckpointNameIn ns (sn_Name stored)) → sn_ID stored ≠ snapshotID.

(** The handlers of the requests that name a sandbox by its id. *)
Inductive by_id :=
| ByGet (now : time)
| ByDelete
| ByTimeout (b : body Z)
| ByRefresh (b : body (option Z))
| ByPause (b : body (option bool))
| ByConnect (now : time) (b : body ConnectSandbox)
| ByResume (now : time) (b : body ResumedSandbox)
| ByFork (clock : Assignment → time) (ord : list Assignment → list Assignment) (fair_ord : ∀ l, ord l ≡ₚ l) (b : body SandboxForkRequest)
| BySnapshot (b : body string)
| ByMetrics (now : time)
| ByLogs (reply : document).

Definition run_by_id {S} {T : SandboxStore S} {G : GuestHTTP S} {GC : GuestCodec} {H : EnvdHashes} {U : CaseMap}
    (s : Server) (ns id : string) (op : by_id) : io S reply :=
  match op with
  | ByGet now => getSandbox s now ns id
  | ByDelete => deleteSandbox ns id
  | ByTimeout b => setTimeout ns id b
  | ByRefresh b => refresh s ns id b
  | ByPause b => pauseSandbox ns id b
  | ByConnect now b => connectSandbox s now ns id b
  | ByResume now b => resumeSandbox s now ns id b
  | ByFork clock ord _ b => forkSandbox s clock ord ns id b
  | BySnapshot b => createSnapshot ns id b
  | ByMetrics now => sandboxMetrics s now ns id
  | ByLogs reply => sandboxLogs reply ns id
  end.

(** ** Lemmas *)

Lemma writeVerbError_fails id e msg : is_success (writeVerbError id e msg) = false.
Proof. unfold writeVerbError. by repeat case_match. Qed.
#[export] Hint Resolve writeVerbError_fails : go.

Section lemmas.
Context {S : Type} (T : SandboxStore S) `{!StoreLaws S T} (I : InventorySource S) (G : GuestHTTP S) {GC : GuestCodec} {H : EnvdHashes} {U : CaseMap}.
#[local] Existing Instance logged_source.
#[local] Existing Instance logged_guest.
#[local] Instance rec_store : SandboxStore (list store_call * S) := recorded_store T.

Lemma lookup_emits ns id : ns ≠ "" →
  emits (lookup_sandbox ns id) (λ t r, t = [] ∧ ∀ sb, r = Ok sb → owned T ns id sb).
Proof.
  intros Hns. unfold lookup_sandbox. case_decide; [by apply emits_ret|].
  eapply emits_bind; [apply (emits_silently (GetByClaimID ns (ClaimID id) (λ claimID, MatchesID claimID id)))|].
  intros t a [-> [st ->]]. apply emits_ret. split; [done|]. intros sb Hsb.
  destruct (GetByClaimID ns (ClaimID id) _ st).1 as [sb'|e] eqn:Hg; [|by destruct (IsNotFound e)]. simplify_eq.
  destruct (GetByClaimID_carries _ _ _ _ _ Hg) as [(claim & Hc & Hne & Hm) [?|?]]; [done|]. split; [by exists st|done|].
  unfold claimIDOf. by rewrite Hc.
Qed.

Lemma with_sandbox_emits ns id k Q : ns ≠ "" → (∀ r, is_success r = false → Q [] r) →
  (∀ sb, owned T ns id sb → emits (k sb) Q) → emits (with_sandbox ns id k) Q.
Proof.
  intros Hns Hf Hk. unfold with_sandbox. eapply emits_silent_bind; [by apply lookup_emits|].
  intros [sb|e] Hsb; [by apply Hk, Hsb|]. apply emits_ret, Hf. unfold writeLookupError. auto with go.
Qed.

Lemma Read_emits node id : emits (Read node id) (λ t r, t = [] ∧ ∃ st, r = (Read (SandboxStore := T) node id st).1).
Proof. apply (emits_silently (Read node id)). Qed.

Lemma isPaused_emits sb : emits (isPaused sb) (λ t r, t = [] ∧ True).
Proof.
  unfold isPaused. case_decide; [by apply emits_ret|]. eapply emits_silent_bind; [apply Read_emits|]. intros a _. by apply emits_ret.
Qed.

(** Calls into a guest. *)
Lemma envdCallOver_emits node id relay method path token b :
  emits (envdCallOver node id relay method path token b)
    (λ t r, ∃ conn, t = [SCDialGuestPort node id relay envdPort conn] ∧ (is_ok r = true → is_ok conn = true)).
Proof.
  unfold envdCallOver, try. eapply emits_bind; [apply (emits_logging (DialGuestPort node id relay envdPort))|].
  intros t a [-> [st ->]]. destruct (DialGuestPort node id relay envdPort st).1 as [conn|e]; [|apply emits_ret; by eexists].
  eapply emits_silent_bind; [apply (emits_silently (exchange conn _))|]. intros [resp|e] _; apply emits_ret; by eexists.
Qed.

Lemma initEnvd_emits now node id relay req :
  emits (initEnvd now node id relay req)
    (λ t r, ∃ conn, t = [SCDialGuestPort node id relay envdPort conn] ∧ (is_ok r = true → is_ok conn = true)).
Proof.
  unfold initEnvd. eapply emits_bind; [apply envdCallOver_emits|]. intros t a (conn & -> & Hok). apply emits_ret.
  exists conn. split; [done|]. intros Ha. apply Hok. by destruct a as [[]|].
Qed.

Lemma templateEnvs_emits a envs : emits (templateEnvs a envs) (λ t r, Forall (guest_call (as_Node a) (as_SandboxName a)) t).
Proof.
  unfold templateEnvs. case_decide; [by apply emits_ret|]. eapply emits_bind; [apply envdCallOver_emits|].
  intros t r (conn & -> & _). apply emits_ret. rewrite app_nil_r. by apply Forall_singleton.
Qed.

Lemma readEnvdMetrics_emits secret node id : emits (readEnvdMetrics secret node id) (λ t r, Forall (guest_call node id) t).
Proof.
  unfold readEnvdMetrics, try. eapply emits_silent_bind; [apply Read_emits|]. intros [rec|e] _; [|by apply emits_ret].
  destruct (sr_Paused rec); [by apply emits_ret|]. eapply emits_bind; [apply envdCallOver_emits|].
  intros t r (conn & -> & _). apply emits_ret. rewrite app_nil_r. by apply Forall_singleton.
Qed.

Lemma handOver_emits now child token :
  emits (handOver now child token) (λ t r, Forall (guest_call (as_Node child) (as_SandboxName child)) t ∧
    (is_ok r = true → SCSetInstanceMetadata (as_Node child) (as_SandboxName child) (token_document token) (Ok tt) ∈ t)).
Proof.
  unfold handOver, try. eapply emits_bind; [apply (emits_logging (SetInstanceMetadata _ _ (token_document token)))|].
  intros t a [-> [st ->]]. destruct (SetInstanceMetadata _ _ _ st).1 as [[]|e].
  - eapply emits_mono; [apply initEnvd_emits|]. intros t r (conn & -> & _). split; [|set_solver]. by repeat constructor.
  - apply emits_ret. split; [|done]. by repeat constructor.
Qed.

Lemma handOverAll_emits s clock children :
  emits (handOverAll s clock children)
    (λ t r, Forall (λ c, ∃ child, child ∈ children ∧ guest_call (as_Node child) (as_SandboxName child) c) t ∧
      (is_ok r = true → ∀ child, child ∈ children → SCSetInstanceMetadata (as_Node child) (as_SandboxName child)
         (token_document (AccessToken (op_EnvdSecret (sv_opts s)) (as_Token child))) (Ok tt) ∈ t)).
Proof.
  induction children as [|child children IH]; cbn [handOverAll].
  - apply emits_ret. split; [done|]. by intros _ child ?%not_elem_of_nil.
  - eapply emits_bind; [apply handOver_emits|]. intros t1 r1 [Hg1 Hs1].
    eapply emits_bind; [exact IH|]. intros t2 r2 [Hg2 Hs2]. apply emits_ret. rewrite app_nil_r. split.
    + apply Forall_app. split; (eapply Forall_impl; [eassumption|]).
      * intros c Hc. exists child. split; [constructor|done].
      * intros c (ch & ? & ?). exists ch. split; [by constructor|done].
    + destruct r1 as [[]|]; [|done]. intros Hok ch [->|Hch]%elem_of_cons; apply elem_of_app; [left; by apply Hs1|right; by apply Hs2].
Qed.

Lemma releaseAll_emits claims : emits (releaseAll claims) (λ t _, ∃ rs, length rs = length claims ∧ t = releases claims rs).
Proof.
  induction claims as [|a claims IH]; cbn [releaseAll]; [apply emits_ret; by exists []|].
  eapply emits_bind; [apply (emits_logging (Release (as_Node a) (as_SandboxName a)))|]. intros t r [-> _].
  eapply emits_mono; [exact IH|]. intros t2 [] (rs & Hl & ->). exists (r :: rs). split; [simpl; by rewrite Hl|done].
Qed.

(** A template is resolved from the inventory alone. *)
Lemma resolveTemplate_emits s ns ref :
  emits (C := store_call) (resolveTemplate s ns ref) (λ t r, t = [] ∧ ∀ b, r.1.1 = Some b →
    ∃ st nodes, NodeCapacities st = Ok nodes ∧ builtTemplates nodes (templateScope ns) (cut_tag ref).1 !! (cut_tag ref).1 = Some b).
Proof.
  unfold resolveTemplate, inventories. destruct (op_Inventory (sv_opts s)).
  - eapply emits_bind; [apply emits_gets|]. intros t a [-> [[l st] ->]]. apply emits_ret. split; [done|]. intros b.
    change (NodeCapacities (l, st)) with (NodeCapacities st). destruct (NodeCapacities st) as [nodes|e] eqn:Hn; [|done].
    destruct (cut_tag ref) as [name tag]. cbn [fst]. destruct (builtTemplates nodes (templateScope ns) name !! name) as [b'|] eqn:Hb; [|done].
    cbn [fst]. case_match; [done|]. intros [= <-]. by exists st, nodes.
  - eapply emits_bind; [by apply (emits_ret _ (λ t r, t = [] ∧ r = Err (ErrText "e2bcompat: no inventory source configured" [])))|].
    intros t a [-> ->]. apply emits_ret. by split.
Qed.

Lemma holder_own ns ref st nodes b h :
  NodeCapacities st = Ok nodes → builtTemplates nodes (templateScope ns) (cut_tag ref).1 !! (cut_tag ref).1 = Some b →
  h ∈ bt_holders b → own_copy (I := I) ns ref h.
Proof.
  intros Hn Hb Hin. pose proof (builtTemplates_groups nodes (templateScope ns) (cut_tag ref).1 (cut_tag ref).1) as Hg. cbv zeta in Hg.
  rewrite Hb in Hg. destruct Hg as (_ & [_ Hh _ _ _ _]). rewrite Hh in Hin.
  apply list_elem_of_omap in Hin as ([node t] & Hin & Hhold). unfold holder_named in Hhold. case_decide as Hname; [|done]. simplify_eq.
  cbn [fst snd] in Hname. unfold built_name in Hname. apply bind_Some in Hname as (name & Hcut & Hname). apply cut_prefix_Some in Hcut.
  destruct (bool_decide (pt_Tenant t ≠ "")) eqn:Ht; [done|]. apply bool_decide_eq_false in Ht. apply dec_stable in Ht.
  case_match; [done|]. simplify_eq. split; [done|]. by exists st, nodes, node, t.
Qed.
Lemma current_own ns ref st nodes b h :
  NodeCapacities st = Ok nodes → builtTemplates nodes (templateScope ns) (cut_tag ref).1 !! (cut_tag ref).1 = Some b →
  current b = Some h → own_copy (I := I) ns ref h.
Proof. intros Hn Hb Hc. unfold current in Hc. apply find_first_Some in Hc as [Hin _]. by eapply holder_own. Qed.

(** Create: the refusals come before any call. *)
Lemma createInit_emits now req built token a :
  emits (createInit now req built token a) (λ t r, Forall (guest_call (as_Node a) (as_SandboxName a)) t ∧
    (is_ok r = true → ∃ conn, last t = Some (SCDialGuestPort (as_Node a) (as_SandboxName a) "" envdPort (Ok conn)))).
Proof.
  assert (∀ pre req', Forall (guest_call (as_Node a) (as_SandboxName a)) pre →
    emits (initEnvd now (as_Node a) (as_SandboxName a) "" req') (λ t r, Forall (guest_call (as_Node a) (as_SandboxName a)) (pre ++ t) ∧
      (is_ok r = true → ∃ conn, last (pre ++ t) = Some (SCDialGuestPort (as_Node a) (as_SandboxName a) "" envdPort (Ok conn))))) as Hi.
  { intros pre req' Hpre. eapply emits_mono; [apply initEnvd_emits|]. intros t r (conn & -> & Hok). rewrite last_snoc. split.
    - apply Forall_app. split; [done|]. by repeat constructor.
    - intros Hr. specialize (Hok Hr). destruct conn as [conn|]; [|done]. by exists conn. }
  unfold createInit, try. destruct built; [|by apply (Hi [])].
  eapply emits_bind; [apply templateEnvs_emits|]. intros t [envs|e] Ht; [by apply Hi|]. apply emits_ret. by rewrite app_nil_r.
Qed.

Lemma createFinish_emits s now req a known built :
  emits (createFinish s now req (Some (a, known, built))) (λ t r, claim_settled s a t r).
Proof.
  unfold createFinish. destruct a as [a|e].
  - eapply emits_bind; [apply createInit_emits|]. intros t [[]|e] [Hg Hok].
    + apply emits_ret. rewrite app_nil_r. exists t. split; [done|]. left. split; [done|]. eexists. split; [done|]. cbn. auto.
    + eapply emits_bind; [apply releaseAll_emits|]. intros t2 _ (rs & Hl & ->). apply emits_ret.
      destruct rs as [|res [|]]; [done| |done]. rewrite app_nil_r. exists t. split; [done|]. right. by exists res.
  - apply emits_ret. split; [done|]. unfold createRefusal. by repeat case_match.
Qed.

Lemma createPool_scope (s : Server) req : createGuard req = None →
  is_Some (sv_aliases s !! nw_TemplateID req) ∨ has_prefix templatePrefix (pk_Template (createPool s req)) = false.
Proof.
  unfold createGuard, createPool, poolKey. case_decide; [done|]. destruct (has_prefix templatePrefix (nw_TemplateID req)) eqn:Hp; [done|].
  intros _. destruct (sv_aliases s !! nw_TemplateID req); [left; by eexists|by right].
Qed.

Lemma createGuard_fails req r : createGuard req = Some r → is_success r = false.
Proof. unfold createGuard. intros. repeat case_match; by simplify_eq. Qed.

(** Fork and connect, once the sandbox is found. *)
Lemma forkTo_emits s clock ord ns id req sb : (∀ l, ord l ≡ₚ l) →
  emits (forkTo s clock ord ns id req sb) (λ t r, (t = [] ∧ is_success r = false) ∨ fork_outcome s ns req sb t r).
Proof.
  intros Hord. unfold forkTo. eapply emits_silent_bind; [apply isPaused_emits|].
  intros [[|]|e] _; [apply emits_ret; by left| |apply emits_ret; left; split; [done|unfold writeLookupError; auto with go]].
  unfold forkChildren. eapply emits_bind; [apply (emits_logging (Fork ns _ _ _ _))|]. intros t children [-> _].
  destruct children as [children|e].
  - eapply emits_bind; [apply handOverAll_emits|]. intros handed [[]|e] [Hg Hok].
    all: assert (Forall (λ c, ∃ child, child ∈ children ∧ guest_call (as_Node child) (as_SandboxName child) c) handed) as Hg'
      by (eapply Forall_impl; [exact Hg|]; intros c (ch & Hch & ?); exists ch; by rewrite Hord in Hch).
    + apply emits_ret. rewrite app_nil_r. right. eexists _, _. split; [done|]. exists handed. split; [done|]. left. split; [done|]. split; [|done].
      intros child Hc. apply Hok; [done|]. by rewrite Hord.
    + eapply emits_bind; [apply releaseAll_emits|]. intros t2 _ (rs & Hl & ->). apply emits_ret. rewrite app_nil_r. right.
      eexists _, _. split; [done|]. exists handed. split; [done|]. right. exists rs. split; [done|]. split; [done|]. auto with go.
  - apply emits_ret. rewrite app_nil_r. right. eexists _, _. split; [done|]. split; [done|]. auto with go.
Qed.

Lemma connectLease_emits s now id sb timeout autoPause status rec :
  emits (connectLease s now id sb timeout autoPause status rec) (lease_outcome s now sb timeout autoPause status rec).
Proof.
  unfold connectLease. set (asked := timeoutSeconds s timeout). set (left := ceil_secs _).
  assert ((0 < sr_Deadline rec - now < (2 ^ 24 - 1) * second)%Z →
    ((left - 1) * second < sr_Deadline rec - now ≤ left * second)%Z) as Hleft.
  { intros Hd. unfold left. rewrite time_sub_small by done. unfold ceil_secs. rewrite decide_False by lia. rewrite ceil_seconds_exact by done.
    set (d := (sr_Deadline rec - now)%Z) in *. assert (0 < second)%Z by done.
    pose proof (Z.div_mod (d + second - 1) second ltac:(lia)). pose proof (Z.mod_pos_bound (d + second - 1) second ltac:(lia)). nia. }
  case_decide as Hr.
  - eapply emits_bind; [apply (emits_logging (Renew _ _ _ _))|]. intros t res [-> _]. apply emits_ret. right. eexists _, _. split; [done|].
    split; [lia|]. split; [|destruct res; [done|unfold connectFailed; auto with go]]. intros Hd%Hleft. unfold second in *. lia.
  - apply emits_ret. left. split; [done|]. split; [done|]. split; [destruct autoPause as [[]|]; [exfalso; apply Hr; by right..|done]|].
    intros Hd%Hleft. fold asked. assert (asked ≤ left)%Z by (apply Z.nlt_ge; tauto). unfold second in *. lia.
Qed.

Lemma connectTo_emits s now id timeout refuseRunning autoPause sb :
  emits (connectTo s now id timeout refuseRunning autoPause sb) (connect_outcome T s now sb timeout refuseRunning autoPause).
Proof.
  unfold connectTo. eapply emits_silent_bind; [apply Read_emits|]. intros [rec|e] [st Hrec]; [|apply emits_ret; left; split; [done|unfold connectFailed; auto with go]].
  destruct (negb (sr_Paused rec) && refuseRunning) eqn:Hrefuse; [apply emits_ret; by left|].
  destruct (sr_Paused rec) eqn:Hp.
  - eapply emits_bind; [apply (emits_logging (Resume _ _))|]. intros t res [-> _]. destruct res as [[]|e].
    + eapply emits_silent_bind; [apply Read_emits|]. intros [rec'|e] [st' Hrec'].
      * eapply emits_mono; [apply connectLease_emits|]. intros t r Hl. right. exists rec. split; [by exists st|]. rewrite Hp.
        eexists _, _. split; [done|]. right. split; [done|]. exists rec'. split; [by exists st'|done].
      * apply emits_ret. right. exists rec. split; [by exists st|]. rewrite Hp. eexists _, _. split; [done|]. left. split; [done|].
        unfold connectFailed. auto with go.
    + apply emits_ret. right. exists rec. split; [by exists st|]. rewrite Hp. eexists _, _. split; [done|]. left. split; [done|]. auto with go.
  - eapply emits_mono; [apply connectLease_emits|]. intros t r Hl. right. exists rec. split; [by exists st|]. rewrite Hp. by split.
Qed.

(** What stays within the caller's sandbox. *)
Definition isolated (ns id : string) (t : list store_call) (r : reply) : Prop :=
  t = [] ∨ ∃ sb, owned T ns id sb ∧ Forall (within_sandbox ns sb t) t.

Lemma isolated_one ns id sb c r : owned T ns id sb → call_target c = Some (sb_NodeName sb, claimIDOf sb) →
  match c with SCFork ns' _ _ _ _ _ => ns' = ns | SCSnapshot _ _ name _ => has_prefix (ns +:+ "/") name = true | SCPromote _ _ _ _ => False | _ => True end →
  isolated ns id [c] r.
Proof. intros Ho Ht Hc. right. exists sb. split; [done|]. apply Forall_singleton. split; [by left|done]. Qed.

Lemma within_guest ns sb t node id c : guest_call node id c →
  (call_target c = Some (node, id) → call_target c = Some (sb_NodeName sb, claimIDOf sb) ∨
   ∃ count ttl children child, SCFork ns (sb_NodeName sb) (claimIDOf sb) count ttl (Ok children) ∈ t ∧ child ∈ children ∧
     call_target c = Some (as_Node child, as_SandboxName child)) → within_sandbox ns sb t c.
Proof.
  intros Hg Ht. split; [apply Ht|]; destruct c; try done; simpl in *; by destruct_and?; subst.
Qed.

Lemma fork_isolated s ns id req sb t r : owned T ns id sb → fork_outcome s ns req sb t r → isolated ns id t r.
Proof.
  intros Ho (res & rest & -> & Hres). right. exists sb. split; [done|]. constructor; [by split; [left|]|].
  destruct res as [children|e]; [|by destruct Hres as [-> _]]. destruct Hres as (handed & Hg & Hrest).
  set (t := _ :: rest).
  assert (∀ c child, child ∈ children → call_target c = Some (as_Node child, as_SandboxName child) →
    call_target c = Some (sb_NodeName sb, claimIDOf sb) ∨ ∃ count ttl children child,
      SCFork ns (sb_NodeName sb) (claimIDOf sb) count ttl (Ok children) ∈ t ∧ child ∈ children ∧
      call_target c = Some (as_Node child, as_SandboxName child)) as Hchild.
  { intros c child Hch Hc. right. eexists _, _, children, child. split; [constructor|]. by split. }
  assert (Forall (within_sandbox ns sb t) handed) as Hh.
  { eapply Forall_impl; [exact Hg|]. intros c (child & Hch & Hc). eapply within_guest; [exact Hc|]. by apply Hchild. }
  destruct Hrest as [(-> & _)|(rs & -> & Hl & _)]; [done|]. apply Forall_app. split; [done|].
  apply Forall_forall. intros c Hc. unfold releases in Hc. apply elem_of_lookup_zip_with in Hc as (i & child & rr & -> & Hch & _).
  apply list_elem_of_lookup_2 in Hch. split; [|done]. by apply (Hchild _ child).
Qed.

Lemma connect_isolated ns id s now sb timeout refuse autoPause t r :
  owned T ns id sb → connect_outcome T s now sb timeout refuse autoPause t r → isolated ns id t r.
Proof.
  assert (∀ now timeout autoPause status rec t r, lease_outcome s now sb timeout autoPause status rec t r →
    Forall (within_sandbox ns sb t) t) as Hl.
  { intros now' timeout' autoPause' status rec t' r' [(-> & _)|(ttl & res & -> & _)]; [done|]. apply Forall_singleton. by split; [left|]. }
  intros Ho [[-> _]|(rec & _ & Hc)]; [by left|]. destruct (sr_Paused rec).
  - destruct Hc as (res & rest & -> & Hc). right. exists sb. split; [done|]. constructor; [by split; [left|]|].
    destruct Hc as [[-> _]|(_ & rec' & _ & [(-> & _)|(ttl & res' & -> & _)])]; [done..|]. apply Forall_singleton. by split; [left|].
  - destruct Hc as [_ Hc]. right. exists sb. split; [done|]. by eapply Hl.
Qed.

(** A body in front of a handler adds only refusals. *)
Lemma decodeBody_emits {A} (b : body A) k Q : (∀ r, is_success r = false → Q [] r) → (∀ a, emits (k a) Q) →
  emits (decodeBody (S := list store_call * S) b k) Q.
Proof. intros Hf Hk. destruct b; [by apply emits_ret, Hf..|apply Hk]. Qed.
Lemma decodeOptionalBody_emits {A} zero (b : body A) k Q : (∀ r, is_success r = false → Q [] r) → (∀ a, emits (k a) Q) →
  emits (decodeOptionalBody (S := list store_call * S) zero b k) Q.
Proof. intros Hf Hk. destruct b; [by apply emits_ret, Hf|apply Hk..]. Qed.

Lemma isolated_none ns id r : isolated ns id [] r.
Proof. by left. Qed.
Lemma sandbox_isolated ns id k : ns ≠ "" → (∀ sb, owned T ns id sb → emits (k sb) (isolated ns id)) → emits (with_sandbox ns id k) (isolated ns id).
Proof. intros Hns Hk. apply with_sandbox_emits; [done|intros; apply isolated_none|done]. Qed.

Lemma pause_isolated ns id b : ns ≠ "" → emits (pauseSandbox ns id b) (isolated ns id).
Proof.
  intros Hns. apply decodeOptionalBody_emits; [intros; apply isolated_none|]. intros memory. case_decide; [apply emits_ret, isolated_none|].
  apply sandbox_isolated; [done|]. intros sb Ho. eapply emits_silent_bind; [apply isPaused_emits|].
  intros [[|]|e] _; [apply emits_ret, isolated_none| |apply emits_ret, isolated_none]. apply emits_last. intros st. by eapply isolated_one.
Qed.

Lemma connect_emits s now ns id req refuse autoPause : ns ≠ "" → emits (connect s now ns id req refuse autoPause) (isolated ns id).
Proof.
  intros Hns. unfold connect. case_decide; [apply emits_ret, isolated_none|]. apply sandbox_isolated; [done|].
  intros sb Ho. eapply emits_mono; [apply connectTo_emits|]. intros t r. by eapply connect_isolated.
Qed.

Lemma forkSandbox_isolated s clock ord ns id b : ns ≠ "" → (∀ l, ord l ≡ₚ l) → emits (forkSandbox s clock ord ns id b) (isolated ns id).
Proof.
  intros Hns Hord. apply decodeOptionalBody_emits; [intros; apply isolated_none|]. intros req.
  destruct (forkGuard req); [apply emits_ret, isolated_none|]. apply sandbox_isolated; [done|].
  intros sb Ho. eapply emits_mono; [by apply forkTo_emits|]. intros t r [[-> _]|Hf]; [by left|]. by eapply fork_isolated.
Qed.

Lemma createSnapshot_isolated ns id b : ns ≠ "" → emits (createSnapshot ns id b) (isolated ns id).
Proof.
  intros Hns. apply decodeOptionalBody_emits; [intros; apply isolated_none|]. intros reqName. apply sandbox_isolated; [done|]. intros sb Ho.
  destruct (CheckpointName ns reqName) as [name|e] eqn:Hn; [|apply emits_ret, isolated_none]. apply emits_last. intros st.
  eapply isolated_one; [done|done|]. unfold CheckpointName, StampedName in Hn. repeat case_match; simplify_eq.
  apply has_prefix_spec. exists reqName. change ("" +:+ ns +:+ "/" +:+ reqName) with (ns +:+ ("/" +:+ reqName)). by rewrite str_app_assoc.
Qed.

Lemma by_id_isolated s ns id op : ns ≠ "" → emits (run_by_id s ns id op) (isolated ns id).
Proof.
  intros Hns. destruct op as [now| |b|b|b|now b|now b|clock ord Hord b|b|now|]; cbn [run_by_id];
    auto using pause_isolated, forkSandbox_isolated, createSnapshot_isolated.
  - apply sandbox_isolated; [done|]. intros sb Ho. eapply emits_silent_bind; [apply Read_emits|]. intros a _. apply emits_ret, isolated_none.
  - apply sandbox_isolated; [done|]. intros sb Ho. case_decide; [apply emits_ret, isolated_none|]. apply emits_last. intros st. by eapply isolated_one.
  - apply decodeBody_emits; [intros; apply isolated_none|]. intros timeout. case_decide; [apply emits_ret, isolated_none|].
    apply sandbox_isolated; [done|]. intros sb Ho. apply emits_last. intros st. by eapply isolated_one.
  - apply decodeOptionalBody_emits; [intros; apply isolated_none|]. intros d. apply sandbox_isolated; [done|]. intros sb Ho. apply emits_last.
    intros st. by eapply isolated_one.
  - apply decodeOptionalBody_emits; [intros; apply isolated_none|]. intros req. by apply connect_emits.
  - apply decodeOptionalBody_emits; [intros; apply isolated_none|]. intros req. by apply connect_emits.
  - apply sandbox_isolated; [done|]. intros sb Ho. eapply emits_bind; [apply readEnvdMetrics_emits|]. intros t m Ht. apply emits_ret.
    rewrite app_nil_r. right. exists sb. split; [done|]. eapply Forall_impl; [exact Ht|]. intros c Hc. eapply within_guest; [exact Hc|]. by left.
  - apply sandbox_isolated; [done|]. intros sb Ho. apply emits_ret, isolated_none.
Qed.

(** The checkpoints of the caller's, from the nodes' listings. *)
Lemma askSnapshots_emits nodes :
  emits (askSnapshots nodes) (λ t answers, t = [] ∧ ∀ i r, (i, r) ∈ answers → ∃ node st, (i, node) ∈ nodes ∧ r = (Snapshots (SandboxStore := T) node st).1).
Proof.
  induction nodes as [|[i node] nodes IH]; cbn [askSnapshots].
  - apply emits_ret. split; [done|]. by intros i r ?%not_elem_of_nil.
  - eapply emits_bind; [apply (emits_silently (Snapshots node))|]. intros t r [-> [st ->]]. eapply emits_silent_bind; [exact IH|].
    intros rest Hrest. apply emits_ret. split; [done|]. intros j r' [[= -> ->]|Hin]%elem_of_cons.
    + exists node, st. split; [constructor|done].
    + destruct (Hrest j r' Hin) as (node' & st' & ? & ->). exists node', st'. split; [by constructor|done].
Qed.

Lemma own_snapshots_spec ns snaps x : x ∈ ownSnapshots ns snaps ↔
  ∃ stored name, stored ∈ snaps ∧ CheckpointNameIn ns (sn_Name stored) = Some name ∧
    x = mkSnapshot (sn_ID stored) name (sn_SandboxID stored) (sn_Pool stored) (sn_CreatedAt stored) (sn_Node stored).
Proof.
  unfold ownSnapshots. rewrite list_elem_of_omap. split.
  - intros (stored & Hin & (name & Hn & ->)%fmap_Some). by exists stored, name.
  - intros (stored & name & Hin & Hn & ->). exists stored. split; [done|]. by rewrite Hn.
Qed.

Lemma snapshotsOf_emits s ord ns : (∀ l, ord l ≡ₚ l) →
  emits (snapshotsOf s ord ns) (λ t r, t = [] ∧ ∀ snaps complete, r = Ok (snaps, complete) →
    (∀ x, x ∈ snaps → own_snapshot (T := T) ns (sn_ID x) (sn_Node x)) ∧
    (complete = true → ∃ st nodes, ListNodes (W := S) st = Ok nodes ∧
       ∀ id, Forall (λ x, sn_ID x ≠ id) snaps → Forall (without_snapshot (T := T) ns id) nodes)).
Proof.
  intros Hord. unfold snapshotsOf. destruct (op_Inventory (sv_opts s)).
  2:{ eapply emits_bind; [by apply (emits_ret _ (λ t r, t = [] ∧ r = Err (ErrText "e2bcompat: no inventory source configured" [])))|].
      intros t a [-> ->]. apply emits_ret. by split. }
  eapply emits_bind; [apply emits_gets|]. intros t a [-> [[l st] ->]]. change (ListNodes (l, st)) with (ListNodes st).
  destruct (ListNodes st) as [nodes|e] eqn:Hn; [|apply emits_ret; by split].
  eapply emits_silent_bind; [apply askSnapshots_emits|]. intros answers Ha. apply emits_ret. split; [done|]. intros snaps complete [= <- <-].
  assert (∀ i snaps, answer_of answers i = Ok snaps → ∃ node (st : S), nodes !! i = Some node ∧ (Snapshots (SandboxStore := T) node st).1 = Ok snaps) as Hans.
  { intros i snaps. unfold answer_of. destruct (find_first _ answers) as [[j r]|] eqn:Hf; [|done]. cbn. intros ->.
    apply find_first_Some in Hf as [Hin Hj%bool_decide_eq_true]. cbn in Hj. subst j. destruct (Ha _ _ Hin) as (node & st' & Hnode & Hr).
    exists node, st'. split; [|done]. rewrite Hord in Hnode. apply elem_of_lookup_imap in Hnode as (k & x & [= -> ->] & ?). done. }
  split.
  - intros x Hx. apply elem_of_concat in Hx as (xs & Hx & Hxs). rewrite <-list_fmap_compose in Hxs. apply list_elem_of_fmap in Hxs as (i & -> & _).
    simpl in Hx. destruct (answer_of answers i) as [snaps|] eqn:Hi; [|by apply not_elem_of_nil in Hx].
    destruct (Hans _ _ Hi) as (node & st' & _ & Hs). apply own_snapshots_spec in Hx as (stored & name & Hin & Hname & ->). cbn.
    exists node, st', snaps, stored. by split_and!.
  - intros Hc. exists st, nodes. split; [done|]. intros id Hid. apply Forall_lookup. intros i node Hi.
    rewrite forallb_forall in Hc. assert (i ∈ seq 0 (length nodes)) as Hseq by (apply elem_of_seq; apply lookup_lt_Some in Hi; lia).
    assert (is_ok (answer_of answers i) = true) as Hok by (apply Hc, list_elem_of_In, list_elem_of_fmap; eauto).
    destruct (answer_of answers i) as [snaps|] eqn:Hans_i; [|done]. destruct (Hans _ _ Hans_i) as (node' & st' & Hi' & Hs). simplify_eq.
    exists st', snaps. split; [done|]. intros stored Hin [name Hname] Heq. rewrite Forall_forall in Hid.
    apply (Hid (mkSnapshot (sn_ID stored) name (sn_SandboxID stored) (sn_Pool stored) (sn_CreatedAt stored) (sn_Node stored))); [|exact Heq].
    apply elem_of_concat. exists (ownSnapshots ns snaps). split; [apply own_snapshots_spec; by exists stored, name|].
    rewrite <-list_fmap_compose. apply list_elem_of_fmap. exists i. simpl. by rewrite Hans_i.
Qed.

Lemma createSandbox_emits s now ns name b : emits (createSandbox s now ns name b) (create_outcome (I := I) s ns name b).
Proof.
  destruct b as [?| |req]; [apply emits_ret; by left..|]. cbn [createSandbox decodeBody].
  destruct (createGuard req) as [r|] eqn:Hg; [apply emits_ret; left; split; [done|by eapply createGuard_fails]|].
  pose proof (createPool_scope s req Hg) as Hscope.
  set (first := λ a, SCClaim ns name (createPool s req) (createOptions s req false) a).
  eapply (emits_bind _ _ (λ t c, match c with
    | Some (a, _, _) => t = [first a] ∨ ∃ e h, IsNoWarmCapacity e = true ∧ own_copy (I := I) ns (nw_TemplateID req) h ∧
        t = [first (Err e); SCClaim ns name (th_key h) (createOptions s req true) a]
    | None => ∃ e, t = [first (Err e)]
    end)).
  - unfold createClaim. eapply emits_bind; [apply (emits_logging (Claim ns name _ _))|]. intros t a [-> _].
    destruct a as [a|e]; [apply emits_ret; by left|]. destruct (IsNoWarmCapacity e) eqn:Hw; [|apply emits_ret; by left].
    eapply emits_silent_bind; [apply resolveTemplate_emits|]. intros [[b pooled] lookupErr] Hb.
    destruct lookupErr; [apply emits_ret; by left|]. destruct b as [b|]; [|apply emits_ret; by left].
    destruct pooled; [apply emits_ret; by left|]. destruct (Hb b eq_refl) as (st & nodes & Hn & Hbt).
    destruct (current b) as [h|] eqn:Hcur; [|apply emits_ret; by exists e]. apply emits_last. intros st'. right. exists e, h.
    split; [done|]. split; [|done]. by eapply current_own.
  - intros t [[[a known] built]|] Ht.
    + eapply emits_mono; [apply createFinish_emits|]. intros t' r Hs. right. destruct Ht as [->|(e & h & Hw & Hown & ->)].
      * exists req, a, t'. split_and!; try done. by left.
      * exists req, (Err e), (SCClaim ns name (th_key h) (createOptions s req true) a :: t'). split_and!; try done. right.
        by exists e, h, a, t'.
    + destruct Ht as [e ->]. apply emits_ret. right. exists req, (Err e), []. split_and!; try done. by left.
Qed.
End lemmas.

(** ** Properties *)

Section properties.
Context {S : Type} (T : SandboxStore S) (I : InventorySource S) (G : GuestHTTP S) {GC : GuestCodec} {H : EnvdHashes} {U : CaseMap}.
#[local] Existing Instance logged_source.
#[local] Existing Instance logged_guest.
#[local] Existing Instance rec_store.

(** tenants do not reach each other's sandboxes: over a store that meets its
    contract, whatever a request that names a sandbox by id makes the store change
    is done to a sandbox of the caller's own namespace whose claim id is the one
    requested, or to a child the same request forked from it; a fork files its
    children under that namespace and a snapshot is stamped with it.  A request
    whose id resolves to no such sandbox changes nothing. *)
Theorem tenant_isolation `{!StoreLaws S T} (s : Server) (ns id : string) (op : by_id) (l : list store_call) (st : S) : ns ≠ "" →
  let '(r, (l', _)) := run_by_id s ns id op (l, st) in
  ∃ calls, l' = l ++ calls ∧ (calls = [] ∨ ∃ sb, owned T ns id sb ∧ Forall (within_sandbox ns sb calls) calls).
Proof.
  intros Hns. destruct (by_id_isolated T G s ns id op Hns l st) as (calls & Hl & Hi).
  destruct (run_by_id s ns id op (l, st)) as [r [l' st']]. by exists calls.
Qed.

(** C14: a create leaks no claim: a refused request asks nothing of the store; an
    admitted one claims in the caller's namespace from the template's pool, and a
    second time only after a refusal for want of warm capacity, from a copy of a
    built template that the inventory reports under the caller's own prefix; the
    sandbox it was given is either handed out, under its public id and with an
    access token derived from its claim token that its envd has taken, or released
    again before the failure is reported. *)
Theorem create_accounts (s : Server) (now : time) (ns name : string) (b : body NewSandbox) (l : list store_call) (st : S) :
  let '(r, (l', _)) := createSandbox s now ns name b (l, st) in
  ∃ calls, l' = l ++ calls ∧ create_outcome (I := I) s ns name b calls r.
Proof.
  destruct (createSandbox_emits T I G s now ns name b l st) as (calls & Hl & Ho).
  destruct (createSandbox s now ns name b (l, st)) as [r [l' st']]. by exists calls.
Qed.


(** C26: connecting never cuts a lease short: of the sandbox the id names, a paused
    one is resumed and read again, a running one is never resumed; its lease is then
    renewed for no less than the time asked and no less than what is left of it, or
    left alone when what is left reaches what was asked; and the reply carries the
    access token of the claim as the node reports it then. *)
Theorem connect_keeps_lease `{!StoreLaws S T} (s : Server) (now : time) (ns id : string) (req : ConnectSandbox) (refuseRunning : bool)
    (autoPause : option bool) (l : list store_call) (st : S) : ns ≠ "" →
  let '(r, (l', _)) := connect s now ns id req refuseRunning autoPause (l, st) in
  ∃ calls, l' = l ++ calls ∧
    ((calls = [] ∧ is_success r = false) ∨
     ∃ sb, owned T ns id sb ∧ connect_outcome T s now sb (cn_Timeout req) refuseRunning autoPause calls r).
Proof.
  intros Hns. assert (emits (connect s now ns id req refuseRunning autoPause) (λ t r, (t = [] ∧ is_success r = false) ∨
     ∃ sb, owned T ns id sb ∧ connect_outcome T s now sb (cn_Timeout req) refuseRunning autoPause t r)) as Hc.
  { unfold connect. case_decide; [apply emits_ret; by left|]. apply (with_sandbox_emits T); [done|intros; by left|]. intros sb Ho.
    eapply emits_mono; [apply connectTo_emits|]. intros t r Hr. right. by exists sb. }
  destruct (Hc l st) as (calls & Hl & Ho). destruct (connect _ _ _ _ _ _ _ (l, st)) as [r [l' st']]. by exists calls.
Qed.

(** a checkpoint is deleted only by its owner, and never wrongly reported gone:
    deleting a snapshot makes at most one call, on the node of a checkpoint some
    node lists under that id with the caller's namespace in its stamp, and succeeds
    exactly when that call does; the answer that there is none is given only when
    every node of the inventory answered and none lists it for the caller. *)
Theorem deleteSnapshot_own (s : Server) (ord : list (nat * string) → list (nat * string)) (ns snapshotID : string)
    (l : list store_call) (st : S) : (∀ nodes, ord nodes ≡ₚ nodes) →
  let '(r, (l', _)) := deleteSnapshot s ord ns snapshotID (l, st) in
  (l' = l ∧ is_success r = false ∧
   (r = RError 404 ["snapshot not found"] → ∃ st' nodes, ListNodes (W := S) st' = Ok nodes ∧ Forall (without_snapshot (T := T) ns snapshotID) nodes)) ∨
  ∃ node res, own_snapshot (T := T) ns snapshotID node ∧ l' = l ++ [SCDeleteSnapshot node snapshotID res] ∧ is_success r = is_ok res.
Proof.
  intros Hord. assert (emits (deleteSnapshot s ord ns snapshotID) (λ t r,
    (t = [] ∧ is_success r = false ∧
     (r = RError 404 ["snapshot not found"] → ∃ st' nodes, ListNodes (W := S) st' = Ok nodes ∧ Forall (without_snapshot (T := T) ns snapshotID) nodes)) ∨
    ∃ node res, own_snapshot (T := T) ns snapshotID node ∧ t = [SCDeleteSnapshot node snapshotID res] ∧ is_success r = is_ok res)) as Hd.
  { unfold deleteSnapshot. eapply emits_silent_bind; [by apply snapshotsOf_emits|]. intros [[snaps complete]|e] Hs; [|apply emits_ret; by left].
    destruct (Hs _ _ eq_refl) as [Hown Hgone]. destruct (find_first _ snaps) as [snap|] eqn:Hf.
    - apply find_first_Some in Hf as [Hin Hid%bool_decide_eq_true]. apply emits_last. intros st'. right. eexists _, _. split; [|split; [done|]].
      + rewrite <-Hid. by apply Hown.
      + by destruct (DeleteSnapshot _ _ st').1.
    - destruct complete; apply emits_ret; left; (split; [done|split; [done|]]); [|done]. intros _.
      destruct (Hgone eq_refl) as (st' & nodes & Hn & Hall). exists st', nodes. split; [done|]. apply Hall. apply Forall_forall.
      intros x Hx. by apply (proj1 (find_first_None _ _) Hf), bool_decide_eq_false in Hx. }
  destruct (Hd l st) as (calls & Hl & Ho). destruct (deleteSnapshot _ _ _ _ (l, st)) as [r [l' st']]. cbn [fst snd] in *. subst l'.
  destruct Ho as [(-> & ? & ?)|(node & res & ? & -> & ?)]; [left; by rewrite app_nil_r|right]. by exists node, res.
Qed.
End properties.

(** ** Witnesses *)

#[local] Existing Instance Static.source.
#[local] Existing Instance ascii_case.

(** One node with one sandbox and one checkpoint, where every verb works; access
    tokens are claim tokens with a prefix, and envd accepts what it is sent. *)
Definition kind_sandbox : Api.Sandbox :=
  mkSandbox "team" "web" {[ TemplateLabel := "base" ]} {[ ClaimIDAnnotation := "sb_0fe2" ]} "" zero_time "n1" [] [].
Definition kind_children : list Assignment :=
  [mkAssignment "sb_0fe3" "n1" "" "t3" zero_time ""; mkAssignment "sb_0fe4" "n1" "" "t4" zero_time ""].
Definition kind_checkpoint : Api.Snapshot := mkSnapshot "ck1" "team/base" "sb_0fe2" (mkPoolKey "img" "" "small") zero_time "n1".
#[local] Instance kind_toy : SandboxStore Static.StaticInventorySource := toy_store _ kind_sandbox "t2".
Definition kind_store : SandboxStore Static.StaticInventorySource := {|
  List := List; Get := Get; GetByClaimID := GetByClaimID; Claim := Claim; Release := Release; Pause := Pause; Resume := Resume;
  Fork _ _ _ _ _ := mret (Ok kind_children);
  Snapshot _ _ _ := mret (Ok kind_checkpoint);
  Snapshots _ := mret (Ok [kind_checkpoint]);
  DeleteSnapshot _ _ := mret (Ok tt);
  DeleteTemplate := DeleteTemplate; Promote := Promote; SetTemplateLabels := SetTemplateLabels; NodeTemplates := NodeTemplates;
  DialGuestPort _ _ _ _ := mret (Ok 7%Z);
  SetInstanceMetadata _ _ _ := mret (Ok tt);
  Read _ _ := mret (Ok (mkSandboxRecord "t2" true (30 * second)%Z));
  Renew _ _ _ _ := mret (Ok zero_time);
|}.
Definition kind_laws : StoreLaws _ kind_store.
Proof.
  pose proof (toy_store_laws Static.StaticInventorySource kind_sandbox "t2") as L. split; [exact (@Get_named _ _ L)|exact (@GetByClaimID_carries _ _ L)].
Defined.
Definition running_store : SandboxStore Static.StaticInventorySource := {|
  List := List; Get := Get; GetByClaimID := GetByClaimID; Claim := Claim; Release := Release; Pause := Pause; Resume := Resume;
  Fork := Fork (SandboxStore := kind_store); Snapshot := Snapshot; Snapshots := Snapshots; DeleteSnapshot := DeleteSnapshot;
  DeleteTemplate := DeleteTemplate; Promote := Promote; SetTemplateLabels := SetTemplateLabels; NodeTemplates := NodeTemplates;
  DialGuestPort := DialGuestPort (SandboxStore := kind_store);
  SetInstanceMetadata := SetInstanceMetadata (SandboxStore := kind_store);
  Read := Read; Renew := Renew;
|}.
Definition running_laws : StoreLaws _ running_store.
Proof.
  pose proof (toy_store_laws Static.StaticInventorySource kind_sandbox "t2") as L. split; [exact (@Get_named _ _ L)|exact (@GetByClaimID_carries _ _ L)].
Defined.
Definition kind_guest : GuestHTTP Static.StaticInventorySource := {| exchange _ _ := mret (Ok (204%Z, "")) |}.
Definition kind_codec : GuestCodec := {| decode_metrics _ := Err (ErrText "json" []); decode_envs _ := Ok ∅ |}.
Definition kind_hashes : EnvdHashes := {| AccessToken secret token := secret +:+ token; sha512_hex token := token |}.
#[local] Existing Instances kind_guest kind_codec kind_hashes.
Definition kind_server : Server :=
  mkServer (mkOptions "default" "sandbox.example.com" "0.8.0" 300 [] true true [] "s3" no_builds) ∅ ∅ ∅.

Lemma tenant_isolation_witness :
  ∃ sb, owned kind_store "team" "sb-0fe2" sb ∧ Forall (within_sandbox "team" sb [SCRelease "n1" "sb_0fe2" (Ok tt)]) [SCRelease "n1" "sb_0fe2" (Ok tt)].
Proof.
  pose proof (@tenant_isolation _ kind_store kind_guest kind_codec kind_hashes ascii_case kind_laws kind_server "team" "sb-0fe2" ByDelete [] sample_world) as H.
  destruct H as (calls & Hl & H); [discriminate|]. vm_compute in Hl. simpl in Hl. subst calls.
  destruct H as [H|H]; [discriminate H|exact H].
Defined.


Lemma connect_keeps_lease_witness :
  ∃ sb, owned kind_store "team" "sb-0fe2" sb ∧
    connect_outcome kind_store kind_server 0%Z sb (Some 10%Z) false None
      [SCResume "n1" "sb_0fe2" (Ok tt)] (RJSON 201 "" (DSandbox (mkSandboxReply "base" "sb-0fe2" "n1" "0.8.0" "s3t2" "sandbox.example.com" ""))).
Proof.
  pose proof (@connect_keeps_lease _ kind_store kind_hashes ascii_case kind_laws kind_server 0%Z "team" "sb-0fe2"
    (mkConnect (Some 10%Z) None) false None [] sample_world) as H.
  assert (connect (T := recorded_store kind_store) kind_server 0%Z "team" "sb-0fe2" (mkConnect (Some 10%Z) None) false None ([], sample_world) =
    (RJSON 201 "" (DSandbox (mkSandboxReply "base" "sb-0fe2" "n1" "0.8.0" "s3t2" "sandbox.example.com" "")),
     ([SCResume "n1" "sb_0fe2" (Ok tt)], sample_world))) as Hrun by (vm_compute; reflexivity).
  unfold rec_store in H. rewrite Hrun in H. destruct H as (calls & Hl & H); [discriminate|]. simpl in Hl. subst calls.
  destruct H as [[H _]|H]; [discriminate H|exact H].
Defined.

Lemma deleteSnapshot_own_witness : own_snapshot (T := kind_store) "team" "ck1" "n1".
Proof.
  pose proof (@deleteSnapshot_own _ kind_store Static.source kind_server (λ nodes, nodes) "team" "ck1" [] sample_world) as H.
  assert (deleteSnapshot (T := recorded_store kind_store) (I := logged_source Static.source) kind_server (λ nodes, nodes) "team" "ck1" ([], sample_world) =
    (RStatus 204, ([SCDeleteSnapshot "n1" "ck1" (Ok tt)], sample_world))) as Hrun by (vm_compute; reflexivity).
  unfold rec_store in H. rewrite Hrun in H. destruct H as [(H & _)|(node & res & Hown & Hl & _)]; [reflexivity|discriminate H|].
  simplify_eq/=. exact Hown.
Defined.
