(* ===== verification/PortRelay.v ===== *)
(** * The guest-port relay (pkg/sandboxd/ports.go)

    How a connection to a port of a guest is opened: dial the node, perhaps shake
    hands, ask for an upgrade, read the reply's head through a bounded and buffered
    reader, and hand the connection on with what the reader had already taken.

    The network is a parameter: dialing, TLS, reading and writing on a connection.
    The reply's head is read here byte by byte; the header grammar, the framing of a
    refusal's body and [url.Parse] are parameters. *)

From S2P Require Import Prelude GoStd GoNum GoText GoCodec Api Client StoreRead StoreLifecycle Store Sandboxd.

Definition portUpgradeProto : string := "tcp".
Definition portReplyMax : nat := Z.to_nat 16384.

(** [bufio]'s default buffer, and the empty reads it tolerates in a row. *)
Definition buffer_size : nat := Z.to_nat 4096.
Definition empty_reads : nat := 100.

Definition io_EOF : error := ErrSentinel "io.EOF".
Definition io_ErrUnexpectedEOF : error := ErrSentinel "io.ErrUnexpectedEOF".
Definition io_ErrNoProgress : error := ErrSentinel "io.ErrNoProgress".
Definition out_of_fuel : error := ErrPanic "fuel".

(** ** The network *)

Class Net (W : Type) := {
  net_dial (addr : string) : io W (result Conn);
  net_handshake (c : Conn) (serverName : string) : io W (result unit);
  net_write (c : Conn) (bytes : string) : io W (result unit);
  net_read (c : Conn) (max : nat) : io W (result string);
  (** the body of a refusal: its head, what the reader holds, and what it may still take *)
  net_body (c : Conn) (head : list string) (held : string) (max : nat) : io W string;
  net_close (c : Conn) : io W unit;
}.

(** [url.Parse] (scheme, host name and port), [http.NewRequestWithContext], the host
    a request names, and the grammar of a reply's head: what is wrong with a line,
    and with the head as a whole. *)
Class HTTPText := {
  url_parse : string → option (string * string * string);
  new_request : string → option error;
  host_header : string → string;
  line_error : list string → string → option error;
  head_error : list string → option error;
}.

(** ** The target *)

Definition join_host_port (host port : string) : string :=
  if has_byte ":" host then "[" +:+ host +:+ "]:" +:+ port else host +:+ ":" +:+ port.

Section relay.
Context {W : Type} {N : Net W} {P : HTTPText} {J : Wire}.

Definition relayTarget (base : string) : string * string * string :=
  let '(scheme, host, port) :=
    match (if str_contains base "://" then url_parse base else None) with
    | Some u => u
    | None => match split_host_port base with Some (h, p) => ("http", h, p) | None => ("http", base, "") end
    end in
  let port := str_or port (if decide (scheme = "https") then "443" else "80") in
  (scheme, join_host_port host port, host).

(** ** The upgrade request, as [Request.Write] writes it *)

Definition crlf : string := String "013" (String "010" "").
(** [textproto.TrimString] *)
Fixpoint drop_blanks (s : string) : string :=
  match s with String c r => if bool_decide (c = " " ∨ c = "009")%char then drop_blanks r else s | _ => s end.
Definition TrimString (s : string) : string := String.rev (drop_blanks (String.rev (drop_blanks s))).
(** A header value has its line breaks and surrounding blanks removed. *)
Definition header_value (s : string) : string :=
  TrimString (str_map (λ c, if decide (c = "013" ∨ c = "010")%char then " "%char else c) s).

Definition relay_path (id : string) (port : Z) : string :=
  "/v1/sandboxes/" +:+ path_escape id +:+ "/ports/" +:+ format_int port.

Definition upgrade_request (addr path token : string) : string :=
  "GET " +:+ path +:+ " HTTP/1.1" +:+ crlf +:+ "Host: " +:+ host_header addr +:+ crlf +:+ "User-Agent: Go-http-client/1.1" +:+ crlf +:+
  "Authorization: " +:+ header_value ("Bearer " +:+ token) +:+ crlf +:+ "Connection: Upgrade" +:+ crlf +:+
  "Upgrade: " +:+ portUpgradeProto +:+ crlf +:+ crlf.

(** ** Reading the reply *)

(** [bufio.Reader] over [io.LimitReader]: the bytes held, and how many more may be
    taken from the connection. *)
Record reader := mkReader {
  br_held : string;
  br_left : nat;
}.

Fixpoint fill (tries : nat) (c : Conn) (b : reader) : io W (result reader) :=
  match tries with
  | O => mret (Err io_ErrNoProgress)
  | S tries =>
      if decide (br_left b = 0) then mret (Err io_EOF)
      else
        r ← net_read c (Nat.min (buffer_size - String.length (br_held b)) (br_left b));
        match r with
        | Err e => mret (Err e)
        | Ok "" => fill tries c b
        | Ok s => mret (Ok (mkReader (br_held b +:+ s) (br_left b - String.length s)))
        end
  end.

Definition cr : string := String "013" "".
Definition lf : string := String "010" "".
Definition strip_cr (l : string) : string := default l (GoStd.cut_suffix cr l).

(** A full buffer without a line's end is set aside, but for a carriage return that
    may belong to it. *)
Definition spill (acc held : string) : string * string :=
  if decide (buffer_size ≤ String.length held) then
    match GoStd.cut_suffix cr held with Some i => (acc +:+ i, cr) | None => (acc +:+ held, "") end
  else (acc, held).

(** [textproto.Reader.ReadLine]: what a connection's end leaves of a line is one. *)
Fixpoint read_line (fuel : nat) (c : Conn) (acc : string) (b : reader) : io W (result (string * reader)) :=
  match str_cut lf (br_held b) with
  | Some (l, rest) => mret (Ok (strip_cr (acc +:+ l), mkReader rest (br_left b)))
  | None =>
      match fuel with
      | O => mret (Err out_of_fuel)
      | S fuel =>
          let '(acc, held) := spill acc (br_held b) in
          filled ← fill empty_reads c (mkReader held (br_left b));
          match filled with
          | Ok b => read_line fuel c acc b
          | Err e => mret (if decide (held = "") then Err e else Ok (acc +:+ held, mkReader "" (br_left b)))
          end
      end
  end.

Definition ReadLine (c : Conn) (b : reader) : io W (result (string * reader)) := read_line (S (br_left b)) c "" b.

(** [textproto.Reader.ReadMIMEHeader]: the lines up to an empty one. *)
Fixpoint read_lines (fuel : nat) (c : Conn) (lines : list string) (b : reader) : io W (result (list string * reader)) :=
  match fuel with
  | O => mret (Err out_of_fuel)
  | S fuel =>
      line <-? ReadLine c b;;
      let '(l, b) := line in
      if decide (l = "") then mret (Ok (lines, b))
      else match line_error lines l with
           | Some e => mret (Err e)
           | None => read_lines fuel c (lines ++ [l]) b
           end
  end.

Definition is_digit (a : ascii) : bool := bool_decide (is_Some (digit_val a)).

(** [http.ParseHTTPVersion], up to its verdict. *)
Definition version_ok (proto : string) : bool :=
  match cut_prefix "HTTP/" proto with
  | Some (String a (String "." (String b ""))) => is_digit a && is_digit b
  | _ => false
  end.

Definition parse_status (line : string) : result Z :=
  match str_cut " " line with
  | None => Err (ErrText "malformed HTTP response" [line])
  | Some (proto, status) =>
      let status := drop_leading " " status in
      let code := match str_cut " " status with Some (c, _) => c | None => status end in
      match (if decide (String.length code = 3) then atoi code else None) with
      | None => Err (ErrText "malformed HTTP status code" [code])
      | Some n =>
          if decide (n < 0)%Z then Err (ErrText "malformed HTTP status code" [code])
          else if version_ok proto then Ok n
          else Err (ErrText "malformed HTTP version" [proto])
      end
  end.

Definition unexpected_EOF (e : error) : error := if decide (e = io_EOF) then io_ErrUnexpectedEOF else e.

(** [http.ReadResponse], up to its body. *)
Definition ReadResponse (c : Conn) : io W (result (Z * list string * reader)) :=
  first ← ReadLine c (mkReader "" portReplyMax);
  match first with
  | Err e => mret (Err (unexpected_EOF e))
  | Ok (line, b) =>
      match parse_status line with
      | Err e => mret (Err e)
      | Ok code =>
          head ← read_lines (S (String.length (br_held b) + br_left b)) c [] b;
          mret match head with
               | Err e => Err (unexpected_EOF e)
               | Ok (lines, b) => match head_error lines with Some e => Err e | None => Ok (code, lines, b) end
               end
      end
  end.

(** ** The relay *)

Record bufConn := mkBufConn {
  bc_Conn : Conn;
  bc_held : string;
}.

(** What the reader held goes first. *)
Definition Read (b : bufConn) (max : nat) : io W (result string * bufConn) :=
  if decide (bc_held b = "") then r ← net_read (bc_Conn b) max; mret (r, b)
  else mret (Ok (str_take max (bc_held b)), mkBufConn (bc_Conn b) (str_drop max (bc_held b))).

Definition closing {A} (c : Conn) (e : error) : io W (result A) := _ ← net_close c; mret (Err e).

(** The upgrade on an open connection. *)
Definition upgrade (c : Conn) (addr path token : string) : io W (result bufConn) :=
  written ← net_write c (upgrade_request addr path token);
  match written with
  | Err e => closing c (ErrWrap "write upgrade" [] e)
  | Ok _ =>
      reply ← ReadResponse c;
      match reply with
      | Err e => closing c (ErrWrap "read upgrade reply" [] e)
      | Ok (code, lines, b) =>
          if decide (code ≠ 101)%Z then
            body ← net_body c lines (br_held b) (br_left b);
            closing c (statusError (mkResponse code body None))
          else mret (Ok (mkBufConn c (br_held b)))
      end
  end.

Definition DialPort (base id token : string) (port : Z) : io W (result bufConn) :=
  let '(scheme, addr, serverName) := relayTarget base in
  dialed ← net_dial addr;
  match dialed with
  | Err e => mret (Err (ErrWrap "dial node" [] e))
  | Ok c =>
      shaken ← (if decide (scheme = "https") then net_handshake c serverName else mret (Ok tt));
      match shaken with
      | Err e => closing c (ErrWrap "tls to node" [] e)
      | Ok _ =>
          match new_request (scheme +:+ "://" +:+ addr +:+ relay_path id port) with
          | Some e => closing c e
          | None => upgrade c addr (relay_path id port) token
          end
      end
  end.
End relay.

(** ** Recording what is done to connections *)

Inductive net_event :=
| EvDial (addr : string) (res : result Conn)
| EvHandshake (c : Conn) (serverName : string) (res : result unit)
| EvWrite (c : Conn) (bytes : string) (res : result unit)
| EvClose (c : Conn).

Definition recorded_net {W} (N : Net W) : Net (list net_event * W) := {|
  net_dial a := logging (net_dial a) (EvDial a);
  net_handshake c name := logging (net_handshake c name) (EvHandshake c name);
  net_write c s := logging (net_write c s) (EvWrite c s);
  net_read c max := silently (net_read c max);
  net_body c head held max := silently (net_body c head held max);
  net_close c := logging (net_close c) (λ _, EvClose c);
|}.

(** What a dial does to a target, and what comes of it: nothing but the dial when
    that fails; else a handshake if the target wants one, before anything is
    written; at most the one request; and a close exactly when it fails. *)
Record dial_log {P : HTTPText} (base id token : string) (port : Z) (t : list net_event) (r : result bufConn) : Prop := {
  dl_events : let '(scheme, addr, name) := relayTarget base in
    ∃ dialed, head t = Some (EvDial addr dialed) ∧
      match dialed with
      | Err e => t = [EvDial addr (Err e)] ∧ is_ok r = false
      | Ok c =>
          let shaken := if decide (scheme = "https") then [EvHandshake c name (Ok tt)] else [] in
          let asked := upgrade_request addr (relay_path id port) token in
          match r with
          | Ok b => t = EvDial addr (Ok c) :: shaken ++ [EvWrite c asked (Ok tt)] ∧ bc_Conn b = c
          | Err _ =>
              ∃ done, t = EvDial addr (Ok c) :: done ++ [EvClose c] ∧
                (done = shaken ∨ (∃ res, done = shaken ++ [EvWrite c asked res]) ∨
                 scheme = "https" ∧ ∃ e, done = [EvHandshake c name (Err e)])
          end
      end;
}.

Section recorded.
Context {W : Type} (N : Net W) {P : HTTPText} {J : Wire}.

Definition unlogged {A} (m : io (list net_event * W) A) : Prop := emits m (λ t _, t = []).

Lemma unlogged_ret {A} (a : A) : unlogged (mret a).
Proof. by apply emits_ret. Qed.
Lemma unlogged_bind {A B} (m : io (list net_event * W) A) (k : A → io (list net_event * W) B) :
  unlogged m → (∀ a, unlogged (k a)) → unlogged (m ≫= k).
Proof. intros Hm Hk. eapply emits_bind; [exact Hm|]. intros t a ->. apply Hk. Qed.
Lemma unlogged_silently {A} (m : io W A) : unlogged (silently m).
Proof. eapply emits_mono; [apply emits_silently|]. by intros t a [-> _]. Qed.

Lemma unlogged_fill tries c b : unlogged (fill (N := recorded_net N) tries c b).
Proof.
  revert b. induction tries as [|tries IH]; intros b; cbn [fill]; [apply unlogged_ret|]. case_decide; [apply unlogged_ret|].
  apply unlogged_bind; [apply unlogged_silently|]. intros [[|x s]|e]; [apply IH|apply unlogged_ret..].
Qed.

Lemma unlogged_read_line fuel c acc b : unlogged (read_line (N := recorded_net N) fuel c acc b).
Proof.
  revert acc b. induction fuel as [|fuel IH]; intros acc b; cbn [read_line]; destruct (str_cut _ _) as [[l rest]|]; try apply unlogged_ret.
  destruct (spill acc _) as [acc' held]. apply unlogged_bind; [apply unlogged_fill|]. intros [b'|e]; [apply IH|apply unlogged_ret].
Qed.

Lemma unlogged_read_lines fuel c lines b : unlogged (read_lines (N := recorded_net N) fuel c lines b).
Proof.
  revert lines b. induction fuel as [|fuel IH]; intros lines b; cbn [read_lines]; [apply unlogged_ret|].
  apply unlogged_bind; [apply unlogged_read_line|]. intros [[l b']|e]; [|apply unlogged_ret]. case_decide; [apply unlogged_ret|].
  destruct (line_error lines l); [apply unlogged_ret|apply IH].
Qed.

Lemma unlogged_ReadResponse c : unlogged (ReadResponse (N := recorded_net N) c).
Proof.
  apply unlogged_bind; [apply unlogged_read_line|]. intros [[l b]|e]; [|apply unlogged_ret].
  destruct (parse_status l); [|apply unlogged_ret]. apply unlogged_bind; [apply unlogged_read_lines|]. intros ?. apply unlogged_ret.
Qed.

Lemma emits_closing {A} c e : emits (closing (N := recorded_net N) (A := A) c e) (λ t r, t = [EvClose c] ∧ r = Err e).
Proof. eapply emits_bind; [apply emits_logging|]. intros t a [-> _]. by apply emits_ret. Qed.

Lemma emits_upgrade c addr path token : emits (upgrade (N := recorded_net N) c addr path token)
  (λ t r, match r with
          | Ok b => t = [EvWrite c (upgrade_request addr path token) (Ok tt)] ∧ bc_Conn b = c
          | Err _ => ∃ res, t = [EvWrite c (upgrade_request addr path token) res; EvClose c]
          end).
Proof.
  eapply emits_bind; [apply emits_logging|]. intros t1 written [-> _]. set (req := upgrade_request addr path token).
  assert (∀ e, emits (closing (N := recorded_net N) (A := bufConn) c e)
    (λ t r, match r with
            | Ok b => [EvWrite c req written] ++ t = [EvWrite c req (Ok tt)] ∧ bc_Conn b = c
            | Err _ => ∃ res, [EvWrite c req written] ++ t = [EvWrite c req res; EvClose c]
            end)) as Hclose.
  { intros e. eapply emits_mono; [apply emits_closing|]. intros t r [-> ->]. by exists written. }
  destruct written as [[]|e]; [|apply Hclose]. eapply emits_bind; [apply unlogged_ReadResponse|]. intros t2 reply ->. cbn [app].
  destruct reply as [[[code lines] b]|e]; [|apply Hclose]. case_decide; [|by apply emits_ret].
  eapply emits_bind; [apply emits_silently|]. intros t3 body [-> _]. apply Hclose.
Qed.

Lemma emits_DialPort base id token port : emits (DialPort (N := recorded_net N) base id token port) (dial_log base id token port).
Proof.
  unfold DialPort. destruct (relayTarget base) as [[scheme addr] name] eqn:Ht.
  eapply emits_bind; [apply emits_logging|]. intros t1 dialed [-> _]. set (req := upgrade_request addr (relay_path id port) token).
  destruct dialed as [c|e]; [|apply emits_ret; split; rewrite Ht; by exists (Err e)].
  set (shaken := if decide (scheme = "https") then [EvHandshake c name (Ok tt)] else []).
  eapply (emits_bind _ _ (λ t r, match r with Ok _ => t = shaken | Err e => scheme = "https" ∧ t = [EvHandshake c name (Err e)] end)).
  { subst shaken. case_decide; [|by apply emits_ret]. eapply emits_mono; [apply emits_logging|]. by intros t [[]|e] [-> _]. }
  intros t2 [[]|e] Hs.
  - subst t2. destruct (new_request _) as [e|].
    + eapply emits_mono; [apply emits_closing|]. intros t r [-> ->]. split. rewrite Ht. exists (Ok c). split; [done|]. exists shaken.
      split; [done|]. by left.
    + eapply emits_mono; [apply emits_upgrade|]. intros t [b|e] Hr; split; rewrite Ht; exists (Ok c); (split; [done|]); fold shaken; fold req.
      * destruct Hr as [-> Hb]. by split.
      * destruct Hr as [res ->]. exists (shaken ++ [EvWrite c req res]). split; [by rewrite <-app_assoc|]. right. left. by exists res.
  - destruct Hs as [Hhs ->]. eapply emits_mono; [apply emits_closing|]. intros t r [-> ->]. split. rewrite Ht. exists (Ok c). split; [done|].
    exists [EvHandshake c name (Err e)]. split; [done|]. right. right. split; [done|]. by exists e.
Qed.
End recorded.

(** ** A connection that delivers a script *)

(** What is still to arrive, in the pieces the network delivers it in, and what ends it. *)
Record script := mkScript {
  sc_chunks : list string;
  sc_end : error;
}.

Definition deliver (max : nat) (s : script) : result string * script :=
  match sc_chunks s with
  | [] => (Err (sc_end s), s)
  | x :: xs =>
      if decide (String.length x ≤ max) then (Ok x, mkScript xs (sc_end s))
      else (Ok (str_take max x), mkScript (str_drop max x :: xs) (sc_end s))
  end.

Definition scripted : Net script := {|
  net_dial _ := mret (Ok 0%Z);
  net_handshake _ _ := mret (Ok tt);
  net_write _ _ := mret (Ok tt);
  net_read _ max := deliver max;
  net_body _ _ held _ := mret held;
  net_close _ := mret tt;
|}.

Definition cat (l : list string) : string := foldr String.app "" l.
(** All that is still to arrive. *)
Definition arriving (s : script) : string := cat (sc_chunks s).
Definition live (s : script) : Prop := Forall (λ x, x ≠ "") (sc_chunks s).

(** A reply's head as a node writes it. *)
Definition head_text (lines : list string) : string := foldr (λ l r, l +:+ crlf +:+ r) crlf lines.

(** Read with the given sizes: what comes, and how it ends, if it does. *)
Fixpoint read_all {W} {N : Net W} (b : bufConn) (sizes : list nat) : io W (string * option error) :=
  match sizes with
  | [] => mret ("", None)
  | n :: sizes =>
      r ← Read b n;
      match r with
      | (Err e, _) => mret ("", Some e)
      | (Ok s, b) => rest ← read_all b sizes; mret (s +:+ rest.1, rest.2)
      end
  end.

Lemma byte_split_unique ch a b a' b' : has_byte ch a = false → has_byte ch a' = false →
  a +:+ String ch b = a' +:+ String ch b' → a = a' ∧ b = b'.
Proof.
  intros Ha Ha' Heq. pose proof (str_cut_byte ch a b Ha) as Hc. rewrite Heq, (str_cut_byte ch a' b' Ha') in Hc. by injection Hc as -> ->.
Qed.

Lemma str_app_prefix u v w r : u +:+ v = w +:+ r → String.length w ≤ String.length u → ∃ z, u = w +:+ z.
Proof.
  revert u. induction w as [|a w IH]; intros u Heq Hl; [by exists u|]. destruct u as [|b u]; simpl in Hl; [lia|].
  unfold String.app in Heq. cbn in Heq. injection Heq as -> Heq. destruct (IH u Heq ltac:(lia)) as [z ->]. by exists z.
Qed.

Lemma deliver_some max s : live s → arriving s ≠ "" → 0 < max →
  ∃ x s', deliver max s = (Ok x, s') ∧ arriving s = x +:+ arriving s' ∧ x ≠ "" ∧ String.length x ≤ max ∧ live s' ∧ sc_end s' = sc_end s.
Proof.
  destruct s as [chunks e]. unfold live, arriving, deliver. cbn [sc_chunks sc_end]. destruct chunks as [|x xs]; [done|].
  intros [Hx Hxs]%Forall_cons _ Hmax. case_decide as Hl; [by exists x, (mkScript xs e)|].
  destruct (str_take_drop max x ltac:(lia)) as [Heq Hlen]. exists (str_take max x), (mkScript (str_drop max x :: xs) e). cbn [sc_chunks sc_end cat foldr].
  split_and!; [done| | |lia| |done].
  - by rewrite <-str_app_assoc, <-Heq.
  - intros Hn. rewrite Hn in Hlen. simpl in Hlen. lia.
  - apply Forall_cons. split; [|done]. intros Hn. rewrite Hn, str_app_nil_r in Heq. apply Hl. rewrite Heq. by rewrite Hlen.
Qed.

Lemma deliver_none max s : live s → arriving s = "" → deliver max s = (Err (sc_end s), s).
Proof.
  destruct s as [[|x xs] e]; [done|]. intros [Hx _]%Forall_cons Ha. unfold arriving in Ha. cbn in Ha. by destruct x.
Qed.

Lemma spill_same acc held acc' held' : spill acc held = (acc', held') → acc' +:+ held' = acc +:+ held ∧ String.length held' < buffer_size.
Proof.
  unfold spill. assert (2 < buffer_size) as Hb by (unfold buffer_size; lia). case_decide as Hd.
  - destruct (GoStd.cut_suffix cr held) as [i|] eqn:Hc; intros [= <- <-].
    + apply cut_suffix_Some in Hc as ->. split; [by rewrite str_app_assoc|]. simpl. lia.
    + split; [by rewrite str_app_nil_r|simpl; lia].
  - intros [= <- <-]. split; [done|lia].
Qed.

Section scripted.
Context {P : HTTPText} {J : Wire} (c : Conn).
Existing Instance scripted.

Lemma fill_some tries b s : live s → arriving s ≠ "" → 0 < br_left b → String.length (br_held b) < buffer_size →
  ∃ x s', fill (S tries) c b s = (Ok (mkReader (br_held b +:+ x) (br_left b - String.length x)), s') ∧
    arriving s = x +:+ arriving s' ∧ x ≠ "" ∧ String.length x ≤ br_left b ∧ live s' ∧ sc_end s' = sc_end s.
Proof.
  intros Hlive Harr Hleft Hheld. cbn [fill]. rewrite decide_False by lia. rewrite bind_run.
  destruct (deliver_some (Nat.min (buffer_size - String.length (br_held b)) (br_left b)) s) as (x & s' & Hd & Ha & Hx & Hl & Hlive' & Hend); [done..|lia|].
  cbn [net_read scripted]. rewrite Hd. cbn [fst snd]. exists x, s'. destruct x as [|a x]; [done|]. split_and!; try done; lia.
Qed.

(** The next line of a stream that has it within what the reader may take. *)
Lemma read_line_some fuel acc b s l rest : live s → acc +:+ br_held b +:+ arriving s = l +:+ crlf +:+ rest →
  has_byte "010" l = false → has_byte "010" acc = false → br_left b < fuel →
  String.length (l +:+ crlf) ≤ String.length acc + String.length (br_held b) + br_left b →
  ∃ b' s', read_line fuel c acc b s = (Ok (l, b'), s') ∧ br_held b' +:+ arriving s' = rest ∧ live s' ∧ sc_end s' = sc_end s ∧
    String.length (br_held b') + br_left b' + String.length (l +:+ crlf) = String.length acc + String.length (br_held b) + br_left b.
Proof.
  assert (∀ r, l +:+ crlf +:+ r = (l +:+ cr) +:+ String "010" r) as Hcrlf by (intros r; by rewrite str_app_assoc).
  revert acc b s. induction fuel as [|fuel IH]; intros acc b s Hlive Heq Hl Hacc Hfuel Hlen; [lia|].
  assert (has_byte "010" (l +:+ cr) = false) as Hlcr by (by rewrite has_byte_app, Hl).
  cbn [read_line]. unfold lf. destruct (str_cut (String "010" "") (br_held b)) as [[x held]|] eqn:Hcut.
  - apply str_cut_byte_Some in Hcut as [Hheld Hx]. exists (mkReader held (br_left b)), s. cbn [br_held br_left].
    assert ((acc +:+ x) = l +:+ cr ∧ held +:+ arriving s = rest) as [Hax Hrest].
    { apply (byte_split_unique "010"); [by rewrite has_byte_app, Hacc, Hx|done|]. rewrite <-Hcrlf, <-Heq, Hheld, !str_app_assoc. done. }
    split_and!; [|done..|].
    + unfold strip_cr. by rewrite Hax, cut_suffix_app.
    + apply (f_equal String.length) in Hax, Hheld. rewrite !str_length_app in *. unfold crlf, cr in *. cbn [String.length] in *. lia.
  - apply str_cut_byte_None in Hcut. destruct (spill acc (br_held b)) as [acc' held] eqn:Hsp. apply spill_same in Hsp as [Hsame Hroom].
    assert (has_byte "010" (acc' +:+ held) = false) as Hno by (by rewrite Hsame, has_byte_app, Hacc, Hcut).
    pose proof (f_equal String.length Hsame) as Hsl. rewrite !str_length_app in Hsl.
    assert (arriving s ≠ "") as Harr.
    { intros Ha. rewrite Ha, str_app_nil_r, <-Hsame in Heq. rewrite Heq, !has_byte_app in Hno. cbn in Hno. by rewrite orb_true_r in Hno. }
    assert (0 < br_left b) as Hleft.
    { destruct (decide (br_left b = 0)) as [Hz|]; [|lia]. exfalso. rewrite <-!str_app_assoc in Heq.
      destruct (str_app_prefix _ _ _ _ Heq) as [z Hz']; [rewrite (str_length_app acc); lia|].
      rewrite <-Hsame in Hz'. rewrite Hz', !has_byte_app in Hno. cbn in Hno. by rewrite orb_true_r in Hno. }
    rewrite bind_run. unfold empty_reads. destruct (fill_some 99 (mkReader held (br_left b)) s) as (x & s' & -> & Ha & Hx & Hxl & Hlive' & Hend); [done..|].
    cbn [fst snd br_held br_left] in *.
    destruct (IH acc' (mkReader (held +:+ x) (br_left b - String.length x)) s') as (b' & s2 & Hrun & Hrest & Hlive2 & Hend2 & Hlen2).
    + done.
    + cbn [br_held]. rewrite <-Heq, Ha, !str_app_assoc, <-!str_app_assoc. f_equal. f_equal. by rewrite Hsame.
    + done.
    + rewrite has_byte_app in Hno. by apply orb_false_iff in Hno as [? _].
    + cbn [br_left]. assert (0 < String.length x) by (destruct x; [done|simpl; lia]). lia.
    + cbn [br_left br_held]. rewrite (str_length_app held). lia.
    + exists b', s2. rewrite Hend2. split_and!; try done. rewrite Hlen2. cbn [br_held br_left]. rewrite (str_length_app held). lia.
Qed.

(** Lines a head may be made of, after those before them. *)
Fixpoint head_lines (before lines : list string) : Prop :=
  match lines with
  | [] => True
  | l :: lines => l ≠ "" ∧ has_byte "010" l = false ∧ line_error before l = None ∧ head_lines (before ++ [l]) lines
  end.

Lemma read_lines_some fuel before lines b s rest : live s → head_lines before lines → br_held b +:+ arriving s = head_text lines +:+ rest →
  String.length (head_text lines) ≤ String.length (br_held b) + br_left b → String.length (br_held b) + br_left b < fuel →
  ∃ b' s', read_lines fuel c before b s = (Ok (before ++ lines, b'), s') ∧ br_held b' +:+ arriving s' = rest ∧ live s' ∧ sc_end s' = sc_end s.
Proof.
  revert before b s fuel. induction lines as [|l lines IH]; intros before b s fuel Hlive Hlines Heq Hlen Hfuel;
    (destruct fuel as [|fuel]; [lia|]); cbn [read_lines]; unfold try, ReadLine; rewrite bind_run; cbn [head_text foldr] in *.
  - destruct (read_line_some (S (br_left b)) "" b s "" rest) as (b' & s' & -> & Hrest & Hl' & He' & _); [done|exact Heq|done|done|lia|exact Hlen|].
    cbn [fst snd]. rewrite decide_True by done. exists b', s'. by rewrite app_nil_r.
  - destruct Hlines as (Hne & Hlf & Hok & Hlines). change (foldr _ crlf lines) with (head_text lines) in *. rewrite !str_app_assoc in Heq.
    rewrite !str_length_app in Hlen. change (String.length crlf) with 2 in Hlen.
    destruct (read_line_some (S (br_left b)) "" b s l (head_text lines +:+ rest)) as (b' & s' & -> & Hrest & Hl' & He' & Hn); try done; [lia|
      rewrite str_length_app; simpl; lia|].
    rewrite str_length_app in Hn. cbn [String.length crlf] in Hn. cbn [fst snd]. rewrite decide_False by done. rewrite Hok.
    destruct (IH (before ++ [l]) b' s' fuel) as (b2 & s2 & -> & Hr2 & Hl2 & He2); try done; [lia..|].
    exists b2, s2. rewrite <-app_assoc, He2. done.
Qed.

Lemma ReadResponse_some line lines code guest s : live s → parse_status line = Ok code → has_byte "010" line = false →
  head_lines [] lines → head_error lines = None → arriving s = line +:+ crlf +:+ head_text lines +:+ guest →
  String.length (line +:+ crlf +:+ head_text lines) ≤ portReplyMax →
  ∃ b s', ReadResponse c s = (Ok (code, lines, b), s') ∧ br_held b +:+ arriving s' = guest ∧ live s' ∧ sc_end s' = sc_end s.
Proof.
  intros Hlive Hcode Hlf Hlines Hhead Heq Hlen. unfold ReadResponse, ReadLine. rewrite bind_run. cbn [br_left]. rewrite !str_length_app in Hlen. change (String.length crlf) with 2 in Hlen.
  destruct (read_line_some (S portReplyMax) "" (mkReader "" portReplyMax) s line (head_text lines +:+ guest))
    as (b & s1 & -> & Hrest & Hl1 & He1 & Hn); [done|by rewrite Heq|done|done|cbn [br_left]; lia|cbn [br_held br_left String.length]; rewrite str_length_app; change (String.length crlf) with 2; lia|].
  cbn [br_held br_left String.length] in Hn. rewrite str_length_app in Hn. cbn [String.length crlf] in Hn. cbn [fst snd]. rewrite Hcode, bind_run.
  destruct (read_lines_some (S (String.length (br_held b) + br_left b)) [] lines b s1 guest) as (b2 & s2 & -> & Hr2 & Hl2 & He2); try done; [lia..|].
  cbn [fst snd app mret io_ret]. rewrite Hhead. exists b2, s2. by rewrite He2, He1.
Qed.
End scripted.

(** ** The reads end *)

(** A read gives no more than was asked for. *)
Class NetLaws {W} (N : Net W) := {
  net_read_bounded c max w s : (net_read c max w).1 = Ok s → String.length s ≤ max;
  net_read_fuel c max w : (net_read c max w).1 ≠ Err out_of_fuel;
}.
Class HTTPLaws (P : HTTPText) := {
  line_error_fuel lines l : line_error lines l ≠ Some out_of_fuel;
  head_error_fuel lines : head_error lines ≠ Some out_of_fuel;
}.

Section fuel.
Context {W : Type} {N : Net W} {NL : NetLaws N} {P : HTTPText} {PL : HTTPLaws P}.

Lemma fill_ends tries c b (w : W) : String.length (br_held b) < buffer_size →
  match (fill tries c b w).1 with
  | Ok b' => br_left b' < br_left b ∧ String.length (br_held b') + br_left b' = String.length (br_held b) + br_left b
  | Err e => e ≠ out_of_fuel
  end.
Proof.
  intros Hb. revert w. induction tries as [|tries IH]; intros w; cbn [fill]; [done|]. case_decide as Hz; [done|]. rewrite bind_run.
  pose proof (net_read_bounded c (Nat.min (buffer_size - String.length (br_held b)) (br_left b)) w) as Hbound.
  pose proof (net_read_fuel c (Nat.min (buffer_size - String.length (br_held b)) (br_left b)) w) as Hfuel.
  destruct (net_read _ _ w) as [[s|e] w1]; cbn [fst snd] in *; [|by intros ->]. specialize (Hbound s eq_refl).
  destruct s as [|a s]; [apply IH|]. cbn [mret io_ret fst br_held br_left]. rewrite str_length_app. cbn [String.length] in *. lia.
Qed.

Lemma read_line_ends fuel c acc b (w : W) : br_left b < fuel →
  match (read_line fuel c acc b w).1 with
  | Ok (l, b') => String.length (br_held b') + br_left b' < S (String.length acc + String.length (br_held b) + br_left b) ∧
      (l ≠ "" → String.length (br_held b') + br_left b' < String.length acc + String.length (br_held b) + br_left b)
  | Err e => e ≠ out_of_fuel
  end.
Proof.
  revert acc b w. induction fuel as [|fuel IH]; intros acc b w Hfuel; [lia|]. cbn [read_line]. unfold lf.
  destruct (str_cut _ (br_held b)) as [[x held]|] eqn:Hcut.
  - apply str_cut_byte_Some in Hcut as [Hh _]. cbn [mret io_ret fst br_held br_left]. rewrite Hh, str_length_app. cbn [String.length]. lia.
  - destruct (spill acc (br_held b)) as [acc' held] eqn:Hsp. apply spill_same in Hsp as [Hsame Hroom]. apply (f_equal String.length) in Hsame.
    rewrite !str_length_app in Hsame. rewrite bind_run. pose proof (fill_ends empty_reads c (mkReader held (br_left b)) w Hroom) as Hf.
    destruct (fill _ c _ w) as [[b'|e] w1]; cbn [fst snd br_held br_left] in *.
    + destruct Hf as [Hlt Heq]. specialize (IH acc' b' w1 ltac:(lia)). destruct (read_line fuel c acc' b' w1).1 as [[l b2]|e]; [|done].
      destruct IH as [H1 H2]. split; [lia|]. intros Hl. specialize (H2 Hl). lia.
    + case_decide as Hheld; [by intros ->|]. cbn [mret io_ret fst br_held br_left String.length].
      assert (0 < String.length held) by (destruct held; [done|simpl; lia]). lia.
Qed.

Lemma read_lines_ends fuel c lines b (w : W) : String.length (br_held b) + br_left b < fuel →
  match (read_lines fuel c lines b w).1 with Ok _ => True | Err e => e ≠ out_of_fuel end.
Proof.
  revert lines b w. induction fuel as [|fuel IH]; intros lines b w Hfuel; [lia|]. cbn [read_lines]. unfold try, ReadLine. rewrite bind_run.
  pose proof (read_line_ends (S (br_left b)) c "" b w ltac:(lia)) as Hl.
  destruct (read_line _ c "" b w) as [[[l b']|e] w1]; cbn [fst snd] in *; [|done]. case_decide as Hne; [done|].
  destruct (line_error lines l) as [e|] eqn:He; [cbn; intros ->; by apply (line_error_fuel lines l)|].
  apply IH. destruct Hl as [_ Hl]. specialize (Hl Hne). cbn [String.length] in Hl. lia.
Qed.

Lemma parse_status_fuel line : parse_status line ≠ Err out_of_fuel.
Proof. unfold parse_status. destruct (str_cut _ _) as [[proto status]|]; [|done]. cbv zeta. repeat case_match; done. Qed.

Lemma unexpected_EOF_fuel e : e ≠ out_of_fuel → unexpected_EOF e ≠ out_of_fuel.
Proof. intros He. unfold unexpected_EOF. by case_decide. Qed.

Lemma ReadResponse_ends c (w : W) : (ReadResponse c w).1 ≠ Err out_of_fuel.
Proof.
  unfold ReadResponse, ReadLine. rewrite bind_run. pose proof (read_line_ends (S portReplyMax) c "" (mkReader "" portReplyMax) w ltac:(cbn; lia)) as Hl.
  cbn [br_left]. destruct (read_line _ c "" _ w) as [[[l b]|e] w1]; cbn [fst snd] in *.
  - pose proof (parse_status_fuel l) as Hp. destruct (parse_status l) as [code|e]; [|cbn; by intros [= ->]]. rewrite bind_run.
    pose proof (read_lines_ends (S (String.length (br_held b) + br_left b)) c [] b w1 ltac:(lia)) as Hls.
    destruct (read_lines _ c [] b w1) as [[[lines b']|e] w2]; cbn [fst snd mret io_ret] in *.
    + destruct (head_error lines) as [e|] eqn:He; [|done]. intros [= ->]. by apply (head_error_fuel lines).
    + intros [= Hf]. by apply (unexpected_EOF_fuel e).
  - cbn. intros [= Hf]. by apply (unexpected_EOF_fuel e).
Qed.
End fuel.

(** ** Reading on a relayed connection *)

Section reading.
Existing Instance scripted.

Lemma take_drop_all n s : str_take n s +:+ str_drop n s = s.
Proof.
  revert s. induction n as [|n IH]; intros s; [by destruct s|]. destruct s as [|a s]; [done|].
  change (String a (str_take n s +:+ str_drop n s) = String a s). by rewrite IH.
Qed.

Lemma Read_step b n s : live s → 0 < n →
  (bc_held b +:+ arriving s = "" ∧ Read b n s = ((Err (sc_end s), b), s)) ∨
  ∃ x b' s', Read b n s = ((Ok x, b'), s') ∧ bc_held b +:+ arriving s = x +:+ bc_held b' +:+ arriving s' ∧ x ≠ "" ∧ live s' ∧ sc_end s' = sc_end s.
Proof.
  intros Hlive Hn. unfold Read. case_decide as Hh.
  - rewrite bind_run, Hh. cbn [net_read scripted]. destruct (decide (arriving s = "")) as [Ha|Ha].
    + left. split; [done|]. by rewrite deliver_none.
    + right. destruct (deliver_some n s Hlive Ha Hn) as (x & s' & -> & Hx & Hne & _ & Hl & He). exists x, b, s'. by rewrite Hh.
  - right. exists (str_take n (bc_held b)), (mkBufConn (bc_Conn b) (str_drop n (bc_held b))), s. split; [done|]. cbn [bc_held].
    split; [by rewrite <-str_app_assoc, take_drop_all|]. split; [|done]. destruct n; [lia|]. by destruct (bc_held b).
Qed.

Lemma read_all_some b sizes s guest : live s → Forall (λ n, 0 < n) sizes → bc_held b +:+ arriving s = guest →
  let '(got, ended) := (read_all b sizes s).1 in
  ∃ rest, guest = got +:+ rest ∧ (∀ e, ended = Some e → rest = "" ∧ e = sc_end s) ∧ (String.length guest < length sizes → ended = Some (sc_end s)).
Proof.
  intros Hlive Hsizes. revert b s guest Hlive. induction Hsizes as [|n sizes Hn _ IH]; intros b s guest Hlive Hg; cbn [read_all].
  - exists guest. split; [done|]. split; [done|simpl; lia].
  - rewrite bind_run. destruct (Read_step b n s Hlive Hn) as [[Hempty ->]|(x & b' & s' & -> & Heq & Hx & Hl & He)]; cbn [fst snd].
    + exists "". rewrite <-Hg, Hempty. split; [done|]. split; [by intros e [= <-]|done].
    + rewrite bind_run. specialize (IH b' s' _ Hl eq_refl). destruct (read_all b' sizes s') as [[got ended] s2]. cbn [fst snd mret io_ret] in *.
      destruct IH as (rest & Hr & Hend & Hlong). exists rest. rewrite <-Hg, Heq, Hr. split; [by rewrite str_app_assoc|]. rewrite He in *. split; [done|].
      intros Hlen. apply Hlong. rewrite str_length_app in Hlen. assert (0 < String.length x) by (destruct x; [done|simpl; lia]).
      rewrite Hr. cbn [length] in Hlen. lia.
Qed.
End reading.

(** ** Properties *)

(** C34: a dial of a guest port leaks no connection and shows its credential to the
    node alone: it dials the target of its base address once; with an https base
    nothing is written before the handshake has succeeded; all it ever writes is the
    one upgrade request, for its id and port and with its token; and the connection
    is closed, last of all, exactly when the dial fails. *)
Theorem relay_accounts {W : Type} (N : Net W) {P : HTTPText} {J : Wire} (base id token : string) (port : Z) (w : W) :
  let out := DialPort (N := recorded_net N) base id token port ([], w) in
  dial_log base id token port out.2.1 out.1.
Proof.
  cbv zeta. destruct (emits_DialPort N base id token port [] w) as (t & -> & Hlog). exact Hlog.
Qed.

(** C35: what a guest sends is what its caller reads: when the node accepts the
    upgrade with a head within [portReplyMax], then whatever pieces the network
    delivers the reply in, however much of it the head's reader had already taken,
    and in whatever sizes the caller reads, the bytes read are the bytes after the
    head, in order, none lost and none twice, and enough reads give them all and
    then the connection's own end. *)
Theorem relay_replays {P : HTTPText} {J : Wire} (base id token : string) (port : Z) (lines : list string) (guest : string) (s : script) (sizes : list nat) :
  let '(scheme, addr, name) := relayTarget base in
  new_request (scheme +:+ "://" +:+ addr +:+ relay_path id port) = None →
  head_lines [] lines → head_error lines = None →
  let line := "HTTP/1.1 101 Switching Protocols" in
  arriving s = line +:+ crlf +:+ head_text lines +:+ guest → live s → String.length (line +:+ crlf +:+ head_text lines) ≤ portReplyMax →
  Forall (λ n, 0 < n) sizes →
  ∃ b s', DialPort (N := scripted) base id token port s = (Ok b, s') ∧
    let '(got, ended) := (read_all (N := scripted) b sizes s').1 in
    ∃ rest, guest = got +:+ rest ∧ (∀ e, ended = Some e → rest = "" ∧ e = sc_end s) ∧ (String.length guest < length sizes → ended = Some (sc_end s)).
Proof.
  destruct (relayTarget base) as [[scheme addr] name] eqn:Ht. intros Hreq Hlines Hhead line Harr Hlive Hlen Hsizes.
  destruct (ReadResponse_some 0%Z line lines 101%Z guest s) as (b & s' & Hrun & Hguest & Hl & He); try done.
  exists (mkBufConn 0%Z (br_held b)), s'. split.
  - unfold DialPort. rewrite Ht, bind_run. cbn [net_dial scripted mret io_ret fst snd]. rewrite bind_run.
    assert ((if decide (scheme = "https") then net_handshake (Net := scripted) 0%Z name else mret (Ok tt)) s = (Ok tt, s)) as -> by (by case_decide).
    cbn [fst snd]. rewrite Hreq. unfold upgrade. rewrite bind_run. cbn [net_write scripted mret io_ret fst snd]. rewrite bind_run, Hrun.
    cbn [fst snd]. by rewrite decide_False by (intros H; by apply H).
  - rewrite <-He. by apply read_all_some.
Qed.

(** the handshake always ends: the reader takes at most [portReplyMax] bytes, so
    on any network whose reads respect their size, however the bytes arrive, the
    fuel of the head's reader never runs out. *)
Theorem relay_terminates {W : Type} {N : Net W} {P : HTTPText} (NL : NetLaws N) (PL : HTTPLaws P) (c : Conn) (w : W) :
  (ReadResponse c w).1 ≠ Err out_of_fuel.
Proof. apply ReadResponse_ends. Qed.

(** ** Witnesses *)

Definition plain_text : HTTPText := {|
  url_parse _ := None;
  new_request _ := None;
  host_header a := a;
  line_error _ _ := None;
  head_error _ := None;
|}.

(** A node that accepts an upgrade, its guest's greeting on the heels of the head. *)
Definition greeting : script :=
  mkScript ["HTTP/1.1 101 Swit"; "ching Protocols" +:+ crlf +:+ "Upgrade: tcp" +:+ cr; lf +:+ crlf +:+ "SSH-"; "2.0"] io_EOF.

Lemma relay_replays_witness : ∃ b s', DialPort (N := scripted) (P := plain_text) (J := toy_wire) "10.0.0.1:7000" "sb_0fe2" "tok" 22 greeting = (Ok b, s') ∧
  let '(got, ended) := (read_all (N := scripted) b [3; 1; 10; 10; 10; 10; 10; 10] s').1 in
  ∃ rest, "SSH-2.0" = got +:+ rest ∧ (∀ e, ended = Some e → rest = "" ∧ e = io_EOF) ∧ (7 < 8 → ended = Some io_EOF).
Proof.
  apply (@relay_replays plain_text toy_wire "10.0.0.1:7000" "sb_0fe2" "tok" 22 ["Upgrade: tcp"] "SSH-2.0" greeting [3; 1; 10; 10; 10; 10; 10; 10]).
  - reflexivity.
  - split_and!; [discriminate|reflexivity|reflexivity|exact I].
  - reflexivity.
  - vm_compute. reflexivity.
  - repeat (apply Forall_cons; split; [discriminate|]). apply Forall_nil_2.
  - unfold portReplyMax. vm_compute. lia.
  - repeat (apply Forall_cons; split; [lia|]). apply Forall_nil_2.
Defined.

(** A connection that never delivers anything, and one that is never closed. *)
Definition silent_net : Net unit := {|
  net_dial _ := mret (Ok 0%Z);
  net_handshake _ _ := mret (Ok tt);
  net_write _ _ := mret (Ok tt);
  net_read _ _ := mret (Ok "");
  net_body _ _ _ _ := mret "";
  net_close _ := mret tt;
|}.
Definition silent_laws : NetLaws silent_net.
Proof. split; [intros c max w s [= <-]; simpl; lia|discriminate]. Qed.
Definition plain_laws : HTTPLaws plain_text.
Proof. by split. Qed.

Lemma relay_terminates_witness : (ReadResponse (N := silent_net) (P := plain_text) 0%Z tt).1 ≠ Err out_of_fuel.
Proof. apply (@relay_terminates unit silent_net plain_text silent_laws plain_laws 0%Z tt). Defined.
