(* ===== verification/EnvdRoute.v ===== *)
(** * Routing at the edge (pkg/envdproxy/route.go, envdproxy.go, dial.go)

    Which sandbox and guest port a request names, which requests the edge
    relays and with which credential, and how a node's refusal is reported. *)

From S2P Require Import Prelude GoStd GoNum GoText GoCodec Api SandboxId.

(** ** Constants *)

Definition sandboxIDHeader : string := "E2b-Sandbox-Id".
Definition sandboxPortHeader : string := "E2b-Sandbox-Port".
Definition accessTokenHeader : string := "X-Access-Token".
(** [http.CanonicalHeaderKey("X-API-KEY")] *)
Definition apiKeyHeader : string := "X-Api-Key".
Definition envdPort : Z := 49983.

Definition internalPaths : list string := ["/init"; "/freeze"; "/unfreeze"; "/fsfreeze"; "/fsthaw"; "/collapse"].

(** ** Requests and routes *)

(** What the edge reads of an [http.Request]: [rq_Header k] is [r.Header.Get(k)],
    [rq_Query k] is [r.URL.Query().Get(k)]. *)
Record http_request := mkHttpRequest {
  hr_Host : string;
  hr_Path : string;
  hr_Header : string → string;
  hr_Query : string → string;
}.

Record route := mkRoute {
  rt_sandboxID : string;
  rt_port : Z;
}.

Section route.
Context {U : CaseMap}.

Definition parsePort (s : string) : option Z :=
  port ← parse_uint 16 (trim_space s);
  if decide (port = 0)%Z then None else Some port.

Definition routeOfHost (host domain : string) : option route :=
  let host := match split_host_port host with Some (h, _) => h | None => host end in
  label ← cut_suffix ("." +:+ to_lower domain) (to_lower host);
  if bool_decide (label = "") || str_contains label "." then None
  else
    match str_cut "-" label with
    | None => None
    | Some (portStr, id) =>
        if decide (id = "") then None
        else port ← parsePort portStr; Some (mkRoute id port)
    end.

Definition routeOf (r : http_request) (domain : string) : option route :=
  let id := trim_space (hr_Header r sandboxIDHeader) in
  if decide (id = "") then routeOfHost (hr_Host r) domain
  else port ← parsePort (hr_Header r sandboxPortHeader); Some (mkRoute id port).

Definition internalPath (path : string) : bool :=
  let clean := "/" +:+ trim_byte "/" path in
  contains_func (λ p, equal_fold_ascii clean p) internalPaths.

Definition signedFileURL (r : http_request) : bool :=
  bool_decide (hr_Path r = "/files") && negb (bool_decide (hr_Query r "signature" = "")).

(** ** Serving *)

Record Owner := mkOwner {
  ow_ClaimID : string;
  ow_Address : string;
  ow_Token : string;
}.
Definition ErrSandboxNotFound : error := ErrSentinel "envdproxy.ErrSandboxNotFound".
Definition ErrAccessDenied : error := ErrSentinel "envdproxy.ErrAccessDenied".

(** The [Resolver] interface, over its state [R]. *)
Class Resolver (R : Type) := {
  OwnerOf (sandboxID accessToken : string) : io R (result Owner);
  Locate (sandboxID : string) : io R (result Owner);
}.

Record Options := mkOptions {
  op_Domain : string;
  op_GuestHTTP2 : bool;
  op_NodeToken : string;
}.

(** [NewServer] refuses a blank domain or node token. *)
Definition NewServer (opts : Options) : result Options :=
  if decide (trim_space (op_Domain opts) = "") then
    Err (ErrText "envdproxy: no domain configured; the SDK's sandbox host is derived from it" [])
  else if decide (trim_space (op_NodeToken opts) = "") then
    Err (ErrText "envdproxy: the node token is required; a signed file URL relays with it" [])
  else Ok opts.

Record target := mkTarget {
  tg_owner : Owner;
  tg_port : Z;
  tg_h2 : bool;
}.

(** What the handler does with a request: answer it, or relay it to a target. *)
Inductive outcome :=
| Answer (status : Z) (msg : string)
| Relay (t : target).

Definition is_err (e target : error) : bool := bool_decide (target ∈ unwrap_all e).

Definition serve {R} `{Resolver R} (opts : Options) (r : http_request) : io R outcome :=
  match routeOf r (op_Domain opts) with
  | None => mret (Answer 400 "no sandbox in the request host or headers")
  | Some rt =>
      if internalPath (hr_Path r) then mret (Answer 404 "not found")
      else
        let finish (owner : result Owner) : outcome :=
          match owner with
          | Err e => if is_err e ErrAccessDenied then Answer 401 "invalid sandbox access token" else Answer 502 "sandbox unavailable"
          | Ok owner => Relay (mkTarget owner (rt_port rt) (op_GuestHTTP2 opts))
          end in
        let token := trim_space (hr_Header r accessTokenHeader) in
        if negb (bool_decide (token = "")) then
          owner ← OwnerOf (rt_sandboxID rt) token; mret (finish owner)
        else if bool_decide (rt_port rt = envdPort) && signedFileURL r then
          owner ← Locate (rt_sandboxID rt);
          mret (finish (fmap (M := result) (λ o, mkOwner (ow_ClaimID o) (ow_Address o) (op_NodeToken opts)) owner))
        else mret (Answer 401 "missing X-Access-Token")
  end.

(** The SDK's spelling of a sandbox's envd host. *)
Definition sandboxHost (opts : Options) (rt : route) : string :=
  format_int (rt_port rt) +:+ "-" +:+ rt_sandboxID rt +:+ "." +:+ op_Domain opts.

Definition writeUpstreamError (e : error) : Z * string :=
  match errors_as http_of e with
  | Some (code, _) =>
      if decide (code = 404 ∨ code = 401)%Z then (401%Z, "invalid sandbox access token")
      else if decide (code = 400)%Z then (400%Z, "unsupported sandbox port")
      else if decide (code = 409)%Z then (502%Z, "sandbox is paused")
      else (502%Z, "sandbox unreachable")
  | None => (502%Z, "sandbox unreachable")
  end.

(** [Rewrite]: the outbound request's scheme, host and headers, from the inbound
    headers with the forwarding ones already set. *)
Definition rewrite (opts : Options) (rt : route) (headers : gmap string (list string)) : string * string * gmap string (list string) :=
  ("http", sandboxHost opts rt, delete apiKeyHeader headers).

(** Which transport carries a request: the guest's protocol, not the client's. *)
Inductive transport := H1 | H2.
Definition RoundTrip (t : option target) : transport :=
  match t with Some t => if tg_h2 t then H2 else H1 | None => H1 end.
End route.

(** ** Lemmas *)

Section lemmas.
Context {U : CaseMap}.

Lemma parsePort_range s p : parsePort s = Some p → (1 ≤ p ≤ 65535)%Z.
Proof.
  unfold parsePort. intros (n & Hn%parse_uint_range & Hp)%bind_Some. case_decide; [done|]. injection Hp as <-. lia.
Qed.

Lemma routeOf_sound r domain rt : routeOf r domain = Some rt → rt_sandboxID rt ≠ "" ∧ (1 ≤ rt_port rt ≤ 65535)%Z.
Proof.
  unfold routeOf. case_decide as Hid.
  - unfold routeOfHost. intros (label & _ & H)%bind_Some. destruct (bool_decide _ || _); [done|].
    destruct (str_cut "-" label) as [[ps id]|]; [|done]. case_decide; [done|].
    apply bind_Some in H as (p & Hp%parsePort_range & [= <-]). done.
  - intros (p & Hp%parsePort_range & [= <-])%bind_Some. done.
Qed.

(** A decimal port reads back. *)
Lemma parsePort_format n : (1 ≤ n ≤ 65535)%Z → parsePort (format_int n) = Some n.
Proof.
  intros Hn. unfold parsePort. rewrite trim_space_visible.
  - rewrite parse_uint_format by lia. simpl. by rewrite decide_False by lia.
  - apply format_int_bytes; [|lia]. by apply (digit_cases (λ c, _ c = true)).
Qed.

(** A host name: letters, digits, hyphens and dots. *)
Definition host_byte (c : ascii) : bool := isDNSSafe (lower_byte c) || bool_decide (c = "."%char).

Lemma host_byte_ascii c : host_byte c = true → is_ascii c = true.
Proof.
  unfold host_byte. rewrite orb_true_iff, bool_decide_eq_true. intros [H| ->]; [|done].
  apply isDNSSafe_code in H. unfold lower_byte, is_ascii, code in *. case_decide; apply bool_decide_eq_true; lia.
Qed.

Lemma isDNSSafe_lower c : isDNSSafe c = true → lower_byte c = c.
Proof. intros H%isDNSSafe_code. unfold lower_byte. rewrite decide_False; [done|]. unfold code in H. lia. Qed.

Lemma isDNSSafe_host c : isDNSSafe c = true → host_byte c = true.
Proof. intros H. unfold host_byte. by rewrite isDNSSafe_lower, H. Qed.

Lemma digits_safe n : (0 < n)%Z → all_bytes isDNSSafe (format_int n) = true ∧ has_byte "-" (format_int n) = false.
Proof.
  intros Hn. split.
  - apply format_int_bytes; [|done]. by apply (digit_cases (λ c, _ c = true)).
  - apply (has_byte_all "-" (within 48 57)); [|done]. apply format_int_bytes; [|done]. by apply (digit_cases (λ c, _ c = true)).
Qed.

Lemma sandboxHost_label opts rt :
  sandboxHost opts rt = (format_int (rt_port rt) +:+ "-" +:+ rt_sandboxID rt) +:+ "." +:+ op_Domain opts.
Proof. unfold sandboxHost. by rewrite !str_app_assoc. Qed.
End lemmas.

(** ** Properties *)

Section properties.
Context {U : CaseMap}.

(** the host the SDK derives for a sandbox routes back to that sandbox and
    port: for every DNS-safe id and every port, under a domain of ASCII host-name
    bytes, with or without the client's own port appended. *)
Theorem host_round_trip `{!CaseMapLaws U} (opts : Options) (rt : route) (port : option string) :
  (1 ≤ rt_port rt ≤ 65535)%Z → rt_sandboxID rt ≠ "" → all_bytes isDNSSafe (rt_sandboxID rt) = true →
  all_bytes host_byte (op_Domain opts) = true →
  (∀ p, port = Some p → all_bytes isDNSSafe p = true) →
  routeOfHost (sandboxHost opts rt +:+ match port with Some p => ":" +:+ p | None => "" end) (op_Domain opts) = Some rt.
Proof.
  intros Hp Hid Hsafe Hdom Hport. destruct (digits_safe (rt_port rt) ltac:(lia)) as [Hds Hdash].
  set (label := format_int (rt_port rt) +:+ "-" +:+ rt_sandboxID rt).
  assert (all_bytes isDNSSafe label = true) as Hlab.
  { unfold label. rewrite !all_bytes_app. by rewrite Hds, Hsafe. }
  assert (all_bytes host_byte (sandboxHost opts rt) = true) as Hhost.
  { rewrite sandboxHost_label. fold label. rewrite !all_bytes_app, Hdom.
    by rewrite (all_bytes_impl isDNSSafe host_byte label isDNSSafe_host Hlab). }
  assert (∀ c, host_byte c = false → has_byte c (sandboxHost opts rt) = false) as Hnot.
  { intros c Hc. by eapply has_byte_all. }
  unfold routeOfHost.
  assert (match split_host_port (sandboxHost opts rt +:+ match port with Some p => ":" +:+ p | None => "" end) with
          | Some (h, _) => h | None => sandboxHost opts rt +:+ match port with Some p => ":" +:+ p | None => "" end end
          = sandboxHost opts rt) as ->.
  { destruct port as [p|].
    - specialize (Hport p eq_refl). assert (∀ c, isDNSSafe c = false → has_byte c p = false) as Hp' by (intros c Hc; by eapply has_byte_all).
      change (":" +:+ p) with (String ":" p). rewrite split_host_port_app; [done|by apply Hnot|by apply Hp'|..];
        rewrite has_byte_app; simpl; rewrite Hnot, Hp'; done.
    - rewrite str_app_nil_r. by rewrite split_host_port_none by by apply Hnot. }
  rewrite !to_lower_ascii by (eapply all_bytes_impl; [apply host_byte_ascii|done]).
  rewrite sandboxHost_label. fold label. rewrite !str_map_app.
  rewrite (str_map_id lower_byte label isDNSSafe Hlab isDNSSafe_lower).
  change (str_map lower_byte ".") with ".". rewrite cut_suffix_app. cbn [mbind option_bind].
  rewrite str_contains_byte, (has_byte_all "." isDNSSafe label Hlab) by done.
  rewrite bool_decide_eq_false_2 by (unfold label; by destruct (format_int (rt_port rt))). cbn [orb].
  unfold label. change ("-" +:+ rt_sandboxID rt) with (String "-" (rt_sandboxID rt)). rewrite str_cut_byte by done.
  rewrite decide_False by done. rewrite parsePort_format by done. by destruct rt.
Qed.

(** What a relayed request is: it names a sandbox and a port in 1-65535, is not one
    of envd's control paths, and goes to the owner the resolver admitted for its
    access token, or, for a signed file link on envd's port without one, to the
    sandbox's owner under the node token. *)
Lemma serve_relays {R} `{Resolver R} (opts : Options) (r : http_request) (st : R) (t : target) :
  (serve opts r st).1 = Relay t →
  let token := trim_space (hr_Header r accessTokenHeader) in
  internalPath (hr_Path r) = false ∧
  ∃ rt, routeOf r (op_Domain opts) = Some rt ∧ rt_sandboxID rt ≠ "" ∧ tg_port t = rt_port rt ∧ (1 ≤ tg_port t ≤ 65535)%Z ∧
    ((token ≠ "" ∧ (OwnerOf (rt_sandboxID rt) token st).1 = Ok (tg_owner t)) ∨
     (token = "" ∧ tg_port t = envdPort ∧ signedFileURL r = true ∧
      ∃ o, (Locate (rt_sandboxID rt) st).1 = Ok o ∧ tg_owner t = mkOwner (ow_ClaimID o) (ow_Address o) (op_NodeToken opts))).
Proof.
  unfold serve. destruct (routeOf r (op_Domain opts)) as [rt|] eqn:Hrt; [|done]. pose proof (routeOf_sound _ _ _ Hrt) as [Hid Hp].
  destruct (internalPath (hr_Path r)); [done|]. cbv zeta. case_bool_decide as Htok; cbn [negb].
  - destruct (bool_decide (rt_port rt = envdPort) && signedFileURL r) eqn:Hs; [|done].
    apply andb_true_iff in Hs as [Hport%bool_decide_eq_true Hsig].
    unfold mbind, io_bind. destruct (Locate (rt_sandboxID rt) st) as [[o|e] st'] eqn:Ho; simpl; [|by destruct (is_err e _)].
    intros [= <-]. split; [done|]. exists rt. split_and!; [done..|simpl; lia|simpl; lia|]. right. split_and!; [done|done|done|]. exists o. by rewrite Ho.
  - unfold mbind, io_bind. destruct (OwnerOf (rt_sandboxID rt) _ st) as [[o|e] st'] eqn:Ho; simpl; [|by destruct (is_err e _)].
    intros [= <-]. split; [done|]. exists rt. split_and!; [done..|simpl; lia|simpl; lia|]. left. by rewrite Ho.
Qed.
End properties.

(** ** Witnesses *)

Definition edge_options : Options := mkOptions "Sandbox.example.com" false "node-token".

Lemma host_round_trip_witness :
  @routeOfHost ascii_case "49983-sb-0fe2.Sandbox.example.com:443" "Sandbox.example.com" = Some (mkRoute "sb-0fe2" 49983).
Proof.
  apply (@host_round_trip ascii_case ascii_case_laws edge_options (mkRoute "sb-0fe2" 49983) (Some "443"));
    [simpl; lia|discriminate|reflexivity|vm_compute; reflexivity|intros p [= <-]; reflexivity].
Defined.

(** A port has more than one spelling: leading zeros and white space are accepted. *)
Lemma parsePort_spellings : parsePort "22" = Some 22%Z ∧ parsePort "0022" = Some 22%Z ∧ parsePort " 22 " = Some 22%Z ∧ parsePort "+22" = None.
Proof. split_and!; vm_compute; reflexivity. Qed.
