(* ===== verification/EnvdResolver.v ===== *)
(** * Placing a sandbox for the edge (pkg/envdproxy/resolver.go)

    The resolver behind the proxy: a bounded cache of recent owners, the
    inventory lookup, a rate-limited probe of every node, and the owning node's
    own record, from whose claim token the caller's access token must derive.

    The clock readings, the limiter's answer and the order of the probe's fan-out
    are inputs; the derivation of access tokens (an HMAC in pkg/e2bcompat) is a
    parameter. *)

From S2P Require Import Prelude GoStd GoText Api SandboxView Inventory FirstHit Client StoreRead Store SandboxId EnvdRoute.

Definition recentOwnerTTL : Z := 60 * second.
Definition recentOwnerMax : nat := 4096.

(** ** The cache of recent owners *)

Record recentOwner := mkRecent {
  re_owner : Owner;
  re_access : string;
  re_until : time;
}.

Definition recentOwners : Type := gmap string recentOwner.

(** [now.After(e.until)] *)
Definition expired (now : time) (e : recentOwner) : bool := bool_decide (re_until e < now)%Z.

Definition get (sandboxID : string) (now : time) (m : gmap string recentOwner) : option recentOwner :=
  e ← m !! sandboxID; if expired now e then None else Some e.

Definition put (sandboxID : string) (e : recentOwner) (now : time) (m : gmap string recentOwner) : gmap string recentOwner :=
  let m := if decide (recentOwnerMax ≤ size m) then
             let kept := filter (λ p, expired now p.2 = false) m in
             if decide (recentOwnerMax ≤ size kept) then ∅ else kept
           else m in
  <[sandboxID := mkRecent (re_owner e) (re_access e) (now + recentOwnerTTL)%Z]> m.

(** [admitted]: the owner, only to the access token derived from its claim token. *)
Definition admitted (e : recentOwner) (accessToken : string) : result Owner :=
  if bool_decide (re_access e = accessToken) then Ok (re_owner e) else Err ErrAccessDenied.

Definition admission : Type := recentOwner → result Owner.

(** ** The resolver *)

Section resolver.
Context {S : Type} {I : InventorySource S} (claims lifecycle : SandboxStore S) {U : CaseMap}.
(** [e2bcompat.AccessToken], and the resolver's own fields. *)
Context (AccessToken : string → string → string) (namespace secret : string).

(** The readings one request takes from outside: the clock when the cache is
    read and when it is written, whether the limiter lets a probe through, and the
    order in which the probe's nodes answer. *)
Record readings := mkReadings {
  rd_get : time;
  rd_put : time;
  rd_allow : bool;
  rd_order : list string → list string;
}.

Definition entry (o : Owner) : recentOwner := mkRecent o (AccessToken secret (ow_Token o)) zero_time.

Definition nodeAddress (s : S) (node : string) : result string :=
  match NodeCapacity s node with
  | Err e => Err (ErrWrap "envdproxy: resolve node %q" [node] e)
  | Ok (address, _) => if decide (address = "") then Err (ErrText "envdproxy: node %q publishes no address" [node]) else Ok address
  end.

Definition ownerOn (node claimID : string) : io S (result Owner) :=
  address ← gets (λ s, nodeAddress s node);
  match address with
  | Err e => mret (Err e)
  | Ok address => rec <-? Read (SandboxStore := lifecycle) node claimID;; mret (Ok (mkOwner claimID address (sr_Token rec)))
  end.

(** The state of the resolver: its cache and the world. *)
Definition in_world {A} (m : io S A) : io (gmap string recentOwner * S) A := λ '(c, s), let '(a, s') := m s in (a, (c, s')).
Definition in_cache (f : gmap string recentOwner → gmap string recentOwner) : io (gmap string recentOwner * S) unit := λ '(c, s), (tt, (f c, s)).

(** Keep the owner read from its node, then judge the caller. *)
Definition keep_and_admit (rd : readings) (sandboxID : string) (o : Owner) (adm : admission) : io (gmap string recentOwner * S) (result Owner) :=
  _ ← in_cache (put sandboxID (entry o) (rd_put rd));
  mret (adm (entry o)).

Definition probe (rd : readings) (sandboxID claimID : string) (adm : admission) : io (gmap string recentOwner * S) (result Owner) :=
  if negb (rd_allow rd) then mret (Err ErrSandboxNotFound)
  else
    nodes ← in_world (gets ListNodes);
    found ← in_world (FirstHit nodes (rd_order rd) (λ node, o ← ownerOn node claimID; mret (match o with Ok o => Some o | Err _ => None end)));
    match found with
    | Err e => mret (Err e)
    | Ok None => mret (Err ErrSandboxNotFound)
    | Ok (Some o) => keep_and_admit rd sandboxID o adm
    end.

Definition readOwner (rd : readings) (sandboxID node claimID : string) (adm : admission) : io (gmap string recentOwner * S) (result Owner) :=
  o ← in_world (ownerOn node claimID);
  match o with
  | Err e => mret (Err (if IsNotFound e then ErrSandboxNotFound else e))
  | Ok o => keep_and_admit rd sandboxID o adm
  end.

Definition find (rd : readings) (sandboxID : string) (adm : admission) : io (gmap string recentOwner * S) (result Owner) :=
  if decide (trim_space sandboxID = "") then mret (Err ErrSandboxNotFound)
  else
    cached ← (λ '(c, s), (get sandboxID (rd_get rd) c, (c, s)));
    match cached with
    | Some e => mret (adm e)
    | None =>
        let claimID := ClaimID sandboxID in
        sb ← in_world (GetByClaimID (SandboxStore := claims) namespace claimID (λ id, MatchesID id sandboxID));
        match sb with
        | Err e => if IsNotFound e then probe rd sandboxID claimID adm else mret (Err e)
        | Ok sb =>
            if decide (sb_NodeName sb = "") then mret (Err ErrSandboxNotFound)
            else readOwner rd sandboxID (sb_NodeName sb) (default "" (sb_Annotations sb !! ClaimIDAnnotation)) adm
        end
    end.

#[export] Instance storeResolver (rd : readings) : Resolver (gmap string recentOwner * S) := {|
  OwnerOf sandboxID accessToken := find rd sandboxID (λ e, admitted e accessToken);
  Locate sandboxID := find rd sandboxID (λ e, Ok (re_owner e));
|}.
End resolver.

(** [NewResolver]: a routed store, an inventory and the secret are required. *)
Definition NewResolver (routed inventory : bool) (secret : string) : result (gmap string recentOwner) :=
  if negb routed || negb inventory then Err (ErrText "envdproxy: a routed store and an inventory source are required" [])
  else if decide (secret = "") then Err (ErrText "envdproxy: the envd secret is required to verify access tokens" [])
  else Ok ∅.

(** ** Specification *)

(** A history of puts, oldest first. *)
Record put_op := mkPut { po_id : string; po_entry : recentOwner; po_time : time }.
Definition run_puts (ops : list put_op) (m : gmap string recentOwner) : gmap string recentOwner :=
  fold_left (λ m o, put (po_id o) (po_entry o) (po_time o) m) ops m.

(** The claim an id may stand for. *)
Definition names {U : CaseMap} (claim id : string) : Prop := claim = ClaimID id ∨ MatchesID claim id = true.

(** What the cache holds at any time: at most [recentOwnerMax] owners, each under an
    id that names its claim and with the access token derived from its claim token. *)
Definition cache_ok {U : CaseMap} (AccessToken : string → string → string) (secret : string) (m : gmap string recentOwner) : Prop :=
  size m ≤ recentOwnerMax ∧
  map_Forall (λ id e, re_access e = AccessToken secret (ow_Token (re_owner e)) ∧ names (ow_ClaimID (re_owner e)) id) m.

(** ** Lemmas *)

Lemma put_lookup id e now m id' e' :
  put id e now m !! id' = Some e' →
  (id' = id ∧ e' = mkRecent (re_owner e) (re_access e) (now + recentOwnerTTL)%Z) ∨ (id' ≠ id ∧ m !! id' = Some e').
Proof.
  unfold put. rewrite lookup_insert_Some. intros [[<- <-]|[Hne H]]; [by left|]. right. split; [done|].
  case_decide; [|done]. case_decide; [by rewrite lookup_empty in H|]. by apply map_lookup_filter_Some in H as [? _].
Qed.

Lemma put_size id e now m : size m ≤ recentOwnerMax → size (put id e now m) ≤ recentOwnerMax.
Proof.
  assert (0 < recentOwnerMax) as Hpos by (unfold recentOwnerMax; lia).
  intros Hm. unfold put.
  assert (∀ m' : gmap string recentOwner, size m' < recentOwnerMax → ∀ k v, size (<[k := v]> m') ≤ recentOwnerMax) as Hins.
  { intros m' Hm' k v. rewrite (map_size_insert k v m'). destruct (m' !! k); simpl; lia. }
  apply Hins. repeat case_decide; [by rewrite map_size_empty|lia..].
Qed.

Section find_lemmas.
Context {S : Type} {I : InventorySource S} (claims lifecycle : SandboxStore S) {U : CaseMap}.
Context (AccessToken : string → string → string) (namespace secret : string).

Lemma ownerOn_claim node claimID (s : S) o : (ownerOn lifecycle node claimID s).1 = Ok o → ow_ClaimID o = claimID.
Proof.
  unfold ownerOn. rewrite bind_run. simpl. destruct (nodeAddress s node); [|done].
  unfold try. rewrite bind_run. destruct (Read _ _ _) as [[rec|e] s']; simpl; [|done]. by intros [= <-].
Qed.

Lemma keep_and_admit_ok rd id o adm c (s : S) :
  cache_ok AccessToken secret c → names (ow_ClaimID o) id →
  cache_ok AccessToken secret (keep_and_admit AccessToken secret rd id o adm (c, s)).2.1 ∧
  (keep_and_admit AccessToken secret rd id o adm (c, s)).1 = adm (entry AccessToken secret o).
Proof.
  intros [Hsz Hall] Hn. unfold keep_and_admit. rewrite bind_run. simpl. split; [|done]. split; [by apply put_size|].
  intros id' e' [[-> ->]|[_ He]]%put_lookup; [done|]. by apply Hall.
Qed.

(** A lookup keeps the cache sound and answers with an admitted, sound entry. *)
Lemma find_ok `{!StoreLaws S claims} rd id adm c (s : S) :
  cache_ok AccessToken secret c →
  let out := find claims lifecycle AccessToken namespace secret rd id adm (c, s) in
  cache_ok AccessToken secret out.2.1 ∧
  ∀ o, out.1 = Ok o → ∃ e, adm e = Ok o ∧ re_access e = AccessToken secret (ow_Token (re_owner e)) ∧ names (ow_ClaimID (re_owner e)) id.
Proof.
  intros Hc. cbv zeta. unfold find. case_decide as Hid; [by split|]. rewrite bind_run. cbn [fst snd].
  destruct (get id (rd_get rd) c) as [e|] eqn:Hg.
  { split; [done|]. intros o Ho. exists e. split; [done|]. unfold get in Hg. apply bind_Some in Hg as (e' & He & Hg).
    destruct (expired _ _); [done|]. injection Hg as ->. by apply Hc in He. }
  rewrite bind_run. unfold in_world at 1 2 3 4. pose proof (GetByClaimID_carries namespace (ClaimID id) (λ i, MatchesID i id) s) as Hcl.
  destruct (GetByClaimID _ _ _ s) as [[sb|e] s1]; cbn [fst snd].
  - destruct (Hcl sb eq_refl) as [(claim & Ha & _ & Hm) _]. case_decide; [by split|]. rewrite Ha. simpl default.
    unfold readOwner. rewrite bind_run. unfold in_world. destruct (ownerOn lifecycle _ claim s1) as [[o|e] s2] eqn:Ho; cbn [fst snd]; [|by split].
    pose proof (ownerOn_claim (sb_NodeName sb) claim s1 o ltac:(by rewrite Ho)) as Hoc.
    destruct (keep_and_admit_ok rd id o adm c s2 Hc) as [H1 H2]; [rewrite Hoc; by right|]. split; [done|].
    intros o' Ho'. rewrite H2 in Ho'. exists (entry AccessToken secret o). split; [done|]. split; [done|]. simpl. rewrite Hoc. by right.
  - destruct (IsNotFound e); [|by split]. unfold probe. destruct (negb (rd_allow rd)); [by split|].
    rewrite bind_run. cbn [fst snd in_world gets]. rewrite bind_run. unfold in_world.
    destruct (FirstHit _ _ _ s1) as [[[o|]|e'] s2] eqn:Hf; cbn [fst snd]; [|by split|by split].
    assert (ow_ClaimID o = ClaimID id) as Hoc.
    { unfold FirstHit in Hf. destruct (ListNodes s1) as [l|]; [|done]. rewrite bind_run in Hf.
      destruct (scan _ _ s1) as [x s3] eqn:Hs. simpl in Hf. injection Hf as -> ->.
      apply (f_equal fst) in Hs. revert Hs. apply (scan_from (λ o, ow_ClaimID o = ClaimID id)).
      intros node w y. rewrite bind_run. pose proof (ownerOn_claim node (ClaimID id) w) as Hn.
      destruct (ownerOn lifecycle node (ClaimID id) w).1 as [o'|]; simpl; [|done]. intros [= <-]. by apply Hn. }
    destruct (keep_and_admit_ok rd id o adm c s2 Hc) as [H1 H2]; [rewrite Hoc; by left|]. split; [done|].
    intros o' Ho'. rewrite H2 in Ho'. exists (entry AccessToken secret o). split; [done|]. split; [done|]. simpl. rewrite Hoc. by left.
Qed.
End find_lemmas.

(** ** Properties *)

(** the cache of owners stays within [recentOwnerMax] and never lies: what it
    answers for an id is the owner last kept for that very id, no longer than
    [recentOwnerTTL] after it was kept, in every history of puts whatever the clock
    readings. *)
Theorem recent_owners_fresh (ops : list put_op) (id : string) (now : time) :
  size (run_puts ops ∅) ≤ recentOwnerMax ∧
  ∀ e, get id now (run_puts ops ∅) = Some e →
    ∃ pre o suf, ops = pre ++ o :: suf ∧ po_id o = id ∧ Forall (λ o', po_id o' ≠ id) suf ∧
      re_owner e = re_owner (po_entry o) ∧ re_access e = re_access (po_entry o) ∧ (now ≤ po_time o + recentOwnerTTL)%Z.
Proof.
  set (P := λ (ops : list put_op) (m : gmap string recentOwner), size m ≤ recentOwnerMax ∧
    ∀ id e, m !! id = Some e → ∃ pre o suf, ops = pre ++ o :: suf ∧ po_id o = id ∧ Forall (λ o', po_id o' ≠ id) suf ∧
      e = mkRecent (re_owner (po_entry o)) (re_access (po_entry o)) (po_time o + recentOwnerTTL)%Z).
  assert (P ops (run_puts ops ∅)) as [Hsz Hall].
  { apply (fold_left_inv _ P); [by split; [rewrite map_size_empty; apply Nat.le_0_l|intros ??; rewrite lookup_empty]|].
    intros pre o suf m _ [Hm Hin]. split; [by apply put_size|]. intros id' e [[-> ->]|[Hne He]]%put_lookup.
    - exists pre, o, []. by split_and!.
    - destruct (Hin _ _ He) as (pre' & o' & suf' & -> & Ho & Hs & ->). exists pre', o', (suf' ++ [o]).
      rewrite <-app_assoc. split_and!; [done..| |done]. apply Forall_app. split; [done|]. constructor; [congruence|done]. }
  split; [done|]. intros e. unfold get. intros (e' & He & Hx)%bind_Some.
  destruct (expired now e') eqn:Hexp; [done|]. injection Hx as <-.
  destruct (Hall _ _ He) as (pre & o & suf & -> & Hid & Hs & ->). exists pre, o, suf. simpl.
  apply bool_decide_eq_false in Hexp. simpl in Hexp. split_and!; [done..|lia].
Qed.

Section properties.
Context {S : Type} {I : InventorySource S} (claims lifecycle : SandboxStore S) {U : CaseMap}.
Context (AccessToken : string → string → string) (namespace secret : string).

(** A history of requests served from an empty cache, each with its readings. *)
Fixpoint serve_all (opts : Options) (reqs : list (readings * http_request)) : io (gmap string recentOwner * S) (list outcome) :=
  match reqs with
  | [] => mret []
  | (rd, r) :: reqs =>
      o ← serve (H := storeResolver claims lifecycle AccessToken namespace secret rd) opts r;
      os ← serve_all opts reqs;
      mret (o :: os)
  end.

Lemma serve_keeps `{!StoreLaws S claims} opts rd r c (s : S) :
  cache_ok AccessToken secret c →
  cache_ok AccessToken secret (serve (H := storeResolver claims lifecycle AccessToken namespace secret rd) opts r (c, s)).2.1.
Proof.
  intros Hc. unfold serve. destruct (routeOf r _); [|done]. destruct (internalPath _); [done|].
  destruct (negb _); [|destruct (_ && _); [|done]]; rewrite bind_run; simpl; by apply find_ok.
Qed.

Lemma serve_all_keeps `{!StoreLaws S claims} opts reqs c (s : S) :
  cache_ok AccessToken secret c → cache_ok AccessToken secret (serve_all opts reqs (c, s)).2.1.
Proof.
  revert c s. induction reqs as [|[rd r] reqs IH]; intros c s Hc; [done|]. cbn [serve_all].
  pose proof (serve_keeps opts rd r c s Hc) as Hk. rewrite !bind_run. cbn [fst snd mret io_ret].
  destruct (serve _ _ (c, s)) as [o [c1 s1]]. by apply IH.
Qed.

(** What the edge relays after a history. *)
Lemma edge_relays `{!StoreLaws S claims} (opts : Options) (history : list (readings * http_request))
    (rd : readings) (r : http_request) (s : S) (t : target) :
  let st := (serve_all opts history (∅, s)).2 in
  (serve (H := storeResolver claims lifecycle AccessToken namespace secret rd) opts r st).1 = Relay t →
  size st.1 ≤ recentOwnerMax ∧ internalPath (hr_Path r) = false ∧ (1 ≤ tg_port t ≤ 65535)%Z ∧
  ∃ rt, routeOf r (op_Domain opts) = Some rt ∧ tg_port t = rt_port rt ∧ names (ow_ClaimID (tg_owner t)) (rt_sandboxID rt) ∧
    let token := trim_space (hr_Header r accessTokenHeader) in
    if decide (token = "")
    then tg_port t = envdPort ∧ signedFileURL r = true ∧ ow_Token (tg_owner t) = op_NodeToken opts
    else token = AccessToken secret (ow_Token (tg_owner t)).
Proof.
  cbv zeta. intros Hrel.
  assert (cache_ok AccessToken secret (∅ : gmap string recentOwner)) as H0.
  { split; [rewrite map_size_empty; apply Nat.le_0_l|apply map_Forall_empty]. }
  pose proof (serve_all_keeps opts history ∅ s H0) as Hc.
  destruct (serve_all opts history (∅, s)).2 as [c s1]. cbn [fst] in *.
  destruct (serve_relays (H := storeResolver claims lifecycle AccessToken namespace secret rd) opts r (c, s1) t Hrel)
    as (Hint & rt & Hrt & _ & Hp & Hport & Hown).
  split; [apply Hc|]. split; [done|]. split; [done|]. exists rt. split; [done|]. split; [done|].
  destruct Hown as [[Htok Ho]|(Htok & Henv & Hsig & o & Ho & Hto)].
  - rewrite decide_False by done. apply (find_ok claims lifecycle AccessToken namespace secret) in Ho as (e & Hadm & Hacc & Hn); [|done].
    unfold admitted in Hadm. case_bool_decide as Heq; [|done]. injection Hadm as <-. split; [done|]. by rewrite <-Hacc, Heq.
  - rewrite decide_True by done. apply (find_ok claims lifecycle AccessToken namespace secret) in Ho as (e & [= <-] & _ & Hn); [|done].
    rewrite Hto. done.
Qed.

(** no request reaches a sandbox without that sandbox's credential: after any
    history of requests, a relayed request names its sandbox's claim by its own id
    or rendering, and either presents the access token that derives from that
    sandbox's claim token, or is a signed file link on envd's port, which is
    relayed under the node token and never the claim's; and the cache stays within
    its bound throughout. *)
Theorem edge_authorizes `{!StoreLaws S claims} (opts : Options) (history : list (readings * http_request))
    (rd : readings) (r : http_request) (s : S) (t : target) :
  let st := (serve_all opts history (∅, s)).2 in
  (serve (H := storeResolver claims lifecycle AccessToken namespace secret rd) opts r st).1 = Relay t →
  size st.1 ≤ recentOwnerMax ∧ internalPath (hr_Path r) = false ∧ (1 ≤ tg_port t ≤ 65535)%Z ∧
  ∃ rt, routeOf r (op_Domain opts) = Some rt ∧ tg_port t = rt_port rt ∧ names (ow_ClaimID (tg_owner t)) (rt_sandboxID rt) ∧
    let token := trim_space (hr_Header r accessTokenHeader) in
    if decide (token = "")
    then tg_port t = envdPort ∧ signedFileURL r = true ∧ ow_Token (tg_owner t) = op_NodeToken opts
    else token = AccessToken secret (ow_Token (tg_owner t)).
Proof. apply edge_relays. Qed.

(** An id nobody holds costs the fleet nothing beyond the limiter: when the
    cache has no fresh owner, the inventories do not know the id and the limiter
    refuses, the request changes nothing but what the inventory lookup did, and is
    answered exactly as any other failure to place a sandbox is. *)
Theorem unknown_id_contained (opts : Options) (rd : readings) (r : http_request) (rt : route) (c : gmap string recentOwner) (s : S) :
  routeOf r (op_Domain opts) = Some rt → internalPath (hr_Path r) = false →
  trim_space (hr_Header r accessTokenHeader) ≠ "" → trim_space (rt_sandboxID rt) ≠ "" →
  get (rt_sandboxID rt) (rd_get rd) c = None → rd_allow rd = false →
  let looked := GetByClaimID (SandboxStore := claims) namespace (ClaimID (rt_sandboxID rt)) (λ i, MatchesID i (rt_sandboxID rt)) s in
  is_err (match looked.1 with Err e => e | Ok _ => ErrAccessDenied end) ErrAccessDenied = false →
  serve (H := storeResolver claims lifecycle AccessToken namespace secret rd) opts r (c, s) = (Answer 502 "sandbox unavailable", (c, looked.2)).
Proof.
  intros Hrt Hint Htok Hid Hget Hallow. cbv zeta. intros Hlook. unfold serve. rewrite Hrt, Hint.
  rewrite bool_decide_eq_false_2 by done. cbn [negb]. rewrite bind_run. unfold OwnerOf, storeResolver, find.
  rewrite decide_False by done. rewrite bind_run. cbn [fst snd]. rewrite Hget, bind_run. unfold in_world.
  destruct (GetByClaimID _ _ _ s) as [[sb|e] s1]; cbn [fst snd] in *; [done|].
  destruct (IsNotFound e); [unfold probe; by rewrite Hallow|]. cbn [mret io_ret fst snd]. by rewrite Hlook.
Qed.
End properties.

(** ** Witnesses *)

#[local] Existing Instance Static.source.
#[local] Existing Instance ascii_case.

(** One node with one claim; access tokens are claim tokens with a prefix. *)
Definition edge_sandbox : Api.Sandbox :=
  mkSandbox "team" "web" ∅ {[ ClaimIDAnnotation := "sb_0fe2" ]} "" zero_time "n1" [] [].
Definition edge_store : SandboxStore Static.StaticInventorySource := toy_store _ edge_sandbox "claim-token".
Definition edge_laws : StoreLaws _ edge_store := toy_store_laws _ edge_sandbox "claim-token".
Definition derive (secret token : string) : string := secret +:+ token.
Definition edge_readings : readings := mkReadings 0%Z 0%Z false (λ l, l).
Definition edge_request : http_request :=
  mkHttpRequest "8080-sb-0fe2.sandbox.example.com" "/" (λ k, if decide (k = accessTokenHeader) then "s3claim-token" else "") (λ _, "").
Definition edge_target : target := mkTarget (mkOwner "sb_0fe2" "10.0.0.1:7000" "claim-token") 8080 false.

Lemma edge_authorizes_witness :
  trim_space (hr_Header edge_request accessTokenHeader) = derive "s3" (ow_Token (tg_owner edge_target)).
Proof.
  destruct (@edge_authorizes _ Static.source edge_store edge_store ascii_case derive "" "s3" edge_laws edge_options
    [(edge_readings, edge_request)] edge_readings edge_request sample_world edge_target) as (_ & _ & _ & rt & _ & _ & _ & H).
  - vm_compute. reflexivity.
  - rewrite decide_False in H; [exact H|]. vm_compute. discriminate.
Defined.

Definition unknown_request : http_request :=
  mkHttpRequest "8080-sb-dead.sandbox.example.com" "/" (λ k, if decide (k = accessTokenHeader) then "guess" else "") (λ _, "").

Lemma unknown_id_contained_witness :
  serve (H := storeResolver edge_store edge_store derive "" "s3" edge_readings) edge_options unknown_request (∅, sample_world)
  = (Answer 502 "sandbox unavailable", (∅, sample_world)).
Proof.
  apply (unknown_id_contained edge_store edge_store derive "" "s3" edge_options edge_readings unknown_request (mkRoute "sb-dead" 8080) ∅ sample_world);
    vm_compute; reflexivity || discriminate.
Defined.
