(* ===== verification/EnvdEdge.v ===== *)
(** * The edge as a whole (pkg/envdproxy/envdproxy.go: Handler, dial.go, flags.go)

    The handler in front of [EnvdRoute.serve], the transport behind it, and what a
    request comes to: an answer of the edge's own, or an exchange with the guest on
    a connection that [PortRelay.DialPort] opened.  [httputil.ReverseProxy]'s copying
    of bytes is not modelled: an exchange is the connection it happens on and the
    headers it starts with. *)

From S2P Require Import Prelude GoStd GoNum GoText GoCodec GoMux Api SandboxView Inventory Client StoreRead Store Sandboxd SandboxId PortRelay EnvdRoute EnvdResolver.

(** A request as the server gets it: its method, the escaped path of its URL, its
    headers, and what [EnvdRoute] reads of it. *)
Record edge_request := mkEdgeRequest {
  er_Method : string;
  er_EscapedPath : string;
  er_Headers : gmap string (list string);
  er_Request : http_request;
}.

(** ** The handler *)

Inductive edge_route :=
| ToHealth
| ToServe
| ToCleanPath.

(** The two patterns of the mux: [GET /healthz], and the rest.  A path that is not
    clean is redirected before either. *)
Definition Handler_route (r : edge_request) : edge_route :=
  let path := if decide (er_Method r = "CONNECT") then er_EscapedPath r else clean_path (er_EscapedPath r) in
  if decide (path ≠ er_EscapedPath r) then ToCleanPath
  else if decide ((er_Method r = "GET" ∨ er_Method r = "HEAD") ∧ segments path = ["healthz"]) then ToHealth
  else ToServe.

(** What the edge answers with. *)
Inductive edge_reply :=
| Redirected
| NoContent
| Refused (status : Z) (msg : string)
| Exchanged (conn : bufConn) (half : transport) (scheme host : string) (headers : gmap string (list string)).

Section edge.
Context {R W : Type} {D : Resolver R} {N : Net W} {P : HTTPText} {J : Wire} {U : CaseMap}.

Definition zero_target : target := mkTarget (mkOwner "" "" "") 0 false.

(** [newGuestTransport]'s dial: the address the transport asks for is ignored, the
    target of the request's context is dialed. *)
Definition dialContext (ctx : option target) : io W (result bufConn) :=
  let t := default zero_target ctx in
  DialPort (ow_Address (tg_owner t)) (ow_ClaimID (tg_owner t)) (ow_Token (tg_owner t)) (tg_port t).

(** [Server.proxy]: the exchange happens on a fresh connection, since neither half
    pools; an error of the dial is the error handler's. *)
Definition proxy (opts : Options) (rt : route) (ctx : option target) (headers : gmap string (list string)) : io W edge_reply :=
  dialed ← dialContext ctx;
  mret match dialed with
       | Err e => let '(status, msg) := writeUpstreamError e in Refused status msg
       | Ok conn => let '(scheme, host, headers) := rewrite opts rt headers in Exchanged conn (RoundTrip ctx) scheme host headers
       end.

Definition on_left {A} (m : io R A) : io (R * W) A := λ '(r, w), let '(a, r) := m r in (a, (r, w)).
Definition on_right {A} (m : io W A) : io (R * W) A := λ '(r, w), let '(a, w) := m w in (a, (r, w)).

Definition edge (opts : Options) (r : edge_request) : io (R * W) edge_reply :=
  match Handler_route r with
  | ToCleanPath => mret Redirected
  | ToHealth => mret NoContent
  | ToServe =>
      answer ← on_left (serve opts (er_Request r));
      match answer, routeOf (er_Request r) (op_Domain opts) with
      | Answer status msg, _ => mret (Refused status msg)
      | Relay t, Some rt => on_right (proxy opts rt (Some t) (er_Headers r))
      | Relay _, None => mret (Refused 400 "no sandbox in the request host or headers")   (* [serve] relays a route only *)
      end
  end.
End edge.

(** ** The listener *)

Record Flags := mkFlags {
  pf_Addr : string;
  pf_CertFile : string;
  pf_KeyFile : string;
  pf_GuestHTTP2 : bool;
}.

(** [Flags.Serve], up to the listener it serves on: with TLS or in the clear. *)
Definition serve_mode (f : Flags) : result (option (string * string)) :=
  if negb (Bool.eqb (bool_decide (pf_CertFile f = "")) (bool_decide (pf_KeyFile f = ""))) then
    Err (ErrText "the proxy's TLS certificate and private key must be set together" [])
  else if decide (pf_CertFile f = "") then Ok None
  else Ok (Some (pf_CertFile f, pf_KeyFile f)).

(** ** Specification *)

(** All the edge says of its own, whatever the fleet answered. *)
Definition edge_messages : list (Z * string) :=
  [(400, "no sandbox in the request host or headers"); (404, "not found"); (401, "missing X-Access-Token");
   (401, "invalid sandbox access token"); (502, "sandbox unavailable"); (400, "unsupported sandbox port");
   (502, "sandbox is paused"); (502, "sandbox unreachable")]%Z.

(** ** Lemmas *)

Lemma serve_answers {R} {D : Resolver R} {U : CaseMap} opts r (st : R) status msg : (serve opts r st).1 = Answer status msg → (status, msg) ∈ edge_messages.
Proof.
  unfold serve. assert (∀ (o : result Owner) h2 p, match o with
      | Err e => if is_err e ErrAccessDenied then Answer 401 "invalid sandbox access token" else Answer 502 "sandbox unavailable"
      | Ok owner => Relay (mkTarget owner p h2) end = Answer status msg → (status, msg) ∈ edge_messages) as Hfin.
  { intros [o|e] h2 p; [done|]. destruct (is_err e _); intros [= <- <-]; unfold edge_messages; set_solver. }
  destruct (routeOf r _) as [rt|]; [|intros [= <- <-]; unfold edge_messages; set_solver].
  destruct (internalPath _); [intros [= <- <-]; unfold edge_messages; set_solver|]. cbv zeta.
  destruct (negb _); [rewrite bind_run; apply Hfin|]. destruct (_ && _); [rewrite bind_run; apply Hfin|].
  intros [= <- <-]. unfold edge_messages. set_solver.
Qed.

Lemma upstream_message e : writeUpstreamError e ∈ edge_messages.
Proof. unfold writeUpstreamError. repeat case_match; unfold edge_messages; set_solver. Qed.

Section lemmas.
Context {W : Type} {N : Net W} {P : HTTPText} {J : Wire} {U : CaseMap}.

(** The connection an exchange runs on, if there is one. *)
Definition exchanged_on (reply : edge_reply) : option bufConn :=
  match reply with Exchanged conn _ _ _ _ => Some conn | _ => None end.

(** A proxied request dials its target, and only that. *)
Lemma emits_proxy opts rt t headers : emits (proxy (N := recorded_net N) opts rt (Some t) headers) (λ log reply,
  ∃ res, dial_log (ow_Address (tg_owner t)) (ow_ClaimID (tg_owner t)) (ow_Token (tg_owner t)) (tg_port t) log res ∧
    exchanged_on reply = match res with Ok conn => Some conn | Err _ => None end).
Proof.
  eapply emits_bind; [apply emits_DialPort|]. intros log res Hlog. apply emits_ret. exists res. rewrite app_nil_r. split; [exact Hlog|].
  destruct res as [conn|e]; [done|]. by destruct (writeUpstreamError e).
Qed.
End lemmas.

(** ** Properties *)

(** the edge keeps the fleet to itself: whatever the resolver and the node
    answered, what it says of its own is one of eight fixed messages, which name no
    node, no address and no sandbox; and what it sends into a guest is for the
    sandbox's own host and without the caller's API key, which stops at the edge. *)
Theorem edge_discloses_nothing {R W : Type} {D : Resolver R} {N : Net W} {P : HTTPText} {J : Wire} {U : CaseMap}
    (opts : Options) (r : edge_request) (st : R * W) :
  match (edge opts r st).1 with
  | Redirected | NoContent => True
  | Refused status msg => (status, msg) ∈ edge_messages
  | Exchanged _ half scheme host headers =>
      scheme = "http" ∧ (∃ rt, routeOf (er_Request r) (op_Domain opts) = Some rt ∧ host = sandboxHost opts rt) ∧
      headers = delete apiKeyHeader (er_Headers r) ∧ half = (if op_GuestHTTP2 opts then H2 else H1)
  end.
Proof.
  unfold edge. destruct (Handler_route r); [done| |done]. rewrite bind_run. destruct st as [st w]. unfold on_left.
  pose proof (serve_answers opts (er_Request r) st) as Hans. destruct (serve opts _ st) as [[status msg|t] st'] eqn:Hs; cbn [fst snd] in *; [by apply Hans|].
  destruct (routeOf _ _) as [rt|] eqn:Hrt; [|cbn; unfold edge_messages; set_solver].
  assert (tg_h2 t = op_GuestHTTP2 opts) as Hh2.
  { unfold serve in Hs. rewrite Hrt in Hs. destruct (internalPath _); [done|]. cbv zeta in Hs.
    destruct (negb _); [|destruct (_ && _); [|done]]; rewrite bind_run in Hs.
    - destruct (OwnerOf _ _ st) as [[o|e] ?]; cbn [fst snd mret io_ret] in Hs; [by injection Hs as <-|by destruct (is_err e _)].
    - destruct (Locate _ st) as [[o|e] ?]; cbn [fst snd mret io_ret fmap result_fmap] in Hs; [by injection Hs as <-|by destruct (is_err e ErrAccessDenied)]. }
  unfold on_right, proxy. rewrite bind_run. destruct (dialContext _ w) as [[conn|e] w']; cbn [fst snd mret io_ret].
  - split; [done|]. split; [by exists rt|]. split; [done|]. cbn. by rewrite Hh2.
  - pose proof (upstream_message e) as Hm. by destruct (writeUpstreamError e).
Qed.


(** A claim the fleet holds: the store places it on a node that publishes an address,
    and the node's own record of it carries its token. *)
Record held_claim {S : Type} {I : InventorySource S} {U : CaseMap} (claims lifecycle : SandboxStore S) (namespace claimID node address token : string) (s : S) : Prop := {
  hc_node : node ≠ "";
  hc_placed : ∃ sb s1 rec,
    GetByClaimID (SandboxStore := claims) namespace claimID (λ i, MatchesID i (PublicID claimID)) s = (Ok sb, s1) ∧
    sb_NodeName sb = node ∧ sb_Annotations sb !! ClaimIDAnnotation = Some claimID ∧ nodeAddress s1 node = Ok address ∧
    (Store.Read (SandboxStore := lifecycle) node claimID s1).1 = Ok rec ∧ sr_Token rec = token;
}.

Section held.
Context {S : Type} {I : InventorySource S} {U : CaseMap} (claims lifecycle : SandboxStore S).
Context (AccessToken : string → string → string) (namespace secret : string).

Lemma find_held rd claimID node address token c (s : S) adm : held_claim claims lifecycle namespace claimID node address token s →
  ClaimID (PublicID claimID) = claimID → trim_space (PublicID claimID) ≠ "" → get (PublicID claimID) (rd_get rd) c = None →
  (find claims lifecycle AccessToken namespace secret rd (PublicID claimID) adm (c, s)).1 = adm (entry AccessToken secret (mkOwner claimID address token)).
Proof.
  intros [Hnode (sb & s1 & rec & Hget & Hn & Hann & Haddr & Hrec & Htok)] Hid Hpub Hc. unfold find. rewrite decide_False by done.
  rewrite bind_run. cbn [fst snd]. rewrite Hc, bind_run. unfold in_world at 1 2. rewrite Hid, Hget. cbn [fst snd]. rewrite Hn, decide_False by done.
  rewrite Hann. cbn [from_option id]. unfold readOwner. rewrite bind_run. unfold in_world. destruct (ownerOn lifecycle node claimID s1) as [o s2] eqn:Ho.
  assert (o = Ok (mkOwner claimID address token)) as ->.
  { apply (f_equal fst) in Ho. cbn [fst] in Ho. rewrite <-Ho. unfold ownerOn. rewrite bind_run. cbn [gets fst snd]. rewrite Haddr. unfold try.
    rewrite bind_run. destruct (Store.Read node claimID s1) as [r s3]. cbn [fst snd] in *. by rewrite Hrec, <-Htok. }
  done.
Qed.
End held.

Lemma held_dialed {S W : Type} {I : InventorySource S} {U : CaseMap} (UL : CaseMapLaws U) (claims lifecycle : SandboxStore S)
    (AccessToken : string → string → string) (namespace secret : string) {N : Net W} {P : HTTPText} {J : Wire}
    (opts : Options) (rd : readings) (r : edge_request) (hex node address token : string) (port : Z) (own : option string)
    (c : gmap string recentOwner) (s : S) (w : W) :
  let claimID := "sb_" +:+ hex in
  let rt := mkRoute (PublicID claimID) port in
  all_bytes (λ c, within 48 57 c || within 97 102 c) hex = true → all_bytes host_byte (op_Domain opts) = true → (1 ≤ port ≤ 65535)%Z →
  (∀ p, own = Some p → all_bytes isDNSSafe p = true) →
  held_claim claims lifecycle namespace claimID node address token s → get (PublicID claimID) (rd_get rd) c = None →
  hr_Host (er_Request r) = sandboxHost opts rt +:+ match own with Some p => ":" +:+ p | None => "" end →
  hr_Header (er_Request r) sandboxIDHeader = "" → hr_Header (er_Request r) accessTokenHeader = AccessToken secret token →
  all_bytes visible (AccessToken secret token) = true → AccessToken secret token ≠ "" →
  Handler_route r = ToServe → internalPath (hr_Path (er_Request r)) = false →
  (edge (D := storeResolver claims lifecycle AccessToken namespace secret rd) opts r ((c, s), w)).1 =
    match (DialPort address claimID token port w).1 with
    | Ok conn => Exchanged conn (if op_GuestHTTP2 opts then H2 else H1) "http" (sandboxHost opts rt) (delete apiKeyHeader (er_Headers r))
    | Err e => Refused (writeUpstreamError e).1 (writeUpstreamError e).2
    end.
Proof.
  intros claimID rt Hhex Hdom Hport Hown Hheld Hc Hhost Hidh Htokh Hvis Hne Hhandler Hint.
  destruct (PublicID_invertible claimID hex) as [Hsafe Hinv]. destruct (Hinv eq_refl Hhex) as (Hpub & Hback & _).
  assert (routeOf (er_Request r) (op_Domain opts) = Some rt) as Hrt.
  { unfold routeOf. rewrite Hidh. cbn [decide]. rewrite decide_True by done. rewrite Hhost. apply host_round_trip; try done. cbn. by rewrite Hpub. }
  unfold edge. rewrite Hhandler, bind_run. unfold on_left.
  pose proof (find_held claims lifecycle AccessToken namespace secret rd claimID node address token c s
    (λ e, admitted e (AccessToken secret token)) Hheld Hback) as Hfind.
  assert (trim_space (PublicID claimID) ≠ "") as Hnb.
  { rewrite trim_space_visible; [by rewrite Hpub|]. eapply all_bytes_impl; [|exact Hsafe]. intros ch Hch%isDNSSafe_code. unfold visible, within.
    rewrite bool_decide_eq_true. lia. }
  specialize (Hfind Hnb Hc). unfold admitted in Hfind. cbn [re_access re_owner entry ow_Token] in Hfind. rewrite bool_decide_eq_true_2 in Hfind by done.
  assert ((serve (H := storeResolver claims lifecycle AccessToken namespace secret rd) opts (er_Request r) (c, s)).1
          = Relay (mkTarget (mkOwner claimID address token) port (op_GuestHTTP2 opts))) as Hserve.
  { unfold serve. rewrite Hrt, Hint. cbv zeta. rewrite Htokh, trim_space_visible by done. rewrite bool_decide_eq_false_2 by done. cbn [negb].
    rewrite bind_run. cbn [OwnerOf storeResolver rt_sandboxID rt]. cbv beta. unfold admitted.
    by match goal with |- (mret match ?o with _ => _ end _).1 = _ => replace o with (Ok (mkOwner claimID address token)) end. }
  destruct (serve opts (er_Request r) (c, s)) as [a st']. cbn [fst snd] in *. subst a. rewrite Hrt. unfold on_right, proxy. rewrite bind_run.
  unfold dialContext. cbn [default from_option id tg_owner tg_port ow_Address ow_ClaimID ow_Token].
  destruct (DialPort address claimID token port w) as [[conn|e] w']; cbn [fst snd mret io_ret]; [done|]. by destruct (writeUpstreamError e).
Qed.

(** what a caller was handed out works at the edge: for a claim of sandboxd's
    naming the fleet holds, the host built from its public id and any port, under
    the shared domain, together with the access token derived from its claim token
    under the shared secret, is dialed on the claim's own node for that claim, that
    port and that claim token, whatever port the client's own URL carries. *)
Theorem handed_out_admitted {S W : Type} {I : InventorySource S} {U : CaseMap} (UL : CaseMapLaws U) (claims lifecycle : SandboxStore S)
    (AccessToken : string → string → string) (namespace secret : string) {N : Net W} {P : HTTPText} {J : Wire}
    (opts : Options) (rd : readings) (r : edge_request) (hex node address token : string) (port : Z) (own : option string)
    (c : gmap string recentOwner) (s : S) (w : W) :
  let claimID := "sb_" +:+ hex in
  let rt := mkRoute (PublicID claimID) port in
  all_bytes (λ c, within 48 57 c || within 97 102 c) hex = true → all_bytes host_byte (op_Domain opts) = true → (1 ≤ port ≤ 65535)%Z →
  (∀ p, own = Some p → all_bytes isDNSSafe p = true) →
  held_claim claims lifecycle namespace claimID node address token s → get (PublicID claimID) (rd_get rd) c = None →
  hr_Host (er_Request r) = sandboxHost opts rt +:+ match own with Some p => ":" +:+ p | None => "" end →
  hr_Header (er_Request r) sandboxIDHeader = "" → hr_Header (er_Request r) accessTokenHeader = AccessToken secret token →
  all_bytes visible (AccessToken secret token) = true → AccessToken secret token ≠ "" →
  Handler_route r = ToServe → internalPath (hr_Path (er_Request r)) = false →
  (edge (D := storeResolver claims lifecycle AccessToken namespace secret rd) opts r ((c, s), w)).1 =
    match (DialPort address claimID token port w).1 with
    | Ok conn => Exchanged conn (if op_GuestHTTP2 opts then H2 else H1) "http" (sandboxHost opts rt) (delete apiKeyHeader (er_Headers r))
    | Err e => Refused (writeUpstreamError e).1 (writeUpstreamError e).2
    end.
Proof. apply held_dialed. exact UL. Qed.

(** The edge answers GET /healthz itself, whatever sandbox the host names, and
    redirects a path that is not clean: neither reaches a guest. *)
Lemma healthz_shadows {R W} {D : Resolver R} {N : Net W} {P : HTTPText} {J : Wire} {U : CaseMap} opts headers req (st : R * W) :
  edge opts (mkEdgeRequest "GET" "/healthz" headers req) st = (NoContent, st) ∧
  edge opts (mkEdgeRequest "GET" "//cell" headers req) st = (Redirected, st).
Proof. split; reflexivity. Qed.

(** ** Witnesses *)

#[local] Existing Instance Static.source.
#[local] Existing Instance ascii_case.

Definition sdk_request : http_request :=
  mkHttpRequest "8080-sb-0fe2.Sandbox.example.com" "/" (λ k, if decide (k = accessTokenHeader) then "s3claim-token" else "") (λ _, "").
Definition edge_request_w : edge_request :=
  mkEdgeRequest "GET" "/" {[ apiKeyHeader := ["e2b_key"]; accessTokenHeader := ["s3claim-token"] ]} sdk_request.


Lemma handed_out_admitted_witness :
  (edge (D := storeResolver edge_store edge_store derive "" "s3" edge_readings) (N := scripted) (P := plain_text) (J := toy_wire) (U := ascii_case)
     edge_options edge_request_w ((∅, sample_world), greeting)).1 =
  match (DialPort (N := scripted) (P := plain_text) (J := toy_wire) "10.0.0.1:7000" "sb_0fe2" "claim-token" 8080 greeting).1 with
  | Ok conn => Exchanged conn (if op_GuestHTTP2 edge_options then H2 else H1) "http" (sandboxHost edge_options (mkRoute (PublicID (U := ascii_case) "sb_0fe2") 8080))
                 (delete apiKeyHeader (er_Headers edge_request_w))
  | Err e => Refused (writeUpstreamError e).1 (writeUpstreamError e).2
  end.
Proof.
  apply (@handed_out_admitted _ script Static.source ascii_case ascii_case_laws edge_store edge_store derive "" "s3" scripted plain_text toy_wire
    edge_options edge_readings edge_request_w "0fe2" "n1" "10.0.0.1:7000" "claim-token" 8080 None ∅ sample_world greeting).
  3: split; discriminate.
  3: discriminate.
  3: (split; [discriminate|]; eexists _, _, _; split_and!; vm_compute; reflexivity).
  8: (vm_compute; discriminate).
  all: vm_compute; reflexivity.
Defined.
