(* ===== verification/BuildRecords.v ===== *)
(** * Build records and slots (pkg/e2bbuild/executor.go)

    The executor's in-memory table of builds and its bounded slots, as a state
    machine: registrations, starts and polls by callers, and the log lines, the
    end and the exit of each running build's goroutine, in any interleaving.  Each
    operation runs under the executor's lock, so it is one step. *)

From S2P Require Import Prelude GoStd GoNum Api.

Definition StatusWaiting : string := "waiting".
Definition StatusBuilding : string := "building".
Definition StatusReady : string := "ready".
Definition StatusError : string := "error".
Definition recordTTL : Z := 3600 * second.

Definition ErrBusy : error := ErrSentinel "e2bbuild.ErrBusy".
Definition ErrUnknownBuild : error := ErrSentinel "e2bbuild.ErrUnknownBuild".

Record Request := mkRequest { rq_Size : string; rq_Tags : list string }.

(** A message is kept as its format and arguments. *)
Record LogEntry := mkLogEntry {
  le_Time : time;
  le_Level : string;
  le_Message : list string;
  le_Phase : string;
}.

Record Info := mkInfo {
  in_Status : string;
  in_Logs : list LogEntry;
  in_FailedPhase : string;
  in_Failure : list string;
}.

Record record := mkRecord {
  rc_req : Request;
  rc_info : Info;
  rc_registered : time;
  rc_finished : time;
}.

(** The executor's mutable state, and its settings. *)
Record Executor := mkExecutor {
  ex_builds : gmap string record;
  ex_slots : nat;
}.
Record settings := mkSettings {
  cf_parallel : nat;
  cf_logLines : Z;
}.

Definition New : Executor := mkExecutor ∅ 0.

(** ** Operations *)

(** A record outlives its build, or its registration when never started, by
    [recordTTL]. *)
Definition dropped (now : time) (r : record) : bool :=
  (negb (time_is_zero (rc_finished r)) && bool_decide (recordTTL < time_sub now (rc_finished r))%Z) ||
  (bool_decide (in_Status (rc_info r) = StatusWaiting) && bool_decide (recordTTL < time_sub now (rc_registered r))%Z).

Definition sweep (now : time) (e : Executor) : Executor :=
  mkExecutor (filter (λ p, dropped now p.2 = false) (ex_builds e)) (ex_slots e).

Definition Register (id : string) (req : Request) (swept now : time) (e : Executor) : Executor :=
  let e := sweep swept e in
  mkExecutor (<[id := mkRecord req (mkInfo StatusWaiting [] "" []) now zero_time]> (ex_builds e)) (ex_slots e).

Definition Request_of (id : string) (e : Executor) : option Request := rc_req <$> ex_builds e !! id.

Definition set_status (status : string) (r : record) : record :=
  mkRecord (rc_req r) (mkInfo status (in_Logs (rc_info r)) (in_FailedPhase (rc_info r)) (in_Failure (rc_info r)))
    (rc_registered r) (rc_finished r).

(** [Start]: [Ok true] when it spawned the run, which holds a slot from then on. *)
Definition Start (cf : settings) (id : string) (e : Executor) : result bool * Executor :=
  match ex_builds e !! id with
  | None => (Err ErrUnknownBuild, e)
  | Some r =>
      if negb (bool_decide (in_Status (rc_info r) = StatusWaiting)) then (Ok false, e)
      else if decide (ex_slots e < cf_parallel cf) then
        (Ok true, mkExecutor (<[id := set_status StatusBuilding r]> (ex_builds e)) (S (ex_slots e)))
      else (Err ErrBusy, e)
  end.

Definition Status (id : string) (now : time) (e : Executor) : option Info * Executor :=
  let e := sweep now e in (rc_info <$> ex_builds e !! id, e).

Definition finish (id status step : string) (failure : list string) (now : time) (e : Executor) : Executor :=
  match ex_builds e !! id with
  | None => e
  | Some r =>
      mkExecutor (<[id := mkRecord (rc_req r) (mkInfo status (in_Logs (rc_info r)) step failure) (rc_registered r) now]> (ex_builds e))
        (ex_slots e)
  end.

Definition log (cf : settings) (id step level : string) (message : list string) (now : time) (e : Executor) : Executor :=
  match ex_builds e !! id with
  | None => e
  | Some r =>
      let i := rc_info r in
      if decide (cf_logLines cf ≤ Z.of_nat (length (in_Logs i)))%Z then e
      else mkExecutor (<[id := mkRecord (rc_req r)
             (mkInfo (in_Status i) (in_Logs i ++ [mkLogEntry now level message step]) (in_FailedPhase i) (in_Failure i))
             (rc_registered r) (rc_finished r)]> (ex_builds e)) (ex_slots e)
  end.

(** [<-e.slots] when a run returns. *)
Definition free_slot (e : Executor) : Executor := mkExecutor (ex_builds e) (ex_slots e - 1).

(** ** The system: the executor and its running goroutines *)

(** A running goroutine: its build, and whether it has finished the record. *)
Record state := mkState {
  sy_exec : Executor;
  sy_runs : list (string * bool);
}.

Definition ids (s : state) : list string := (sy_runs s).*1.

(** Build ids are fresh: the caller draws one per registration. *)
Inductive step (cf : settings) : state → state → Prop :=
| step_register id req swept now e runs :
    ex_builds e !! id = None → id ∉ runs.*1 →
    step cf (mkState e runs) (mkState (Register id req swept now e) runs)
| step_start id e runs e' :
    Start cf id e = (Ok true, e') →
    step cf (mkState e runs) (mkState e' ((id, false) :: runs))
| step_start_not id e runs e' r :
    Start cf id e = (r, e') → r ≠ Ok true →
    step cf (mkState e runs) (mkState e' runs)
| step_status id now e runs :
    step cf (mkState e runs) (mkState (Status id now e).2 runs)
| step_log id phase level message now e runs :
    (id, false) ∈ runs →
    step cf (mkState e runs) (mkState (log cf id phase level message now e) runs)
| step_finish id status phase failure now e pre suf :
    status = StatusReady ∨ status = StatusError → now ≠ zero_time →
    step cf (mkState e (pre ++ (id, false) :: suf)) (mkState (finish id status phase failure now e) (pre ++ (id, true) :: suf))
| step_exit id e pre suf :
    step cf (mkState e (pre ++ (id, true) :: suf)) (mkState (free_slot e) (pre ++ suf)).

Definition reachable (cf : settings) (s : state) : Prop := rtc (step cf) (mkState New []) s.

(** ** Invariant *)

(** A record and the goroutine of its build. *)
Definition record_ok (cf : settings) (runs : list (string * bool)) (id : string) (r : record) : Prop :=
  (Z.of_nat (length (in_Logs (rc_info r))) ≤ Z.max 0 (cf_logLines cf))%Z ∧
  ((in_Status (rc_info r) = StatusWaiting ∧ (id ∉ runs.*1) ∧ rc_finished r = zero_time) ∨
   (in_Status (rc_info r) = StatusBuilding ∧ (id, false) ∈ runs ∧ rc_finished r = zero_time) ∨
   ((in_Status (rc_info r) = StatusReady ∨ in_Status (rc_info r) = StatusError) ∧ ((id, false) ∉ runs) ∧ rc_finished r ≠ zero_time)).

Definition inv (cf : settings) (s : state) : Prop :=
  ex_slots (sy_exec s) = length (sy_runs s) ∧ length (sy_runs s) ≤ cf_parallel cf ∧ NoDup (ids s) ∧
  map_Forall (record_ok cf (sy_runs s)) (ex_builds (sy_exec s)) ∧
  (∀ id, ((id, false) ∈ sy_runs s) → is_Some (ex_builds (sy_exec s) !! id)).

(** ** Lemmas *)

Lemma elem_other (id id' : string) (b c : bool) pre suf :
  id' ≠ id → ((id', b) ∈ pre ++ (id, c) :: suf) ↔ ((id', b) ∈ pre ++ suf).
Proof. intros Hne. rewrite !elem_of_app, elem_of_cons. split; [intros [?|[[= ? ?]|?]]; auto; done|tauto]. Qed.

Lemma ids_other (id id' : string) (c : bool) (pre suf : list (string * bool)) :
  id' ≠ id → (id' ∈ (pre ++ (id, c) :: suf).*1) ↔ (id' ∈ (pre ++ suf).*1).
Proof. intros Hne. rewrite !fmap_app. csimpl. rewrite !elem_of_app, elem_of_cons. tauto. Qed.

Lemma record_ok_other cf id id' c pre suf r :
  id' ≠ id → record_ok cf (pre ++ (id, c) :: suf) id' r ↔ record_ok cf (pre ++ suf) id' r.
Proof. intros Hne. unfold record_ok. by rewrite (ids_other id id' c pre suf Hne), (elem_other id id' false c pre suf Hne). Qed.

(** The id of a goroutine occurs once. *)
Lemma ids_split id c (pre suf : list (string * bool)) :
  NoDup (pre ++ (id, c) :: suf).*1 → NoDup (pre ++ suf).*1 ∧ id ∉ (pre ++ suf).*1.
Proof.
  rewrite !fmap_app. csimpl. intros Hnd. apply NoDup_app in Hnd as (Hp & Hx & Hs). apply NoDup_cons in Hs as [Hi Hs].
  split.
  - apply NoDup_app. split_and!; [done| |done]. intros x Hin Hin'. apply (Hx x Hin). by right.
  - rewrite elem_of_app. intros [Hin|Hin]; [|done]. apply (Hx id Hin). left.
Qed.

Lemma not_elem_fst (id : string) (b : bool) runs : id ∉ runs.*1 → (id, b) ∉ runs.
Proof. intros Hi Hin. apply Hi. apply (list_elem_of_fmap_2 fst) in Hin. done. Qed.

Lemma dropped_building now r : in_Status (rc_info r) = StatusBuilding → rc_finished r = zero_time → dropped now r = false.
Proof. intros Hs Hf. unfold dropped. by rewrite Hs, Hf. Qed.

Lemma inv_sweep cf now e runs : inv cf (mkState e runs) → inv cf (mkState (sweep now e) runs).
Proof.
  intros (Hs & Hl & Hn & Hr & Hrun). split_and!; [done..| |].
  - intros id r [H _]%map_lookup_filter_Some. by apply Hr.
  - intros id Hin. destruct (Hrun id Hin) as [r Hlk]. exists r. apply map_lookup_filter_Some. split; [done|].
    destruct (Hr id r Hlk) as (_ & [(_ & Hni & _)|[(? & _ & ?)|(_ & ? & _)]]); [|by apply dropped_building|done].
    exfalso. by apply (not_elem_fst _ false _ Hni).
Qed.

(** Writing one record and leaving the rest. *)
Lemma inv_write cf e runs id r n :
  n = length runs → length runs ≤ cf_parallel cf → NoDup runs.*1 → record_ok cf runs id r →
  (∀ id' r', id' ≠ id → ex_builds e !! id' = Some r' → record_ok cf runs id' r') →
  (∀ id', id' ≠ id → (id', false) ∈ runs → is_Some (ex_builds e !! id')) →
  inv cf (mkState (mkExecutor (<[id := r]> (ex_builds e)) n) runs).
Proof.
  intros -> Hl Hn Hr Ho Hrun. split_and!; [done..| |].
  - intros id' r'. simpl. intros [[<- <-]|[Hne Hlk]]%lookup_insert_Some; [done|]. by apply Ho.
  - intros id' Hin. simpl. destruct (decide (id' = id)) as [->|Hne]; [rewrite lookup_insert_eq; eauto|].
    rewrite lookup_insert_ne by done. by apply Hrun.
Qed.

Lemma inv_start cf id e runs e' :
  inv cf (mkState e runs) → Start cf id e = (Ok true, e') → inv cf (mkState e' ((id, false) :: runs)).
Proof.
  intros (Hs & Hl & Hn & Hr & Hrun) Hst. unfold Start in Hst. simpl in *.
  destruct (ex_builds e !! id) as [r|] eqn:Hlk; [|done]. case_bool_decide as Hw; [|done]. simpl in Hst.
  case_decide as Hfree; [|done]. injection Hst as <-.
  destruct (Hr id r Hlk) as (Hlog & [(_ & Hni & Hf)|[(Hb & _)|([Hb|Hb] & _)]]); [|by rewrite Hw in Hb..].
  apply inv_write; simpl; [lia|lia|by apply NoDup_cons| | |].
  - split; [done|]. right. left. split_and!; [done|left|done].
  - intros id' r' Hne Hlk'. apply (record_ok_other cf id id' false [] runs r' Hne). by apply Hr.
  - intros id' Hne Hin. apply Hrun. by apply (elem_other id id' false false [] runs) in Hin.
Qed.

Lemma inv_log cf id phase level message now e runs :
  inv cf (mkState e runs) → inv cf (mkState (log cf id phase level message now e) runs).
Proof.
  intros Hi. pose proof Hi as (Hs & Hl & Hn & Hr & Hrun). unfold log. simpl in *.
  destruct (ex_builds e !! id) as [r|] eqn:Hlk; [|done]. case_decide; [done|].
  destruct (Hr id r Hlk) as (Hlog & Hst).
  apply inv_write; [done|done|done| |by eauto|by eauto]. split; [|done]. simpl. rewrite length_app. simpl. lia.
Qed.

Lemma inv_finish cf id status phase failure now e pre suf :
  status = StatusReady ∨ status = StatusError → now ≠ zero_time →
  inv cf (mkState e (pre ++ (id, false) :: suf)) →
  inv cf (mkState (finish id status phase failure now e) (pre ++ (id, true) :: suf)).
Proof.
  intros Hst Hnow (Hs & Hl & Hn & Hr & Hrun). unfold finish. simpl in *.
  destruct (Hrun id) as [r Hlk]; [apply elem_of_app; right; left|]. rewrite Hlk.
  unfold ids in Hn. simpl in Hn. destruct (ids_split _ _ _ _ Hn) as [Hn' Hni].
  apply inv_write.
  - rewrite Hs, !length_app. done.
  - rewrite length_app in *. done.
  - rewrite fmap_app in *. done.
  - split; [by apply Hr in Hlk as [? _]|]. right. right. split_and!; [done| |done].
    rewrite elem_of_app, elem_of_cons. intros [?|[[=]|?]]; apply (not_elem_fst _ false _ Hni), elem_of_app; auto.
  - intros id' r' Hne Hlk'. apply record_ok_other; [done|]. apply (record_ok_other cf id id' false pre suf r' Hne). by apply Hr.
  - intros id' Hne Hin%elem_other; [|done]. apply Hrun. by apply elem_other.
Qed.

Lemma inv_exit cf id e pre suf :
  inv cf (mkState e (pre ++ (id, true) :: suf)) → inv cf (mkState (free_slot e) (pre ++ suf)).
Proof.
  intros (Hs & Hl & Hn & Hr & Hrun). unfold ids in Hn. simpl in *. destruct (ids_split _ _ _ _ Hn) as [Hn' Hni].
  rewrite length_app in *. simpl in *. split_and!; [simpl; rewrite length_app; lia|simpl; rewrite length_app; lia|done| |].
  - intros id' r' Hlk. simpl in Hlk. destruct (decide (id' = id)) as [->|Hne].
    + destruct (Hr id r' Hlk) as (Hlog & [(_ & Hx & _)|[(_ & Hx & _)|(? & _ & ?)]]).
      * exfalso. apply Hx. rewrite fmap_app. apply elem_of_app. right. left.
      * exfalso. apply elem_of_app in Hx as [Hx|Hx%elem_of_cons]; [|destruct Hx as [[=]|Hx]];
          apply (not_elem_fst _ false _ Hni), elem_of_app; auto.
      * split; [done|]. right. right. split_and!; [done|by apply not_elem_fst|done].
    + by apply (record_ok_other cf id id' true pre suf r' Hne), Hr.
  - intros id' Hin. simpl in *. apply Hrun. rewrite elem_of_app, elem_of_cons in *. tauto.
Qed.

Lemma inv_step cf s s' : step cf s s' → inv cf s → inv cf s'.
Proof.
  intros Hst Hi. destruct Hst as [id req swept now e runs Hf Hni|id e runs e' Hs|id e runs e' r Hs Hr|id now e runs
    |id phase level message now e runs Hin|id status phase failure now e pre suf Hst Hnow|id e pre suf].
  - pose proof (inv_sweep cf swept e runs Hi) as (Hs & Hl & Hn & Hr & Hrun).
    unfold Register. apply inv_write; [done|done|done| |by eauto|by eauto]. split; [simpl; lia|]. left. done.
  - by eapply inv_start.
  - unfold Start in Hs. repeat case_match; by simplify_eq.
  - by apply inv_sweep.
  - by apply inv_log.
  - by apply inv_finish.
  - by apply inv_exit in Hi.
Qed.

Lemma inv_init cf : inv cf (mkState New []).
Proof. split_and!; [done|simpl; lia|constructor|apply map_Forall_empty|]. intros id Hin. by apply not_elem_of_nil in Hin. Qed.

Lemma inv_reachable cf s : reachable cf s → inv cf s.
Proof.
  intros H. assert (∀ a b, rtc (step cf) a b → inv cf a → inv cf b) as Hrtc.
  { intros a b. induction 1; eauto using inv_step. }
  eapply Hrtc; [done|]. apply inv_init.
Qed.

(** ** Properties *)

(** How far a build has come. *)
Definition stage (status : string) : nat :=
  if decide (status = StatusWaiting) then 0 else if decide (status = StatusBuilding) then 1 else 2.

(** C16: at any time and in any interleaving, at most [parallel] builds run and each
    holds one slot; a record reads "building" exactly while its goroutine has not
    finished it, so a running build is never swept and its polls always answer;
    the log of a build never exceeds its cap. *)
Theorem builds_bounded (cf : settings) (s : state) :
  reachable cf s →
  ex_slots (sy_exec s) = length (sy_runs s) ∧ length (sy_runs s) ≤ cf_parallel cf ∧
  (∀ id, (id, false) ∈ sy_runs s ↔ ∃ r, ex_builds (sy_exec s) !! id = Some r ∧ in_Status (rc_info r) = StatusBuilding) ∧
  (∀ id now, (id, false) ∈ sy_runs s → ∃ i, (Status id now (sy_exec s)).1 = Some i ∧ in_Status i = StatusBuilding) ∧
  (∀ id r, ex_builds (sy_exec s) !! id = Some r → (Z.of_nat (length (in_Logs (rc_info r))) ≤ Z.max 0 (cf_logLines cf))%Z).
Proof.
  intros Hre. pose proof (inv_reachable cf s Hre) as Hi. pose proof Hi as (Hs & Hl & Hn & Hr & Hrun).
  assert (∀ id r, ex_builds (sy_exec s) !! id = Some r → (id, false) ∈ sy_runs s → in_Status (rc_info r) = StatusBuilding ∧ rc_finished r = zero_time) as Hb.
  { intros id r Hlk Hin. destruct (Hr id r Hlk) as (_ & [(_ & Hni & _)|[(? & _ & ?)|(_ & ? & _)]]); [|done..].
    by apply (not_elem_fst _ false) in Hni. }
  split_and!; [done|done| | |by intros id r Hlk; apply Hr in Hlk as [? _]].
  - intros id. split.
    + intros Hin. destruct (Hrun id Hin) as [r Hlk]. exists r. split; [done|]. by eapply Hb.
    + intros (r & Hlk & Hst). destruct (Hr id r Hlk) as (_ & [(Hw & _)|[(_ & ? & _)|([Hw|Hw] & _)]]); [by rewrite Hst in Hw|done|by rewrite Hst in Hw..].
  - intros id now Hin. destruct (Hrun id Hin) as [r Hlk]. destruct (Hb id r Hlk Hin) as [Hst Hf].
    exists (rc_info r). split; [|done]. unfold Status. simpl.
    rewrite (map_lookup_filter_Some_2 _ _ _ r); [done|done|]. by apply dropped_building.
Qed.

(** a build only moves forward: along any step a record that is still there
    keeps its status or advances from waiting to building to ready or error, its
    log only grows at the end, and once it has ended neither status nor failure
    changes. *)
Theorem build_monotone (cf : settings) (s s' : state) (id : string) (r r' : record) :
  reachable cf s → step cf s s' →
  ex_builds (sy_exec s) !! id = Some r → ex_builds (sy_exec s') !! id = Some r' →
  stage (in_Status (rc_info r)) ≤ stage (in_Status (rc_info r')) ∧
  in_Logs (rc_info r) `prefix_of` in_Logs (rc_info r') ∧
  (stage (in_Status (rc_info r)) = 2 → in_Status (rc_info r') = in_Status (rc_info r) ∧ in_Failure (rc_info r') = in_Failure (rc_info r)).
Proof.
  intros Hre Hst Hlk Hlk'. pose proof (inv_reachable cf s Hre) as (_ & _ & _ & Hr & _).
  assert (r' = r → stage (in_Status (rc_info r)) ≤ stage (in_Status (rc_info r')) ∧
    in_Logs (rc_info r) `prefix_of` in_Logs (rc_info r') ∧
    (stage (in_Status (rc_info r)) = 2 → in_Status (rc_info r') = in_Status (rc_info r) ∧ in_Failure (rc_info r') = in_Failure (rc_info r))) as Hsame
    by (by intros ->).
  destruct Hst as [id' req swept now e runs Hf Hni|id' e runs e' Hs|id' e runs e' x Hs Hx|id' now e runs
    |id' phase level message now e runs Hin|id' status phase failure now e pre suf Hstat Hnow|id' e pre suf]; simpl in *.
  - apply lookup_insert_Some in Hlk' as [[-> _]|[_ [H _]%map_lookup_filter_Some]]; [congruence|apply Hsame; congruence].
  - unfold Start in Hs. destruct (ex_builds e !! id') as [r0|] eqn:H0; [|done]. case_bool_decide as Hw; [|done]. simpl in Hs.
    case_decide; [|done]. injection Hs as <-. simpl in Hlk'.
    apply lookup_insert_Some in Hlk' as [[-> <-]|[_ H']]; [|apply Hsame; congruence]. simplify_eq. rewrite Hw. simpl. split_and!; [|done|done].
    unfold stage. simpl. lia.
  - apply Hsame. unfold Start in Hs. repeat case_match; simplify_eq; congruence.
  - apply map_lookup_filter_Some in Hlk' as [H' _]. apply Hsame. congruence.
  - unfold log in Hlk'. destruct (ex_builds e !! id') as [r0|] eqn:H0; [|apply Hsame; congruence].
    case_decide; [apply Hsame; congruence|]. simpl in Hlk'.
    apply lookup_insert_Some in Hlk' as [[-> <-]|[_ H']]; [|apply Hsame; congruence]. simplify_eq. simpl.
    split_and!; [done|by apply prefix_app_r|done].
  - unfold finish in Hlk'. destruct (ex_builds e !! id') as [r0|] eqn:H0; [|apply Hsame; congruence]. simpl in Hlk'.
    apply lookup_insert_Some in Hlk' as [[-> <-]|[_ H']]; [|apply Hsame; congruence]. simplify_eq. simpl.
    destruct (Hr id r Hlk) as (_ & [(Hw & Hni & _)|[(Hw & _ & _)|(_ & Hni & _)]]).
    + exfalso. apply Hni. rewrite fmap_app. apply elem_of_app. right. left.
    + rewrite Hw. destruct Hstat as [->| ->]; (split_and!; [unfold stage; simpl; lia|done|done]).
    + exfalso. apply Hni. apply elem_of_app. right. left.
  - apply Hsame. congruence.
Qed.

(** ** Witnesses *)

Definition one_slot : settings := mkSettings 1 2.
Definition registered : Executor := Register "b1" (mkRequest "small" []) 5%Z 5%Z New.
Definition started : Executor := (Start one_slot "b1" registered).2.

Lemma started_reachable : reachable one_slot (mkState started [("b1", false)]).
Proof.
  eapply rtc_l; [apply (step_register one_slot "b1" (mkRequest "small" []) 5%Z 5%Z New []); [reflexivity|apply not_elem_of_nil]|].
  eapply rtc_l; [apply (step_start one_slot "b1"); reflexivity|]. apply rtc_refl.
Qed.

Lemma builds_bounded_witness : ∃ i, (Status "b1" 9999999999999%Z started).1 = Some i ∧ in_Status i = "building".
Proof.
  destruct (builds_bounded one_slot _ started_reachable) as (_ & _ & _ & H & _). apply (H "b1"). constructor.
Defined.

Lemma build_monotone_witness :
  in_Logs (mkInfo "building" [] "" []) `prefix_of` [mkLogEntry 7%Z "info" ["claiming"] "claim"].
Proof.
  destruct (build_monotone one_slot (mkState started [("b1", false)])
    (mkState (log one_slot "b1" "claim" "info" ["claiming"] 7%Z started) [("b1", false)]) "b1"
    (mkRecord (mkRequest "small" []) (mkInfo "building" [] "" []) 5%Z zero_time)
    (mkRecord (mkRequest "small" []) (mkInfo "building" [mkLogEntry 7%Z "info" ["claiming"] "claim"] "" []) 5%Z zero_time)
    started_reachable) as (_ & H & _).
  - apply step_log. constructor.
  - reflexivity.
  - reflexivity.
  - exact H.
Defined.
