(* ===== verification/BuildRun.v ===== *)
(** * One build's run (pkg/e2bbuild/executor.go, copy.go)

    What the goroutine of a started build does: claim a sandbox, run the steps
    and the start and ready commands in it, promote it, publish the result and
    release the claim; and the shell lines it runs as root.

    A run acts on the world through the store and the guest, and tells the
    executor about itself in log lines and one end ([note]s), which
    [BuildRecords] applies to the record.  The number of ready-command polls
    before the build's timeout is an input; a call cut short by the timeout
    surfaces as its error. *)

From S2P Require Import Prelude GoStd GoText Api SandboxView Client StoreRead StoreClaim Store BuildRecords.

Definition PhaseClaim : string := "claim".
Definition PhaseFinalize : string := "finalize".
Definition PhasePromote : string := "promote".
Definition PhasePublish : string := "publish".
Definition stepRun : string := "RUN".
Definition stepEnv : string := "ENV".
Definition stepWorkdir : string := "WORKDIR".
Definition stepUser : string := "USER".
Definition stepCopy : string := "COPY".
Definition defaultUser : string := "user".
Definition rootUser : string := "root".

(** ** Shell words *)

Definition shellQuote (s : string) : string := "'" +:+ replace_byte "'" "'\''" s +:+ "'".

(** [envEscaper]: at each position the first of the four patterns that matches. *)
Fixpoint envEscape (s : string) : string :=
  match s with
  | "" => ""
  | String c rest =>
      if decide (c = "\"%char) then "\\" +:+ envEscape rest
      else if decide (c = "034"%char) then "\" +:+ String "034" (envEscape rest)
      else if decide (c = "`"%char) then "\`" +:+ envEscape rest
      else if decide (c = "$"%char) then
        match rest with
        | String d rest' => if decide (d = "("%char) then "\$(" +:+ envEscape rest' else String c (envEscape rest)
        | "" => String c ""
        end
      else String c (envEscape rest)
  end.

(** ** Steps *)

Record Step := mkStep {
  sp_Type : string;
  sp_Args : list string;
  sp_FilesHash : string;
}.

Definition arg (i : nat) (s : Step) : string := default "" (sp_Args s !! i).

(** [FilesHash.MatchString]: 64 lower-case hex digits. *)
Definition hex_byte (c : ascii) : bool := within 48 57 c || within 97 102 c.
Definition FilesHash (s : string) : bool := all_bytes hex_byte s && bool_decide (String.length s = 64).

Definition problem (s : Step) (canCopy : bool) : string :=
  if decide (sp_Type s ∈ [stepRun; stepWorkdir; stepUser]) then
    if decide (sp_Args s = [] ∨ arg 0 s = "") then "needs an argument" else ""
  else if decide (sp_Type s = stepEnv) then
    if decide (sp_Args s = [] ∨ length (sp_Args s) mod 2 ≠ 0) then "needs key and value pairs" else ""
  else if decide (sp_Type s = stepCopy) then
    if negb canCopy then "no upload store is configured"
    else if decide (length (sp_Args s) < 2 ∨ arg 0 s = "" ∨ arg 1 s = "") then "needs a source and a destination"
    else if negb (FilesHash (sp_FilesHash s)) then "needs the filesHash of its upload" else ""
  else "not a supported step type".

Fixpoint invalid_from (i : nat) (steps : list Step) (canCopy : bool) : list string :=
  match steps with
  | [] => []
  | s :: steps =>
      let p := problem s canCopy in
      if decide (p = "") then invalid_from (S i) steps canCopy
      else ["step %d (%s): %s"; format_int (Z.of_nat (i + 1)); sp_Type s; p]
  end.
Definition Invalid (steps : list Step) (canCopy : bool) : list string := invalid_from 0 steps canCopy.

Record Command := mkCommand {
  cm_Line : string;
  cm_User : string;
  cm_Workdir : string;
  cm_Envs : gmap string string;
}.

Definition withLine (state : Command) (line : string) : Command := mkCommand line (cm_User state) (cm_Workdir state) (cm_Envs state).

(** ** COPY *)

Definition archivePath (hash : string) : string := "/tmp/" +:+ hash +:+ ".tar".

Definition globBase (src : string) : string :=
  let segs := split_byte "/" (trim_suffix "/" src) in
  let fix before (segs : list string) : list string :=
    match segs with
    | [] => []
    | seg :: segs => if contains_any "*?[{" seg then [] else seg :: before segs
    end in
  join "/" (before segs).

Definition newline : string := String "010" "".

Definition copy_owner (state : Command) (s : Step) : string :=
  let given := arg 2 s in
  if decide (given = "") then cm_User state +:+ ":" +:+ cm_User state
  else if str_contains given ":" then given else given +:+ ":" +:+ given.

Definition copy_vars (state : Command) (s : Step) : list (string * string) :=
  let scratch := "/tmp/" +:+ sp_FilesHash s in
  let unpack := scratch +:+ "/unpack" in
  [("archive", archivePath (sp_FilesHash s)); ("scratch", scratch); ("unpack", unpack);
   ("src", arg 0 s); ("source", path_join [unpack; globBase (arg 0 s)]); ("target", arg 1 s);
   ("owner", copy_owner state s); ("mode", arg 3 s); ("workdir", cm_Workdir state); ("user", cm_User state)].

Fixpoint assignments (vars : list (string * string)) : string :=
  match vars with
  | [] => ""
  | (k, v) :: vars => k +:+ "=" +:+ shellQuote v +:+ newline +:+ assignments vars
  end.

(** The fixed tail of the script, written here with [~] for a double quote and [^]
    for an asterisk, neither of which it holds. *)
Definition copyMove : string := replace_byte "^" "*" (replace_byte "~" (String "034" "") "set -o pipefail
mkdir -p ~$unpack~ && tar -xf ~$archive~ -C ~$unpack~ || exit 1
[ -n ~$workdir~ ] || workdir=$(getent passwd ~$user~ | cut -d: -f6)
cd ~$workdir~ || exit 1
case ~$target~ in /^) ;; ^) target=~$(pwd)/$target~ ;; esac
cd ~$(dirname ~$source~)~ || exit 1
entry=$(basename ~$source~)
if [ ! -e ~$entry~ ] && [ ! -L ~$entry~ ]; then echo ~source path does not exist: $src~; exit 1; fi
[ -d ~$entry~ ] || case ~$target~ in ^/) mkdir -p ~$target~ ;; ^) mkdir -p ~$(dirname ~$target~)~ ;; esac
if [ -L ~$entry~ ]; then
	chown -h ~$owner~ ~$entry~ && mv ~$entry~ ~$target~ || exit 1
elif [ -f ~$entry~ ]; then
	chown ~$owner~ ~$entry~ && { [ -z ~$mode~ ] || chmod ~$mode~ ~$entry~; } && mv ~$entry~ ~$target~ || exit 1
elif [ -d ~$entry~ ]; then
	chown -R ~$owner~ ~$entry~ && { [ -z ~$mode~ ] || chmod -R ~$mode~ ~$entry~; } || exit 1
	if [ ! -e ~$target~ ]; then
		mkdir -p ~$(dirname ~${target%/}~)~ && mv ~$entry~ ~${target%/}~ || exit 1
	else
		(cd ~$entry~ && tar -cf - .) | tar -xf - -C ~$target~ --keep-directory-symlink --no-overwrite-dir || exit 1
	fi
else
	echo ~source is neither a file, a directory nor a symlink: $src~; exit 1
fi
rm -rf ~$archive~ ~$scratch~").

Definition copyScript (state : Command) (s : Step) : string := assignments (copy_vars state s) +:+ copyMove.

(** ** The guest and the run *)

(** An operation that fails with the words the caller sees and the error logged. *)
Inductive outcome (A : Type) :=
| Done (a : A)
| Failed (msg : list string) (e : error).
Arguments Done {A} a.
Arguments Failed {A} msg e.

(** A line of a command's output, and whether it is of its standard output. *)
Record out_line := mkOutLine { ol_stdout : bool; ol_text : string }.

(** The [Guest] interface.  [Run] gives the lines the command printed and its exit
    code; an uploaded archive is a handle. *)
Class Guest (S : Type) := {
  Run (a : Assignment) (cmd : Command) : io S (list out_line * result Z);
  StartIn (a : Assignment) (cmd : Command) : io S (result unit);
  InitIn (a : Assignment) (defaults : Command) : io S (result unit);
  Write (a : Assignment) (path archive : string) : io S (result unit);
}.

Record Spec (S : Type) := mkSpec {
  bs_Namespace : string;
  bs_ClaimName : string;
  bs_Pool : PoolKey;
  bs_Template : string;
  bs_Steps : list Step;
  bs_StartCmd : string;
  bs_ReadyCmd : string;
  bs_Archive : string → io S (result string);
  bs_Publish : option (string → PoolKey → string → io S (result unit));
}.
Arguments bs_Namespace {S} _.
Arguments bs_ClaimName {S} _.
Arguments bs_Pool {S} _.
Arguments bs_Template {S} _.
Arguments bs_Steps {S} _.
Arguments bs_StartCmd {S} _.
Arguments bs_ReadyCmd {S} _.
Arguments bs_Archive {S} _.
Arguments bs_Publish {S} _.

(** What a run tells the executor. *)
Inductive note :=
| Line (phase level : string) (message : list string)
| End (status phase : string) (failure : list string).

(** The build's timeout, and the polls of its ready command it leaves room for. *)
Record run_env := mkRunEnv {
  re_timeout : Z;
  re_polls : nat;
}.

Definition dquote : string := String "034" "".

Section run.
Context {S : Type} {T : SandboxStore S} {G : Guest S} (env : run_env) (spec : Spec S) (a : Assignment).

Definition tell (n : note) : io (list note * S) unit := λ '(ns, s), (tt, (ns ++ [n], s)).
Definition logf (phase : string) (message : list string) : io (list note * S) unit := tell (Line phase "info" message).
Definition world {A} (m : io S A) : io (list note * S) A := silently m.

(** The output lines sent to the log, in the order they came. *)
Fixpoint log_lines (phase : string) (wanted : out_line → bool) (lines : list out_line) : io (list note * S) unit :=
  match lines with
  | [] => mret tt
  | l :: lines => _ ← (if wanted l then logf phase [ol_text l] else mret tt); log_lines phase wanted lines
  end.

(** [sh]: run a line, log what [wanted] selects, and fail on a non-zero exit. *)
Definition sh (phase : string) (wanted : out_line → bool) (cmd : Command) : io (list note * S) (list out_line * outcome unit) :=
  '(lines, r) ← world (Run a cmd);
  _ ← log_lines phase wanted lines;
  mret (lines, match r with
               | Err e => Failed ["could not run a command in the build sandbox"] e
               | Ok code =>
                   if decide (code = 0)%Z then Done tt
                   else let msg := ["%q exited with code %d"; cm_Line cmd; format_int code] in Failed msg (ErrText "" msg)
               end).

Definition sh_logged (phase : string) (cmd : Command) : io (list note * S) (outcome unit) :=
  '(_, r) ← sh phase (λ _, true) cmd; mret r.

Definition expand (phase : string) (root : Command) (value : string) : io (list note * S) (outcome string) :=
  let line := "printf " +:+ dquote +:+ "%s" +:+ dquote +:+ " " +:+ dquote +:+ envEscape value +:+ dquote in
  '(lines, r) ← sh phase (λ l, negb (ol_stdout l)) (withLine root line);
  mret match r with
       | Failed _ e => Failed ["could not evaluate the value %q"; value] e
       | Done _ => Done (join newline (ol_text <$> List.filter ol_stdout lines))
       end.

(** The ENV pairs, the last of an odd list ignored. *)
Fixpoint set_envs (phase : string) (root : Command) (args : list string) (envs : gmap string string) :
    io (list note * S) (outcome (gmap string string)) :=
  match args with
  | k :: v :: args =>
      r ← expand phase root v;
      match r with
      | Failed msg e => mret (Failed msg e)
      | Done v => set_envs phase root args (<[k := v]> envs)
      end
  | _ => mret (Done envs)
  end.

Definition workdir_script (dir user : string) : string :=
  let n := dquote +:+ "$n" +:+ dquote in
  let t := dquote +:+ "$t" +:+ dquote in
  "t=" +:+ shellQuote dir +:+ "; [ -d " +:+ t +:+ " ] && exit 0; n=$t; while [ ! -d " +:+
  dquote +:+ "$(dirname " +:+ n +:+ ")" +:+ dquote +:+ " ]; do n=$(dirname " +:+ n +:+ "); done; mkdir -p " +:+ t +:+
  " && chown -R " +:+ shellQuote user +:+ ": " +:+ n.

Definition user_script (name : string) : string :=
  "id -u " +:+ shellQuote name +:+ " >/dev/null 2>&1 || useradd --create-home --shell /bin/bash " +:+ shellQuote name.

Definition copyIn (hash : string) : io S (outcome unit) :=
  archive ← bs_Archive spec hash;
  match archive with
  | Err e => mret (Failed ["could not read the uploaded files"] e)
  | Ok archive =>
      r ← Write a (archivePath hash) archive;
      mret match r with
           | Err e => Failed ["could not copy the uploaded files into the build sandbox"] e
           | Ok _ => Done tt
           end
  end.

Definition step (phase : string) (state : Command) (s : Step) : io (list note * S) (outcome Command) :=
  let root := mkCommand "" rootUser "" (cm_Envs state) in
  if decide (sp_Type s = stepRun) then
    let cmd := withLine state (arg 0 s) in
    let cmd := if decide (1 < length (sp_Args s)) then mkCommand (cm_Line cmd) (arg 1 s) (cm_Workdir cmd) (cm_Envs cmd) else cmd in
    r ← sh_logged phase cmd;
    mret match r with Failed msg e => Failed msg e | Done _ => Done state end
  else if decide (sp_Type s = stepEnv) then
    r ← set_envs phase root (sp_Args s) (cm_Envs state);
    mret match r with Failed msg e => Failed msg e | Done envs => Done (mkCommand (cm_Line state) (cm_User state) (cm_Workdir state) envs) end
  else if decide (sp_Type s = stepWorkdir) then
    let dir := if is_abs (arg 0 s) then arg 0 s else path_join [str_or (cm_Workdir state) "/"; arg 0 s] in
    r ← sh_logged phase (withLine root (workdir_script dir (cm_User state)));
    mret match r with Failed msg e => Failed msg e | Done _ => Done (mkCommand (cm_Line state) (cm_User state) dir (cm_Envs state)) end
  else if decide (sp_Type s = stepUser) then
    r ← sh_logged phase (withLine root (user_script (arg 0 s)));
    mret match r with Failed msg e => Failed msg e | Done _ => Done (mkCommand (cm_Line state) (arg 0 s) (cm_Workdir state) (cm_Envs state)) end
  else if decide (sp_Type s = stepCopy) then
    r ← world (copyIn (sp_FilesHash s));
    match r with
    | Failed msg e => mret (Failed msg e)
    | Done _ =>
        r ← sh_logged phase (withLine root (copyScript state s));
        mret match r with
             | Failed _ e => Failed ["could not copy %s to %s"; arg 0 s; arg 1 s] e
             | Done _ => Done state
             end
    end
  else mret (Done state).

(** A failed operation with the phase it is reported under. *)
Inductive ended (A : Type) :=
| Going (a : A)
| Stopped (phase : string) (msg : list string) (e : error).
Arguments Going {A} a.
Arguments Stopped {A} phase msg e.

Fixpoint steps_from (i : nat) (state : Command) (steps : list Step) : io (list note * S) (ended Command) :=
  match steps with
  | [] => mret (Going state)
  | s :: steps =>
      let phase := format_int (Z.of_nat (i + 1)) in
      r ← step phase state s;
      match r with
      | Failed msg e => mret (Stopped phase (["step %s (%s) failed: %s"; phase; sp_Type s] ++ msg) e)
      | Done state => steps_from (i + 1) state steps
      end
  end.

(** [awaitReady]: poll until the command exits 0 or the build times out. *)
Fixpoint awaitReady (polls : nat) (cmd : Command) : io S (result unit) :=
  '(_, r) ← Run a cmd;
  let ready := match r with Ok code => bool_decide (code = 0%Z) | Err _ => false end in
  if ready then mret (Ok tt)
  else match polls with
       | 0 => mret (Err (match r with Err e => ErrWrap "context deadline exceeded" [] e | Ok _ => ErrSentinel "context.DeadlineExceeded" end))
       | Datatypes.S polls => awaitReady polls cmd
       end.

Definition prepare : io (list note * S) (ended unit) :=
  let envs := if decide (as_NetRoute a = NetRouteRelay) then RelayEnv else ∅ in
  r ← steps_from 0 (mkCommand "" defaultUser "" envs) (bs_Steps spec);
  match r with
  | Stopped phase msg e => mret (Stopped phase msg e)
  | Going state =>
      r ← world (InitIn a state);
      match r with
      | Err e => mret (Stopped PhaseFinalize ["could not set the template's user, workdir and environment"] e)
      | Ok _ =>
          r ← (if decide (bs_StartCmd spec = "") then mret (Ok tt)
               else _ ← logf PhaseFinalize ["starting %s"; bs_StartCmd spec];
                    world (StartIn a (withLine state (bs_StartCmd spec))));
          match r with
          | Err e => mret (Stopped PhaseFinalize ["could not start the start command"] e)
          | Ok _ =>
              if decide (bs_ReadyCmd spec = "") then mret (Going tt)
              else
                r ← world (awaitReady (re_polls env) (withLine state (bs_ReadyCmd spec)));
                match r with
                | Err e => mret (Stopped PhaseFinalize ["the ready command %q did not exit 0 before the build timed out"; bs_ReadyCmd spec] e)
                | Ok _ => _ ← logf PhaseFinalize ["ready: %s exited 0"; bs_ReadyCmd spec]; mret (Going tt)
                end
          end
      end
  end.

Definition promote : io (list note * S) (ended unit) :=
  r ← world (Promote (as_Node a) (as_SandboxName a) (bs_Template spec));
  match r with
  | Err e => mret (Stopped PhasePromote ["could not promote the build's sandbox"] e)
  | Ok (key, digest) =>
      _ ← logf PhasePromote ["promoted as %s, content digest %s"; pk_Template key; digest];
      match bs_Publish spec with
      | None => mret (Going tt)
      | Some publish =>
          r ← world (publish (as_Node a) key digest);
          mret match r with
               | Err e => Stopped PhasePublish ["could not publish the build over the previous one"] e
               | Ok _ => Going tt
               end
      end
  end.

Definition fail (phase : string) (msg : list string) : io (list note * S) unit :=
  _ ← tell (Line phase "error" msg); tell (End StatusError phase msg).

(** The end of a run. *)
Definition report (r : ended unit) : io (list note * S) unit :=
  match r with
  | Going _ => tell (End StatusReady "" [])
  | Stopped phase msg _ => fail phase msg
  end.

(** What a run does once it holds its sandbox. *)
Definition run_claimed : io (list note * S) unit :=
  _ ← logf PhaseClaim ["claimed %s on %s"; as_SandboxName a; as_Node a];
  r ← prepare;
  r ← match r with Going _ => promote | Stopped phase msg e => mret (Stopped phase msg e) end;
  _ ← world (Release (as_Node a) (as_SandboxName a));
  report r.
End run.
Arguments Going {A} a.
Arguments Stopped {A} phase msg e.

Definition claim_message (p : PoolKey) (e : error) : list string :=
  [if IsNoWarmCapacity e then "no warm sandbox of %s (%s, %s); a pool must serve the build's image and size"
   else "could not claim a sandbox of %s (%s, %s)"; pk_Template p; pk_Net p; pk_Size p].

Definition run {S} {T : SandboxStore S} {G : Guest S} (env : run_env) (spec : Spec S) : io (list note * S) unit :=
  let p := bs_Pool spec in
  _ ← logf PhaseClaim ["claiming a sandbox from %s (%s, %s)"; pk_Template p; pk_Net p; pk_Size p];
  r ← world (Claim (bs_Namespace spec) (bs_ClaimName spec) p (mkClaimOptions (Z.quot (re_timeout env) second) ∅ "" false false));
  match r with
  | Err e => fail PhaseClaim (claim_message p e)
  | Ok a => run_claimed env spec a
  end.

(** ** Specification: how a shell reads the lines *)

Definition metachar (c : ascii) : bool := bool_decide (c ∈ [" "; "010"; "009"; ";"; "&"; "|"; "("; ")"; "<"; ">"]%char).

(** A POSIX shell word: quoted and escaped bytes stand for themselves, an unquoted
    metacharacter ends it, and expansions are not read. *)
Fixpoint sh_read (quoted : bool) (s : string) : option (string * string) :=
  match s with
  | "" => if quoted then None else Some ("", "")
  | String c r =>
      if quoted then
        if decide (c = "'"%char) then sh_read false r
        else (λ '(w, rest), (String c w, rest)) <$> sh_read true r
      else if decide (c = "'"%char) then sh_read true r
      else if decide (c = "\"%char) then
        match r with
        | String d r => (λ '(w, rest), (String d w, rest)) <$> sh_read false r
        | "" => None
        end
      else if metachar c then Some ("", s)
      else if decide (c = "$"%char ∨ c = "`"%char ∨ c = "034"%char) then None
      else (λ '(w, rest), (String c w, rest)) <$> sh_read false r
  end.

(** One [name=word] line. *)
Definition sh_assignment (s : string) : option ((string * string) * string) :=
  '(name, r) ← str_cut "=" s;
  '(w, r) ← sh_read false r;
  match r with
  | String c r => if decide (c = "010"%char) then Some ((name, w), r) else None
  | "" => None
  end.

Fixpoint sh_assignments (n : nat) (s : string) : option (list (string * string) * string) :=
  match n with
  | 0 => Some ([], s)
  | S n => '(v, s) ← sh_assignment s; '(more, s) ← sh_assignments n s; Some (v :: more, s)
  end.

(** What the inside of a double-quoted string is made of. *)
Inductive dq_item :=
| Lit (c : ascii)        (* a byte that stands for itself *)
| Expand                 (* a [$] that may start a parameter expansion *)
| Subst.                 (* a command substitution *)

(** A double-quoted string up to its closing quote, per POSIX: a backslash quotes
    only [$], backquote, double quote and itself, and joins lines. *)
Fixpoint dq_read (s : string) : option (list dq_item * string) :=
  match s with
  | "" => None
  | String c r =>
      if decide (c = "034"%char) then Some ([], r)
      else if decide (c = "`"%char) then (λ '(items, rest), (Subst :: items, rest)) <$> dq_read r
      else if decide (c = "\"%char) then
        match r with
        | "" => None
        | String d r' =>
            if decide (d = "$"%char ∨ d = "`"%char ∨ d = "034"%char ∨ d = "\"%char)
            then (λ '(items, rest), (Lit d :: items, rest)) <$> dq_read r'
            else if decide (d = "010"%char) then dq_read r'
            else (λ '(items, rest), (Lit c :: items, rest)) <$> dq_read r
        end
      else if decide (c = "$"%char) then
        match r with
        | String d _ => (λ '(items, rest), ((if decide (d = "("%char) then Subst else Expand) :: items, rest)) <$> dq_read r
        | "" => None
        end
      else (λ '(items, rest), (Lit c :: items, rest)) <$> dq_read r
  end.

(** What an ENV value means: every byte is itself, except a [$] that does not start
    a command substitution, which may expand a variable. *)
Fixpoint dq_items (s : string) : list dq_item :=
  match s with
  | "" => []
  | String c r =>
      (if decide (c = "$"%char) then
         match r with
         | String d _ => if decide (d = "("%char) then Lit c else Expand
         | "" => Expand
         end
       else Lit c) :: dq_items r
  end.

(** ** Lemmas *)

Lemma sh_read_quoted v rest :
  sh_read true (replace_byte "'" "'\''" v +:+ String "'" rest) = (λ '(w, r), (v +:+ w, r)) <$> sh_read false rest.
Proof.
  induction v as [|c v IH].
  - change (replace_byte "'" "'\''" "" +:+ String "'" rest) with (String "'" rest).
    cbn [sh_read]. rewrite decide_True by done. by destruct (sh_read false rest) as [[w r]|].
  - cbn [replace_byte]. destruct (decide ("'"%char = c)) as [<-|Hc]; rewrite str_app_assoc.
    + transitivity ((λ '(w, rest), (String "'" w, rest)) <$> sh_read true (replace_byte "'" "'\''" v +:+ String "'" rest)); [done|].
      rewrite IH. by destruct (sh_read false rest) as [[w r]|].
    + change (String c "" +:+ replace_byte "'" "'\''" v +:+ String "'" rest) with (String c (replace_byte "'" "'\''" v +:+ String "'" rest)).
      cbn [sh_read]. rewrite decide_False by done. rewrite IH. by destruct (sh_read false rest) as [[w r]|].
Qed.

(** A quoted word, before the end or a metacharacter, reads back as itself. *)
Lemma sh_read_shellQuote v c rest : metachar c = true → sh_read false (shellQuote v +:+ String c rest) = Some (v, String c rest).
Proof.
  intros Hm. unfold shellQuote. rewrite !str_app_assoc.
  change ("'" +:+ replace_byte "'" "'\''" v +:+ "'" +:+ String c rest) with (String "'" (replace_byte "'" "'\''" v +:+ String "'" (String c rest))).
  change (sh_read false (String "'" ?s)) with (sh_read true s). rewrite sh_read_quoted. cbn [sh_read].
  assert (c ≠ "'"%char ∧ c ≠ "\"%char) as [H1 H2] by (split; intros ->; discriminate Hm).
  rewrite !decide_False by done. rewrite Hm. simpl. by rewrite str_app_nil_r.
Qed.

Lemma sh_assignments_read vars rest :
  Forall (λ v, has_byte "=" v.1 = false) vars →
  sh_assignments (length vars) (assignments vars +:+ rest) = Some (vars, rest).
Proof.
  induction vars as [|[k v] vars IH]; intros Hall; [done|]. apply Forall_cons in Hall as [Hk Hall].
  simpl length. cbn [sh_assignments assignments]. unfold sh_assignment. rewrite !str_app_assoc.
  change ("=" +:+ shellQuote v +:+ newline +:+ assignments vars +:+ rest)
    with (String "=" (shellQuote v +:+ String "010" (assignments vars +:+ rest))).
  rewrite str_cut_byte by done. cbn [mbind option_bind]. rewrite sh_read_shellQuote by done. cbn [mbind option_bind].
  rewrite decide_True by done. cbn [mbind option_bind]. by rewrite IH.
Qed.

Lemma dq_read_lit c r : c ≠ "034"%char → c ≠ "`"%char → c ≠ "\"%char → c ≠ "$"%char →
  dq_read (String c r) = (λ '(items, rest), (Lit c :: items, rest)) <$> dq_read r.
Proof. intros. cbn [dq_read]. by rewrite !decide_False. Qed.

Lemma dq_read_quoted d r : d = "$"%char ∨ d = "`"%char ∨ d = "034"%char ∨ d = "\"%char →
  dq_read (String "\" (String d r)) = (λ '(items, rest), (Lit d :: items, rest)) <$> dq_read r.
Proof.
  intros Hd. cbn [dq_read]. rewrite decide_False by done. rewrite decide_False by done. rewrite decide_True by done.
  by rewrite decide_True.
Qed.

Lemma dq_read_dollar d r : d ≠ "("%char →
  dq_read (String "$" (String d r)) = (λ '(items, rest), (Expand :: items, rest)) <$> dq_read (String d r).
Proof.
  intros Hd. change (dq_read (String "$" (String d r))) with
    ((λ '(items, rest), ((if decide (d = "("%char) then Subst else Expand) :: items, rest)) <$> dq_read (String d r)).
  by rewrite decide_False.
Qed.

(** No escaped value starts with a parenthesis that was not there. *)
Lemma envEscape_head d w : d ≠ "("%char → ∃ d' w', envEscape (String d w) = String d' w' ∧ d' ≠ "("%char.
Proof.
  intros Hd. cbn [envEscape]. repeat case_decide; simplify_eq; try by eexists _, _.
  destruct w as [|e w]; [by eexists _, _|]. case_decide; by eexists _, _.
Qed.

Lemma dq_read_escape v rest : dq_read (envEscape v +:+ String "034" rest) = Some (dq_items v, rest).
Proof.
  remember (String.length v) as n eqn:Hn. revert v Hn. induction (lt_wf n) as [n _ IH]. intros [|c v] ->; [done|].
  assert (∀ w, String.length w < String.length (String c v) → dq_read (envEscape w +:+ String "034" rest) = Some (dq_items w, rest)) as IH' by eauto.
  clear IH. pose proof (IH' v ltac:(simpl; lia)) as IHv. cbn [envEscape dq_items].
  destruct (decide (c = "\"%char)) as [->|H1].
  { change (("\\" +:+ envEscape v) +:+ String "034" rest) with (String "\" (String "\" (envEscape v +:+ String "034" rest))).
    rewrite dq_read_quoted by tauto. by rewrite IHv. }
  destruct (decide (c = "034"%char)) as [->|H2].
  { change (("\" +:+ String "034" (envEscape v)) +:+ String "034" rest) with (String "\" (String "034" (envEscape v +:+ String "034" rest))).
    rewrite dq_read_quoted by tauto. by rewrite IHv. }
  destruct (decide (c = "`"%char)) as [->|H3].
  { change (("\`" +:+ envEscape v) +:+ String "034" rest) with (String "\" (String "`" (envEscape v +:+ String "034" rest))).
    rewrite dq_read_quoted by tauto. by rewrite IHv. }
  destruct (decide (c = "$"%char)) as [->|H4].
  - destruct v as [|d v]; [done|]. destruct (decide (d = "("%char)) as [->|Hd].
    + change (("\$(" +:+ envEscape v) +:+ String "034" rest) with (String "\" (String "$" (String "(" (envEscape v +:+ String "034" rest)))).
      rewrite dq_read_quoted by tauto. rewrite dq_read_lit by done. rewrite (IH' v) by (simpl; lia). done.
    + destruct (envEscape_head d v Hd) as (d' & w' & He & Hd'). rewrite He in IHv |- *.
      change (String "$" (String d' w') +:+ String "034" rest) with (String "$" (String d' (w' +:+ String "034" rest))).
      rewrite dq_read_dollar by done. change (String d' (w' +:+ String "034" rest)) with (String d' w' +:+ String "034" rest).
      by rewrite IHv.
  - change (String c (envEscape v) +:+ String "034" rest) with (String c (envEscape v +:+ String "034" rest)).
    rewrite dq_read_lit by done. by rewrite IHv.
Qed.

(** ** Properties: the shell lines *)

(** a COPY step's values cannot become shell code: whatever bytes its source,
    target, owner and mode and the current user and directory hold, the shell reads
    the script's first lines as the assignments of exactly those values, and the
    fixed script follows untouched. *)
Theorem copyScript_inert (state : Command) (s : Step) :
  sh_assignments 10 (copyScript state s) = Some (copy_vars state s, copyMove).
Proof.
  unfold copyScript. change 10 with (length (copy_vars state s)).
  apply sh_assignments_read. repeat constructor.
Qed.

(** an ENV value expands variables and nothing else: the double-quoted string
    the build evaluates ends where the value ends, runs no command substitution
    ([$(...)] and backquotes are literal), and every byte but a variable's [$]
    stands for itself. *)
Theorem envEscape_inert (value rest : string) :
  dq_read (envEscape value +:+ dquote +:+ rest) = Some (dq_items value, rest) ∧ (Subst ∉ dq_items value) ∧
  (has_byte "$" value = false → dq_items value = Lit <$> String.list_ascii_of_string value).
Proof.
  split; [apply dq_read_escape|]. split.
  - induction value as [|c v IH]; [apply not_elem_of_nil|]. cbn [dq_items]. apply not_elem_of_cons. split; [|done].
    repeat case_match; done.
  - induction value as [|c v IH]; [done|]. simpl. rewrite orb_false_iff, bool_decide_eq_false. intros [Hc Hv].
    rewrite decide_False by done. by rewrite IH.
Qed.

(** ** Runs over a recorded store *)

Definition is_line (n : note) : Prop := match n with Line _ _ _ => True | End _ _ _ => False end.

Section recorded_run.
Context {S : Type} (T : SandboxStore S) (G : Guest S) (env : run_env).

(** The guest and the caller's closures beside the log of store calls. *)
Definition recorded_guest : Guest (list store_call * S) := {|
  Run a cmd := silently (Run a cmd);
  StartIn a cmd := silently (StartIn a cmd);
  InitIn a cmd := silently (InitIn a cmd);
  Write a path archive := silently (Write a path archive);
|}.
Definition recorded_spec (spec : Spec S) : Spec (list store_call * S) := {|
  bs_Namespace := bs_Namespace spec;
  bs_ClaimName := bs_ClaimName spec;
  bs_Pool := bs_Pool spec;
  bs_Template := bs_Template spec;
  bs_Steps := bs_Steps spec;
  bs_StartCmd := bs_StartCmd spec;
  bs_ReadyCmd := bs_ReadyCmd spec;
  bs_Archive hash := silently (bs_Archive spec hash);
  bs_Publish := (λ publish node key digest, silently (publish node key digest)) <$> bs_Publish spec;
|}.

(** A computation that makes no store call, and one that also only adds log lines. *)
Definition silent {A} (m : io (list store_call * S) A) : Prop := ∀ l s, (m (l, s)).2.1 = l.
Definition quiet {A} (m : io (list note * (list store_call * S)) A) : Prop := ∀ ns l s,
  (m (ns, (l, s))).2.2.1 = l ∧ ∃ lines, Forall is_line lines ∧ (m (ns, (l, s))).2.1 = ns ++ lines.

Lemma silent_ret {A} (x : A) : silent (mret x).
Proof. done. Qed.
Lemma silent_bind {A B} (m : io _ A) (k : A → io _ B) : silent m → (∀ x, silent (k x)) → silent (m ≫= k).
Proof.
  intros Hm Hk l s. rewrite bind_run. specialize (Hm l s). destruct (m (l, s)) as [x [l' s']]. simpl in *. subst. apply Hk.
Qed.
Lemma silent_silently {A} (m : io S A) : silent (silently m).
Proof. intros l s. by rewrite silently_run. Qed.

Lemma quiet_ret {A} (x : A) : quiet (mret x).
Proof. intros ns l s. split; [done|]. exists []. by rewrite app_nil_r. Qed.
Lemma quiet_bind {A B} (m : io _ A) (k : A → io _ B) : quiet m → (∀ x, quiet (k x)) → quiet (m ≫= k).
Proof.
  intros Hm Hk ns l s. rewrite bind_run. destruct (Hm ns l s) as [Hl (lines & Hf & Hn)].
  destruct (m (ns, (l, s))) as [x [ns' [l' s']]]. simpl in *. subst. destruct (Hk x (ns ++ lines) l s') as [Hl (lines' & Hf' & Hn')].
  split; [done|]. exists (lines ++ lines'). rewrite Hn', app_assoc. split; [by apply Forall_app|done].
Qed.
Lemma quiet_logf phase message : quiet (logf phase message).
Proof. intros ns l s. split; [done|]. exists [Line phase "info" message]. split; [by repeat constructor|done]. Qed.
Lemma quiet_world {A} (m : io (list store_call * S) A) : silent m → quiet (world m).
Proof.
  intros Hm ns l s. unfold world. rewrite silently_run. split; [apply Hm|]. exists []. by rewrite app_nil_r.
Qed.
End recorded_run.

Create HintDb quiet.
#[export] Hint Resolve silent_ret silent_silently quiet_ret quiet_logf : quiet.
(** Walk through a computation by its binds and matches. *)
Ltac go_quiet :=
  repeat first
    [ solve [auto with quiet]
    | apply quiet_bind; [|intros ?]
    | apply silent_bind; [|intros ?]
    | apply quiet_world
    | apply silent_silently
    | progress cbv zeta
    | case_match ].

Section quiet_run.
Context {S : Type} (T : SandboxStore S) (G : Guest S) (env : run_env) (spec : Spec S) (a : Assignment).
Existing Instance recorded_guest.

Lemma quiet_log_lines phase wanted lines : quiet (S := S) (log_lines phase wanted lines).
Proof. induction lines as [|l lines IH]; cbn [log_lines]; go_quiet; done. Qed.
#[local] Hint Resolve quiet_log_lines : quiet.

Lemma quiet_sh phase wanted cmd : quiet (S := S) (sh a phase wanted cmd).
Proof. unfold sh. go_quiet. Qed.
#[local] Hint Resolve quiet_sh : quiet.

Lemma quiet_sh_logged phase cmd : quiet (S := S) (sh_logged a phase cmd).
Proof. unfold sh_logged. go_quiet. Qed.
#[local] Hint Resolve quiet_sh_logged : quiet.

Lemma quiet_expand phase root value : quiet (S := S) (expand a phase root value).
Proof. unfold expand. go_quiet. Qed.
#[local] Hint Resolve quiet_expand : quiet.

Lemma quiet_set_envs phase root args envs : quiet (S := S) (set_envs a phase root args envs).
Proof.
  remember (length args) as n eqn:Hn. revert args envs Hn. induction (lt_wf n) as [n _ IH].
  intros [|k [|v args]] envs ->; cbn [set_envs]; [auto with quiet..|].
  apply quiet_bind; [auto with quiet|]. intros [v'|msg e]; [|auto with quiet]. apply (IH (length args)); [simpl; lia|done].
Qed.
#[local] Hint Resolve quiet_set_envs : quiet.

Lemma silent_copyIn hash : silent (S := S) (copyIn (recorded_spec spec) a hash).
Proof. unfold copyIn. go_quiet. Qed.
#[local] Hint Resolve silent_copyIn : quiet.

Lemma quiet_step phase state s : quiet (S := S) (step (recorded_spec spec) a phase state s).
Proof. unfold step. go_quiet. Qed.
#[local] Hint Resolve quiet_step : quiet.

Lemma quiet_steps_from i state steps : quiet (S := S) (steps_from (recorded_spec spec) a i state steps).
Proof. revert i state. induction steps as [|s steps IH]; intros i state; cbn [steps_from]; go_quiet; by apply IH. Qed.
#[local] Hint Resolve quiet_steps_from : quiet.

Lemma silent_awaitReady polls cmd : silent (S := S) (awaitReady a polls cmd).
Proof. induction polls as [|polls IH]; cbn [awaitReady]; go_quiet; done. Qed.
#[local] Hint Resolve silent_awaitReady : quiet.

Lemma quiet_prepare : quiet (S := S) (prepare env (recorded_spec spec) a).
Proof. unfold prepare. go_quiet. Qed.
End quiet_run.

(** ** Properties: the run *)

Section run_properties.
Context {S : Type} (T : SandboxStore S) (G : Guest S) (env : run_env).

Lemma world_run {A} (m : io (list store_call * S) A) ns x : world m (ns, x) = ((m x).1, (ns, (m x).2)).
Proof. unfold world. by rewrite silently_run. Qed.

Definition claim_opts : ClaimOptions := mkClaimOptions (Z.quot (re_timeout env) second) ∅ "" false false.

(** How the promote and publish of a prepared sandbox come out. *)
Lemma promote_run (spec : Spec S) a ns l s :
  let out := promote (T := recorded_store T) (recorded_spec spec) a (ns, (l, s)) in
  ∃ promoted lines, out.2.2.1 = l ++ [SCPromote (as_Node a) (as_SandboxName a) (bs_Template spec) promoted] ∧
    out.2.1 = ns ++ lines ∧ Forall is_line lines ∧
    match promoted with
    | Err e => ∃ msg e', out.1 = Stopped PhasePromote msg e'
    | Ok (key, digest) =>
        match bs_Publish spec with
        | None => out.1 = Going tt
        | Some publish => ∃ s1, if is_ok (publish (as_Node a) key digest s1).1 then out.1 = Going tt
                                else ∃ msg e', out.1 = Stopped PhasePublish msg e'
        end
    end.
Proof.
  cbv zeta. unfold promote. rewrite bind_run, world_run, recorded_Promote. cbn [fst snd].
  destruct (Promote _ _ _ s) as [[[key digest]|e] s1]; cbn [fst snd].
  - rewrite bind_run. cbn [logf tell fst snd recorded_spec bs_Publish].
    destruct (bs_Publish spec) as [publish|]; cbn [fmap option_fmap option_map].
    + rewrite bind_run, world_run, silently_run. cbn [fst snd mret io_ret].
      eexists _, _. split; [done|]. split; [done|]. split; [by repeat constructor|].
      exists s1. destruct (publish _ _ _ s1).1 as [[]|]; simpl; eauto.
    + eexists _, _. split; [done|]. split; [done|]. split; [by repeat constructor|done].
  - eexists _, []. rewrite app_nil_r. split; [done|]. split; [done|]. split; [constructor|]. simpl. eauto.
Qed.

(** The end a run reports. *)
Definition end_of (r : ended unit) : note :=
  match r with Going _ => End StatusReady "" [] | Stopped phase msg _ => End StatusError phase msg end.

Lemma report_run (r : ended unit) ns (x : list store_call * S) :
  let out := report r (ns, x) in
  out.2.2 = x ∧ ∃ lines, Forall is_line lines ∧ out.2.1 = (ns ++ lines) ++ [end_of r].
Proof.
  destruct r as [[]|phase msg e]; (split; [done|]); simpl.
  - exists []. by rewrite app_nil_r.
  - exists [Line phase "error" msg]. split; [by repeat constructor|done].
Qed.

(** What a run tells the executor: lines, then one end. *)
Lemma run_notes (spec : Spec S) (st : S) :
  ∃ lines r, Forall is_line lines ∧
    (run (T := recorded_store T) (G := recorded_guest G) env (recorded_spec spec) ([], ([], st))).2.1 = lines ++ [end_of r].
Proof.
  unfold run. rewrite bind_run. cbn [logf tell fst snd]. rewrite bind_run, world_run, recorded_Claim. cbn [fst snd].
  destruct (Claim _ _ _ _ st) as [[a|e] s1]; cbn [fst snd].
  2: { eexists [_; _], (Stopped PhaseClaim _ e). split; cycle 1; [reflexivity|by repeat constructor]. }
  unfold run_claimed. rewrite bind_run. cbn [logf tell fst snd]. rewrite bind_run.
  set (ns1 := _ ++ [Line PhaseClaim "info" ["claimed %s on %s"; _; _]]). set (calls := [] ++ _).
  assert (Forall is_line ns1) as Hns1 by by repeat constructor.
  destruct (quiet_prepare G env spec a ns1 calls s1) as [_ (lines & Hf & Hn)].
  destruct (prepare env (recorded_spec spec) a (ns1, (calls, s1))) as [r [ns2 [l2 s2]]]. cbn [fst snd] in *. subst ns2.
  assert (∀ r' ns' x, Forall is_line ns' → ∃ lines r, Forall is_line lines ∧
    ((_ ← world (Release (SandboxStore := recorded_store T) (as_Node a) (as_SandboxName a)); report r') (ns', x)).2.1 = lines ++ [end_of r]) as Hend.
  { intros r' ns' x Hns'. rewrite bind_run, world_run. cbn [fst snd].
    destruct (report_run r' ns' (Release (SandboxStore := recorded_store T) (as_Node a) (as_SandboxName a) x).2) as [_ (lines' & Hf' & Hn')].
    exists (ns' ++ lines'), r'. split; [by apply Forall_app_2|done]. }
  rewrite bind_run. destruct r as [[]|phase msg e].
  - destruct (promote_run spec a (ns1 ++ lines) l2 s2) as (promoted & lines' & _ & Hn & Hf' & _).
    destruct (promote _ _ _) as [r [ns3 x3]]. cbn [fst snd] in *. subst ns3. apply Hend. by rewrite !Forall_app.
  - apply Hend. by rewrite !Forall_app.
Qed.

(** The executor hears one note, at a clock reading. *)
Definition hear (cf : settings) (id : string) (e : Executor) (n : note * time) : Executor :=
  match n with
  | (Line phase level message, now) => log cf id phase level message now e
  | (End status phase failure, now) => finish id status phase failure now e
  end.

Lemma hear_lines cf id e pre suf lines :
  Forall (λ n, is_line n.1) lines →
  rtc (BuildRecords.step cf) (mkState e (pre ++ (id, false) :: suf)) (mkState (fold_left (hear cf id) lines e) (pre ++ (id, false) :: suf)).
Proof.
  revert e. induction lines as [|[n now] lines IH]; intros e Hl; [done|]. apply Forall_cons in Hl as [Hn Hl].
  destruct n as [phase level message|]; [|done]. eapply rtc_l; [|by apply IH]. simpl. apply step_log.
  apply elem_of_app. right. left.
Qed.

(** C19: a run is a goroutine of the record machine: whatever the store, the guest
    and the steps do, hearing its notes in order takes the executor, by steps the
    machine allows, from the build running to the build ended and its slot free;
    and the record then reads ready or error. *)
Theorem run_refines (cf : settings) (id : string) (spec : Spec S) (st : S) (times : list time)
    (e : Executor) (pre suf : list (string * bool)) (r : record) :
  let notes := (run (T := recorded_store T) (G := recorded_guest G) env (recorded_spec spec) ([], ([], st))).2.1 in
  length times = length notes → Forall (λ t, t ≠ zero_time) times →
  ex_builds e !! id = Some r →
  let e' := fold_left (hear cf id) (zip notes times) e in
  rtc (BuildRecords.step cf) (mkState e (pre ++ (id, false) :: suf)) (mkState (free_slot e') (pre ++ suf)) ∧
  ∃ r', ex_builds e' !! id = Some r' ∧ (in_Status (rc_info r') = StatusReady ∨ in_Status (rc_info r') = StatusError) ∧
    rc_finished r' ≠ zero_time.
Proof.
  destruct (run_notes spec st) as (lines & o & Hf & Hn). cbv zeta. rewrite Hn. rewrite length_app. simpl. intros Hlen Htimes Hlk.
  destruct (exists_last (l := times)) as (ts & t & ->); [by destruct times; simpl in *; [lia|]|].
  rewrite length_app in Hlen. simpl in Hlen. apply Forall_app in Htimes as [Hts Ht]. apply Forall_cons in Ht as [Ht _].
  rewrite zip_with_app by lia. simpl. rewrite fold_left_app. simpl.
  assert (Forall (λ n, is_line n.1) (zip lines ts)) as Hl.
  { apply Forall_forall. intros [n now] Hin%elem_of_zip_l. rewrite Forall_forall in Hf. by apply Hf. }
  pose proof (hear_lines cf id e pre suf _ Hl) as Hsteps. set (e1 := fold_left (hear cf id) (zip lines ts) e) in *.
  assert (∃ r1, ex_builds e1 !! id = Some r1) as [r1 Hr1].
  { subst e1. clear -Hl Hlk. revert e r Hlk. induction (zip lines ts) as [|[n now] l IH]; intros e r Hlk; [eauto|].
    apply Forall_cons in Hl as [Hn Hl]. destruct n as [phase level message|]; [|done]. simpl. unfold log. rewrite Hlk.
    case_decide; [by eapply IH|]. eapply (IH Hl). simpl. by rewrite lookup_insert_eq. }
  assert (∃ status phase failure, end_of o = End status phase failure ∧ (status = StatusReady ∨ status = StatusError)) as (status & phase & failure & -> & Hs).
  { destruct o; do 3 eexists; (split; [done|]); auto. }
  split.
  - etrans; [exact Hsteps|]. eapply rtc_l; [by apply step_finish|]. eapply rtc_l; [apply step_exit|]. done.
  - simpl. unfold finish. rewrite Hr1. simpl. eexists. rewrite lookup_insert_eq. split; [done|]. by split.
Qed.
End run_properties.

(** ** Witnesses *)

(** A guest where everything succeeds and prints nothing. *)
Definition toy_guest (S : Type) : Guest S := {|
  Run _ _ := mret ([], Ok 0%Z);
  StartIn _ _ := mret (Ok tt);
  InitIn _ _ := mret (Ok tt);
  Write _ _ _ := mret (Ok tt);
|}.
Definition toy_env : run_env := mkRunEnv (600 * second) 3.
Definition build_sandbox : Api.Sandbox := mkSandbox "team" "b1" ∅ {[ ClaimIDAnnotation := "sb_1" ]} "" zero_time "n1" [] [].
Definition toy_build : Spec unit :=
  mkSpec unit "team" "b1" (mkPoolKey "img" "none" "small") "team/app" [mkStep "RUN" ["make"] ""] "" "" (λ _, mret (Ok "")) None.

Lemma run_refines_witness :
  ∃ r', ex_builds (fold_left (hear one_slot "b1")
      (zip (run (T := recorded_store (toy_store unit build_sandbox "tok")) (G := recorded_guest (toy_guest unit)) toy_env
              (recorded_spec toy_build) ([], ([], tt))).2.1 [1%Z; 2%Z; 3%Z; 4%Z]) started) !! "b1" = Some r' ∧
    (in_Status (rc_info r') = StatusReady ∨ in_Status (rc_info r') = StatusError) ∧ rc_finished r' ≠ zero_time.
Proof.
  apply (run_refines (toy_store unit build_sandbox "tok") (toy_guest unit) toy_env one_slot "b1" toy_build tt
    [1%Z; 2%Z; 3%Z; 4%Z] started [] [] (mkRecord (mkRequest "small" []) (mkInfo "building" [] "" []) 5%Z zero_time)).
  - vm_compute. reflexivity.
  - repeat constructor; discriminate.
  - vm_compute. reflexivity.
Defined.
