(* ===== verification/E2bUploads.v ===== *)
(** * COPY archives (pkg/e2bcompat/uploads.go, uploads_s3.go)

    A build's COPY steps read archives the SDK uploaded beforehand.  A store of
    archives says whether one is present, where to PUT it, and opens it; there are
    two: a directory, which takes the PUT itself on a link it signed, and a bucket,
    whose links the S3 client presigns.

    The directory is a root file system ([os.Root]); [disk] is one whose every
    operation may fail.  The S3 client is a parameter. *)

From S2P Require Import Prelude GoStd GoNum GoText GoCodec Api Client StoreRead StoreLifecycle Store E2bServer E2bGuest BuildRun.

Definition uploadURLTTL : Z := 3600 * second.

Record uploadKey := mkUploadKey { uk_ns : string; uk_template : string; uk_hash : string }.
#[export] Instance uploadKey_eq_dec : EqDecision uploadKey.
Proof. solve_decision. Defined.

Definition path (k : uploadKey) : string := uk_ns k +:+ "/" +:+ uk_template k +:+ "/" +:+ uk_hash k +:+ ".tar".

(** The key of a request's path values, or the refusal. *)
Definition uploadKeyOf (ns templateID hash : string) : uploadKey + reply :=
  let key := mkUploadKey ns templateID hash in
  match StampedName "template" templatePrefix ns templateID with
  | Err e => inr (RError 400 (error_text e))
  | Ok _ =>
      if contains_any "/\" templateID || has_prefix "." templateID || negb (FilesHash hash)
      then inr (RError 400 ["the upload names no template and files hash"])
      else inl key
  end.

(** ** Stores of archives *)

(** What a link depends on in the request that asks for it. *)
Record link_request := mkLinkRequest { lr_TLS : bool; lr_ForwardedProto : string; lr_Host : string }.

(** The [uploadStore] interface; an open archive is its handle. *)
Class UploadStore (S : Type) := {
  present (key : uploadKey) : io S (result bool);
  uploadURL (now : time) (r : link_request) (key : uploadKey) : io S (result (string * gmap string string));
  open (key : uploadKey) : io S (result string);
}.

Section handlers.
Context {S : Type} {U : UploadStore S}.

(** Present, or where to PUT it. *)
Definition fileUploadLink (now : time) (r : link_request) (ns templateID hash : string) : io S reply :=
  match uploadKeyOf ns templateID hash with
  | inr refusal => mret refusal
  | inl key =>
      here ← present key;
      match here with
      | Err _ => mret (RError 500 ["failed to look up the upload"])
      | Ok true => mret (writeJSON 201 (DUpload true "" ∅))
      | Ok false =>
          link ← uploadURL now r key;
          mret match link with
               | Err _ => RError 500 ["failed to sign the upload"]
               | Ok (link, headers) => writeJSON 201 (DUpload false link headers)
               end
      end
  end.

(** What a build of template [name] opens for its COPY steps. *)
Definition archive (ns name hash : string) : io S (result string) := open (mkUploadKey ns name hash).
End handlers.

(** ** The directory *)

(** [os.Root], as far as archives use it; what is copied goes into the file just
    created. *)
Class RootFS (S : Type) := {
  fs_Stat (name : string) : io S (result unit);
  fs_MkdirAll (name : string) : io S (result unit);
  fs_Create (name : string) : io S (result unit);
  fs_Copy (name : string) (content : stream) : io S (result unit);
  fs_Close (name : string) : io S (result unit);
  fs_Rename (oldname newname : string) : io S (result unit);
  fs_Remove (name : string) : io S (result unit);
  fs_Open (name : string) : io S (result string);
}.

Definition ErrNotExist : error := ErrSentinel "os.ErrNotExist".
Definition ErrExist : error := ErrSentinel "os.ErrExist".

Record dirUploads := mkDirUploads { du_secret : string; du_max : Z }.

Definition nul : string := String "000" "".
Definition sig_message (key : uploadKey) (expires : string) : string :=
  "e2b-upload" +:+ nul +:+ uk_ns key +:+ nul +:+ uk_template key +:+ nul +:+ uk_hash key +:+ nul +:+ expires.

Section dir.
Context {S : Type} {F : RootFS S} {H : EnvdHashes}.

Definition uploadSig (secret : string) (key : uploadKey) (expires : string) : string :=
  AccessToken secret (sig_message key expires).

Definition dir_present (key : uploadKey) : io S (result bool) :=
  r ← fs_Stat (path key);
  mret match r with
       | Ok _ => Ok true
       | Err e => if errors_is e ErrNotExist then Ok false else Err e
       end.

Definition dir_uploadURL (d : dirUploads) (now : time) (r : link_request) (key : uploadKey) : string * gmap string string :=
  let scheme := if lr_TLS r || bool_decide (lr_ForwardedProto r = "https") then "https" else "http" in
  let expires := format_int (unix_seconds (now + uploadURLTTL)%Z) in
  let q : gmap string string := {[ "ns" := uk_ns key; "expires" := expires; "sig" := uploadSig (du_secret d) key expires ]} in
  (scheme +:+ "://" +:+ lr_Host r +:+ "/templates/" +:+ path_escape (uk_template key) +:+ "/files/" +:+ uk_hash key +:+ "?" +:+
     values_encode q, ∅).

(** The archive is written beside its final name, [rand] making the name its own,
    and renamed there. *)
Definition tmp_name (rand : string) (key : uploadKey) : string :=
  path_dir (path key) +:+ "/." +:+ uk_hash key +:+ "." +:+ rand.
Definition put (rand : string) (key : uploadKey) (content : stream) : io S (result unit) :=
  let dst := path key in
  _ <-? fs_MkdirAll (path_dir dst);;
  let tmp := tmp_name rand key in
  _ <-? fs_Create tmp;;
  copied ← fs_Copy tmp content;
  closed ← fs_Close tmp;
  r ← match errors_join copied closed with Err e => mret (Err e) | Ok _ => fs_Rename tmp dst end;
  match r with
  | Err e => _ ← fs_Remove tmp; mret (Err e)
  | Ok _ => mret (Ok tt)
  end.

(** The PUT of an archive, once its link is verified. *)
Definition store_upload (d : dirUploads) (rand : string) (key : uploadKey) (content : stream) : io S reply :=
  r ← put rand key (MaxBytesReader (du_max d) content);
  mret match r with
       | Ok _ => RStatus 200
       | Err e => if errors_is e ErrMaxBytes then RError 413 ["an upload is at most %d bytes"; format_int (du_max d)]
                  else RError 500 ["failed to store the upload"]
       end.

Definition ServeHTTP (d : dirUploads) (now : time) (rand templateID hash : string) (q : query) (content : stream) : io S reply :=
  match uploadKeyOf (q_Get "ns" q) templateID hash with
  | inr refusal => mret refusal
  | inl key =>
      let expires := q_Get "expires" q in
      match atoi expires with
      | Some exp =>
          if decide (exp < unix_seconds now)%Z then mret (RError 401 ["the upload link has expired"])
          else if negb (bool_decide (q_Get "sig" q = uploadSig (du_secret d) key expires))
          then mret (RError 401 ["the upload link's signature does not match"])
          else store_upload d rand key content
      | None => mret (RError 401 ["the upload link has expired"])
      end
  end.

Definition dir_store (d : dirUploads) : UploadStore S := {|
  present := dir_present;
  uploadURL now r key := mret (Ok (dir_uploadURL d now r key));
  open key := fs_Open (path key);
|}.
End dir.

(** ** The bucket *)

(** The S3 client: [HeadObject], [PresignPutObject] with its signed headers, and
    [GetObject]. *)
Class Bucket (S : Type) := {
  head_object (key : string) : io S (result unit);
  presign_put (key : string) (ttl : Z) : io S (result (string * gmap string (list string)));
  get_object (key : string) : io S (result string);
}.
Definition ErrS3NotFound : error := ErrSentinel "types.NotFound".

Record s3Uploads := mkS3Uploads { s3_prefix : string }.

Section bucket.
Context {S : Type} {B : Bucket S}.

(** [newS3Uploads] of a configured prefix. *)
Definition newS3Uploads (prefix : string) : s3Uploads := mkS3Uploads (path_join [prefix; "e2b-files"]).

Definition s3_key (u : s3Uploads) (key : uploadKey) : string := path_join [s3_prefix u; path key].

Definition s3_present (u : s3Uploads) (key : uploadKey) : io S (result bool) :=
  r ← head_object (s3_key u key);
  mret match r with
       | Ok _ => Ok true
       | Err e => if errors_is e ErrS3NotFound then Ok false else Err e
       end.

Definition s3_uploadURL (u : s3Uploads) (key : uploadKey) : io S (result (string * gmap string string)) :=
  r ← presign_put (s3_key u key) uploadURLTTL;
  mret match r with
       | Err e => Err e
       | Ok (url, signed) => Ok (url, omap head (delete "Host" signed))
       end.

Definition s3_store (u : s3Uploads) : UploadStore S := {|
  present := s3_present u;
  uploadURL _ _ key := s3_uploadURL u key;
  open key := get_object (s3_key u key);
|}.
End bucket.

(** ** A disk *)

(** Regular files by clean name.  A fault is what the next operation meets: it
    fails, a copy after some bytes. *)
Record fault := mkFault { ft_error : error; ft_written : nat }.
Record disk := mkDisk { dk_files : gmap string string; dk_faults : list (option fault) }.

(** An operation at the next fault, or on the files. *)
Definition disk_op {A} (failing : fault → gmap string string → gmap string string)
    (run : gmap string string → result A * gmap string string) : io disk (result A) := λ d,
  let faults := drop 1 (dk_faults d) in
  match head (dk_faults d) with
  | Some (Some f) => (Err (ft_error f), mkDisk (failing f (dk_files d)) faults)
  | _ => let '(r, files) := run (dk_files d) in (r, mkDisk files faults)
  end.
Definition untouched (f : fault) (files : gmap string string) : gmap string string := files.

Definition written (name bytes : string) (files : gmap string string) : gmap string string :=
  <[path_clean name := default "" (files !! path_clean name) +:+ bytes]> files.

#[export] Instance disk_fs : RootFS disk := {|
  fs_Stat name := disk_op untouched (λ files, (if decide (is_Some (files !! path_clean name)) then Ok tt else Err ErrNotExist, files));
  fs_MkdirAll _ := disk_op untouched (λ files, (Ok tt, files));
  fs_Create name := disk_op untouched (λ files,
    if decide (is_Some (files !! path_clean name)) then (Err ErrExist, files) else (Ok tt, <[path_clean name := ""]> files));
  fs_Copy name content := disk_op (λ f, written name (str_take (ft_written f) (st_bytes content))) (λ files,
    (match st_broken content with Some e => Err e | None => Ok tt end, written name (st_bytes content) files));
  fs_Close _ := disk_op untouched (λ files, (Ok tt, files));
  fs_Rename oldname newname := disk_op untouched (λ files,
    match files !! path_clean oldname with
    | Some bytes => (Ok tt, <[path_clean newname := bytes]> (delete (path_clean oldname) files))
    | None => (Err ErrNotExist, files)
    end);
  fs_Remove name := disk_op untouched (λ files, (Ok tt, delete (path_clean name) files));
  fs_Open name := disk_op untouched (λ files, (match files !! path_clean name with Some bytes => Ok bytes | None => Err ErrNotExist end, files));
|}.

(** ** Specification *)

(** A key that both handlers accept. *)
Definition key_ok (k : uploadKey) : Prop := uploadKeyOf (uk_ns k) (uk_template k) (uk_hash k) = inl k.
(** The router matches no empty segment, and a namespace is a path element. *)
Definition routed (k : uploadKey) : Prop := plain_elem (uk_ns k) ∧ uk_template k ≠ "".

(** What a client sends for an absolute URL: the escaped path and the raw query. *)
Definition request_target (url : string) : option (string * string) :=
  '(_, r) ← str_cut "://" url;
  '(_, r) ← str_cut "/" r;
  '(p, q) ← str_cut "?" r;
  Some ("/" +:+ p, q).
Definition upload_path (template hash : string) : string := "/templates/" +:+ path_escape template +:+ "/files/" +:+ hash.

(** *** What is asked of the file system, and the state each request leaves *)

Inductive fs_call :=
| FsStat (name : string)
| FsMkdirAll (name : string)
| FsCreate (name : string)
| FsCopy (name : string)
| FsClose (name : string)
| FsRename (oldname newname : string)
| FsRemove (name : string)
| FsOpen (name : string).

Definition call_names (c : fs_call) : list string :=
  match c with
  | FsStat n | FsMkdirAll n | FsCreate n | FsCopy n | FsClose n | FsRemove n | FsOpen n => [n]
  | FsRename o n => [o; n]
  end.

Section watched.
Context {S : Type} (F : RootFS S).

Definition watch {A} (c : fs_call) (m : io S A) : io (list (fs_call * S) * S) A := λ '(l, s),
  let '(a, s') := m s in (a, (l ++ [(c, s')], s')).

Definition watched_fs : RootFS (list (fs_call * S) * S) := {|
  fs_Stat name := watch (FsStat name) (fs_Stat name);
  fs_MkdirAll name := watch (FsMkdirAll name) (fs_MkdirAll name);
  fs_Create name := watch (FsCreate name) (fs_Create name);
  fs_Copy name content := watch (FsCopy name) (fs_Copy name content);
  fs_Close name := watch (FsClose name) (fs_Close name);
  fs_Rename oldname newname := watch (FsRename oldname newname) (fs_Rename oldname newname);
  fs_Remove name := watch (FsRemove name) (fs_Remove name);
  fs_Open name := watch (FsOpen name) (fs_Open name);
|}.

Lemma watch_run {A} c (m : io S A) l s : watch c m (l, s) = ((m s).1, (l ++ [(c, (m s).2)], (m s).2)).
Proof. unfold watch. by destruct (m s). Qed.

(** [traced I P m Q]: from a state in [P], [m] ends in [Q], and every request it
    makes on the way satisfies [I]. *)
Definition traced {A} (I : fs_call → S → Prop) (P : S → Prop) (m : io (list (fs_call * S) * S) A) (Q : A → S → Prop) : Prop :=
  ∀ l s, P s → ∃ tail, (m (l, s)).2.1 = l ++ tail ∧ Forall (λ x, I x.1 x.2) tail ∧ Q (m (l, s)).1 (m (l, s)).2.2.

Lemma traced_ret {A} I (P : S → Prop) (a : A) Q : (∀ s, P s → Q a s) → traced I P (mret a) Q.
Proof. intros HQ l s HP. exists []. rewrite app_nil_r. split; [done|]. split; [constructor|by apply HQ]. Qed.

Lemma traced_bind {A B} I P (m : io (list (fs_call * S) * S) A) (k : A → io (list (fs_call * S) * S) B) R Q :
  traced I P m R → (∀ a, traced I (R a) (k a) Q) → traced I P (m ≫= k) Q.
Proof.
  intros Hm Hk l s HP. destruct (Hm l s HP) as (t1 & Hl & H1 & HR). rewrite bind_run.
  destruct (m (l, s)) as [a [l1 s1]]. cbn [fst snd] in *. subst l1.
  destruct (Hk a (l ++ t1) s1 HR) as (t2 & Hl2 & H2 & HQ). exists (t1 ++ t2). rewrite app_assoc, Forall_app. by split_and!.
Qed.

Lemma traced_watch {A} I (P : S → Prop) c (m : io S A) Q :
  (∀ s, P s → I c (m s).2 ∧ Q (m s).1 (m s).2) → traced I P (watch c m) Q.
Proof. intros HI l s HP. rewrite watch_run. destruct (HI s HP) as [H1 H2]. exists [(c, (m s).2)]. split; [done|]. by split; [repeat constructor|]. Qed.

Lemma traced_mono {A} I P (m : io (list (fs_call * S) * S) A) (Q Q' : A → S → Prop) :
  traced I P m Q → (∀ a s, Q a s → Q' a s) → traced I P m Q'.
Proof. intros Hm HQ l s HP. destruct (Hm l s HP) as (t & ? & ? & ?). exists t. eauto. Qed.
End watched.

(** ** Lemmas: keys *)

Lemma hex_no_byte c h : FilesHash h = true → hex_byte c = false → has_byte c h = false.
Proof. intros [Hh _]%andb_true_iff Hc. by eapply has_byte_all. Qed.

Lemma name_no_nul s t u : StampedName "template" templatePrefix s t = Ok u → has_byte "000" s = false ∧ has_byte "000" t = false.
Proof.
  unfold StampedName. case_decide; [done|]. destruct (sandboxdName _) eqn:Hn; [intros _|done].
  change (templatePrefix +:+ s +:+ "/" +:+ t) with (String "e" ("2b/" +:+ s +:+ "/" +:+ t)) in Hn. cbn [sandboxdName] in Hn.
  rewrite !andb_true_iff in Hn. destruct Hn as [[_ Hn] _]. rewrite !all_bytes_app, !andb_true_iff in Hn.
  destruct Hn as (_ & Hs & _ & Ht). split; by eapply has_byte_all.
Qed.

Lemma uploadKeyOf_ok ns t h k : uploadKeyOf ns t h = inl k →
  k = mkUploadKey ns t h ∧ key_ok k ∧ has_byte "/" t = false ∧ has_prefix "." t = false ∧ FilesHash h = true ∧
  has_byte "000" ns = false ∧ has_byte "000" t = false.
Proof.
  intros Hk. pose proof Hk as Hk'. unfold uploadKeyOf in Hk. destruct (StampedName _ _ _ _) as [u|] eqn:Hn; [|done].
  destruct (contains_any "/\" t) eqn:Hc; [done|]. destruct (has_prefix "." t); [done|]. destruct (FilesHash h) eqn:Hh; [|done].
  injection Hk as <-. destruct (name_no_nul _ _ _ Hn). split_and!; [done|by unfold key_ok| |done..].
  apply negb_false_iff in Hc. by eapply has_byte_all.
Qed.

(** The signed message determines the key and the expiry. *)
Lemma sig_message_inj k k' e e' : key_ok k → key_ok k' → sig_message k e = sig_message k' e' → k = k' ∧ e = e'.
Proof.
  destruct k as [ns t h], k' as [ns' t' h']. intros (_ & _ & _ & _ & Hh & Hns & Ht)%uploadKeyOf_ok (_ & _ & _ & _ & Hh' & Hns' & Ht')%uploadKeyOf_ok Heq.
  unfold sig_message in Heq. cbn [uk_ns uk_template uk_hash] in *.
  apply (f_equal (cut_prefix ("e2b-upload" +:+ nul))) in Heq. rewrite <-!(str_app_assoc "e2b-upload" nul), !cut_prefix_app in Heq. injection Heq as Heq.
  pose proof (hex_no_byte "000" h Hh ltac:(done)) as Hz. pose proof (hex_no_byte "000" h' Hh' ltac:(done)) as Hz'.
  assert (∀ a b a' b', has_byte "000" a = false → has_byte "000" a' = false → a +:+ nul +:+ b = a' +:+ nul +:+ b' → a = a' ∧ b = b') as Hcut.
  { intros a b a' b' Ha Ha' He. change (nul +:+ b) with (String "000" b) in He. change (nul +:+ b') with (String "000" b') in He.
    pose proof (str_cut_byte "000" a b Ha) as H1. rewrite He, str_cut_byte in H1 by done. by injection H1. }
  apply Hcut in Heq as [-> Heq]; [|done..]. apply Hcut in Heq as [-> Heq]; [|done..]. apply Hcut in Heq as [-> ->]; done.
Qed.

(** An archive's name is clean, and determines its key. *)
Definition name_elems (k : uploadKey) : list string := [uk_ns k; uk_template k; uk_hash k +:+ ".tar"].

Lemma path_join_elems k : path k = join "/" (name_elems k).
Proof. done. Qed.

Lemma long_elem w : 2 < String.length w → has_byte "/" w = false → plain_elem w.
Proof. intros Hl Hs. split_and!; [by destruct w; simpl in *; [lia|]|intros ->; simpl in Hl; lia..|done]. Qed.

Lemma hash_elem h s p : FilesHash h = true → has_byte "/" p = false → has_byte "/" s = false → plain_elem (p +:+ h +:+ s).
Proof.
  intros Hh Hp Hs. pose proof (hex_no_byte "/" h Hh ltac:(done)) as Hz. apply andb_true_iff in Hh as [_ Hl%bool_decide_eq_true].
  apply long_elem; [rewrite !str_length_app; lia|]. by rewrite !has_byte_app, Hp, Hz, Hs.
Qed.

Lemma name_elems_plain k : key_ok k → routed k → Forall plain_elem (name_elems k).
Proof.
  destruct k as [ns t h]. intros (_ & _ & Hs & Hp & Hh & _)%uploadKeyOf_ok [Hns Ht]. cbn in *.
  unfold name_elems. cbn. rewrite !Forall_cons. split_and!; [exact Hns| |by apply (hash_elem _ _ "")|by apply Forall_nil].
  split_and!; [done|by intros ->|by intros ->|done].
Qed.

Lemma path_clean_key k : key_ok k → routed k → path_clean (path k) = path k.
Proof. intros Hk Hr. rewrite path_join_elems. apply path_clean_plain; [done|]. by apply name_elems_plain. Qed.

Lemma path_inj k k' : key_ok k → routed k → key_ok k' → routed k' → path k = path k' → k = k'.
Proof.
  intros Hk Hr Hk' Hr' He. rewrite !path_join_elems in He. apply (f_equal (split_byte "/")) in He.
  pose proof (name_elems_plain k Hk Hr) as Hp. pose proof (name_elems_plain k' Hk' Hr') as Hp'.
  change "/" with (String "/" "") in He. rewrite !split_byte_join in He; try done; try by (eapply Forall_impl; [eassumption|intros w (_ & _ & _ & ?)]).
  destruct k as [ns t h], k' as [ns' t' h']. unfold name_elems in He. cbn in He. injection He as -> -> He.
  apply (f_equal (GoStd.cut_suffix ".tar")) in He. rewrite !GoText.cut_suffix_app in He. by injection He as ->.
Qed.

(** The temporary file lies beside the archive, under a name no archive has. *)
Definition tmp_elems (rand : string) (k : uploadKey) : list string := [uk_ns k; uk_template k; "." +:+ uk_hash k +:+ "." +:+ rand].

Lemma path_dir_key k : key_ok k → routed k → path_dir (path k) = join "/" [uk_ns k; uk_template k].
Proof.
  intros Hk Hr. pose proof (name_elems_plain k Hk Hr) as Hp. rewrite path_join_elems. unfold name_elems in *.
  rewrite !Forall_cons in Hp. destruct Hp as (Hns & Ht & (_ & _ & _ & Hh) & _). apply (path_dir_join [uk_ns k; uk_template k]); [done|by rewrite !Forall_cons, Forall_nil|done].
Qed.

Lemma tmp_name_elems rand k : key_ok k → routed k → tmp_name rand k = join "/" (tmp_elems rand k).
Proof. intros Hk Hr. unfold tmp_name. rewrite path_dir_key by done. unfold tmp_elems. cbn [join]. by rewrite !str_app_assoc. Qed.

Lemma tmp_clean rand k : key_ok k → routed k → has_byte "/" rand = false → path_clean (tmp_name rand k) = tmp_name rand k.
Proof.
  intros Hk Hr Hrand. rewrite tmp_name_elems by done. apply path_clean_plain; [done|].
  pose proof (name_elems_plain k Hk Hr) as Hp. unfold name_elems in Hp. rewrite !Forall_cons in Hp. destruct Hp as (Hns & Ht & _).
  destruct k as [ns t h]. apply uploadKeyOf_ok in Hk as (_ & _ & _ & _ & Hh & _). unfold tmp_elems. rewrite !Forall_cons.
  split_and!; [exact Hns|exact Ht|by apply hash_elem|by apply Forall_nil].
Qed.

Lemma tmp_not_archive rand k k' : key_ok k → routed k → has_byte "/" rand = false → key_ok k' → routed k' → tmp_name rand k ≠ path k'.
Proof.
  intros Hk Hr Hrand Hk' Hr' He. rewrite tmp_name_elems, path_join_elems in He by done. apply (f_equal (split_byte "/")) in He.
  pose proof (name_elems_plain k Hk Hr) as Hp. pose proof (name_elems_plain k' Hk' Hr') as Hp'. change "/" with (String "/" "") in He.
  rewrite !split_byte_join in He; [|done|by eapply Forall_impl; [exact Hp'|intros w (_ & _ & _ & ?)]|done|].
  - destruct k' as [ns' t' h']. apply uploadKeyOf_ok in Hk' as (_ & _ & _ & _ & Hh' & _). unfold tmp_elems, name_elems in He. cbn [uk_hash] in He.
    injection He as _ _ He. apply andb_true_iff in Hh' as [Hb Hl%bool_decide_eq_true]. destruct h' as [|c h']; [done|].
    simpl in He. injection He as <- _. done.
  - destruct k as [ns t h]. apply uploadKeyOf_ok in Hk as (_ & _ & _ & _ & Hh & _). unfold tmp_elems, name_elems in *. cbn in *.
    rewrite !Forall_cons in *. destruct Hp as ((_ & _ & _ & Hns) & (_ & _ & _ & Ht) & _). split_and!; [done|done| |by apply Forall_nil].
    rewrite !has_byte_app, Hrand, (hex_no_byte "/" h) by done. done.
Qed.

(** ** Lemmas: a PUT on a disk *)

(** Every archive is what it was, but the one being put, which may be complete. *)
Definition steady (files0 : gmap string string) (key : uploadKey) (content : stream) (files : gmap string string) : Prop :=
  ∀ k, key_ok k → routed k → files !! path k = files0 !! path k ∨
    (k = key ∧ st_broken content = None ∧ files !! path k = Some (st_bytes content)).
Definition archives_kept (files0 files : gmap string string) : Prop :=
  ∀ k, key_ok k → routed k → files !! path k = files0 !! path k.

Lemma disk_op_cases {A} failing (run : gmap string string → result A * gmap string string) (d : disk) :
  (∃ f, (disk_op failing run d).1 = Err (ft_error f) ∧ dk_files (disk_op failing run d).2 = failing f (dk_files d)) ∨
  ((disk_op failing run d).1 = (run (dk_files d)).1 ∧ dk_files (disk_op failing run d).2 = (run (dk_files d)).2).
Proof.
  unfold disk_op. destruct (head (dk_faults d)) as [[f|]|]; [left; by exists f|right|right]; by destruct (run (dk_files d)).
Qed.

Section put_on_disk.
Context (rand : string) (key : uploadKey) (content : stream) (files0 : gmap string string).
Context (Hkey : key_ok key) (Hrouted : routed key) (Hrand : has_byte "/" rand = false).
Let tmp : string := tmp_name rand key.
#[local] Instance watched_disk : RootFS (list (fs_call * disk) * disk) := watched_fs disk_fs.

Lemma kept_steady files : archives_kept files0 files → steady files0 key content files.
Proof. intros Hk k H1 H2. left. by apply Hk. Qed.

Lemma kept_same : archives_kept files0 files0.
Proof. by intros k _ _. Qed.

Lemma kept_tmp files x : archives_kept files0 files → archives_kept files0 (<[tmp := x]> files).
Proof. intros Hk k H1 H2. rewrite lookup_insert_ne; [by apply Hk|]. by apply tmp_not_archive. Qed.

Lemma kept_untmp files : archives_kept files0 files → archives_kept files0 (delete tmp files).
Proof. intros Hk k H1 H2. rewrite lookup_delete_ne; [by apply Hk|]. by apply tmp_not_archive. Qed.

Lemma put_traced :
  traced (λ _ d, steady files0 key content (dk_files d)) (λ d, dk_files d = files0) (put rand key content)
    (λ r d, match r with
            | Ok _ => st_broken content = None ∧ dk_files d = <[path key := st_bytes content]> files0
            | Err _ => archives_kept files0 (dk_files d)
            end).
Proof.
  assert (path_clean (tmp_name rand key) = tmp) as Hclean by by apply tmp_clean.
  unfold put, try. eapply (traced_bind _ _ _ _ (λ _ d, dk_files d = files0)).
  { apply traced_watch. intros d Hd. cbn [fs_MkdirAll disk_fs]. set (run := λ files : gmap string string, _).
    destruct (disk_op_cases untouched run d) as [(f & _ & ->)|[_ ->]];
      simpl; rewrite Hd; (split; [apply kept_steady, kept_same|done]). }
  intros [[]|e]; [|apply traced_ret; intros d ->; apply kept_same].
  eapply (traced_bind _ _ _ _ (λ r d, match r with Ok _ => files0 !! tmp = None ∧ dk_files d = <[tmp := ""]> files0 | Err _ => dk_files d = files0 end)).
  { apply traced_watch. intros d Hd. cbn [fs_Create disk_fs]. rewrite Hclean. set (run := λ files : gmap string string, _).
    destruct (disk_op_cases untouched run d) as [(f & -> & ->)|[-> ->]]; simpl; rewrite Hd.
    - split; [apply kept_steady, kept_same|done].
    - unfold run. case_decide as Hs; simpl; [by split; [apply kept_steady, kept_same|]|]. apply eq_None_not_Some in Hs.
      split; [apply kept_steady, kept_tmp, kept_same|done]. }
  intros [[]|e]; [|apply traced_ret; intros d ->; apply kept_same].
  eapply (traced_bind _ _ _ _ (λ r d, files0 !! tmp = None ∧ ∃ x, dk_files d = <[tmp := x]> files0 ∧ (r = Ok tt → st_broken content = None ∧ x = st_bytes content))).
  { apply traced_watch. intros d [Hn Hd]. cbn [fs_Copy disk_fs]. set (run := λ files : gmap string string, _). set (failing := λ f : fault, _).
    assert (∀ b, written (tmp_name rand key) b (dk_files d) = <[tmp := b]> files0) as Hw.
    { intros b. unfold written. by rewrite Hclean, Hd, lookup_insert_eq, insert_insert_eq. }
    destruct (disk_op_cases failing run d) as [(f & -> & ->)|[-> ->]]; unfold run, failing; simpl; rewrite Hw;
      (split; [apply kept_steady, kept_tmp, kept_same|]); (split; [done|]); (eexists; split; [done|]); [done|].
    by destruct (st_broken content). }
  intros copied. eapply (traced_bind _ _ _ _ (λ r d, files0 !! tmp = None ∧ ∃ x, dk_files d = <[tmp := x]> files0 ∧
    (copied = Ok tt → st_broken content = None ∧ x = st_bytes content))).
  { apply traced_watch. intros d (Hn & x & Hd & Hx). cbn [fs_Close disk_fs]. set (run := λ files : gmap string string, _).
    destruct (disk_op_cases untouched run d) as [(f & _ & ->)|[_ ->]]; simpl; rewrite Hd;
      (split; [apply kept_steady, kept_tmp, kept_same|]); (split; [done|]); by exists x. }
  intros closed. eapply (traced_bind _ _ _ _ (λ r d, match r with
      | Ok _ => st_broken content = None ∧ dk_files d = <[path key := st_bytes content]> files0
      | Err _ => archives_kept files0 (dk_files d) end)).
  { destruct copied as [[]|e]; [destruct closed as [[]|e]|destruct closed as [[]|e']]; cbn [errors_join].
    2,3,4: apply traced_ret; intros d (Hn & x & Hd & _); rewrite Hd; apply kept_tmp, kept_same.
    apply traced_watch. intros d (Hn & x & Hd & Hx). destruct (Hx eq_refl) as [Hb ->]. cbn [fs_Rename disk_fs]. rewrite Hclean, path_clean_key by done.
    set (run := λ files : gmap string string, _).
    destruct (disk_op_cases untouched run d) as [(f & -> & ->)|[-> ->]]; simpl; rewrite Hd.
    - split; [apply kept_steady, kept_tmp, kept_same|apply kept_tmp, kept_same].
    - unfold run. rewrite lookup_insert_eq. simpl. rewrite delete_insert_id by done. split; [|done].
      intros k Hk Hr. destruct (decide (k = key)) as [->|Hne]; [right; by rewrite lookup_insert_eq|].
      left. rewrite lookup_insert_ne; [done|]. intros He. by apply Hne, path_inj. }
  intros [[]|e]; [by apply traced_ret|].
  eapply (traced_bind _ _ _ _ (λ _ d, archives_kept files0 (dk_files d))); [|intros r; by apply traced_ret].
  apply traced_watch. intros d Hd. cbn [fs_Remove disk_fs]. rewrite Hclean. set (run := λ files : gmap string string, _).
  destruct (disk_op_cases untouched run d) as [(f & _ & ->)|[_ ->]]; simpl; (split; [apply kept_steady|]); auto using kept_untmp.
Qed.
End put_on_disk.

(** ** Lemmas: links *)

(** An upload that arrived whole and within the bound. *)
Definition complete (max : Z) (content : stream) : Prop :=
  st_broken content = None ∧ (Z.of_nat (String.length (st_bytes content)) ≤ Z.max 0 max)%Z.

Lemma MaxBytesReader_whole max content : st_broken (MaxBytesReader max content) = None →
  complete max content ∧ st_bytes (MaxBytesReader max content) = st_bytes content.
Proof. unfold MaxBytesReader, complete. case_decide; [done|]. intros Hb. split_and!; [done|lia|done]. Qed.

Lemma complete_reader max content : complete max content → MaxBytesReader max content = content.
Proof. intros [_ Hl]. unfold MaxBytesReader. by rewrite decide_False by lia. Qed.

(** The digits of a positive number parse back, with or without a sign allowed. *)
Lemma atoi_format n : (0 < n < 2 ^ 63)%Z → atoi (format_int n) = Some n.
Proof.
  intros Hn. pose proof (parse_uint_format 63 n Hn) as Hp. unfold parse_uint in Hp. case_decide as He; [done|].
  destruct (parse_digits 0 (format_int n)) as [v|] eqn:Hd; [|done]. simpl in Hp. case_decide; [|done]. injection Hp as ->.
  pose proof (format_int_bytes (within 48 57) n ltac:(by apply (digit_cases (λ c, within 48 57 c = true))) ltac:(lia)) as Hb.
  destruct (format_int n) as [|c s] eqn:Hf; [done|]. simpl in Hb. apply andb_true_iff in Hb as [Hc _].
  assert (c ≠ "-"%char ∧ c ≠ "+"%char) as [H1 H2] by (split; intros ->; discriminate Hc).
  unfold atoi. assert ((match String c s with String "-" s => ((-1)%Z, s) | String "+" s => (1%Z, s) | _ => (1%Z, String c s) end) = (1%Z, String c s)) as ->.
  { clear -H1 H2. destruct c as [[] [] [] [] [] [] [] []]; try done; congruence. }
  rewrite decide_False by done. rewrite Hd. simpl. rewrite decide_True by lia. by rewrite Z.mul_1_l.
Qed.

Lemma link_target tls proto host t h raw : has_byte "/" host = false → has_byte "?" h = false →
  request_target ((if tls || proto then "https" else "http") +:+ "://" +:+ host +:+ "/templates/" +:+ path_escape t +:+ "/files/" +:+ h +:+ "?" +:+ raw) =
  Some (upload_path t h, raw).
Proof.
  intros Hh Hhq. destruct (path_escape_safe t) as (_ & Htq & _). unfold request_target.
  set (rest := host +:+ "/templates/" +:+ path_escape t +:+ "/files/" +:+ h +:+ "?" +:+ raw).
  assert (∀ b : bool, str_cut "://" ((if b then "https" else "http") +:+ "://" +:+ rest) = Some ((if b then "https" else "http"), rest)) as -> by by intros [].
  cbn [mbind option_bind]. unfold rest. change ("/templates/" +:+ ?x) with (String "/" ("templates/" +:+ x)). rewrite str_cut_byte by done.
  cbn [mbind option_bind]. change ("?" +:+ raw) with (String "?" raw).
  assert ("templates/" +:+ path_escape t +:+ "/files/" +:+ h +:+ String "?" raw =
    ("templates/" +:+ path_escape t +:+ "/files/" +:+ h) +:+ String "?" raw) as -> by by rewrite !str_app_assoc.
  rewrite str_cut_byte by (by rewrite !has_byte_app, Htq, Hhq). done.
Qed.

(** ** Properties *)

(** What a call on the file system may name for a key. *)
Definition names_of (rand : string) (key : uploadKey) : list string := [path_dir (path key); tmp_name rand key; path key].

Section authorization.
Context {S : Type} (F : RootFS S) {H : EnvdHashes}.

Lemma put_names rand key content :
  traced (λ c _, ∀ n, n ∈ call_names c → n ∈ names_of rand key) (λ _, True) (put (F := watched_fs F) rand key content) (λ _ _, True).
Proof.
  assert (∀ A c (m : io S A), (∀ n, n ∈ call_names c → n ∈ names_of rand key) →
    traced (λ c _, ∀ n, n ∈ call_names c → n ∈ names_of rand key) (λ _, True) (watch c m) (λ _ _, True)) as Hw.
  { intros A c m Hc. by apply traced_watch. }
  unfold put, try. eapply traced_bind; [apply Hw; unfold names_of; set_solver|]. intros [[]|e]; [|by apply traced_ret].
  eapply traced_bind; [apply Hw; unfold names_of; set_solver|]. intros [[]|e]; [|by apply traced_ret].
  eapply traced_bind; [apply Hw; unfold names_of; set_solver|]. intros copied.
  eapply traced_bind; [apply Hw; unfold names_of; set_solver|]. intros closed.
  eapply (traced_bind _ _ _ _ (λ _ _, True)).
  { destruct (errors_join copied closed); [apply Hw; unfold names_of; set_solver|by apply traced_ret]. }
  intros [[]|e]; [by apply traced_ret|].
  eapply traced_bind; [apply Hw; unfold names_of; set_solver|]. intros r. by apply traced_ret.
Qed.

(** C17: an upload touches the file system only on a link this server signed: every
    request made for a PUT names only the directory, the temporary file and the
    archive of the key in its path and query, that key passed the checks, the link
    had not expired, and its signature is the secret's over a message that no
    other key or expiry has. *)
Theorem upload_authorized (d : dirUploads) (now : time) (rand templateID hash : string) (q : query) (content : stream)
    (l : list (fs_call * S)) (s : S) :
  ∃ tail, (ServeHTTP (F := watched_fs F) d now rand templateID hash q content (l, s)).2.1 = l ++ tail ∧
  (tail ≠ [] → ∃ key exp,
     key = mkUploadKey (q_Get "ns" q) templateID hash ∧ key_ok key ∧
     atoi (q_Get "expires" q) = Some exp ∧ (unix_seconds now ≤ exp)%Z ∧
     q_Get "sig" q = AccessToken (du_secret d) (sig_message key (q_Get "expires" q)) ∧
     (∀ key' expires, key_ok key' → sig_message key' expires = sig_message key (q_Get "expires" q) → key' = key ∧ expires = q_Get "expires" q) ∧
     ∀ call after n, (call, after) ∈ tail → n ∈ call_names call → n ∈ names_of rand key).
Proof.
  assert (∀ (r : reply) (Q : list (fs_call * S) → Prop),
    ∃ tail, ((mret r : io (list (fs_call * S) * S) reply) (l, s)).2.1 = l ++ tail ∧ (tail ≠ [] → Q tail)) as Hno.
  { intros r Q. exists []. by rewrite app_nil_r. }
  unfold ServeHTTP. destruct (uploadKeyOf (q_Get "ns" q) templateID hash) as [key|refusal] eqn:Hk; [|apply Hno].
  pose proof (uploadKeyOf_ok _ _ _ _ Hk) as (-> & Hok & _). set (key := mkUploadKey _ _ _) in *. cbv zeta.
  destruct (atoi (q_Get "expires" q)) as [exp|] eqn:He; [|apply Hno]. case_decide as Hexp; [apply Hno|].
  case_bool_decide as Hsig; cbn [negb]; [|apply Hno].
  destruct (put_names rand key (MaxBytesReader (du_max d) content) l s I) as (tail & Ht & Hn & _).
  exists tail. split.
  { unfold store_upload. rewrite bind_run. destruct (put _ _ _ _) as [r [l' s']]. exact Ht. }
  intros _. exists key, exp. split_and!; [done|done|done|lia|done| |].
  - intros key' expires Hok' Hmsg. by apply sig_message_inj in Hmsg.
  - intros call after n Hin. rewrite Forall_forall in Hn. by apply (Hn _ Hin).
Qed.
End authorization.

Section on_disk.
Context {H : EnvdHashes}.

(** C9: an archive is never seen half-written: whatever breaks off the transfer or
    fails on the disk, in the state after every request a PUT makes, each archive
    either is what it was or is the uploaded one, complete and within the bound;
    the PUT is answered 200 exactly when its archive is in place and nothing else
    changed, and otherwise every archive is what it was. *)
Theorem upload_atomic (d : dirUploads) (now : time) (rand templateID hash : string) (q : query) (content : stream)
    (files0 : gmap string string) (faults : list (option fault)) :
  let key := mkUploadKey (q_Get "ns" q) templateID hash in
  routed key → has_byte "/" rand = false →
  let '(r, (seen, after)) := ServeHTTP (F := watched_fs disk_fs) d now rand templateID hash q content ([], mkDisk files0 faults) in
  (∀ call state k, (call, state) ∈ seen → key_ok k → routed k →
     dk_files state !! path k = files0 !! path k ∨
     (k = key ∧ complete (du_max d) content ∧ dk_files state !! path k = Some (st_bytes content))) ∧
  (r = RStatus 200 → complete (du_max d) content ∧ dk_files after = <[path key := st_bytes content]> files0) ∧
  (r ≠ RStatus 200 → ∀ k, key_ok k → routed k → dk_files after !! path k = files0 !! path k).
Proof.
  intros key Hr Hrand. set (d0 := mkDisk files0 faults).
  assert (∀ r : reply, r ≠ RStatus 200 → let '(r, (seen, after)) := (mret r : io (list (fs_call * disk) * disk) reply) ([], d0) in
    (∀ call state k, (call, state) ∈ seen → key_ok k → routed k → dk_files state !! path k = files0 !! path k ∨
      (k = key ∧ complete (du_max d) content ∧ dk_files state !! path k = Some (st_bytes content))) ∧
    (r = RStatus 200 → complete (du_max d) content ∧ dk_files after = <[path key := st_bytes content]> files0) ∧
    (r ≠ RStatus 200 → ∀ k, key_ok k → routed k → dk_files after !! path k = files0 !! path k)) as Hno.
  { intros r Hne. cbn. split_and!; [by intros ??? ?%not_elem_of_nil|done|done]. }
  unfold ServeHTTP. destruct (uploadKeyOf (q_Get "ns" q) templateID hash) as [key'|refusal] eqn:Hk.
  2: { apply Hno. unfold uploadKeyOf in Hk. repeat case_match; by simplify_eq. }
  pose proof (uploadKeyOf_ok _ _ _ _ Hk) as (He & Hok & _). change (key' = key) in He. subst key'. cbv zeta.
  destruct (atoi _); [|by apply Hno]. case_decide; [by apply Hno|]. case_bool_decide; cbn [negb]; [|by apply Hno].
  unfold store_upload. rewrite bind_run.
  destruct (put_traced rand key (MaxBytesReader (du_max d) content) files0 Hok Hr Hrand [] d0 eq_refl) as (tail & Ht & HI & HQ).
  unfold watched_disk in *. destruct (put rand key _ ([], d0)) as [r [seen after]]. cbn [fst snd] in *. subst seen.
  assert (∀ call state k, (call, state) ∈ [] ++ tail → key_ok k → routed k → dk_files state !! path k = files0 !! path k ∨
    (k = key ∧ complete (du_max d) content ∧ dk_files state !! path k = Some (st_bytes content))) as Hseen.
  { intros call state k Hin Hk1 Hk2. rewrite Forall_forall in HI. destruct (HI _ Hin k Hk1 Hk2) as [?|(-> & Hb & Hl)]; [by left|right].
    destruct (MaxBytesReader_whole _ _ Hb) as [Hc Hby]. by rewrite <-Hby. }
  split; [exact Hseen|]. destruct r as [[]|e].
  - destruct HQ as [Hb ->]. destruct (MaxBytesReader_whole _ _ Hb) as [Hc ->]. by split.
  - split; [by case_match|]. by intros _.
Qed.

(** The link handed out for a key is one the PUT takes until it expires: a complete
    archive is stored, and what else the disk holds stays. *)
Lemma link_accepted (d : dirUploads) (now now' : time) (r : link_request) (key : uploadKey) (rand : string) (content : stream)
    (files0 : gmap string string) :
  key_ok key → routed key → has_byte "/" (lr_Host r) = false → has_byte "/" rand = false →
  (0 < unix_seconds now + 3600 < 2 ^ 63)%Z → (unix_seconds now' ≤ unix_seconds now + 3600)%Z →
  complete (du_max d) content → files0 !! tmp_name rand key = None →
  ∃ raw, request_target (dir_uploadURL d now r key).1 = Some (upload_path (uk_template key) (uk_hash key), raw) ∧
    ServeHTTP d now' rand (uk_template key) (uk_hash key) (parse_query raw) content (mkDisk files0 []) =
      (RStatus 200, mkDisk (<[path key := st_bytes content]> files0) []).
Proof.
  intros Hk Hr Hhost Hrand Hnow Hlive Hc Hfree. pose proof (tmp_clean rand key Hk Hr Hrand) as Htmp. pose proof (path_clean_key key Hk Hr) as Hpath.
  destruct key as [ns t h]. pose proof Hk as (_ & _ & _ & _ & Hh & _)%uploadKeyOf_ok. eexists. split.
  { unfold dir_uploadURL. cbn [fst uk_ns uk_template uk_hash]. apply link_target; [done|by apply hex_no_byte]. }
  rewrite parse_values_encode. set (key := mkUploadKey ns t h) in *. cbn [uk_ns uk_template uk_hash].
  assert (unix_seconds (now + uploadURLTTL) = unix_seconds now + 3600)%Z as Hexp.
  { unfold unix_seconds, uploadURLTTL, second. rewrite Z.div_add by done. done. }
  rewrite Hexp. set (expires := format_int (unix_seconds now + 3600)). set (q := _ <$> _).
  assert (q_Get "ns" q = ns ∧ q_Get "expires" q = expires ∧ q_Get "sig" q = uploadSig (du_secret d) key expires) as (Hns & He & Hs).
  { subst q. unfold q_Get. by rewrite !lookup_fmap, !lookup_insert_eq. }
  clearbody q. unfold ServeHTTP. rewrite Hns, He, Hs. change ns with (uk_ns key). unfold key_ok in Hk. rewrite Hk. cbv zeta.
  unfold expires. rewrite atoi_format by lia. rewrite decide_False by lia. rewrite bool_decide_eq_true_2 by done. cbn [negb].
  unfold store_upload. rewrite complete_reader by done. destruct Hc as [Hb _].
  assert (put rand key content (mkDisk files0 []) = (Ok tt, mkDisk (<[path key := st_bytes content]> files0) [])) as Hput.
  { set (tmp := tmp_name rand key) in *.
    assert (fs_Create tmp (mkDisk files0 []) = (Ok tt, mkDisk (<[tmp := ""]> files0) [])) as Hcreate.
    { cbn. rewrite Htmp, decide_False; [done|]. rewrite Hfree. apply is_Some_None. }
    assert (fs_Copy tmp content (mkDisk (<[tmp := ""]> files0) []) = (Ok tt, mkDisk (<[tmp := st_bytes content]> files0) [])) as Hcopy.
    { cbn. unfold written. by rewrite Hb, Htmp, lookup_insert_eq, insert_insert_eq. }
    assert (fs_Rename tmp (path key) (mkDisk (<[tmp := st_bytes content]> files0) []) =
      (Ok tt, mkDisk (<[path key := st_bytes content]> files0) [])) as Hrename.
    { cbn. by rewrite Htmp, Hpath, lookup_insert_eq, delete_insert_id. }
    unfold put, try. rewrite bind_run. cbn [fs_MkdirAll disk_fs disk_op head dk_faults dk_files fst snd drop].
    rewrite bind_run. fold tmp. rewrite Hcreate. cbn [fst snd]. rewrite bind_run, Hcopy. cbn [fst snd]. rewrite bind_run.
    cbn [fs_Close disk_fs disk_op head dk_faults dk_files fst snd drop errors_join]. rewrite bind_run, Hrename. done. }
  by rewrite bind_run, Hput.
Qed.

(** What the directory answers of an archive. *)
Lemma dir_answers (d : dirUploads) (key : uploadKey) (files : gmap string string) : key_ok key → routed key →
  dir_present key (mkDisk files []) = (Ok (bool_decide (is_Some (files !! path key))), mkDisk files []) ∧
  (archive (U := dir_store d) (uk_ns key) (uk_template key) (uk_hash key) (mkDisk files [])).1 =
    match files !! path key with Some b => Ok b | None => Err ErrNotExist end.
Proof.
  intros Hk Hr. pose proof (path_clean_key key Hk Hr) as Hpath. destruct key as [ns t h]. set (key := mkUploadKey ns t h) in *. split.
  - unfold dir_present. rewrite bind_run. cbn [fs_Stat disk_fs]. unfold disk_op. cbn [head dk_faults dk_files drop]. rewrite Hpath.
    by destruct (files !! _) eqn:Hf.
  - change (archive (U := dir_store d) (uk_ns key) (uk_template key) (uk_hash key) ?x) with (fs_Open (path key) x). cbn [fs_Open disk_fs]. unfold disk_op.
    cbn [head dk_faults dk_files]. rewrite Hpath. by destruct (files !! _).
Qed.
End on_disk.

(** *** Archives of a name that is not a path element *)

Lemma path_clean_up ns other app f : plain_elem ns → plain_elem other → plain_elem app → plain_elem f →
  path_clean (join "/" [ns; ".."; other; app; f]) = join "/" [other; app; f].
Proof.
  intros Hns Ho Ha Hf. pose proof Hns as (Hne & Hdot & Hdd & Hs). destruct Ho as (Ho1 & Ho2 & Ho3 & Ho). destruct Ha as (Ha1 & Ha2 & Ha3 & Ha).
  destruct Hf as (Hf1 & Hf2 & Hf3 & Hf).
  assert (split_byte "/" (join "/" [ns; ".."; other; app; f]) = [ns; ".."; other; app; f]) as Hsplit.
  { change "/" with (String "/" ""). apply split_byte_join; [done|]. by rewrite !Forall_cons, Forall_nil. }
  assert (is_abs (join "/" [ns; ".."; other; app; f]) = false ∧ join "/" [ns; ".."; other; app; f] ≠ "") as [Habs Hj].
  { destruct ns as [|c ns]; [done|]. simpl in Hs. apply orb_false_iff in Hs as [Hc%bool_decide_eq_false _]. split; [|done].
    unfold is_abs, has_prefix. simpl. rewrite decide_False by congruence. done. }
  unfold path_clean. rewrite decide_False, Habs, Hsplit by done. cbn [clean_elems].
  rewrite (decide_False (P := ns = "" ∨ ns = ".")), (decide_False (P := ns = "..")) by tauto.
  rewrite (decide_False (P := ".." = "" ∨ ".." = ".")), (decide_True (P := ".." = "..")), (decide_False (P := ns = "..")) by (done || by intros [?|?]).
  rewrite (decide_False (P := other = "" ∨ other = ".")), (decide_False (P := other = "..")) by tauto.
  rewrite (decide_False (P := app = "" ∨ app = ".")), (decide_False (P := app = "..")) by tauto.
  rewrite (decide_False (P := f = "" ∨ f = ".")), (decide_False (P := f = "..")) by tauto.
  change (reverse [f; app; other]) with [other; app; f]. rewrite decide_False; [done|]. cbn [join]. by destruct other.
Qed.

(** [archive] opens whatever its template's name leads to. *)
Lemma archive_climbs `{EnvdHashes} (d : dirUploads) (ns other app hash : string) (disk0 : disk) :
  plain_elem ns → plain_elem other → plain_elem app → FilesHash hash = true →
  archive (U := dir_store d) ns ("../" +:+ other +:+ "/" +:+ app) hash disk0 = archive (U := dir_store d) other app hash disk0.
Proof.
  intros Hns Ho Ha Hh. pose proof (hash_elem hash ".tar" "" Hh eq_refl eq_refl) as Hf. change ("" +:+ hash +:+ ".tar") with (hash +:+ ".tar") in Hf.
  change (archive (U := dir_store d) ?ns ?n ?h ?x) with (fs_Open (path (mkUploadKey ns n h)) x). cbn [fs_Open disk_fs].
  assert (path (mkUploadKey ns ("../" +:+ other +:+ "/" +:+ app) hash) = join "/" [ns; ".."; other; app; hash +:+ ".tar"]) as ->.
  { unfold path. cbn [uk_ns uk_template uk_hash join]. rewrite !str_app_assoc. reflexivity. }
  assert (path (mkUploadKey other app hash) = join "/" [other; app; hash +:+ ".tar"]) as -> by done.
  rewrite path_clean_up by done. rewrite (path_clean_plain [other; app; _]); [done|done|]. by rewrite !Forall_cons, Forall_nil.
Qed.

Lemma climbing_refused ns rest hash : ∃ refusal, uploadKeyOf ns ("../" +:+ rest) hash = inr refusal.
Proof.
  unfold uploadKeyOf. destruct (StampedName _ _ _ _); [|by eexists].
  assert (has_prefix "." ("../" +:+ rest) = true) as -> by done. rewrite orb_true_r. by eexists.
Qed.

(** ** Witnesses *)

Definition sample_hash : string := join "" (replicate 4 "0123456789abcdef").
Definition sample_key : uploadKey := mkUploadKey "team-a" "app" sample_hash.
Definition toy_hashes : EnvdHashes := {| AccessToken secret m := secret +:+ m; sha512_hex s := s |}.
Definition sample_dir : dirUploads := mkDirUploads "k" 8.
Definition sample_upload : stream := mkStream "archive" None.
Definition sample_link : link_request := mkLinkRequest true "" "api.example.com".

Lemma sample_key_ok : key_ok sample_key.
Proof. vm_compute. reflexivity. Qed.
Lemma sample_routed : routed sample_key.
Proof. repeat split; discriminate. Qed.

(** A transfer that breaks off after its first bytes, and a removal that fails. *)
Lemma upload_atomic_witness :
  let q : query := {[ "ns" := ["team-a"]; "expires" := ["7200"]; "sig" := [@uploadSig toy_hashes "k" sample_key "7200"] ]} in
  let broken := mkStream "arch" (Some (ErrText "unexpected EOF" [])) in
  let '(r, (seen, after)) := @ServeHTTP _ (watched_fs disk_fs) toy_hashes sample_dir (3600 * second)%Z "R" "app" sample_hash q broken
    ([], mkDisk {[ path sample_key := "older" ]} [None; None; None; None; Some (mkFault (ErrText "disk" []) 0)]) in
  r ≠ RStatus 200 ∧ length seen = 5 ∧ dk_files after !! path sample_key = Some "older".
Proof.
  cbv zeta. pose proof (@upload_atomic toy_hashes sample_dir (3600 * second)%Z "R" "app" sample_hash
    {[ "ns" := ["team-a"]; "expires" := ["7200"]; "sig" := [@uploadSig toy_hashes "k" sample_key "7200"] ]}
    (mkStream "arch" (Some (ErrText "unexpected EOF" []))) {[ path sample_key := "older" ]}
    [None; None; None; None; Some (mkFault (ErrText "disk" []) 0)] sample_routed eq_refl) as H.
  destruct (ServeHTTP _ _ _ _ _ _ _ _) as [r [seen after]] eqn:Hrun.
  match type of Hrun with ?run = _ =>
    assert ((run.1, length run.2.1) = (RError 500 ["failed to store the upload"], 5)) as Hres by (vm_compute; reflexivity)
  end.
  rewrite Hrun in Hres. injection Hres as -> Hlen.
  split_and!; [discriminate|exact Hlen|]. destruct H as (_ & _ & H). rewrite (H ltac:(discriminate) sample_key sample_key_ok sample_routed).
  reflexivity.
Defined.
