(* ===== verification/E2bBuildGuest.v ===== *)
(** * Build commands through envd's process API (pkg/e2bcompat/envd.go)

    The guest a build runs in: a command is one request to envd's process API,
    whose reply is a stream of frames, each five bytes of header and a message; the
    output in them is split into the lines of the build's log.  Every call rides the
    relay of the build's own claim.

    The HTTP exchange over a connection and the JSON of the messages are
    parameters. *)

From S2P Require Import Prelude GoStd GoNum GoText GoCodec Api SandboxView Inventory Client StoreRead Store E2bServer E2bGuest E2bSandboxes BuildRun.

Definition connectEndStream : N := 2.
Definition connectFrameMax : N := 1048576.

(** ** Frames *)

(** [binary.BigEndian.AppendUint32] of a length, which wraps. *)
Definition be32 (n : N) : string :=
  String (ascii_of_N (n / 16777216 mod 256)) (String (ascii_of_N (n / 65536 mod 256))
    (String (ascii_of_N (n / 256 mod 256)) (String (ascii_of_N (n mod 256)) ""))).

Definition connectFrame (flags : ascii) (msg : string) : string := String flags (be32 (N.of_nat (String.length msg)) +:+ msg).

(** A process to start, and the user it runs as. *)
Record envdProcess := mkEnvdProcess {
  ep_Line : string;          (* run by /bin/bash -l -c *)
  ep_Envs : gmap string string;
  ep_Cwd : string;
}.

(** One message of the stream, or its end frame. *)
Record envdEvent := mkEnvdEvent {
  ev_Start : bool;
  ev_Data : option (string * string);
  ev_End : option Z;
  ev_Error : option string;
}.

Class ProcessCodec := {
  encode_start : envdProcess → string;
  decode_event : string → result envdEvent;
}.

(** A request whose reply is a stream: the process API with its user, or a file
    written from an archive. *)
Inductive stream_request :=
| ReqProcess (user body : string)
| ReqFile (target archive : string).

Class GuestStream (S : Type) := {
  stream_exchange (conn : Conn) (req : stream_request) : io S (result (Z * stream));
}.

(** ** Reading the stream *)

(** [io.ReadFull]: [n] bytes, or the error that is met first. *)
Definition read_full (n : nat) (b : stream) : result (string * stream) :=
  if decide (n ≤ String.length (st_bytes b)) then Ok (str_take n (st_bytes b), mkStream (str_drop n (st_bytes b)) (st_broken b))
  else Err (default (if decide (st_bytes b = "") then ErrSentinel "io.EOF" else ErrSentinel "io.ErrUnexpectedEOF") (st_broken b)).

(** The flags and the length of a header. *)
Definition header (h : string) : option (ascii * N) :=
  match h with
  | String f (String a (String b (String c (String d "")))) =>
      Some (f, (16777216 * code a + 65536 * code b + 256 * code c + code d)%N)
  | _ => None
  end.

Definition end_stream (flags : ascii) : bool := negb (bool_decide (N.land (code flags) connectEndStream = 0%N)).

Section events.
Context {PC : ProcessCodec} (who : string) (wants : bool).

(** What an event adds to the output. *)
Definition output (ev : envdEvent) : list (string * string) := if wants then option_list (ev_Data ev) else [].

(** The output of a process, in chunks of its standard output and error, and how
    the stream comes out: the exit code, or that the process runs when no output is
    wanted.  The fuel is the number of frames the bytes can hold. *)
Fixpoint read_events (fuel : nat) (b : stream) : list (string * string) * result (Z * bool) :=
  match fuel with
  | 0 => ([], Err (ErrPanic "out of fuel"))
  | Datatypes.S fuel =>
      match read_full 5 b with
      | Err e => ([], Err (ErrWrap "envd process stream in %s" [who] e))
      | Ok (h, b) =>
          let '(flags, n) := default ("000"%char, 0%N) (header h) in
          if decide (connectFrameMax < n)%N then ([], Err (ErrText "envd process stream in %s: a %d-byte frame" [who; format_int (Z.of_N n)]))
          else match read_full (N.to_nat n) b with
               | Err e => ([], Err (ErrWrap "envd process stream in %s" [who] e))
               | Ok (payload, b) =>
                   match decode_event payload with
                   | Err e => ([], Err (ErrWrap "decode envd process stream in %s" [who] e))
                   | Ok ev =>
                       if end_stream flags then
                         ([], Err match ev_Error ev with
                                  | Some msg => ErrText "envd process in %s: %s" [who; msg]
                                  | None => ErrText "envd process stream in %s ended before the process" [who]
                                  end)
                       else match ev_End ev with
                            | Some exit => ([], Ok (exit, false))
                            | None =>
                                if ev_Start ev && negb wants then ([], Ok (0%Z, true))
                                else let '(chunks, r) := read_events fuel b in (output ev ++ chunks, r)
                            end
                   end
               end
      end
  end.
End events.

Definition read_stream {PC : ProcessCodec} (who : string) (wants : bool) (b : stream) : list (string * string) * result (Z * bool) :=
  read_events who wants (Datatypes.S (String.length (st_bytes b))) b.

(** ** The lines of a command *)

(** What a splitter hands out for one chunk. *)
Definition feed (stdout : bool) (p : string) (l : lineSplitter) : lineSplitter * list out_line :=
  let l' := write p l in (l', mkOutLine stdout <$> drop (length (ls_out l)) (ls_out l')).
Definition rest_line (stdout : bool) (l : lineSplitter) : list out_line :=
  mkOutLine stdout <$> drop (length (ls_out l)) (ls_out (flush l)).

Fixpoint out_lines (o e : lineSplitter) (chunks : list (string * string)) : list out_line :=
  match chunks with
  | [] => rest_line true o ++ rest_line false e
  | (po, pe) :: chunks =>
      let '(o, lo) := feed true po o in
      let '(e, le) := feed false pe e in
      lo ++ le ++ out_lines o e chunks
  end.

(** ** The guest *)

Section guest.
Context {S : Type} {T : SandboxStore S} {G : GuestStream S} {GH : GuestHTTP S} {PC : ProcessCodec}.

(** [envdRoundTrip] of a streaming request, over the claim's own relay. *)
Definition stream_call (a : Assignment) (req : stream_request) : io S (result (Z * stream)) :=
  conn <-? DialGuestPort (as_Node a) (as_SandboxName a) (as_Token a) envdPort;;
  stream_exchange conn req.

Definition envdProcess_run (a : Assignment) (cmd : Command) (wants : bool) : io S (list (string * string) * result (Z * bool)) :=
  r ← stream_call a (ReqProcess (cm_User cmd) (connectFrame "000" (encode_start (mkEnvdProcess (cm_Line cmd) (cm_Envs cmd) (cm_Workdir cmd)))));
  mret match r with
       | Err e => ([], Err e)
       | Ok (status, b) =>
           if decide (status = 200)%Z then read_stream (as_SandboxName a) wants b
           else ([], Err (ErrText "envd process start in %s: envd answered %d" [as_SandboxName a; format_int status]))
       end.

Definition guest_Run (a : Assignment) (cmd : Command) : io S (list out_line * result Z) :=
  '(chunks, r) ← envdProcess_run a cmd true;
  mret (out_lines (mkSplitter "" []) (mkSplitter "" []) chunks, fst <$> r).

Definition guest_Start (a : Assignment) (cmd : Command) : io S (result unit) :=
  '(_, r) ← envdProcess_run a cmd false;
  mret match r with
       | Err e => Err e
       | Ok (_, running) => if running : bool then Ok tt else Err (ErrText "the start command exited at once" [])
       end.

Definition guest_Init (now : time) (a : Assignment) (defaults : Command) : io S (result unit) :=
  initEnvd now (as_Node a) (as_SandboxName a) (as_Token a) (mkEnvdInit "" (cm_Envs defaults) (cm_User defaults) (cm_Workdir defaults) zero_time).

Definition guest_Write (a : Assignment) (path archive : string) : io S (result unit) :=
  r ← stream_call a (ReqFile ("/files?" +:+ values_encode {[ "path" := path; "username" := "root" ]}) archive);
  mret match r with
       | Err e => Err e
       | Ok (status, _) =>
           if decide (status = 200)%Z then Ok tt else Err (ErrText "envd file write in %s: envd answered %d" [as_SandboxName a; format_int status])
       end.

(** [envdGuest]; [now] is the clock when envd is initialized. *)
Definition envdGuest (now : time) : Guest S := {|
  Run := guest_Run;
  StartIn := guest_Start;
  InitIn := guest_Init now;
  Write := guest_Write;
|}.
End guest.

(** ** Specification *)

(** A stream that tells how its process came out: frames whose messages decode, none
    of them an end frame, up to the one that ends the reading. *)
Section spec.
Context {PC : ProcessCodec} (wants : bool).

Definition framed (flags : ascii) (msg : string) (ev : envdEvent) : Prop :=
  end_stream flags = false ∧ (N.of_nat (String.length msg) ≤ connectFrameMax)%N ∧ decode_event msg = Ok ev.

Inductive stream_of : string → list (string * string) → Z * bool → Prop :=
| stream_exit flags msg ev exit rest :
    framed flags msg ev → ev_End ev = Some exit →
    stream_of (connectFrame flags msg +:+ rest) [] (exit, false)
| stream_running flags msg ev rest :
    framed flags msg ev → ev_End ev = None → ev_Start ev = true → wants = false →
    stream_of (connectFrame flags msg +:+ rest) [] (0%Z, true)
| stream_more flags msg ev rest chunks r :
    framed flags msg ev → ev_End ev = None → ev_Start ev && negb wants = false →
    stream_of rest chunks r →
    stream_of (connectFrame flags msg +:+ rest) (output wants ev ++ chunks) r.
End spec.

(** ** Lemmas: frames *)

Lemma read_full_app a b br : read_full (String.length a) (mkStream (a +:+ b) br) = Ok (a, mkStream b br).
Proof.
  unfold read_full. cbn [st_bytes st_broken]. rewrite decide_True by (rewrite str_length_app; lia).
  by rewrite str_take_app, str_drop_prefix.
Qed.

Lemma read_full_Ok n b p b' : read_full n b = Ok (p, b') → st_bytes b = p +:+ st_bytes b' ∧ String.length p = n.
Proof. unfold read_full. case_decide as Hn; [|done]. intros [= <- <-]. by apply str_take_drop. Qed.

Lemma be32_length n : String.length (be32 n) = 4.
Proof. done. Qed.

Lemma header_frame f n : (n < 4294967296)%N → header (String f (be32 n)) = Some (f, n).
Proof.
  intros Hn. unfold header, be32. do 2 f_equal. unfold code. rewrite !Ascii.N_ascii_embedding; n_arith.
Qed.

Lemma frame_header f n h : header h = Some (f, n) → h = String f (be32 n) ∧ (n < 4294967296)%N.
Proof.
  unfold header. repeat (case_match; try done). intros [= <- <-]. split.
  - f_equal. unfold be32.
    repeat match goal with c : ascii |- _ => lazymatch goal with _ : (code c < 256)%N |- _ => fail | _ => pose proof (code_lt c) end end.
    do 3 (f_equal; [symmetry; apply ascii_code; n_arith|]). f_equal. symmetry. apply ascii_code. n_arith.
  - repeat match goal with c : ascii |- _ => lazymatch goal with _ : (code c < 256)%N |- _ => fail | _ => pose proof (code_lt c) end end. n_arith.
Qed.

Lemma header_some h : String.length h = 5 → is_Some (header h).
Proof. by destruct h as [|? [|? [|? [|? [|? [|? h]]]]]]. Qed.

Lemma connectFrame_length flags msg : String.length (connectFrame flags msg) = 5 + String.length msg.
Proof. unfold connectFrame. cbn [String.length]. rewrite str_length_app, be32_length. lia. Qed.

(** ** Lemmas: reading *)

Section reading.
Context {PC : ProcessCodec} (who : string) (wants : bool).

(** One frame read off the front. *)
Lemma read_frame fuel flags msg ev rest br : framed flags msg ev →
  read_events who wants (Datatypes.S fuel) (mkStream (connectFrame flags msg +:+ rest) br) =
  match ev_End ev with
  | Some exit => ([], Ok (exit, false))
  | None => if ev_Start ev && negb wants then ([], Ok (0%Z, true))
            else let '(chunks, r) := read_events who wants fuel (mkStream rest br) in (output wants ev ++ chunks, r)
  end.
Proof.
  intros (He & Hm & Hd). cbn [read_events]. set (n := N.of_nat (String.length msg)) in *.
  assert (connectFrame flags msg +:+ rest = String flags (be32 n) +:+ (msg +:+ rest)) as ->.
  { unfold connectFrame. change (String flags (be32 ?x +:+ msg)) with (String flags (be32 x) +:+ msg). by rewrite str_app_assoc. }
  rewrite (read_full_app (String flags (be32 n))). rewrite header_frame by (unfold connectFrameMax in *; lia).
  cbn [from_option id]. rewrite decide_False by lia. unfold n. rewrite Nat2N.id, read_full_app, Hd, He. done.
Qed.

(** The result of a reading, when it is one, is what the stream tells. *)
Lemma read_events_sound fuel b chunks r : read_events who wants fuel b = (chunks, Ok r) → stream_of wants (st_bytes b) chunks r.
Proof.
  revert b chunks r. induction fuel as [|fuel IH]; intros b chunks r; [done|]. cbn [read_events].
  destruct (read_full 5 b) as [[h b1]|] eqn:Hh; [|done]. apply read_full_Ok in Hh as [Hb Hl].
  destruct (header_some h Hl) as [[flags n] Hhd]. rewrite Hhd. cbn [from_option id]. case_decide as Hn; [done|].
  destruct (read_full (N.to_nat n) b1) as [[msg b2]|] eqn:Hm; [|done]. apply read_full_Ok in Hm as [Hb1 Hl1].
  destruct (decode_event msg) as [ev|] eqn:Hd; [|done]. destruct (end_stream flags) eqn:He; [done|].
  assert (st_bytes b = connectFrame flags msg +:+ st_bytes b2) as ->.
  { apply frame_header in Hhd as [-> _]. rewrite Hb, Hb1. unfold connectFrame. rewrite Hl1, N2Nat.id.
    change (String flags (be32 n) +:+ ?x) with (String flags (be32 n +:+ x)).
    change (String flags (be32 n +:+ msg) +:+ ?x) with (String flags ((be32 n +:+ msg) +:+ x)). by rewrite str_app_assoc. }
  assert (framed flags msg ev) as Hf by (split_and!; [done|rewrite Hl1, N2Nat.id; lia|done]).
  destruct (ev_End ev) as [exit|] eqn:Hend; [intros [= <- <-]; by eapply stream_exit|].
  destruct (ev_Start ev && negb wants) eqn:Hs.
  - intros [= <- <-]. apply andb_true_iff in Hs as [Hs Hw%negb_true_iff]. by eapply stream_running.
  - destruct (read_events who wants fuel b2) as [chunks' r'] eqn:Hr. intros [= <- ->]. eapply stream_more; [done..|]. by apply IH.
Qed.

Lemma read_events_complete bytes chunks r : stream_of wants bytes chunks r → ∀ fuel br, String.length bytes < fuel →
  read_events who wants fuel (mkStream bytes br) = (chunks, Ok r).
Proof.
  induction 1 as [flags msg ev exit rest Hf He|flags msg ev rest Hf He Hs Hw|flags msg ev rest chunks r Hf He Hs Hr IH]; intros fuel br Hl;
    (destruct fuel as [|fuel]; [lia|]); rewrite (read_frame fuel flags msg ev) by done; rewrite He; [done|by rewrite Hs, Hw|].
  rewrite Hs, IH; [done|]. rewrite str_length_app, connectFrame_length in Hl. lia.
Qed.

(** The fuel of [read_stream] is enough: the stream's own errors apart, more of it
    changes nothing. *)
Lemma read_events_fuel fuel fuel' b : String.length (st_bytes b) < fuel → fuel ≤ fuel' →
  read_events who wants fuel' b = read_events who wants fuel b.
Proof.
  revert fuel' b. induction fuel as [|fuel IH]; intros fuel' b Hl Hle; [lia|]. destruct fuel' as [|fuel']; [lia|]. cbn [read_events].
  destruct (read_full 5 b) as [[h b1]|] eqn:Hh; [|done]. apply read_full_Ok in Hh as [Hb Hlh].
  destruct (default _ (header h)) as [flags n]. case_decide; [done|].
  destruct (read_full (N.to_nat n) b1) as [[msg b2]|] eqn:Hm; [|done]. apply read_full_Ok in Hm as [Hb1 Hl1].
  destruct (decode_event msg); [|done]. destruct (end_stream flags); [done|]. destruct (ev_End _); [done|]. destruct (_ && _); [done|].
  rewrite IH; [done| |lia]. rewrite Hb, Hb1, !str_length_app, Hlh in Hl. lia.
Qed.
End reading.

(** ** Lemmas: lines *)

Definition of_stream (stdout : bool) (lines : list out_line) : list string :=
  ol_text <$> List.filter (λ l, Bool.eqb (ol_stdout l) stdout) lines.

Lemma of_stream_app b l l' : of_stream b (l ++ l') = of_stream b l ++ of_stream b l'.
Proof. unfold of_stream. by rewrite List.filter_app, fmap_app. Qed.
Lemma of_stream_own b ls : of_stream b (mkOutLine b <$> ls) = ls.
Proof. unfold of_stream. induction ls as [|l ls IH]; [done|]. csimpl. rewrite Bool.eqb_reflx. csimpl. by rewrite IH. Qed.
Lemma of_stream_other b c ls : b ≠ c → of_stream b (mkOutLine c <$> ls) = [].
Proof. intros Hne. unfold of_stream. induction ls as [|l ls IH]; [done|]. csimpl. by destruct b, c. Qed.

Lemma write_out p l : ∃ ls, ls_out (write p l) = ls_out l ++ ls.
Proof.
  unfold write. destruct (take_lines _) as [lines rest]. case_decide; unfold flush; simpl; [|by eexists].
  case_decide; simpl; eexists; [done|by rewrite <-app_assoc].
Qed.
Lemma flush_out l : ∃ ls, ls_out (flush l) = ls_out l ++ ls.
Proof. unfold flush. case_decide; [exists []; by rewrite app_nil_r|by eexists]. Qed.

(** What is logged of one output is what its own splitter hands out. *)
Lemma out_lines_split o e chunks :
  ls_out o ++ of_stream true (out_lines o e chunks) = ls_out (flush (fold_left (λ l p, write p l) chunks.*1 o)) ∧
  ls_out e ++ of_stream false (out_lines o e chunks) = ls_out (flush (fold_left (λ l p, write p l) chunks.*2 e)).
Proof.
  revert o e. induction chunks as [|[po pe] chunks IH]; intros o e.
  - cbn [out_lines]. rewrite !of_stream_app. unfold rest_line. destruct (flush_out o) as [lo Ho], (flush_out e) as [le He]. csimpl.
    rewrite Ho, He, !drop_app_length, !of_stream_own. rewrite (of_stream_other false true), (of_stream_other true false) by done. by rewrite app_nil_r.
  - cbn [out_lines]. unfold feed. destruct (write_out po o) as [lo Ho], (write_out pe e) as [le He]. csimpl.
    destruct (IH (write po o) (write pe e)) as [H1 H2]. rewrite Ho in H1. rewrite He in H2.
    rewrite !of_stream_app, Ho, He, !drop_app_length, !of_stream_own. rewrite (of_stream_other false true), (of_stream_other true false) by done.
    cbn [app]. rewrite <-H1, <-H2. by rewrite !app_assoc.
Qed.

(** ** Properties *)

(** C20: the reader of a process stream decides exactly whether the stream tells how
    the process came out: it answers an exit code, or that the process runs, if and
    only if the bytes are whole frames within the bound whose messages decode, none
    of them an end frame, up to the event that says so; the output it passed on is
    that of those frames in order; and whatever follows is not read. *)
Theorem read_stream_spec {PC : ProcessCodec} (who : string) (wants : bool) (b : stream) (chunks : list (string * string)) (r : Z * bool) :
  read_stream who wants b = (chunks, Ok r) ↔ stream_of wants (st_bytes b) chunks r.
Proof.
  split; [apply read_events_sound|]. intros H. unfold read_stream. destruct b as [bytes br]. cbn [st_bytes] in *.
  apply (read_events_complete who wants bytes chunks r H). lia.
Qed.

Section log.
Context {S : Type} {T : SandboxStore S} {G : GuestStream S} {GH : GuestHTTP S} {PC : ProcessCodec}.

End log.

(** *** What a build's calls ask of the store *)

Section calls.
Context {S : Type} (T : SandboxStore S) (G : GuestStream S) (GH : GuestHTTP S) {PC : ProcessCodec}.
#[local] Instance rec_calls : SandboxStore (list store_call * S) := recorded_store T.
#[local] Existing Instance logged_guest.
#[local] Instance logged_stream : GuestStream (list store_call * S) := {| stream_exchange conn req := silently (stream_exchange conn req) |}.

(** One dial of envd's port in the build's own sandbox, under the claim's token. *)
Definition own_dial {A} (a : Assignment) (t : list store_call) (_ : A) : Prop :=
  ∃ r, t = [SCDialGuestPort (as_Node a) (as_SandboxName a) (as_Token a) envdPort r].

Lemma stream_call_emits a req : emits (stream_call a req) (own_dial a).
Proof.
  unfold stream_call, try. eapply emits_bind; [apply (emits_logging (DialGuestPort _ _ _ envdPort))|].
  intros t r [-> [st ->]]. destruct (DialGuestPort _ _ _ _ st).1 as [conn|e]; [|apply emits_ret; by eexists].
  eapply emits_mono; [apply (emits_silently (stream_exchange conn req))|]. intros t r [-> _]. by eexists.
Qed.

Lemma then_answers {A B} a (m : io (list store_call * S) A) (f : A → B) : emits m (own_dial a) → emits (r ← m; mret (f r)) (own_dial a).
Proof. intros Hm. eapply emits_bind; [exact Hm|]. intros t r [c ->]. apply emits_ret. by exists c. Qed.

Lemma process_emits a cmd wants : emits (envdProcess_run a cmd wants) (own_dial a).
Proof. apply then_answers, stream_call_emits. Qed.

(** a build never leaves its sandbox: whatever a step, the start or the ready
    command asks of the guest - running a command, starting one, setting the
    defaults, writing an archive - makes exactly one store call, a dial of envd's
    port in the sandbox the build claimed, under that claim's token. *)
Theorem build_guest_calls (now : time) (a : Assignment) (cmd : Command) (file handle : string) :
  emits (Run (Guest := envdGuest now) a cmd) (own_dial a) ∧ emits (StartIn (Guest := envdGuest now) a cmd) (own_dial a) ∧
  emits (InitIn (Guest := envdGuest now) a cmd) (own_dial a) ∧ emits (Write (Guest := envdGuest now) a file handle) (own_dial a).
Proof.
  split_and!.
  - change (Run a cmd) with (guest_Run a cmd). unfold guest_Run. eapply emits_bind; [apply process_emits|].
    intros t [chunks r] [c ->]. apply emits_ret. by exists c.
  - change (StartIn a cmd) with (guest_Start a cmd). unfold guest_Start. eapply emits_bind; [apply process_emits|].
    intros t [chunks r] [c ->]. apply emits_ret. by exists c.
  - change (InitIn a cmd) with (guest_Init now a cmd). eapply emits_mono; [apply (initEnvd_emits T GH)|].
    intros t r (conn & -> & _). by exists conn.
  - change (Write a file handle) with (guest_Write a file handle). apply then_answers, stream_call_emits.
Qed.
End calls.

(** ** Witnesses *)

(** Messages of one letter and a text. *)
Definition letter_codec : ProcessCodec := {|
  encode_start p := ep_Line p;
  decode_event msg :=
    match msg with
    | String "s" _ => Ok (mkEnvdEvent true None None None)
    | String "o" text => Ok (mkEnvdEvent false (Some (text, "")) None None)
    | String "e" text => Ok (mkEnvdEvent false (Some ("", text)) None None)
    | String "x" _ => Ok (mkEnvdEvent false None (Some 3%Z) None)
    | _ => Err (ErrText "json" [])
    end;
|}.
Definition build_output : string :=
  join "" (connectFrame "000" <$> ["started"; "oone" +:+ newline +:+ "tw"; "ewarning"; "oo"; "x"]) +:+ "unread".
Definition letter_stream : GuestStream Static.StaticInventorySource := {|
  stream_exchange _ _ := mret (Ok (200%Z, mkStream build_output None));
|}.
Definition build_claim : Assignment := mkAssignment "sb_b" "n1" "" "tok" zero_time "".

