(* ===== verification/E2bBuilds.v ===== *)
(** * Template builds (pkg/e2bcompat/builds.go)

    The build endpoints: a build is requested, started and polled by its id; a run
    that has promoted its sandbox publishes it over the copies it replaces.

    The handlers work on the executor of [BuildRecords]; a start hands out what the
    executor's goroutine runs, which is [BuildRun.run]'s argument.  Generated ids and
    names, clock readings and what other requests do to the executor between two of
    a handler's calls are inputs. *)

From S2P Require Import Prelude GoStd GoNum GoText GoCodec Api PoolKeys SandboxView Inventory Client StoreRead StoreLifecycle Store.
From S2P Require Import E2bServer E2bGuest E2bTemplates BuildRecords BuildRun E2bUploads.

Definition logLevels : list string := ["debug"; "info"; "warn"; "error"].

Record TemplateBuildRequestV3 := mkTemplateBuildRequestV3 {
  tr_Name : string;
  tr_Alias : string;
  tr_Tags : list string;
  tr_CPUCount : Z;
  tr_MemoryMB : Z;
}.

(** The registry is kept as its JSON. *)
Record TemplateBuildStartV2 := mkTemplateBuildStartV2 {
  ts_FromImage : string;
  ts_FromTemplate : string;
  ts_FromImageRegistry : string;
  ts_Steps : list Step;
  ts_StartCmd : string;
  ts_ReadyCmd : string;
}.

Definition buildKey (ns name buildID : string) : string := ns +:+ "/" +:+ name +:+ "/" +:+ buildID.

(** The size class of a build's CPU count and memory; empty when neither is set. *)
Definition sizeFor {Q : QuantityOps} (cpuCount memoryMB : Z) : string :=
  if decide (cpuCount ≤ 0 ∧ memoryMB ≤ 0)%Z then ""
  else
    let cpu := if decide (0 < cpuCount)%Z then Some (q_NewQuantity cpuCount) else None in
    let memory := if decide (0 < memoryMB)%Z then Some (q_NewQuantity (Z.shiftl memoryMB 20)) else None in
    SizeClassForContainers [mkContainer "" (mkResourceList cpu memory) (mkResourceList None None)].

(** What a build cannot honor, a malformed step included. *)
Definition unsupportedBuildOption (req : TemplateBuildStartV2) (canCopy : bool) : list string :=
  if decide (ts_FromTemplate req ≠ "") then ["fromTemplate is not supported yet; build from an image"]
  else if decide (ts_FromImageRegistry req ≠ "" ∧ ts_FromImageRegistry req ≠ "null") then
    ["fromImageRegistry is not supported; a pool pulls its own image"]
  else if decide (ts_FromImage req = "") then ["fromImage is required"]
  else if has_prefix templatePrefix (ts_FromImage req) then ["fromImage names a built template; build from an image"]
  else Invalid (ts_Steps req) canCopy.

(** A build phase as the SDK maps it onto its steps. *)
Definition sdkStep (phase : string) : string :=
  if decide (phase = PhaseClaim) then "base"
  else if decide (phase ∈ [PhaseFinalize; PhasePromote; PhasePublish]) then "finalize"
  else phase.

Definition queryInt (v : string) : option Z :=
  if decide (v = "") then Some 0%Z else n ← atoi v; if decide (n < 0)%Z then None else Some n.

Definition logEntryOf (l : LogEntry) : BuildLogEntry :=
  mkBuildLogEntry (format_rfc3339_nano (le_Time l)) (le_Message l) (le_Level l) (sdkStep (le_Phase l)).

(** [slices.Index] *)
Fixpoint slices_Index (x : string) (l : list string) (i : Z) : Z :=
  match l with
  | [] => (-1)%Z
  | y :: l => if decide (y = x) then i else slices_Index x l (i + 1)
  end.
Definition level_index (level : string) : Z := slices_Index level logLevels 0.

(** One page of a log: the entries at the level or above, without the first
    [offset], at most [limit] when that is positive. *)
Fixpoint log_page (floor offset limit : Z) (logs : list LogEntry) (entries : list BuildLogEntry) : list BuildLogEntry :=
  match logs with
  | [] => entries
  | l :: logs =>
      if decide (level_index (le_Level l) < floor)%Z then log_page floor offset limit logs entries
      else if decide (0 < offset)%Z then log_page floor (offset - 1) limit logs entries
      else if decide (limit ≤ 0 ∨ Z.of_nat (length entries) < limit)%Z
      then log_page floor offset limit logs (entries ++ [logEntryOf l])
      else log_page floor offset limit logs entries
  end.

(** sandboxd's 412. *)
Definition replaced (e : error) : bool := bool_decide (status_code e = Some 412%Z).

(** ** Handlers on the executor *)

Definition build_not_found : reply := RError 404 ["build not found on this replica"].

Definition requestBuild {Q : QuantityOps} (ns buildID : string) (swept now : time) (b : body TemplateBuildRequestV3) : io Executor reply :=
  decodeBody b (λ req,
    let '(name, tag) := cut_tag (str_or (tr_Name req) (tr_Alias req)) in
    if decide (name = "") then mret (RError 400 ["name is required"])
    else match StampedName "template" templatePrefix ns name with
         | Err e => mret (RError 400 (error_text e))
         | Ok _ =>
             let tags := if bool_decide (tag ≠ "") && negb (bool_decide (tag ∈ tr_Tags req)) then tr_Tags req ++ [tag] else tr_Tags req in
             _ ← modify (Register (buildKey ns name buildID) (mkRequest (sizeFor (tr_CPUCount req) (tr_MemoryMB req)) tags) swept now);
             mret (writeJSON 202 (DBuild name buildID true (taggedNames name tags) tags [name]))
         end).

Definition log_reason (i : Info) : option BuildStatusReason :=
  if decide (in_Status i = StatusError)
  then Some (mkBuildStatusReason (in_Failure i) (sdkStep (in_FailedPhase i)) (logEntryOf <$> option_list (last (in_Logs i))))
  else None.

Definition buildStatus (ns name buildID : string) (now : time) (q : query) : io Executor reply :=
  info ← Status (buildKey ns name buildID) now;
  mret match info with
       | None => build_not_found
       | Some i =>
           match queryInt (q_Get "logsOffset" q), queryInt (q_Get "limit" q) with
           | None, _ => RError 400 ["logsOffset must be a non-negative integer"]
           | Some _, None => RError 400 ["limit must be a non-negative integer"]
           | Some offset, Some limit =>
               let floor := Z.max (level_index (q_Get "level" q)) 0 in
               writeJSON 200 (DBuildStatus (mkTemplateBuildInfo name buildID (in_Status i)
                 (log_page floor offset limit (in_Logs i) []) (log_reason i)))
           end
       end.

(** ** Publishing *)

Section publish.
Context {S : Type} {T : SandboxStore S} {I : InventorySource S}.

(** An operator-owned copy of [template], as its node reports it. *)
Definition live_holder (template node : string) (t : PromotedTemplate) : option templateHolder :=
  if bool_decide (pt_Template t = template) && bool_decide (pt_Tenant t = "")
  then Some (mkHolder node (mkPoolKey (pt_Template t) (pt_Net t) (pt_Size t)) (pt_ContentDigest t) ∅ (default zero_time (pt_CreatedAt t)))
  else None.

(** The nodes answer in some order; the first error is kept, and fails the read. *)
Fixpoint askHolders (template : string) (nodes : list string) : io S (result (list templateHolder)) :=
  match nodes with
  | [] => mret (Ok [])
  | n :: nodes =>
      held ← NodeTemplates n;
      rest ← askHolders template nodes;
      mret match held, rest with
           | Err e, _ => Err (ErrWrap "node %s" [n] e)
           | Ok _, Err e => Err e
           | Ok held, Ok rest => Ok (omap (live_holder template n) held ++ rest)
           end
  end.

(** Without an inventory the call on it panics. *)
Definition liveHolders (s : Server) (ord : list string → list string) (template : string) : io S (result (list templateHolder)) :=
  if op_Inventory (sv_opts s) then
    nodes ← gets ListNodes;
    match nodes with
    | Err e => mret (Err e)
    | Ok nodes => askHolders template (ord nodes)
    end
  else mret (Err (ErrPanic "nil pointer dereference")).

Definition replaced_error (name node : string) : error := ErrText "a newer build of %s replaced this one on %s" [name; node].

Definition delete_stale (h : templateHolder) : io S (result unit) :=
  r ← DeleteTemplate (th_node h) (th_key h) (th_digest h);
  mret match r with
       | Err e => if replaced e then Ok tt else Err e
       | Ok _ => Ok tt
       end.

(** The builds of [name] older than this one's promote go, then it is tagged. *)
Definition publishBuild (s : Server) (ordn : list string → list string) (ordh : list templateHolder → list templateHolder)
    (scope name : string) (tags : list string) (node : string) (key : PoolKey) (digest : string) : io S (result unit) :=
  holders ← liveHolders s ordn (scope +:+ name);
  match holders with
  | Err e => mret (Err (ErrWrap "list the previous builds" [] e))
  | Ok holders =>
      match find_first (λ h, bool_decide (th_node h = node ∧ th_key h = key)) holders with
      | None => mret (Err (ErrText "the build's template is no longer on %s" [node]))
      | Some own =>
          if decide (th_digest own ≠ digest) then mret (Err (replaced_error name node))
          else
            let stale := delete_func (λ h, negb (bool_decide (th_created h < th_created own)%Z)) holders in
            r ← forEachHolder ordh stale delete_stale;
            match r with
            | Err e => mret (Err (ErrWrap "delete the previous build" [] e))
            | Ok _ =>
                if decide (tags = []) then mret (Ok tt)
                else
                  r ← SetTemplateLabels node key (set_tags digest tags ∅) digest;
                  mret match r with
                       | Err e => if replaced e then Err (replaced_error name node) else Err e
                       | Ok _ => Ok tt
                       end
            end
      end
  end.
End publish.

(** ** Starting *)

Section start.
Context {S : Type} {T : SandboxStore S} {I : InventorySource S} {U : UploadStore S}.

(** The reply, and the run a start spawned under the build's id.  [between] is what
    other requests and running builds do to the executor after the registered
    request is read. *)
Definition startBuild (s : Server) (cf : settings) (ns name buildID claimName : string)
    (ordn : list string → list string) (ordh : list templateHolder → list templateHolder) (between : Executor → Executor)
    (b : body TemplateBuildStartV2) : io Executor (reply * option (string * Spec S)) :=
  match b with
  | Malformed why => mret (badBody why, None)
  | Empty => mret (badBody ["EOF"], None)
  | Decoded req =>
      let msg := unsupportedBuildOption req (bo_Uploads (op_Builds (sv_opts s))) in
      if decide (msg ≠ []) then mret (RError 400 msg, None)
      else
        let id := buildKey ns name buildID in
        pending ← gets (Request_of id);
        match pending with
        | None => mret (build_not_found, None)
        | Some pending =>
            let scope := templateScope ns in
            let pool := poolKey s (ts_FromImage req) in
            let pool := mkPoolKey (pk_Template pool) NetDefault (str_or (rq_Size pending) (pk_Size pool)) in
            let spec := {|
              bs_Namespace := ns;
              bs_ClaimName := claimName;
              bs_Pool := pool;
              bs_Template := scope +:+ name;
              bs_Steps := ts_Steps req;
              bs_StartCmd := ts_StartCmd req;
              bs_ReadyCmd := ts_ReadyCmd req;
              bs_Archive := archive ns name;
              bs_Publish := Some (publishBuild s ordn ordh scope name (rq_Tags pending));
            |} in
            _ ← modify between;
            started ← Start cf id;
            mret match started with
                 | Err e =>
                     if errors_is e ErrBusy then (RError 429 ["every build slot is busy; retry the start"], None)
                     else if errors_is e ErrUnknownBuild then (build_not_found, None)
                     else (RStatus 202, None)
                 | Ok spawned => (RStatus 202, if spawned : bool then Some (id, spec) else None)
                 end
        end
  end.
End start.

(** ** Specification *)

(** The entries a poll asks for: at the level or above, past the offset, within the
    limit. *)
Definition at_level (floor : Z) (logs : list LogEntry) : list LogEntry :=
  List.filter (λ l, negb (bool_decide (level_index (le_Level l) < floor)%Z)) logs.
Definition up_to {A} (limit : Z) (l : list A) : list A := if decide (limit ≤ 0)%Z then l else take (Z.to_nat limit) l.
Definition page_of (floor offset limit : Z) (logs : list LogEntry) : list LogEntry :=
  up_to limit (drop (Z.to_nat offset) (at_level floor logs)).

(** The copies that go: those older than the build's own. *)
Definition stale_of (own : templateHolder) (holders : list templateHolder) : list templateHolder :=
  delete_func (λ h, negb (bool_decide (th_created h < th_created own)%Z)) holders.

(** A delete that leaves the copy gone: it went, or a newer build had replaced it. *)
Definition gone (r : result unit) : bool := match r with Ok _ => true | Err e => replaced e end.

(** ** Lemmas: log pages *)

Lemma log_page_spec floor offset limit logs entries : (0 ≤ offset)%Z → (limit ≤ 0 ∨ Z.of_nat (length entries) ≤ limit)%Z →
  log_page floor offset limit logs entries =
  entries ++ (logEntryOf <$> (if decide (limit ≤ 0)%Z then drop (Z.to_nat offset) (at_level floor logs)
                               else take (Z.to_nat limit - length entries) (drop (Z.to_nat offset) (at_level floor logs)))).
Proof.
  revert offset entries. induction logs as [|l logs IH]; intros offset entries Ho Hl; cbn [log_page].
  - unfold at_level. cbn [List.filter]. rewrite drop_nil, take_nil. case_decide; simpl; by rewrite app_nil_r.
  - unfold at_level. cbn [List.filter]. fold (at_level floor logs). case_bool_decide as Hlev; cbn [negb].
    { rewrite decide_True by done. by apply IH. }
    rewrite decide_False by done. destruct (decide (0 < offset)%Z) as [Hpos|Hz].
    { rewrite IH by lia. replace (Z.to_nat offset) with (S (Z.to_nat (offset - 1))) by lia. done. }
    assert (offset = 0%Z) as -> by lia. change (Z.to_nat 0) with 0. rewrite !drop_0.
    destruct (decide (limit ≤ 0 ∨ Z.of_nat (length entries) < limit)%Z) as [Hroom|Hfull].
    + rewrite IH; [|lia|rewrite length_app; simpl; lia]. change (Z.to_nat 0) with 0. rewrite drop_0, <-app_assoc. simpl. f_equal.
      case_decide as Hlim; [done|]. rewrite length_app. simpl. replace (Z.to_nat limit - length entries) with (S (Z.to_nat limit - (length entries + 1))) by lia. done.
    + rewrite IH by lia. change (Z.to_nat 0) with 0. rewrite drop_0. rewrite !decide_False by lia.
      replace (Z.to_nat limit - length entries) with 0 by lia. done.
Qed.

Lemma log_page_run floor offset limit logs : (0 ≤ offset)%Z → log_page floor offset limit logs [] = logEntryOf <$> page_of floor offset limit logs.
Proof.
  intros Ho. rewrite log_page_spec by (simpl; lia). unfold page_of, up_to. simpl. case_decide; [done|]. by rewrite Nat.sub_0_r.
Qed.

Lemma queryInt_nonneg v n : queryInt v = Some n → (0 ≤ n)%Z.
Proof. unfold queryInt. case_decide; [by intros [= <-]|]. destruct (atoi v) as [m|]; [|done]. simpl. case_decide; [done|]. intros [= <-]. lia. Qed.

(** ** Lemmas: publishing *)

Section publish_lemmas.
Context {S : Type} (T : SandboxStore S) (I : InventorySource S).
#[local] Existing Instance logged_source.
#[local] Instance rec_publish : SandboxStore (list store_call * S) := recorded_store T.

(** What the nodes answered, in the order they did. *)
Definition answered (node : string) (held : list PromotedTemplate) : Prop := ∃ st, (NodeTemplates (SandboxStore := T) node st).1 = Ok held.
Definition holders_of (template : string) (nodes : list string) (answers : list (list PromotedTemplate)) : list templateHolder :=
  concat (zip_with (λ n held, omap (live_holder template n) held) nodes answers).

Lemma askHolders_emits template nodes :
  emits (askHolders template nodes) (λ t r, t = [] ∧ ∀ hs, r = Ok hs →
    ∃ answers, Forall2 answered nodes answers ∧ hs = holders_of template nodes answers).
Proof.
  induction nodes as [|n nodes IH]; cbn [askHolders].
  { apply emits_ret. split; [done|]. intros hs [= <-]. by exists []. }
  eapply emits_silent_bind; [apply (emits_silently (NodeTemplates n))|]. intros held [st ->].
  eapply emits_silent_bind; [exact IH|]. intros rest Hrest. apply emits_ret. split; [done|]. intros hs.
  destruct (NodeTemplates n st).1 as [held|e] eqn:Hh; [|done]. destruct rest as [rest|e]; [|done]. intros [= <-].
  destruct (Hrest rest eq_refl) as (answers & Ha & ->). exists (held :: answers). split; [|done]. constructor; [by exists st|done].
Qed.

Lemma liveHolders_emits s ord template :
  emits (liveHolders s ord template) (λ t r, t = [] ∧ ∀ hs, r = Ok hs →
    ∃ st nodes answers, ListNodes st = Ok nodes ∧ Forall2 answered (ord nodes) answers ∧ hs = holders_of template (ord nodes) answers).
Proof.
  unfold liveHolders. destruct (op_Inventory (sv_opts s)); [|by apply emits_ret].
  eapply emits_silent_bind; [apply emits_gets|]. intros r [[l st] ->]. change (ListNodes (l, st)) with (ListNodes st).
  destruct (ListNodes st) as [nodes|e] eqn:Hn; [|by apply emits_ret].
  eapply emits_mono; [apply askHolders_emits|]. intros t r [-> H]. split; [done|]. intros hs Hr.
  destruct (H hs Hr) as (answers & ? & ?). by exists st, nodes, answers.
Qed.

(** One call per holder, whose answers decide the result. *)
Lemma forEach_emits (fn : templateHolder → io (list store_call * S) (result unit)) (mk : templateHolder → result unit → store_call)
    (good : result unit → bool) hs :
  (∀ h, emits (fn h) (λ t r, ∃ a, t = [mk h a] ∧ is_ok r = good a)) →
  emits (forEach hs fn) (λ t r, ∃ rs, t = zip_with mk hs rs ∧ length rs = length hs ∧ is_ok r = forallb good rs).
Proof.
  intros Hfn. induction hs as [|h hs IH]; cbn [forEach]; [apply emits_ret; by exists []|].
  eapply emits_bind; [apply Hfn|]. intros t r (a & -> & Hr). eapply emits_bind; [exact IH|]. intros t' rest (rs & -> & Hlen & Hrest).
  apply emits_ret. exists (a :: rs). cbn [zip_with length forallb]. rewrite app_nil_r, Hlen, <-Hr, <-Hrest. split_and!; [done|done|]. by destruct r.
Qed.

Lemma delete_stale_emits h :
  emits (delete_stale h) (λ t r, ∃ a, t = [SCDeleteTemplate (th_node h) (th_key h) (th_digest h) a] ∧ is_ok r = gone a).
Proof.
  unfold delete_stale. eapply emits_bind; [apply (emits_logging (DeleteTemplate _ _ _))|]. intros t r [-> _]. apply emits_ret.
  exists r. split; [done|]. destruct r as [|e]; [done|]. simpl. by destruct (replaced e).
Qed.

(** The outcome of a publish. *)
Definition publish_outcome (ordn : list string → list string) (ordh : list templateHolder → list templateHolder)
    (template node : string) (key : PoolKey) (digest : string) (tags : list string) (calls : list store_call) (r : result unit) : Prop :=
  (calls = [] ∧ is_ok r = false) ∨
  ∃ st nodes answers own rs,
    ListNodes (InventorySource := I) st = Ok nodes ∧ Forall2 answered (ordn nodes) answers ∧
    let holders := holders_of template (ordn nodes) answers in
    own ∈ holders ∧ th_node own = node ∧ th_key own = key ∧ th_digest own = digest ∧
    let deletes := zip_with (λ h a, SCDeleteTemplate (th_node h) (th_key h) (th_digest h) a) (ordh (stale_of own holders)) rs in
    length rs = length (ordh (stale_of own holders)) ∧
    if forallb gone rs && negb (bool_decide (tags = []))
    then ∃ a, calls = deletes ++ [SCSetTemplateLabels node key (set_tags digest tags ∅) digest a] ∧ is_ok r = is_ok a
    else calls = deletes ∧ is_ok r = forallb gone rs.

Lemma publish_emits s ordn ordh scope name tags node key digest :
  emits (publishBuild s ordn ordh scope name tags node key digest)
    (publish_outcome ordn ordh (scope +:+ name) node key digest tags).
Proof.
  unfold publishBuild. eapply emits_silent_bind; [apply liveHolders_emits|]. intros [holders|e] Hh; [|apply emits_ret; by left].
  destruct (find_first _ holders) as [own|] eqn:Hf; [|apply emits_ret; by left].
  apply find_first_Some in Hf as [Hin [Hnode Hkey]%bool_decide_eq_true].
  case_decide as Hd; [apply emits_ret; by left|]. destruct (decide (th_digest own = digest)) as [Hdig|]; [|done]. clear Hd.
  destruct (Hh holders eq_refl) as (st & nodes & answers & Hn & Ha & ->). cbv zeta. fold (stale_of own (holders_of (scope +:+ name) (ordn nodes) answers)).
  set (holders := holders_of (scope +:+ name) (ordn nodes) answers) in *. unfold forEachHolder.
  eapply emits_bind; [apply (forEach_emits _ (λ h a, SCDeleteTemplate (th_node h) (th_key h) (th_digest h) a) gone), delete_stale_emits|]. intros t r (rs & -> & Hlen & Hok).
  assert (∀ rest (r' : result unit), (if forallb gone rs && negb (bool_decide (tags = []))
     then ∃ a, rest = [SCSetTemplateLabels node key (set_tags digest tags ∅) digest a] ∧ is_ok r' = is_ok a
     else rest = [] ∧ is_ok r' = forallb gone rs) →
     publish_outcome ordn ordh (scope +:+ name) node key digest tags
       (zip_with (λ h a, SCDeleteTemplate (th_node h) (th_key h) (th_digest h) a) (ordh (stale_of own holders)) rs ++ rest) r') as Hout.
  { intros rest r' Hrest. right. exists st, nodes, answers, own, rs. split; [done|]. split; [done|]. cbv zeta. fold holders.
    split_and!; [done..|]. destruct (_ && _); [destruct Hrest as (a & -> & ?); by exists a|]. destruct Hrest as [-> ?]. by rewrite app_nil_r. }
  destruct r as [[]|e]; [|apply emits_ret, Hout; by rewrite <-Hok].
  case_decide as Htags; [apply emits_ret, Hout; rewrite <-Hok; subst tags; done|].
  eapply emits_bind; [apply (emits_logging (SetTemplateLabels node key _ digest))|]. intros t a [-> _]. apply emits_ret.
  apply Hout. rewrite <-Hok, bool_decide_eq_false_2 by done. cbn [is_ok andb negb]. exists a. split; [done|]. destruct a as [|e]; [done|]. by destruct (replaced e).
Qed.
End publish_lemmas.

(** ** Lemmas: keys and starts *)

Lemma buildKey_ns ns ns' name name' id id' : has_byte "/" ns = false → has_byte "/" ns' = false →
  buildKey ns name id = buildKey ns' name' id' → ns = ns'.
Proof.
  intros Hn Hn' He. unfold buildKey in He. change ("/" +:+ name +:+ "/" +:+ id) with (String "/" (name +:+ "/" +:+ id)) in He.
  change ("/" +:+ name' +:+ "/" +:+ id') with (String "/" (name' +:+ "/" +:+ id')) in He.
  pose proof (str_cut_byte "/" _ (name +:+ "/" +:+ id) Hn) as H1. rewrite He, str_cut_byte in H1 by done. by injection H1.
Qed.

Lemma invalid_from_none i steps c : invalid_from i steps c = [] → Forall (λ s, problem s c = "") steps.
Proof.
  revert i. induction steps as [|s steps IH]; intros i; cbn [invalid_from]; [constructor|]. case_decide as Hp; [|done].
  intros H. constructor; [done|by eapply IH].
Qed.

Lemma supported_steps req c : unsupportedBuildOption req c = [] → ts_FromImage req ≠ "" ∧ Forall (λ s, problem s c = "") (ts_Steps req).
Proof. unfold unsupportedBuildOption. repeat case_match; try done. intros Hi. split; [done|by eapply invalid_from_none]. Qed.

Lemma sweep_keeps now e id r : ex_builds (sweep now e) !! id = Some r → ex_builds e !! id = Some r.
Proof. by intros [H _]%map_lookup_filter_Some. Qed.

Lemma Start_other cf id id' e r e' : Start cf id e = (r, e') → id' ≠ id → ex_builds e' !! id' = ex_builds e !! id'.
Proof.
  intros Hs Hne. unfold Start in Hs. repeat case_match; simplify_eq; try done. simpl. by rewrite lookup_insert_ne.
Qed.

Lemma at_level_prefix floor logs logs' : logs `prefix_of` logs' → at_level floor logs `prefix_of` at_level floor logs'.
Proof. intros [tail ->]. unfold at_level. rewrite List.filter_app. by eexists. Qed.

(** All a start does to the executor. *)
Lemma startBuild_state {S} {T : SandboxStore S} {I : InventorySource S} {U : UploadStore S} (s : Server) (cf : settings) ns name buildID claimName
    ordn ordh (between : Executor → Executor) b e :
  (startBuild s cf ns name buildID claimName ordn ordh between b e).2 = e ∨
  (startBuild s cf ns name buildID claimName ordn ordh between b e).2 = (Start cf (buildKey ns name buildID) (between e)).2.
Proof.
  unfold startBuild. destruct b as [why| |req]; [by left..|]. cbv zeta. case_decide; [by left|]. rewrite bind_run. cbn [gets fst snd].
  destruct (Request_of _ e); [|by left]. rewrite !bind_run. right. cbn [modify fst snd]. by destruct (Start _ _ _).
Qed.

(** A page, and what follows it in a log that has grown since. *)
Lemma pages_meet {A} (o : nat) (limit limit' : Z) (l l' : list A) : l `prefix_of` l' →
  let page := up_to limit (drop o l) in
  let rest := drop (o + length page) l' in
  page ++ rest = drop o l' ∧ page ++ up_to limit' rest `prefix_of` drop o l'.
Proof.
  intros [tail ->]. cbv zeta. set (page := up_to limit (drop o l)).
  assert (page ++ drop (o + length page) (l ++ tail) = drop o (l ++ tail)) as Heq.
  { destruct (decide (o ≤ length l)) as [Ho|Ho].
    - rewrite <-(drop_drop (l ++ tail)), (drop_app_le _ _ o) by done. subst page. unfold up_to. case_decide.
      + by rewrite drop_app_length.
      + rewrite length_take. set (d := drop o l). destruct (decide (Z.to_nat limit ≤ length d)) as [Hl|Hl].
        * rewrite Nat.min_l by done. rewrite drop_app_le by done. by rewrite app_assoc, take_drop.
        * rewrite Nat.min_r by lia. rewrite take_ge by lia. by rewrite drop_app_length.
    - assert (page = []) as -> by (subst page; rewrite drop_ge by lia; unfold up_to; case_decide; [done|by rewrite take_nil]).
      simpl. by rewrite Nat.add_0_r. }
  split; [done|]. rewrite <-Heq. apply prefix_app. unfold up_to. case_decide; [done|]. apply prefix_take.
Qed.

(** ** Properties *)

(** C10: builds of one template converge on the newest: a publish deletes only copies
    of its own template, under the builds their own nodes just reported, and of
    these exactly the ones older than its own promote; it does so, and tags its
    build, only when every node answered and its own copy is still the one it
    promoted; the tags are written last, on its own copy, under its own digest, and
    only when every older copy is gone.  Otherwise it fails having called nobody. *)
Theorem publish_converges {S} (T : SandboxStore S) (I : InventorySource S) (s : Server) (ordn : list string → list string)
    (ordh : list templateHolder → list templateHolder) (scope name : string) (tags : list string) (node : string) (key : PoolKey)
    (digest : string) (l : list store_call) (st : S) : (∀ hs, ordh hs ≡ₚ hs) →
  let '(r, (l', _)) := publishBuild (T := recorded_store T) (I := logged_source I) s ordn ordh scope name tags node key digest (l, st) in
  ∃ calls, l' = l ++ calls ∧ publish_outcome T I ordn ordh (scope +:+ name) node key digest tags calls r ∧
  ∀ n k d a, SCDeleteTemplate n k d a ∈ calls → pk_Template k = scope +:+ name ∧
    ∃ own other, th_digest own = digest ∧ th_node other = n ∧ th_digest other = d ∧ (th_created other < th_created own)%Z.
Proof.
  intros Hord. destruct (publish_emits T I s ordn ordh scope name tags node key digest l st) as (calls & Hl & Ho).
  destruct (publishBuild _ _ _ _ _ _ _ _ _ _) as [r [l' st']]. exists calls. split; [done|]. split; [done|].
  intros n k d a Hin. destruct Ho as [[-> _]|(st1 & nodes & answers & own & rs & _ & _ & Hown & _ & _ & Hdig & Hlen & Hc)];
    [by apply not_elem_of_nil in Hin|]. cbv zeta in *. set (holders := holders_of _ _ _) in *.
  assert (SCDeleteTemplate n k d a ∈ zip_with (λ h a, SCDeleteTemplate (th_node h) (th_key h) (th_digest h) a) (ordh (stale_of own holders)) rs) as Hz.
  { destruct (_ && _); [|by destruct Hc as [-> _]]. destruct Hc as (b & -> & _). apply elem_of_snoc in Hin as [Hin|Hin]; [done|discriminate Hin]. }
  apply elem_of_zip_with in Hz as (h & a' & [= -> -> -> _] & Hh & _). rewrite Hord in Hh. unfold stale_of in Hh.
  apply elem_of_delete_func in Hh as [Hh Hold%negb_false_iff%bool_decide_eq_true]. split; [|by exists own, h].
  subst holders. unfold holders_of in Hh. apply elem_of_concat in Hh as (hs & Hh & Hhs).
  apply elem_of_zip_with in Hhs as (n' & held & -> & _ & _). apply list_elem_of_omap in Hh as (t & _ & Ht).
  unfold live_holder in Ht. case_bool_decide as Htpl; [|done]. case_bool_decide; [|done]. simpl in Ht. by injection Ht as <-.
Qed.

(** a start spawns at most one run, and only of a waiting build of the caller's:
    when it hands out a run, the record under the caller's key was waiting and a
    slot was free, the executor has taken exactly that slot and marked exactly that
    record, and the run claims and promotes in the caller's own namespace, on the
    default lane, in the size class the request fixed, with steps that are all well
    formed.  When it hands out none, it has changed nothing, and a 202 then says the
    build had been started before. *)
Theorem startBuild_spawns {S} (T : SandboxStore S) (I : InventorySource S) (U : UploadStore S) (s : Server) (cf : settings)
    (ns name buildID claimName : string) (ordn : list string → list string) (ordh : list templateHolder → list templateHolder)
    (between : Executor → Executor) (b : body TemplateBuildStartV2) (e : Executor) :
  let id := buildKey ns name buildID in
  let '((r, spawned), e') := startBuild s cf ns name buildID claimName ordn ordh between b e in
  match spawned with
  | Some (id', spec) =>
      id' = id ∧ r = RStatus 202 ∧
      ex_slots (between e) < cf_parallel cf ∧ ex_slots e' = Datatypes.S (ex_slots (between e)) ∧
      (∃ rec pending, ex_builds (between e) !! id = Some rec ∧ in_Status (rc_info rec) = StatusWaiting ∧
        ex_builds e' = <[id := set_status StatusBuilding rec]> (ex_builds (between e)) ∧
        Request_of id e = Some pending ∧ (rq_Size pending ≠ "" → pk_Size (bs_Pool spec) = rq_Size pending)) ∧
      bs_Namespace spec = ns ∧ bs_Template spec = templatePrefix +:+ ns +:+ "/" +:+ name ∧ pk_Net (bs_Pool spec) = NetDefault ∧
      Forall (λ st, problem st (bo_Uploads (op_Builds (sv_opts s))) = "") (bs_Steps spec)
  | None =>
      (e' = e ∧ is_success r = false) ∨
      e' = between e ∧ (is_success r = true → ∃ rec, ex_builds (between e) !! id = Some rec ∧ in_Status (rc_info rec) ≠ StatusWaiting)
  end.
Proof.
  cbv zeta. unfold startBuild. destruct b as [why| |req]; [by left..|]. cbv zeta.
  set (id := buildKey ns name buildID). destruct (decide (unsupportedBuildOption _ _ ≠ [])) as [|Hmsg]; [by left|].
  destruct (decide (unsupportedBuildOption req (bo_Uploads (op_Builds (sv_opts s))) = [])) as [Hok|]; [|done]. clear Hmsg.
  apply supported_steps in Hok as [_ Hsteps]. rewrite bind_run. cbn [gets fst snd].
  destruct (Request_of id e) as [pending|] eqn:Hreq; [|by left]. rewrite bind_run. cbn [modify fst snd]. rewrite bind_run.
  unfold Start. destruct (ex_builds (between e) !! id) as [rec|] eqn:Hrec; [|right; by split].
  case_bool_decide as Hw; cbn [negb].
  - destruct (decide _) as [Hfree|Hbusy]; [|right; by split]. cbn [fst snd mret io_ret ex_slots ex_builds]. split_and!; [done|done|exact Hfree|done| |done| |done|exact Hsteps].
    + exists rec, pending. split_and!; [done..|]. intros Hs. cbn [bs_Pool pk_Size]. by apply str_or_nonempty.
    + cbn [bs_Template]. unfold templateScope. by rewrite !str_app_assoc.
  - right. split; [done|]. intros _. by exists rec.
Qed.

(** What a status reply holds of the log. *)
Definition reply_entries (r : reply) : option (list BuildLogEntry) :=
  match r with RJSON _ _ (DBuildStatus i) => Some (bi_LogEntries i) | _ => None end.

(** C23: following a build's log shows every line once and in order: a poll from any
    offset and the next poll, past what the first showed, of a log that has only
    grown since, together show a run of the log at that level without a gap or a
    repeat; and without a limit the second brings everything there is. *)
Theorem polls_resume (ns name buildID : string) (now now' : time) (q q' : query) (e e' : Executor) (i i' : Info)
    (entries entries' : list BuildLogEntry) (offset : Z) :
  (Status (buildKey ns name buildID) now e).1 = Some i → (Status (buildKey ns name buildID) now' e').1 = Some i' →
  in_Logs i `prefix_of` in_Logs i' →
  reply_entries (buildStatus ns name buildID now q e).1 = Some entries →
  reply_entries (buildStatus ns name buildID now' q' e').1 = Some entries' →
  queryInt (q_Get "logsOffset" q) = Some offset →
  queryInt (q_Get "logsOffset" q') = Some (offset + Z.of_nat (length entries))%Z →
  q_Get "level" q' = q_Get "level" q →
  let floor := Z.max (level_index (q_Get "level" q)) 0 in
  let log := logEntryOf <$> drop (Z.to_nat offset) (at_level floor (in_Logs i')) in
  entries ++ entries' `prefix_of` log ∧ (queryInt (q_Get "limit" q') = Some 0%Z → entries ++ entries' = log).
Proof.
  intros Hi Hi' Hp He He' Ho Ho' Hlev. cbv zeta. unfold buildStatus in He, He'. rewrite bind_run in He, He'.
  destruct (Status _ now e) as [oi e1]. destruct (Status _ now' e') as [oi' e1']. cbn [fst snd mret io_ret] in *. subst oi oi'.
  rewrite Ho in He. rewrite Ho', Hlev in He'. set (floor := Z.max (level_index (q_Get "level" q)) 0) in *.
  pose proof (queryInt_nonneg _ _ Ho) as Hpos.
  destruct (queryInt (q_Get "limit" q)) as [limit|]; [|done]. destruct (queryInt (q_Get "limit" q')) as [limit'|]; [|done].
  cbn in He, He'. injection He as He. injection He' as He'. rewrite log_page_run in He, He' by lia.
  destruct (pages_meet (Z.to_nat offset) limit limit' _ _ (at_level_prefix floor _ _ Hp)) as [Hall Hpre]. cbv zeta in Hall, Hpre.
  assert (length entries = length (page_of floor offset limit (in_Logs i))) as Hlen by (by rewrite <-He, length_fmap).
  rewrite Hlen in He'. unfold page_of in *. set (page := up_to limit _) in *. subst entries entries'.
  assert (Z.to_nat (offset + Z.of_nat (length page)) = Z.to_nat offset + length page) as -> by lia.
  rewrite <-fmap_app. split.
  - destruct Hpre as [tail ->]. rewrite !fmap_app. by eexists.
  - intros [= ->]. unfold up_to at 1. simpl. by rewrite Hall.
Qed.

(** *** Tenants and sizes *)

(** A handler touches no record but the one under its own key. *)
Lemma requestBuild_keeps {Q : QuantityOps} ns buildID swept now b (e : Executor) key rec : (∀ name id, key ≠ buildKey ns name id) →
  ex_builds (requestBuild ns buildID swept now b e).2 !! key = Some rec → ex_builds e !! key = Some rec.
Proof.
  intros Hkey. unfold requestBuild, decodeBody. destruct b as [why| |req]; [done..|]. destruct (cut_tag _) as [n tag].
  case_decide; [done|]. destruct (StampedName _ _ _ _); [|done]. rewrite bind_run. cbn [modify fst snd mret io_ret]. unfold Register.
  cbn [ex_builds]. rewrite lookup_insert_ne by (symmetry; apply Hkey). apply sweep_keeps.
Qed.
Lemma startBuild_keeps {S} {T : SandboxStore S} {I : InventorySource S} {U : UploadStore S} (s : Server) (cf : settings) ns name buildID claimName
    ordn ordh b (e : Executor) key rec : key ≠ buildKey ns name buildID →
  ex_builds (startBuild s cf ns name buildID claimName ordn ordh (λ e, e) b e).2 !! key = Some rec → ex_builds e !! key = Some rec.
Proof.
  intros Hkey. pose proof (startBuild_state s cf ns name buildID claimName ordn ordh (λ e, e) b e) as Hst.
  destruct (startBuild _ _ _ _ _ _ _ _ _ b e) as [[r spawned] e']. cbn [snd] in *. destruct Hst as [->|Hst]; [done|].
  destruct (Start cf (buildKey ns name buildID) e) as [x e1] eqn:Hs. cbn [snd] in Hst. subst e1. by rewrite (Start_other cf _ _ e x e' Hs Hkey).
Qed.
Lemma buildStatus_keeps ns name buildID now q (e : Executor) key rec :
  ex_builds (buildStatus ns name buildID now q e).2 !! key = Some rec → ex_builds e !! key = Some rec.
Proof. unfold buildStatus. rewrite bind_run. unfold Status. cbn [fst snd mret io_ret]. apply sweep_keeps. Qed.

(** What a start spawns is in the caller's scope. *)
Lemma startBuild_scope {S} {T : SandboxStore S} {I : InventorySource S} {U : UploadStore S} (s : Server) (cf : settings) ns name buildID claimName
    ordn ordh between b (e : Executor) r id spec :
  (startBuild s cf ns name buildID claimName ordn ordh between b e).1 = (r, Some (id, spec)) →
  id = buildKey ns name buildID ∧ bs_Namespace spec = ns ∧ bs_Template spec = templateScope ns +:+ name ∧ bs_Archive spec = archive ns name.
Proof.
  unfold startBuild. destruct b as [why| |req]; [done..|]. cbv zeta. case_decide; [done|]. rewrite bind_run. cbn [gets fst snd].
  destruct (Request_of _ e) as [pending|]; [|done]. rewrite bind_run. cbn [modify fst snd]. rewrite bind_run.
  destruct (Start _ _ _) as [[spawned|x] e1]; cbn [fst snd mret io_ret]; [|repeat case_match; done].
  destruct spawned; [|done]. intros [= _ <- <-]. done.
Qed.

(** The requests a tenant makes of the executor. *)
Inductive build_op (S : Type) :=
| OpRequest (buildID : string) (swept now : time) (b : body TemplateBuildRequestV3)
| OpStart (name buildID claimName : string) (b : body TemplateBuildStartV2)
| OpStatus (name buildID : string) (now : time) (q : query).
Arguments OpRequest {S} buildID swept now b.
Arguments OpStart {S} name buildID claimName b.
Arguments OpStatus {S} name buildID now q.

Definition run_build_op {S} {T : SandboxStore S} {I : InventorySource S} {U : UploadStore S} {Q : QuantityOps} (s : Server) (cf : settings)
    (ns : string) (op : build_op S) : io Executor reply :=
  match op with
  | OpRequest buildID swept now b => requestBuild ns buildID swept now b
  | OpStart name buildID claimName b => λ e, let '((r, _), e') := startBuild s cf ns name buildID claimName (λ l, l) (λ l, l) (λ e, e) b e in (r, e')
  | OpStatus name buildID now q => buildStatus ns name buildID now q
  end.

(** a tenant's build requests never write another tenant's builds: whatever is
    requested, started or polled in one namespace, a record of another namespace is
    afterwards what it was, or has been dropped with its time. *)
Theorem builds_by_tenant {S} {T : SandboxStore S} {I : InventorySource S} {U : UploadStore S} {Q : QuantityOps} (s : Server) (cf : settings)
    (ns other name buildID : string) (op : build_op S) (e : Executor) (rec : record) :
  ns ≠ other → has_byte "/" ns = false → has_byte "/" other = false →
  ex_builds (run_build_op s cf ns op e).2 !! buildKey other name buildID = Some rec →
  ex_builds e !! buildKey other name buildID = Some rec.
Proof.
  intros Hne Hns Hother. assert (∀ n i, buildKey other name buildID ≠ buildKey ns n i) as Hkey.
  { intros n i He. apply Hne. symmetry. by eapply buildKey_ns. }
  destruct op as [id swept now b|n i claimName b|n i now q]; cbn [run_build_op].
  - by apply requestBuild_keeps.
  - pose proof (startBuild_keeps s cf ns n i claimName (λ l, l) (λ l, l) b e (buildKey other name buildID) rec (Hkey n i)) as Hk.
    by destruct (startBuild _ _ _ _ _ _ _ _ _ b e) as [[r spawned] e'].
  - apply buildStatus_keeps.
Qed.


(** The size class of a build is the one a pod of its CPU count and memory in MiB
    would get. *)
Theorem sizeFor_spec {Q : QuantityOps} {L : QuantityLaws Q} (cpuCount memoryMB : Z) :
  sizeFor cpuCount memoryMB =
  if decide (cpuCount ≤ 0 ∧ memoryMB ≤ 0)%Z then ""
  else if decide (4 < cpuCount ∨ 8192 < memoryMB)%Z then "large"
  else if decide (1 < cpuCount ∨ 2048 < memoryMB)%Z then "medium"
  else "small".
Proof.
  unfold sizeFor. case_decide as Hnone; [done|]. unfold SizeClassForContainers, Cpu, Memory.
  cbn [ct_Requests ct_Limits rl_cpu rl_memory from_option id]. rewrite !q_gt_value.
  unfold sizeCPULarge, sizeMemLarge, sizeCPUMedium, sizeMemMedium. rewrite q_parse_1, q_parse_4, q_parse_2Gi, q_parse_8Gi.
  assert (∀ (n : Z) (x : Z), q_value (if q_IsZero (default q_zero (if decide (0 < n)%Z then Some (q_NewQuantity x) else None)) then q_zero
     else default q_zero (if decide (0 < n)%Z then Some (q_NewQuantity x) else None)) = if decide (0 < n)%Z then (x * 10 ^ 9)%Z else 0%Z) as Hv.
  { intros n x. case_decide; cbn [from_option id]; rewrite q_IsZero_value; case_bool_decide as Hz; rewrite ?q_new_value, ?q_zero_value in *; done || lia. }
  rewrite !Hv. rewrite !Z.shiftl_mul_pow2 by lia. rewrite <-!bool_decide_or.
  destruct (decide (0 < cpuCount)%Z), (decide (0 < memoryMB)%Z); repeat case_bool_decide; repeat case_decide; try done; lia.
Qed.

(** ** Witnesses *)

#[local] Existing Instance Static.source.

(** Two nodes: the build was just promoted on n1, n2 holds the one before. *)
Definition old_copy : PromotedTemplate := mkPromotedTemplate "e2b/team/app" "none" "small" "d1" "" (Some (5 * second)%Z) 1 0 ∅.
Definition new_copy : PromotedTemplate := mkPromotedTemplate "e2b/team/app" "none" "small" "d2" "" (Some (9 * second)%Z) 1 0 ∅.
Definition app_key : PoolKey := mkPoolKey "e2b/team/app" "none" "small".
Definition two_nodes : Static.StaticInventorySource :=
  Static.Put (mkNodeInventory "n2" "n2" [] "n2:9" [] [] zero_time)
    (Static.Put (mkNodeInventory "n1" "n1" [] "n1:9" [] [] zero_time) Static.NewStaticInventorySource).
#[local] Instance toy_published : SandboxStore Static.StaticInventorySource := toy_store _ build_sandbox "tok".
Definition publish_store : SandboxStore Static.StaticInventorySource := {|
  List := List; Get := Get; GetByClaimID := GetByClaimID; Claim := Claim; Release := Release; Pause := Pause; Resume := Resume;
  Fork := Fork; Snapshot := Snapshot; Snapshots := Snapshots; DeleteSnapshot := DeleteSnapshot;
  DeleteTemplate _ _ _ := mret (Ok tt);
  Promote := Promote;
  SetTemplateLabels _ _ _ _ := mret (Ok tt);
  NodeTemplates node := mret (Ok (if decide (node = "n1") then [new_copy] else [old_copy]));
  DialGuestPort := DialGuestPort; SetInstanceMetadata := SetInstanceMetadata; Read := Read; Renew := Renew;
|}.

Lemma publish_converges_witness :
  let out := publishBuild (T := recorded_store publish_store) (I := logged_source Static.source) list_server (λ l, l) (λ l, l)
    "e2b/team/" "app" ["v2"] "n1" app_key "d2" ([], two_nodes) in
  out.2.1 = [SCDeleteTemplate "n2" app_key "d1" (Ok tt); SCSetTemplateLabels "n1" app_key {["v2" := "d2"]} "d2" (Ok tt)] ∧
  ∀ n k d a, SCDeleteTemplate n k d a ∈ out.2.1 → pk_Template k = "e2b/team/app".
Proof.
  cbv zeta. pose proof (publish_converges publish_store Static.source list_server (λ l, l) (λ l, l) "e2b/team/" "app" ["v2"] "n1" app_key "d2"
    [] two_nodes (λ hs, reflexivity hs)) as H.
  destruct (publishBuild _ _ _ _ _ _ _ _ _ _) as [r [l' st']] eqn:Hrun. destruct H as (calls & -> & _ & Hdel). cbn [fst snd app].
  split; [|intros n k d a Hin; by destruct (Hdel n k d a Hin)].
  assert (calls = (publishBuild (T := recorded_store publish_store) (I := logged_source Static.source) list_server (λ l, l) (λ l, l)
    "e2b/team/" "app" ["v2"] "n1" app_key "d2" ([], two_nodes)).2.1) as -> by by rewrite Hrun.
  vm_compute. reflexivity.
Defined.

(** A log of three lines, polled when it had two. *)
Definition poll_line (n : Z) (message : string) : LogEntry := mkLogEntry (n * second)%Z "info" [message] PhaseClaim.
Definition polled (logs : list LogEntry) : Executor :=
  mkExecutor {[ "team/app/b1" := mkRecord (BuildRecords.mkRequest "" []) (mkInfo StatusBuilding logs "" []) 0%Z zero_time ]} 1.

Lemma polls_resume_witness :
  ∃ first rest, reply_entries (buildStatus "team" "app" "b1" 0%Z ∅ (polled [poll_line 1 "one"; poll_line 2 "two"])).1 = Some first ∧
    reply_entries (buildStatus "team" "app" "b1" 0%Z {[ "logsOffset" := ["2"] ]} (polled [poll_line 1 "one"; poll_line 2 "two"; poll_line 3 "three"])).1 = Some rest ∧
    first ++ rest = logEntryOf <$> [poll_line 1 "one"; poll_line 2 "two"; poll_line 3 "three"].
Proof.
  exists (logEntryOf <$> [poll_line 1 "one"; poll_line 2 "two"]), (logEntryOf <$> [poll_line 3 "three"]).
  split; [vm_compute; reflexivity|]. split; [vm_compute; reflexivity|].
  destruct (polls_resume "team" "app" "b1" 0%Z 0%Z ∅ {[ "logsOffset" := ["2"] ]} (polled [poll_line 1 "one"; poll_line 2 "two"])
    (polled [poll_line 1 "one"; poll_line 2 "two"; poll_line 3 "three"])
    (mkInfo StatusBuilding [poll_line 1 "one"; poll_line 2 "two"] "" []) (mkInfo StatusBuilding [poll_line 1 "one"; poll_line 2 "two"; poll_line 3 "three"] "" [])
    (logEntryOf <$> [poll_line 1 "one"; poll_line 2 "two"]) (logEntryOf <$> [poll_line 3 "three"]) 0%Z) as [_ Hall];
    [vm_compute; reflexivity|vm_compute; reflexivity|by exists [poll_line 3 "three"]|vm_compute; reflexivity..|].
  rewrite Hall by (vm_compute; reflexivity). vm_compute. reflexivity.
Defined.

Lemma builds_by_tenant_witness :
  ex_builds (@run_build_op _ publish_store Static.source (s3_store (B := {| head_object _ := mret (Ok tt); presign_put _ _ := mret (Err ErrNotExist); get_object _ := mret (Ok "") |})
    (newS3Uploads "")) z_quantity list_server one_slot "other" (OpRequest "b1" 7%Z 7%Z (Decoded (mkTemplateBuildRequestV3 "app" "" [] 2 1024))) (polled [])).2
    !! buildKey "team" "app" "b1" = ex_builds (polled []) !! buildKey "team" "app" "b1".
Proof.
  match goal with |- ?a = _ => destruct a as [rec|] eqn:Ha; [|vm_compute in Ha; discriminate Ha] end.
  apply builds_by_tenant in Ha; [by rewrite Ha|discriminate|reflexivity|reflexivity].
Defined.

#[local] Instance disk_inventory : InventorySource disk := {|
  Inventory.ListNodes _ := Ok [];
  Inventory.NodeInventory_of _ _ := Err ErrNotExist;
  Inventory.NodeCapacity _ _ := Err ErrNotExist;
  Inventory.NodeCapacities _ := Ok [];
|}.
Definition sample_started : (reply * option (string * Spec disk)) * Executor :=
  @startBuild disk (toy_store _ build_sandbox "tok") disk_inventory (dir_store (H := toy_hashes) sample_dir) list_server one_slot
    "team-a" "../team-b/app" "b1" "e2b-build-x" (λ l, l) (λ l, l) (λ e, e) (Decoded (mkTemplateBuildStartV2 "ubuntu" "" "" [] "" ""))
    (@requestBuild z_quantity "team-a" "b1" 7%Z 7%Z (Decoded (mkTemplateBuildRequestV3 "../team-b/app" "" [] 2 1024)) (mkExecutor ∅ 0)).2.

