(* ===== verification/E2bApi.v ===== *)
(** * The e2b surface (pkg/e2bcompat/server.go: Handler)

    The whole surface as one handler: the table of routes, the multiplexer in front
    of it, the API key, and the handlers of [E2bServer], [E2bSandboxes],
    [E2bTemplates], [E2bBuilds] and [E2bUploads] over one state: the build executor,
    the runs that were spawned, and the world the store, the inventory and the
    archives live in.

    A request is its method, its escaped path, its query, its key and its body.
    Clock readings, generated names and the orders of the fan-outs are inputs; the
    decoders of the JSON bodies are a class, which [E2bWire] implements. *)

From S2P Require Import Prelude GoStd GoNum GoText GoCodec GoMux Api PoolKeys SandboxView Inventory Client StoreRead StoreLifecycle Store SandboxId.
From S2P Require Import E2bServer E2bGuest E2bTemplates E2bSandboxes BuildRecords BuildRun E2bUploads E2bBuilds.

(** ** Routes *)

Inductive endpoint :=
| CreateSandbox | ListSandboxes | ListSandboxesV2 | GetSandbox | DeleteSandbox | SetTimeout | Refresh
| PauseSandbox | ConnectTo | ResumeSandbox | ForkSandbox | CreateSnapshot | ListSnapshots
| SandboxMetrics | SandboxesMetrics | Logs (reply : document)
| ListTemplates | GetTemplate | PatchTemplate | TemplateAlias | TemplateSub | AssignTags | DeleteTags | DeleteTemplateOr
| RequestBuild | StartBuild | BuildStatus | FileUploadLink.

(** What a route leads to: the probe, a handler behind the API key, or the archives'
    own PUT, which its signed link authorizes. *)
Inductive handler := Health | Authed (ep : endpoint) | PutArchive (d : dirUploads).

(** The archives' store, when there is one. *)
Inductive uploads := DirUploads (d : dirUploads) | S3Uploads (u : s3Uploads).

Definition sandbox_routes : list (string * handler) := [
  ("GET /health", Health);
  ("POST /sandboxes", Authed CreateSandbox);
  ("POST /v2/sandboxes", Authed CreateSandbox);
  ("GET /sandboxes", Authed ListSandboxes);
  ("GET /v2/sandboxes", Authed ListSandboxesV2);
  ("GET /sandboxes/{sandboxID}", Authed GetSandbox);
  ("DELETE /sandboxes/{sandboxID}", Authed DeleteSandbox);
  ("POST /sandboxes/{sandboxID}/timeout", Authed SetTimeout);
  ("POST /sandboxes/{sandboxID}/refreshes", Authed Refresh);
  ("POST /sandboxes/{sandboxID}/pause", Authed PauseSandbox);
  ("POST /sandboxes/{sandboxID}/connect", Authed ConnectTo);
  ("POST /v2/sandboxes/{sandboxID}/connect", Authed ConnectTo);
  ("POST /sandboxes/{sandboxID}/resume", Authed ResumeSandbox);
  ("POST /sandboxes/{sandboxID}/fork", Authed ForkSandbox);
  ("POST /sandboxes/{sandboxID}/snapshots", Authed CreateSnapshot);
  ("GET /snapshots", Authed ListSnapshots);
  ("GET /sandboxes/{sandboxID}/metrics", Authed SandboxMetrics);
  ("GET /sandboxes/metrics", Authed SandboxesMetrics);
  ("GET /sandboxes/{sandboxID}/logs", Authed (Logs DLogs));
  ("GET /v2/sandboxes/{sandboxID}/logs", Authed (Logs DLogsV2))
].
Definition template_routes : list (string * handler) := [
  ("GET /templates", Authed ListTemplates);
  ("GET /v2/templates", Authed ListTemplates);
  ("GET /templates/{templateID}", Authed GetTemplate);
  ("PATCH /templates/{templateID}", Authed PatchTemplate);
  ("GET /templates/aliases/{alias}", Authed TemplateAlias);
  ("GET /templates/{templateID}/{sub}", Authed TemplateSub);
  ("POST /templates/tags", Authed AssignTags);
  ("DELETE /templates/tags", Authed DeleteTags);
  ("DELETE /templates/{templateID}", Authed DeleteTemplateOr)
].
Definition build_routes : list (string * handler) := [
  ("POST /v3/templates", Authed RequestBuild);
  ("POST /v2/templates/{templateID}/builds/{buildID}", Authed StartBuild);
  ("GET /templates/{templateID}/builds/{buildID}/status", Authed BuildStatus)
].

(** The table [Handler] registers for a server and its upload store. *)
Definition routes (s : Server) (up : option uploads) : list (string * handler) :=
  sandbox_routes ++ template_routes ++
  if decide (0 < bo_Parallel (op_Builds (sv_opts s)))%Z then
    build_routes ++
    match up with
    | None => []
    | Some (DirUploads d) =>
        [("GET /templates/{templateID}/files/{hash}", Authed FileUploadLink); ("PUT /templates/{templateID}/files/{hash}", PutArchive d)]
    | Some (S3Uploads _) => [("GET /templates/{templateID}/files/{hash}", Authed FileUploadLink)]
    end
  else [].

(** ** Requests *)

Record request := mkHTTPRequest {
  rq_Method : string;
  rq_Path : string;
  rq_RawQuery : string;
  rq_APIKey : string;
  rq_Link : link_request;
  rq_Body : stream;
}.

(** What is not determined by the request: the clock, generated names, the order a
    fan-out reaches its targets in, and what happens to the executor between two
    calls of one handler. *)
Record inputs := mkInputs {
  in_now : time;
  in_clock : Assignment → time;
  in_name : string;
  in_buildID : string;
  in_swept : time;
  in_rand : string;
  in_holders : list templateHolder → list templateHolder;
  in_children : list Assignment → list Assignment;
  in_listers : list (nat * string) → list (nat * string);
  in_ids : list string → list string;
  in_nodes : list string → list string;
  in_between : Executor → Executor;
}.

(** [json.Decoder] on a request's body, for each type of body. *)
Class RequestCodec := {
  decode_create : stream → body NewSandbox;
  decode_timeout : stream → body Z;
  decode_refresh : stream → body (option Z);
  decode_pause : stream → body (option bool);
  decode_connect : stream → body ConnectSandbox;
  decode_resume : stream → body ResumedSandbox;
  decode_fork : stream → body SandboxForkRequest;
  decode_snapshot : stream → body string;
  decode_patch : stream → body unit;
  decode_tags : stream → body (string * list string);
  decode_untags : stream → body (string * list string);
  decode_build : stream → body TemplateBuildRequestV3;
  decode_start : stream → body TemplateBuildStartV2;
}.

(** ** The state *)

Record api (S : Type) := mkApi {
  ap_builds : Executor;
  ap_spawned : list (string * Spec S);
  ap_world : S;
}.
Arguments mkApi {S} _ _ _.
Arguments ap_builds {S} _.
Arguments ap_spawned {S} _.
Arguments ap_world {S} _.

Definition in_world {S A} (m : io S A) : io (api S) A := λ a,
  let '(r, w) := m (ap_world a) in (r, mkApi (ap_builds a) (ap_spawned a) w).
Definition in_builds {S A} (m : io Executor A) : io (api S) A := λ a,
  let '(r, e) := m (ap_builds a) in (r, mkApi e (ap_spawned a) (ap_world a)).
(** A handler of the executor that may spawn a run. *)
Definition spawning {S} (m : io Executor (reply * option (string * Spec S))) : io (api S) reply := λ a,
  let '((r, run), e) := m (ap_builds a) in (r, mkApi e (ap_spawned a ++ option_list run) (ap_world a)).

(** ** The handler *)

Section serve.
Context {S : Type} {T : SandboxStore S} {I : InventorySource S} {F : RootFS S} {B : Bucket S} {G : GuestHTTP S}.
Context {GC : GuestCodec} {MC : MetadataCodec} {RC : RequestCodec} {H : EnvdHashes} {U : CaseMap} {Q : QuantityOps}.
Context (buildUUID : string → string).

Definition uploads_store (up : uploads) : UploadStore S :=
  match up with DirUploads d => dir_store d | S3Uploads u => s3_store u end.

(** A build's archives are opened only when its steps may copy, which needs a store. *)
Definition archives (up : option uploads) : UploadStore S :=
  match up with
  | Some up => uploads_store up
  | None => {| present _ := mret (Err (ErrPanic "nil upload store")); uploadURL _ _ _ := mret (Err (ErrPanic "nil upload store"));
               open _ := mret (Err (ErrPanic "nil upload store")) |}
  end.

(** The authenticated handlers, in the namespace of the key; [v] looks up a value of
    the path. *)
Definition dispatch (s : Server) (up : option uploads) (i : inputs) (r : request) (ep : endpoint) (v : string → string) (ns : string) :
    io (api S) reply :=
  let q := parse_query (rq_RawQuery r) in
  let id := v "sandboxID" in
  let name := v "templateID" in
  let b := op_Builds (sv_opts s) in
  match ep with
  | CreateSandbox => in_world (createSandbox s (in_now i) ns (in_name i) (decode_create (rq_Body r)))
  | ListSandboxes => in_world (listSandboxes s ns (in_now i) q)
  | ListSandboxesV2 => in_world (listSandboxesV2 s ns (in_now i) q)
  | GetSandbox => in_world (getSandbox s (in_now i) ns id)
  | DeleteSandbox => in_world (deleteSandbox ns id)
  | SetTimeout => in_world (setTimeout ns id (decode_timeout (rq_Body r)))
  | Refresh => in_world (refresh s ns id (decode_refresh (rq_Body r)))
  | PauseSandbox => in_world (pauseSandbox ns id (decode_pause (rq_Body r)))
  | ConnectTo => in_world (connectSandbox s (in_now i) ns id (decode_connect (rq_Body r)))
  | ResumeSandbox => in_world (resumeSandbox s (in_now i) ns id (decode_resume (rq_Body r)))
  | ForkSandbox => in_world (forkSandbox s (in_clock i) (in_children i) ns id (decode_fork (rq_Body r)))
  | CreateSnapshot => in_world (createSnapshot ns id (decode_snapshot (rq_Body r)))
  | ListSnapshots => in_world (listSnapshots s (in_listers i) ns q)
  | SandboxMetrics => in_world (sandboxMetrics s (in_now i) ns id)
  | SandboxesMetrics => in_world (sandboxesMetrics s (in_now i) (in_ids i) ns q)
  | Logs reply => in_world (sandboxLogs reply ns id)
  | ListTemplates => in_world (listTemplates buildUUID s ns)
  | GetTemplate => in_world (getTemplate buildUUID s ns name)
  | PatchTemplate => in_world (patchTemplate s ns name (decode_patch (rq_Body r)))
  | TemplateAlias => in_world (templateAlias s ns (v "alias"))
  | TemplateSub => in_world (templateSub buildUUID s ns name (v "sub"))
  | AssignTags => in_world (assignTemplateTags buildUUID s (in_holders i) ns (decode_tags (rq_Body r)))
  | DeleteTags => in_world (deleteTemplateTags s (in_holders i) ns (decode_untags (rq_Body r)))
  | DeleteTemplateOr => in_world (deleteTemplateOrSnapshot s (in_holders i) (in_listers i) ns name)
  | RequestBuild => in_builds (requestBuild ns (in_buildID i) (in_swept i) (in_now i) (decode_build (rq_Body r)))
  | StartBuild =>
      spawning (startBuild (U := archives up) s (mkSettings (Z.to_nat (bo_Parallel b)) (bo_LogLines b)) ns name (v "buildID")
        (in_name i) (in_nodes i) (in_holders i) (in_between i) (decode_start (rq_Body r)))
  | BuildStatus => in_builds (buildStatus ns name (v "buildID") (in_now i) q)
  | FileUploadLink => in_world (fileUploadLink (U := archives up) (in_now i) (rq_Link r) ns name (v "hash"))
  end.

(** [Handler]: the health check and the archive PUT carry no key. *)
Definition serve (s : Server) (up : option uploads) (i : inputs) (r : request) : io (api S) reply :=
  match mux_route (routes s up) (rq_Method r) (rq_Path r) with
  | Redirected => mret (RStatus 301)
  | NotRouted => mret (RStatus 404)
  | NotAllowed => mret (RStatus 405)
  | Routed ep values =>
      let v name := default "" (values !! name) in
      match ep with
      | Health => mret (RStatus 204)
      | Authed ep => auth s (rq_APIKey r) (dispatch s up i r ep v)
      | PutArchive d =>
          in_world (ServeHTTP d (in_now i) (in_rand i) (v "templateID") (v "hash") (parse_query (rq_RawQuery r)) (rq_Body r))
      end
  end.
End serve.

(** ** The server NewServer builds *)

(** What the rest of the surface relies on. *)
Record server_ok (opts : Options) (s : Server) : Prop := {
  so_opts : sv_opts s = with_defaults opts;
  so_keyed : sv_keys s ≠ ∅ ∨ op_AllowAnonymous opts = true;
  so_scoped : op_Namespace (sv_opts s) ≠ "" ∧ ∀ k ns, sv_keys s !! k = Some ns → k ≠ "" ∧ ns ≠ "";
  so_keys k ns : sv_keys s !! k = Some ns →
    ∃ entry, entry ∈ op_APIKeys opts ∧ (fields entry = [k; ns] ∨ fields entry = [k] ∧ ns = op_Namespace (sv_opts s));
  so_domain : trim_space (op_Domain (sv_opts s)) ≠ "";
  so_secret : op_EnvdSecret (sv_opts s) ≠ "";
  so_aliases a key : sv_aliases s !! a = Some key → a ≠ "" ∧ pk_Net key = "" ∧ pk_Size key ∈ sizeClasses ∧
    ∃ entry rest, entry ∈ op_TemplateAliases opts ∧ fields entry = a :: pk_Template key :: rest;
  so_images image a : a ∈ default [] (sv_imageAliases s !! image) ↔ ∃ key, sv_aliases s !! a = Some key ∧ pk_Template key = image;
  so_sorted image : StronglySorted String.le (default [] (sv_imageAliases s !! image)) ∧ NoDup (default [] (sv_imageAliases s !! image));
}.

Lemma fields_nonempty s w : w ∈ fields s → w ≠ "".
Proof. unfold fields. intros [_ H%negb_true_iff%bool_decide_eq_false]%list_elem_of_In%filter_In. done. Qed.

Lemma api_keys_spec namespace entries keys keys' : api_keys namespace entries keys = Ok keys' → ∀ k ns, keys' !! k = Some ns →
  keys !! k = Some ns ∨ ∃ entry, entry ∈ entries ∧ (fields entry = [k; ns] ∨ fields entry = [k] ∧ ns = namespace).
Proof.
  revert keys. induction entries as [|entry entries IH]; intros keys; cbn [api_keys]; [intros [= ->]; by left|].
  assert (∀ k ns, (∃ e, e ∈ entries ∧ (fields e = [k; ns] ∨ fields e = [k] ∧ ns = namespace)) →
    ∃ e, e ∈ entry :: entries ∧ (fields e = [k; ns] ∨ fields e = [k] ∧ ns = namespace)) as Hw.
  { intros k ns (e & ? & ?). exists e. split; [by constructor|done]. }
  destruct (fields entry) as [|k1 [|n1 [|]]] eqn:Hf; [| | |done]; intros Hk k ns Hl; destruct (IH _ Hk k ns Hl) as [H|H]; auto;
    apply lookup_insert_Some in H as [[-> <-]|[_ H]]; auto; right; exists entry; (split; [constructor|auto]).
Qed.

(** The aliases and the aliases of each image say the same. *)
Definition aliases_ok (entries : list string) (aliases : gmap string PoolKey) (images : gmap string (list string)) : Prop :=
  (∀ a key, aliases !! a = Some key → a ≠ "" ∧ pk_Net key = "" ∧ pk_Size key ∈ sizeClasses ∧
     ∃ entry rest, entry ∈ entries ∧ fields entry = a :: pk_Template key :: rest) ∧
  (∀ image a, a ∈ default [] (images !! image) ↔ ∃ key, aliases !! a = Some key ∧ pk_Template key = image) ∧
  (∀ image, NoDup (default [] (images !! image))).

Lemma aliases_add entries entry a image rest size aliases images : aliases_ok entries aliases images →
  entry ∈ entries → fields entry = a :: image :: rest → size ∈ sizeClasses → aliases !! a = None →
  aliases_ok entries (<[a := mkPoolKey image "" size]> aliases) (<[image := default [] (images !! image) ++ [a]]> images).
Proof.
  intros (Ha & Hi & Hn) Hin Hf Hsize Hnew. split_and!.
  - intros b key [[<- <-]|[_ Hb]]%lookup_insert_Some; [|by apply Ha]. split_and!; [|done|done|by exists entry, rest].
    apply (fields_nonempty entry). rewrite Hf. constructor.
  - intros im b. destruct (decide (im = image)) as [->|Hne].
    + rewrite lookup_insert_eq. cbn [from_option id]. rewrite elem_of_app, list_elem_of_singleton, Hi. split.
      * intros [(key & Hk & <-)| ->]; [|eexists; by rewrite lookup_insert_eq].
        exists key. rewrite lookup_insert_ne; [done|congruence].
      * intros (key & [[<- <-]|[_ Hk]]%lookup_insert_Some & Ht); [by right|left; by exists key].
    + rewrite lookup_insert_ne by done. rewrite Hi. split.
      * intros (key & Hk & Ht). exists key. rewrite lookup_insert_ne; [done|congruence].
      * intros (key & [[<- <-]|[_ Hk]]%lookup_insert_Some & Ht); [done|by exists key].
  - intros im. destruct (decide (im = image)) as [->|Hne]; [|by rewrite lookup_insert_ne].
    rewrite lookup_insert_eq. cbn [from_option id]. apply NoDup_app. split; [apply Hn|]. split; [|apply NoDup_singleton].
    intros b Hb ->%list_elem_of_singleton. apply Hi in Hb as (key & Hk & _). congruence.
Qed.

Lemma template_aliases_spec all entries aliases images aliases' images' : (∀ e, e ∈ entries → e ∈ all) →
  aliases_ok all aliases images → template_aliases entries aliases images = Ok (aliases', images') → aliases_ok all aliases' images'.
Proof.
  revert aliases images. induction entries as [|entry entries IH]; intros aliases images Hall Hok; cbn [template_aliases]; [by intros [= -> ->]|].
  assert (∀ e, e ∈ entries → e ∈ all) as Hall' by (intros; apply Hall; by constructor). pose proof (Hall entry ltac:(constructor)) as Hin.
  destruct (fields entry) as [|a [|image rest]] eqn:Hf; [done..|]. case_decide; [done|]. case_decide as Hd; [done|].
  assert (aliases !! a = None) as Hnone by (destruct (aliases !! a); [exfalso; apply Hd; eauto|done]).
  destruct rest as [|size rest]; [|case_decide; [|done]]; apply IH; try done; eapply aliases_add; try done. apply list_elem_of_here.
Qed.

(** The scopes a server serves. *)
Lemma NewServer_scopes store resolver opts s : NewServer store resolver opts = Ok s →
  op_Namespace (sv_opts s) ≠ "" ∧ ∀ k ns, sv_keys s !! k = Some ns → k ≠ "" ∧ ns ≠ "".
Proof.
  assert (op_Namespace (with_defaults opts) ≠ "") as Hns.
  { cbn. unfold str_or. by destruct (decide _). }
  unfold NewServer. intros Hs. destruct (negb store); [done|]. destruct (negb resolver); [done|]. cbv zeta in Hs.
  destruct (api_keys _ _ _) as [keys|e] eqn:Hk; [|done]. repeat case_match; simplify_eq. cbn [sv_opts sv_keys].
  split; [done|]. intros k ns Hl. destruct (api_keys_spec _ _ _ _ Hk k ns Hl) as [Hl'|(entry & _ & [Hf|[Hf ->]])];
    [by rewrite lookup_empty in Hl'|split..]; try done; apply (fields_nonempty entry); rewrite Hf; auto using list_elem_of_here, list_elem_of_further.
Qed.

(** C33: a server that NewServer accepts is well formed: it authenticates or was told
    not to, every key and the default scope name a namespace, an access token can
    be derived and a host rendered; each key comes from an entry of the
    configuration; an alias names an image in a known size class, and the aliases
    of an image are, once each and in order, those that name it. *)
Theorem NewServer_ok (store resolver : bool) (opts : Options) (s : Server) :
  NewServer store resolver opts = Ok s → server_ok opts s.
Proof.
  intros Hs. pose proof (NewServer_scopes _ _ _ _ Hs) as Hscoped. revert Hs.
  unfold NewServer. destruct store; [|done]. destruct resolver; [|done]. cbn [negb]. cbv zeta.
  set (o := with_defaults opts). destruct (api_keys _ _ _) as [keys|e] eqn:Hk; [|done].
  destruct (bool_decide (keys = ∅) && negb (op_AllowAnonymous o)) eqn:Hanon; [done|]. destruct (decide (trim_space (op_Domain o) = "")) as [|Hdom]; [done|]. destruct (decide (op_EnvdSecret o = "")) as [|Hsec]; [done|].
  destruct (template_aliases _ _ _) as [[aliases images]|e] eqn:Ha; [|done]. intros [= <-].
  assert (∀ k ns, keys !! k = Some ns → ∃ entry, entry ∈ op_APIKeys opts ∧ (fields entry = [k; ns] ∨ fields entry = [k] ∧ ns = op_Namespace o)) as Hkeys.
  { intros k ns Hl. destruct (api_keys_spec _ _ _ _ Hk k ns Hl) as [?|?]; [by rewrite lookup_empty in *|done]. }
  destruct (template_aliases_spec (op_TemplateAliases o) (op_TemplateAliases o) ∅ ∅ aliases images) as (Hal & Him & Hnd); [done| |done|].
  { split_and!; [intros ??; by rewrite lookup_empty| |intros ?; rewrite lookup_empty; constructor].
    intros image a. rewrite lookup_empty. split; [by intros ?%not_elem_of_nil|]. intros (key & Hkey & _). by rewrite lookup_empty in Hkey. }
  split; cbn [sv_opts sv_keys sv_aliases sv_imageAliases]; try done.
  - apply andb_false_iff in Hanon as [?%bool_decide_eq_false|?%negb_false_iff]; [by left|by right].
  - intros image a. rewrite lookup_fmap. rewrite <-Him. destruct (images !! image) as [l|]; [|done]. cbn. by rewrite merge_sort_Permutation.
  - intros image. rewrite lookup_fmap. specialize (Hnd image). destruct (images !! image) as [l|]; cbn in *; [|split; constructor].
    split; [apply (StronglySorted_merge_sort String.le)|by rewrite merge_sort_Permutation].
Qed.

(** ** What a request may ask of the store *)

(** The namespace an API key stands for. *)
Definition caller (s : Server) (key : string) : option string :=
  if decide (sv_keys s = ∅) then Some (op_Namespace (sv_opts s)) else namespaceForKey s key.

Lemma auth_caller {S} (s : Server) key (next : string → io S reply) :
  auth s key next = match caller s key with None => mret (RError 401 ["invalid API key"]) | Some ns => next ns end.
Proof. unfold auth, caller. by case_decide. Qed.

(** A sandbox of the caller's: one the store resolves in its namespace, or one this
    very request claimed there or forked there. *)
Definition mine {S} (T : SandboxStore S) {U : CaseMap} (ns : string) (calls : list store_call) (node id : string) : Prop :=
  (∃ public sb, owned T ns public sb ∧ node = sb_NodeName sb ∧ id = claimIDOf sb) ∨
  (∃ name pool opts a, SCClaim ns name pool opts (Ok a) ∈ calls ∧ node = as_Node a ∧ id = as_SandboxName a) ∨
  (∃ n i count ttl children child, SCFork ns n i count ttl (Ok children) ∈ calls ∧ child ∈ children ∧
     node = as_Node child ∧ id = as_SandboxName child).

(** A call a request of namespace [ns] may make, among its [calls]. *)
Definition permitted {S} (T : SandboxStore S) {U : CaseMap} (s : Server) (ns : string) (calls : list store_call) (c : store_call) : Prop :=
  (∀ node id, call_target c = Some (node, id) → mine T ns calls node id) ∧
  match c with
  | SCClaim ns' _ pool _ _ => ns' = ns ∧
      (has_prefix templatePrefix (pk_Template pool) = true →
       has_prefix (templateScope ns) (pk_Template pool) = true ∨
       ∃ ref key, sv_aliases s !! ref = Some key ∧ pk_Template key = pk_Template pool)
  | SCFork ns' _ _ _ _ _ => ns' = ns
  | SCSnapshot _ _ name _ => has_prefix (ns +:+ "/") name = true
  | SCDeleteSnapshot node snapshotID _ => own_snapshot (T := T) ns snapshotID node
  | SCDeleteTemplate _ key _ _ | SCSetTemplateLabels _ key _ _ _ => has_prefix (templateScope ns) (pk_Template key) = true
  | SCPromote _ _ _ _ => False
  | _ => True
  end.

(** Archives of a recorded world: their requests are not calls of the store. *)
#[export] Instance logged_fs {L S} (F : RootFS S) : RootFS (list L * S) := {|
  fs_Stat name := silently (fs_Stat name);
  fs_MkdirAll name := silently (fs_MkdirAll name);
  fs_Create name := silently (fs_Create name);
  fs_Copy name content := silently (fs_Copy name content);
  fs_Close name := silently (fs_Close name);
  fs_Rename oldname newname := silently (fs_Rename oldname newname);
  fs_Remove name := silently (fs_Remove name);
  fs_Open name := silently (fs_Open name);
|}.
#[export] Instance logged_bucket {L S} (B : Bucket S) : Bucket (list L * S) := {|
  head_object key := silently (head_object key);
  presign_put key ttl := silently (presign_put key ttl);
  get_object key := silently (get_object key);
|}.

(** ** Lemmas *)

Section scoped.
Context {S : Type} (T : SandboxStore S) `{!StoreLaws S T} (I : InventorySource S) (F : RootFS S) (B : Bucket S) (G : GuestHTTP S).
Context {GC : GuestCodec} {MC : MetadataCodec} {RC : RequestCodec} {H : EnvdHashes} {U : CaseMap} {Q : QuantityOps}.
Context (buildUUID : string → string).
#[local] Existing Instance logged_source.
#[local] Existing Instance logged_guest.
#[local] Instance rec_api : SandboxStore (list store_call * S) := recorded_store T.
#[local] Existing Instance logged_fs.
#[local] Existing Instance logged_bucket.

(** *** Handlers that ask nothing of the store *)

Definition still {A} (m : io (list store_call * S) A) : Prop := emits m (λ t _, t = []).

Lemma still_ret {A} (a : A) : still (mret a).
Proof. by apply emits_ret. Qed.
Lemma still_bind {A A'} (m : io (list store_call * S) A) (k : A → io (list store_call * S) A') : still m → (∀ a, still (k a)) → still (m ≫= k).
Proof. intros Hm Hk. eapply emits_bind; [exact Hm|]. intros t a ->. apply Hk. Qed.
Lemma still_silently {A} (m : io S A) : still (silently m).
Proof. eapply emits_mono; [apply emits_silently|]. by intros t a [-> _]. Qed.
Lemma still_gets {A} (f : list store_call * S → A) : still (gets f).
Proof. eapply emits_mono; [apply emits_gets|]. by intros t a [-> _]. Qed.
Lemma still_of {A} (m : io (list store_call * S) A) (P : A → Prop) : emits m (λ t r, t = [] ∧ P r) → still m.
Proof. intros Hm. eapply emits_mono; [exact Hm|]. by intros t r [-> _]. Qed.

(** Steps through a handler whose every request is a read. *)
Ltac still_step :=
  match goal with
  | |- still (mret _) => apply still_ret
  | |- still (_ ≫= _) => apply still_bind; [|intros ?]
  | |- still (gets _) => apply still_gets
  | |- still (match ?x with _ => _ end) => destruct x
  | |- still (let '(_, _) := ?x in _) => destruct x
  | |- still _ => first [apply still_silently | eapply still_of; eassumption]
  end.
Ltac still := cbv zeta; repeat (still_step; cbv zeta).

Lemma put_still rand key content : still (put rand key content).
Proof. unfold put, try. still. Qed.
Lemma ServeHTTP_still d now rand t h q content : still (ServeHTTP d now rand t h q content).
Proof. unfold ServeHTTP, store_upload. still. apply put_still. Qed.
Lemma archives_still up key now r :
  still (present (UploadStore := archives up) key) ∧ still (uploadURL (UploadStore := archives up) now r key).
Proof. destruct up as [[d|u]|]; split; cbn; unfold dir_present, s3_present, s3_uploadURL; still. Qed.
Lemma fileUploadLink_still up now r ns t h : still (fileUploadLink (U := archives up) now r ns t h).
Proof. unfold fileUploadLink. still; apply archives_still; done. Qed.
Lemma resolve_still s ns ref : still (resolveTemplate s ns ref).
Proof. eapply still_of, resolveTemplate_emits. Qed.
Lemma builtTemplate_or_still s ns name : still (builtTemplate_or s ns name).
Proof. unfold builtTemplate_or. still. apply resolve_still. Qed.
Lemma listed_still s ns now q : still (listed s ns now q).
Proof. unfold listed. still. Qed.

(** *** Handlers that act *)

Abbreviation scoped s ns m := (emits m (λ t _, Forall (permitted T s ns t) t)).

Lemma still_scoped {A} s ns (m : io (list store_call * S) A) : still m → scoped s ns m.
Proof. intros Hm. eapply emits_mono; [exact Hm|]. by intros t r ->. Qed.

Lemma mine_mono ns t t' node id : (∀ c, c ∈ t → c ∈ t') → mine T ns t node id → mine T ns t' node id.
Proof.
  intros Hsub [?|[(name & pool & opts & a & Hin & ?)|(n & i & count & ttl & cs & child & Hin & ?)]]; [by left|right; left|right; right].
  - exists name, pool, opts, a. auto.
  - exists n, i, count, ttl, cs, child. auto.
Qed.
Lemma permitted_mono s ns t t' c : (∀ c, c ∈ t → c ∈ t') → permitted T s ns t c → permitted T s ns t' c.
Proof. intros Hsub [Ht Hc]. split; [|exact Hc]. intros node id Hn. by eapply mine_mono; [|apply Ht]. Qed.

(** A call on a sandbox that only needs to be the caller's. *)
Lemma permitted_guest s ns t node id c : guest_call node id c → mine T ns t node id → permitted T s ns t c.
Proof. intros Hg Hm. destruct c; try done; simpl in Hg; destruct_and?; subst; by split; [intros ?? [= <- <-]|]. Qed.
Lemma permitted_release s ns t node id r : mine T ns t node id → permitted T s ns t (SCRelease node id r).
Proof. intros Hm. by split; [intros ?? [= <- <-]|]. Qed.

Lemma isolated_permitted s ns id t r : isolated T ns id t r → Forall (permitted T s ns t) t.
Proof.
  intros [->|(sb & Ho & Hw)]; [constructor|]. eapply Forall_impl; [exact Hw|]. intros c [Ht Hc]. split.
  - intros node i Hn. destruct Ht as [Hsb|(count & ttl & cs & child & Hf & Hin & Hch)].
    + rewrite Hsb in Hn. simplify_eq. left. by exists id, sb.
    + rewrite Hch in Hn. simplify_eq. right; right. by exists (sb_NodeName sb), (claimIDOf sb), count, ttl, cs, child.
  - destruct c; try done; destruct Ht as [?|(? & ? & ? & ? & _ & _ & ?)]; done.
Qed.

Lemma settled_permitted s ns a calls r t : settled s a calls r → (∃ name pool opts, SCClaim ns name pool opts (Ok a) ∈ t) →
  (∀ c, c ∈ calls → c ∈ t) → Forall (permitted T s ns t) calls.
Proof.
  intros (guest & Hg & Hcase) (name & pool & opts & Hin) Hsub.
  assert (mine T ns t (as_Node a) (as_SandboxName a)) as Hm by (right; left; by exists name, pool, opts, a).
  assert (Forall (permitted T s ns t) guest) as Hgp.
  { eapply Forall_impl; [exact Hg|]. intros c Hc. by eapply permitted_guest. }
  destruct Hcase as [(-> & _)|(res & -> & _)]; [done|]. apply Forall_app. split; [done|]. apply Forall_singleton. by apply permitted_release.
Qed.

Lemma create_permitted s ns name b t r : create_outcome (I := I) s ns name b t r → Forall (permitted T s ns t) t.
Proof.
  intros [[-> _]|(req & a & rest & _ & _ & Hscope & -> & Hrest)]; [constructor|]. set (t := _ :: rest).
  assert (∀ a, a = a → ∀ c, claim_settled s a c r → (∃ name pool opts, SCClaim ns name pool opts a ∈ t) →
    (∀ x, x ∈ c → x ∈ t) → Forall (permitted T s ns t) c) as Hset.
  { intros [a'|e] _ c Hs (n' & pool & opts & Hin) Hsub; [|by destruct Hs as [-> _]]. eapply settled_permitted; [exact Hs|by exists n', pool, opts|done]. }
  constructor.
  - split; [done|]. split; [done|]. intros Hp. destruct Hscope as [[key Hk]|Hn]; [|congruence]. right. exists (nw_TemplateID req), key.
    split; [done|]. unfold createPool, poolKey. by rewrite Hk.
  - destruct Hrest as [Hs|(e & h & a' & rest' & -> & _ & [Hown _] & -> & Hs)].
    + apply (Hset a eq_refl); [done|by eexists _, _, _; constructor|by intros; constructor].
    + constructor.
      * split; [done|]. split; [done|]. intros _. left. apply has_prefix_spec. by eexists.
      * apply (Hset a' eq_refl); [done| |by intros; do 2 constructor]. eexists _, _, _. do 2 constructor.
Qed.

Lemma metricsOfAll_scoped s now ns ids out : ns ≠ "" → scoped s ns (metricsOfAll s now ns ids out).
Proof.
  intros Hns. revert out. induction ids as [|id ids IH]; intros out; cbn [metricsOfAll]; [by apply emits_ret|].
  eapply emits_silent_bind; [by apply (lookup_emits T)|]. intros [sb|e] Hsb; [|apply IH].
  eapply emits_bind; [apply (readEnvdMetrics_emits T G)|]. intros t m Ht. eapply emits_mono; [apply IH|]. intros t' r Ht'. apply Forall_app. split.
  - eapply Forall_impl; [exact Ht|]. intros c Hc. eapply permitted_guest; [exact Hc|]. left. exists id, sb. split; [by apply Hsb|done].
  - eapply Forall_impl; [exact Ht'|]. intros c. apply permitted_mono. intros x Hx. apply elem_of_app. by right.
Qed.

(** Writes to the copies of a template of the caller's. *)
Lemma builtTemplate_or_emits s ns name : emits (C := store_call) (builtTemplate_or s ns name) (λ t r, t = [] ∧ ∀ b, r = inl b →
  Forall (λ h, has_prefix (templateScope ns) (pk_Template (th_key h)) = true) (bt_holders b)).
Proof.
  unfold builtTemplate_or. eapply emits_silent_bind; [apply resolveTemplate_emits|]. intros [[b pool] err] Hb. apply emits_ret. split; [done|].
  intros b' Hr. destruct err; [done|]. destruct b as [b|]; [|by destruct pool]. simplify_eq. destruct (Hb b' eq_refl) as (st & nodes & Hn & Hbt).
  apply Forall_forall. intros h Hh. destruct (holder_own _ ns name st nodes b' h Hn Hbt Hh) as [-> _]. apply has_prefix_spec. by eexists.
Qed.

Lemma forEach_scoped s ns (fn : templateHolder → io (list store_call * S) (result unit)) (mk : templateHolder → result unit → store_call) hs :
  (∀ h, emits (fn h) (λ t r, ∃ a, t = [mk h a])) → (∀ t h a, h ∈ hs → permitted T s ns t (mk h a)) → scoped s ns (forEach hs fn).
Proof.
  intros Hfn Hmk. induction hs as [|h hs IH]; cbn [forEach]; [by apply emits_ret|].
  eapply emits_bind; [apply Hfn|]. intros t r [a ->]. eapply emits_bind; [apply IH; intros; apply Hmk; by constructor|].
  intros t' rest Ht'. apply emits_ret. rewrite app_nil_r. constructor; [apply Hmk; constructor|].
  eapply Forall_impl; [exact Ht'|]. intros c. apply permitted_mono. by constructor.
Qed.

Definition own_holders (ns : string) (b : builtTemplate) : Prop :=
  Forall (λ h, has_prefix (templateScope ns) (pk_Template (th_key h)) = true) (bt_holders b).

Lemma writeTags_scoped s ns ord b tags : (∀ hs, ord hs ≡ₚ hs) → own_holders ns b → scoped s ns (writeTags ord b tags).
Proof.
  intros Hord Hb. unfold writeTags, forEachHolder.
  apply (forEach_scoped s ns _ (λ h, SCSetTemplateLabels (th_node h) (th_key h) tags (th_digest h))).
  - intros h. eapply emits_mono; [apply (emits_logging (SetTemplateLabels _ _ _ _))|]. intros t a [-> _]. by eexists.
  - intros t h a Hin. rewrite Hord in Hin. split; [done|]. by eapply Forall_forall in Hb.
Qed.

Lemma scoped_then {A} s ns (m : io (list store_call * S) A) (k : A → reply) : scoped s ns m → scoped s ns (r ← m; mret (k r)).
Proof. intros Hm. eapply emits_bind; [exact Hm|]. intros t a Ht. apply emits_ret. by rewrite app_nil_r. Qed.

Lemma with_tags_scoped s ns name k : (∀ b h tags, own_holders ns b → scoped s ns (k b h tags)) → scoped s ns (with_tags s ns name k).
Proof.
  intros Hk. unfold with_tags. eapply emits_silent_bind; [apply builtTemplate_or_emits|]. intros [b|r] Hb; [|by apply emits_ret].
  destruct (current b) as [h|]; [|by apply emits_ret]. eapply (emits_silent_bind _ _ (λ _, True)).
  { unfold liveTags. eapply emits_bind; [apply (still_silently (NodeTemplates _))|]. intros t a ->. by apply emits_ret. }
  intros [tags|e] _; [|by apply emits_ret]. apply Hk. by apply Hb.
Qed.

Lemma templates_scoped s ns ord buildUUID' b b' name sub : (∀ hs, ord hs ≡ₚ hs) →
  scoped s ns (assignTemplateTags buildUUID' s ord ns b) ∧ scoped s ns (deleteTemplateTags s ord ns b') ∧
  scoped s ns (templateSub buildUUID' s ns name sub).
Proof.
  intros Hord. split_and!.
  - apply decodeBody_emits; [done|]. intros [target newTags]. case_match; [by apply emits_ret|]. destruct (cut_tag target) as [n tag].
    apply with_tags_scoped. intros b0 h tags Hb. destruct (if other_tag tag then _ else _); [|by apply emits_ret]. by apply scoped_then, writeTags_scoped.
  - apply decodeBody_emits; [done|]. intros [target oldTags]. apply with_tags_scoped. intros b0 h tags Hb. by apply scoped_then, writeTags_scoped.
  - unfold templateSub. case_match; [by apply emits_ret|]. apply with_tags_scoped. intros b0 h tags _. by apply emits_ret.
Qed.

Lemma deleteSnapshot_scoped s ns ord id : (∀ l, ord l ≡ₚ l) → scoped s ns (deleteSnapshot s ord ns id).
Proof.
  intros Hord. unfold deleteSnapshot. eapply emits_silent_bind; [by apply (snapshotsOf_emits T I)|]. intros [[snaps complete]|e] Hs; [|by apply emits_ret].
  destruct (Hs _ _ eq_refl) as [Hown _]. destruct (find_first _ snaps) as [snap|] eqn:Hf; [|destruct complete; by apply emits_ret].
  apply find_first_Some in Hf as [Hin Hid%bool_decide_eq_true]. apply emits_last. intros st. apply Forall_singleton. split; [done|].
  simpl. rewrite <-Hid. by apply Hown.
Qed.

Lemma deleteTemplate_scoped s ns ord ord' name : (∀ hs, ord hs ≡ₚ hs) → (∀ l, ord' l ≡ₚ l) →
  scoped s ns (deleteTemplateOrSnapshot s ord ord' ns name).
Proof.
  intros Hord Hord'. unfold deleteTemplateOrSnapshot, deleteTemplate. eapply emits_silent_bind; [apply resolveTemplate_emits|].
  intros [[b pool] err] Hb. destruct err; [by apply emits_ret|]. destruct b as [b|]; [|by apply deleteSnapshot_scoped].
  destruct (Hb b eq_refl) as (st & nodes & Hn & Hbt). apply scoped_then. unfold forEachHolder.
  apply (forEach_scoped s ns _ (λ h, SCDeleteTemplate (th_node h) (th_key h) "")).
  - intros h. eapply emits_mono; [apply (emits_logging (DeleteTemplate _ _ _))|]. intros t a [-> _]. by eexists.
  - intros t h a Hin. rewrite Hord in Hin. split; [done|]. destruct (holder_own _ ns name st nodes b h Hn Hbt Hin) as [-> _].
    apply has_prefix_spec. by eexists.
Qed.

(** *** The whole surface *)

(** What a request of namespace [ns] leaves behind: permitted calls, runs in the
    caller's own scope, and every other namespace's builds as they were, unless
    something else touched them meanwhile. *)
Definition leaves (s : Server) (i : inputs) (ns : string) (m : io (api (list store_call * S)) reply) : Prop :=
  ∀ e runs l st, ∃ calls new, let a := (m (mkApi e runs (l, st))).2 in
    (ap_world a).1 = l ++ calls ∧ Forall (permitted T s ns calls) calls ∧
    ap_spawned a = runs ++ new ∧
    Forall (λ x, bs_Namespace x.2 = ns ∧ has_prefix (templateScope ns) (bs_Template x.2) = true) new ∧
    (in_between i = (λ e, e) → ∀ key rec, (∀ name id, key ≠ buildKey ns name id) → ex_builds (ap_builds a) !! key = Some rec →
       ex_builds e !! key = Some rec).

Lemma leaves_world s i ns m : scoped s ns m → leaves s i ns (in_world m).
Proof.
  intros Hm e runs l st. destruct (Hm l st) as (calls & Hl & Hp). exists calls, []. unfold in_world. cbn [ap_world ap_builds ap_spawned].
  destruct (m (l, st)) as [r w]. cbn [fst snd ap_world ap_builds ap_spawned] in *. rewrite app_nil_r. by split_and!.
Qed.
Lemma leaves_builds s i ns m : (∀ e key rec, (∀ name id, key ≠ buildKey ns name id) → ex_builds (m e).2 !! key = Some rec → ex_builds e !! key = Some rec) →
  leaves s i ns (in_builds m).
Proof.
  intros Hm e runs l st. exists [], []. unfold in_builds. cbn [ap_world ap_builds ap_spawned]. specialize (Hm e).
  destruct (m e) as [r e']. cbn [fst snd ap_world ap_builds ap_spawned] in *. rewrite !app_nil_r. by split_and!.
Qed.
Lemma leaves_start s i up cf ns name buildID b :
  leaves s i ns (spawning (startBuild (U := archives up) s cf ns name buildID (in_name i) (in_nodes i) (in_holders i) (in_between i) b)).
Proof.
  intros e runs l st. unfold spawning. cbn [ap_world ap_builds ap_spawned].
  destruct (startBuild _ _ _ _ _ _ _ _ _ b e) as [[r run] e'] eqn:Hs. exists [], (option_list run). cbn [fst snd ap_world ap_builds ap_spawned].
  rewrite app_nil_r. split_and!; try done.
  - destruct run as [[id spec]|]; [|constructor]. apply Forall_singleton.
    destruct (startBuild_scope (U := archives up) s cf ns name buildID (in_name i) (in_nodes i) (in_holders i) (in_between i) b e r id spec) as (_ & Hn & Ht & _);
      [by rewrite Hs|]. split; [done|]. cbn [snd]. rewrite Ht. apply has_prefix_spec. by eexists.
  - intros Hb key rec Hkey. rewrite Hb in Hs.
    pose proof (startBuild_keeps (U := archives up) s cf ns name buildID (in_name i) (in_nodes i) (in_holders i) b e key rec (Hkey name buildID)) as Hk.
    by rewrite Hs in Hk.
Qed.

Lemma by_id_leaves s i ns id op : ns ≠ "" → leaves s i ns (in_world (run_by_id s ns id op)).
Proof.
  intros Hns. apply leaves_world. eapply emits_mono; [by apply (by_id_isolated T G s ns id op)|]. intros t r. apply isolated_permitted.
Qed.

Lemma reads_leave s i ns (m : io (list store_call * S) reply) : still m → leaves s i ns (in_world m).
Proof. intros Hm. by apply leaves_world, still_scoped. Qed.

(** The orders of the fan-outs reach every target. *)
Record fair (i : inputs) : Prop := {
  fair_holders hs : in_holders i hs ≡ₚ hs;
  fair_children cs : in_children i cs ≡ₚ cs;
  fair_listers ns : in_listers i ns ≡ₚ ns;
}.

Lemma dispatch_leaves s up i r ep v ns : ns ≠ "" → fair i → leaves s i ns (dispatch buildUUID s up i r ep v ns).
Proof.
  intros Hns [Hh Hc Hl]. pose proof (λ id op, by_id_leaves s i ns id op Hns) as Hid. pose proof (reads_leave s i ns) as Hread.
  destruct ep; cbn [dispatch].
  - apply leaves_world. eapply emits_mono; [apply (createSandbox_emits T I G)|]. intros t x. apply create_permitted.
  - apply Hread. unfold listSandboxes. still. apply listed_still.
  - apply Hread. unfold listSandboxesV2. still. apply listed_still.
  - exact (Hid _ (ByGet (in_now i))).
  - exact (Hid _ ByDelete).
  - exact (Hid _ (ByTimeout _)).
  - exact (Hid _ (ByRefresh _)).
  - exact (Hid _ (ByPause _)).
  - exact (Hid _ (ByConnect (in_now i) _)).
  - exact (Hid _ (ByResume (in_now i) _)).
  - exact (Hid _ (ByFork (in_clock i) (in_children i) Hc _)).
  - exact (Hid _ (BySnapshot _)).
  - apply Hread. unfold listSnapshots. still. eapply still_of. by apply (snapshotsOf_emits T I).
  - exact (Hid _ (ByMetrics (in_now i))).
  - unfold sandboxesMetrics. apply leaves_world. destruct (sandboxIDsOf _); [|by apply emits_ret]. apply scoped_then. by apply metricsOfAll_scoped.
  - exact (Hid _ (ByLogs reply)).
  - apply Hread. unfold listTemplates, inventories. still.
  - apply Hread. unfold getTemplate. still. apply builtTemplate_or_still.
  - apply Hread. unfold patchTemplate, decodeOptionalBody. still; apply builtTemplate_or_still.
  - apply Hread. unfold templateAlias. still. apply resolve_still.
  - apply leaves_world. by apply (templates_scoped s ns (in_holders i) buildUUID Empty Empty).
  - apply leaves_world. by apply (templates_scoped s ns (in_holders i) buildUUID _ Empty "" "").
  - apply leaves_world. by apply (templates_scoped s ns (in_holders i) buildUUID Empty _ "" "").
  - apply leaves_world. by apply deleteTemplate_scoped.
  - apply leaves_builds. intros e key rec. apply requestBuild_keeps.
  - apply leaves_start.
  - apply leaves_builds. intros e key rec _. apply buildStatus_keeps.
  - apply Hread, fileUploadLink_still.
Qed.

Lemma leaves_ret s i ns (x : reply) : leaves s i ns (mret x).
Proof. intros e runs l st. exists [], []. cbn. rewrite !app_nil_r. by split_and!. Qed.

Lemma serve_leaves s up i r ns : caller s (rq_APIKey r) = Some ns → ns ≠ "" → fair i → leaves s i ns (serve buildUUID s up i r).
Proof.
  intros Hc Hns Hi. unfold serve. destruct (mux_route _ _ _) as [| | |ep values]; [apply leaves_ret..|]. destruct ep as [|ep|d].
  - apply leaves_ret.
  - rewrite auth_caller, Hc. by apply dispatch_leaves.
  - apply reads_leave, ServeHTTP_still.
Qed.

(** Without a key, only the probe and the archives' PUT get past the door. *)
Lemma serve_refuses s up i r e runs l st : caller s (rq_APIKey r) = None →
  let '(rep, a) := serve buildUUID s up i r (mkApi e runs (l, st)) in
  (ap_world a).1 = l ∧ ap_spawned a = runs ∧ ap_builds a = e ∧
  (is_success rep = true → ∃ ep values, mux_route (routes s up) (rq_Method r) (rq_Path r) = Routed ep values ∧
     match ep with Authed _ => False | _ => True end).
Proof.
  intros Hc. unfold serve. destruct (mux_route _ _ _) as [| | |ep values] eqn:Hr; [by split_and!..|]. destruct ep as [|ep|d].
  - cbn. split_and!; [done..|]. intros _. by exists Health, values.
  - rewrite auth_caller, Hc. by split_and!.
  - unfold in_world. cbn [ap_world ap_builds ap_spawned].
    destruct (ServeHTTP_still d (in_now i) (in_rand i) (default "" (values !! "templateID")) (default "" (values !! "hash"))
      (parse_query (rq_RawQuery r)) (rq_Body r) l st) as (t & Hl & ->).
    destruct (ServeHTTP _ _ _ _ _ _ _ _) as [x w]. cbn [fst snd ap_world ap_builds ap_spawned] in *. rewrite app_nil_r in Hl.
    split_and!; [done..|]. intros _. by exists (PutArchive d), values.
Qed.
End scoped.

(** *** The routes of an archive *)

Lemma unescape_hex h : FilesHash h = true → PathUnescape h = Some h.
Proof.
  intros Hh. apply andb_true_iff in Hh as [Hh _]. unfold PathUnescape. induction h as [|c h IH]; [done|].
  cbn [all_bytes] in Hh. apply andb_true_iff in Hh as [Hc Hh]. cbn [url_unescape andb]. rewrite (IH Hh).
  rewrite decide_False by (by intros ->). done.
Qed.


Lemma upload_path_segments t h : plain_elem (path_escape t) → plain_elem h → PathUnescape h = Some h →
  clean_path (upload_path t h) = upload_path t h ∧ segments (upload_path t h) = ["templates"; t; "files"; h].
Proof.
  intros Ht Hh Hu. assert (Forall plain_elem (["templates"; path_escape t; "files"] ++ [h])) as Hall.
  { rewrite Forall_app, !Forall_cons, !Forall_nil. split_and!; try done; by split_and!. }
  assert (upload_path t h = "/" +:+ join "/" (["templates"; path_escape t; "files"] ++ [h])) as Hp by done.
  rewrite Hp. split; [by apply clean_path_plain|]. unfold segments.
  change ("/" +:+ join "/" (["templates"; path_escape t; "files"] ++ [h])) with (join (String "/" "") ["" ; "templates"; path_escape t; "files"; h]).
  rewrite split_byte_join; [|done|].
  2:{ constructor; [done|]. eapply Forall_impl; [exact Hall|]. by intros w (_ & _ & _ & ?). }
  destruct Ht as [Ht _], Hh as [Hh _]. cbn [tail fmap list_fmap]. rewrite !(decide_False (P := path_escape t = "")), (decide_False (P := h = "")) by done.
  by rewrite unescape_path_escape, Hu.
Qed.

(** One table and one path leave one pattern. *)
Ltac fits_inv :=
  repeat match goal with
  | H : fits (_ :: _) _ _ |- _ => inversion H; clear H; subst
  | H : fits [] _ _ |- _ => inversion H; clear H; subst
  end.
Ltac table_entry := repeat first [apply list_elem_of_here | apply list_elem_of_further].
Ltac only_pattern Hin := repeat (apply elem_of_cons in Hin as [Hin|Hin]; [injection Hin as -> ->; fits_inv|]).

Lemma upload_route m s d t h : (0 < bo_Parallel (op_Builds (sv_opts s)))%Z → t ≠ "/" → h ≠ "/" → m = "GET" ∨ m = "PUT" →
  clean_path (upload_path t h) = upload_path t h → segments (upload_path t h) = ["templates"; t; "files"; h] →
  mux_route (routes s (Some (DirUploads d))) m (upload_path t h) =
    Routed (if decide (m = "GET") then Authed FileUploadLink else PutArchive d) {[ "templateID" := t; "hash" := h ]}.
Proof.
  intros Hb Ht Hh Hm Hclean Hseg. unfold mux_route.
  assert ((if decide (m = "CONNECT") then upload_path t h else clean_path (upload_path t h)) = upload_path t h) as -> by by case_decide.
  cbv zeta. rewrite decide_False by auto. rewrite Hseg. unfold match_method, routes. rewrite decide_True by done.
  set (files := [GoMux.Lit "templates"; Wild "templateID"; GoMux.Lit "files"; Wild "hash"]).
  assert (fits files ["templates"; t; "files"; h] [t; h]) as Hfits by by repeat constructor.
  destruct Hm as [-> | ->].
  - remember (of_method _ "GET") as ps eqn:Hps. vm_compute in Hps.
    rewrite (match_path_unique ps _ files (["templateID"; "hash"], Authed FileUploadLink) [t; h]); [done| |done|].
    + subst ps. table_entry.
    + intros q a ms Hin Hfit. subst ps. only_pattern Hin; [done|by apply not_elem_of_nil in Hin].
  - remember (of_method _ "PUT") as ps eqn:Hps. vm_compute in Hps.
    rewrite (match_path_unique ps _ files (["templateID"; "hash"], PutArchive d) [t; h]); [done| |done|].
    + subst ps. table_entry.
    + intros q a ms Hin Hfit. subst ps. only_pattern Hin; [done|by apply not_elem_of_nil in Hin].
Qed.

(** A key that both archive routes take makes a path they take. *)
Lemma upload_key_path k : key_ok k → E2bUploads.routed k →
  clean_path (upload_path (uk_template k) (uk_hash k)) = upload_path (uk_template k) (uk_hash k) ∧
  segments (upload_path (uk_template k) (uk_hash k)) = ["templates"; uk_template k; "files"; uk_hash k] ∧
  uk_template k ≠ "/" ∧ uk_hash k ≠ "/".
Proof.
  destruct k as [ns t h]. intros (_ & _ & Hs & Hp & Hh & _)%uploadKeyOf_ok [_ Ht]. cbn [uk_template uk_hash] in *.
  pose proof (hash_elem h "" "" Hh eq_refl eq_refl) as Hhe. rewrite str_app_nil_r in Hhe. change ("" +:+ h) with h in Hhe.
  assert (plain_elem (path_escape t)) as Hte.
  { pose proof (unescape_path_escape t) as Hu. destruct (path_escape_safe t) as (Hts & _ & _).
    split_and!; [| | |done]; intros He; rewrite He in Hu; injection Hu as <-; done. }
  assert (PathUnescape h = Some h) as Hun by by apply unescape_hex.
  split; [|split]; [by apply upload_path_segments..|]. split; [by intros ->|]. intros ->. by destruct Hhe as (_ & _ & _ & ?).
Qed.
(** ** Properties *)


(** C28: the link round trip over the surface: asking, with a key of its namespace,
    for the link of an archive that is not there answers a URL; what a client sends
    to that URL until it expires, without any key, reaches the archives' PUT, and a
    complete archive is stored and answered 200; asking again then answers that it
    is present, and a build of that template opens exactly the bytes that were sent. *)
Theorem upload_link_served {T : SandboxStore disk} {I : InventorySource disk} {B : Bucket disk} {G : GuestHTTP disk}
    {GC : GuestCodec} {MC : MetadataCodec} {RC : RequestCodec} {H : EnvdHashes} {U : CaseMap} {Q : QuantityOps} (buildUUID : string → string)
    (s : Server) (d : dirUploads) (i i' : inputs) (link link' : link_request) (apiKey : string) (key : uploadKey) (ask content : stream)
    (e : Executor) (runs : list (string * Spec disk)) (files0 : gmap string string) :
  let up := Some (DirUploads d) in
  let asking := mkHTTPRequest "GET" (upload_path (uk_template key) (uk_hash key)) "" apiKey link ask in
  (0 < bo_Parallel (op_Builds (sv_opts s)))%Z → caller s apiKey = Some (uk_ns key) → key_ok key → E2bUploads.routed key →
  has_byte "/" (lr_Host link) = false → has_byte "/" (in_rand i') = false →
  (0 < unix_seconds (in_now i) + 3600 < 2 ^ 63)%Z → (unix_seconds (in_now i') ≤ unix_seconds (in_now i) + 3600)%Z →
  complete (du_max d) content → files0 !! path key = None → files0 !! tmp_name (in_rand i') key = None →
  ∃ url p q, serve buildUUID s up i asking (mkApi e runs (mkDisk files0 [])) = (writeJSON 201 (DUpload false url ∅), mkApi e runs (mkDisk files0 [])) ∧
    request_target url = Some (p, q) ∧
    let '(r, a) := serve buildUUID s up i' (mkHTTPRequest "PUT" p q "" link' content) (mkApi e runs (mkDisk files0 [])) in
    r = RStatus 200 ∧ (serve buildUUID s up i' asking a).1 = writeJSON 201 (DUpload true "" ∅) ∧
    (archive (U := archives up) (uk_ns key) (uk_template key) (uk_hash key) (ap_world a)).1 = Ok (st_bytes content).
Proof.
  intros up asking Hb Hc Hk Hr Hhost Hrand Hnow Hlive Hcomp Hfree Htmp.
  destruct (upload_key_path key Hk Hr) as (Hclean & Hseg & Ht & Hh).
  destruct (link_accepted d (in_now i) (in_now i') link key (in_rand i') content files0) as (raw & Htarget & Hput); [done..|].
  pose proof (λ m Hm, upload_route m s d (uk_template key) (uk_hash key) Hb Ht Hh Hm Hclean Hseg) as Hroute.
  assert (∀ v files, serve buildUUID s up v asking (mkApi e runs (mkDisk files [])) =
    (match files !! path key with
     | Some _ => writeJSON 201 (DUpload true "" ∅)
     | None => writeJSON 201 (DUpload false (dir_uploadURL d (in_now v) link key).1 ∅)
     end, mkApi e runs (mkDisk files []))) as Hask.
  { intros v files. unfold serve. subst asking up. cbn [rq_Method rq_Path rq_APIKey]. rewrite (Hroute "GET") by by left.
    rewrite decide_True by done. rewrite auth_caller, Hc. cbn [dispatch]. rewrite lookup_insert_eq, lookup_insert_ne, lookup_singleton_eq by done.
    cbn [from_option id rq_Link]. unfold in_world. cbn [ap_world ap_builds ap_spawned]. unfold fileUploadLink. unfold key_ok in Hk. rewrite Hk.
    rewrite bind_run. change (present (UploadStore := archives (Some (DirUploads d))) key ?x) with (dir_present key x).
    rewrite (proj1 (dir_answers d key files Hk Hr)). cbn [fst snd]. by destruct (files !! path key). }
  exists (dir_uploadURL d (in_now i) link key).1, (upload_path (uk_template key) (uk_hash key)), raw.
  split; [by rewrite Hask, Hfree|]. split; [exact Htarget|].
  unfold serve at 1. cbn [rq_Method rq_Path]. subst up. rewrite (Hroute "PUT") by by right. rewrite decide_False by done.
  rewrite lookup_insert_eq, lookup_insert_ne, lookup_singleton_eq by done. cbn [from_option id rq_RawQuery rq_Body]. unfold in_world.
  cbn [ap_world ap_builds ap_spawned]. rewrite Hput. split; [done|]. rewrite Hask, lookup_insert_eq. split; [done|].
  change (archives (Some (DirUploads d))) with (dir_store d). cbn [ap_world]. rewrite (proj2 (dir_answers d key _ Hk Hr)). by rewrite lookup_insert_eq.
Qed.

(** ** Witnesses *)

(** Decoders that find every body empty. *)
Definition empty_bodies : RequestCodec := {|
  decode_create _ := Empty; decode_timeout _ := Empty; decode_refresh _ := Empty; decode_pause _ := Empty; decode_connect _ := Empty;
  decode_resume _ := Empty; decode_fork _ := Empty; decode_snapshot _ := Empty; decode_patch _ := Empty; decode_tags _ := Empty; decode_untags _ := Empty;
  decode_build _ := Empty; decode_start _ := Empty;
|}.
Definition no_files {S} : RootFS S := {|
  fs_Stat _ := mret (Err ErrNotExist); fs_MkdirAll _ := mret (Ok tt); fs_Create _ := mret (Ok tt); fs_Copy _ _ := mret (Ok tt);
  fs_Close _ := mret (Ok tt); fs_Rename _ _ := mret (Ok tt); fs_Remove _ := mret (Ok tt); fs_Open _ := mret (Err ErrNotExist);
|}.
Definition no_bucket {S} : Bucket S := {|
  head_object _ := mret (Err ErrS3NotFound); presign_put _ _ := mret (Err ErrS3NotFound); get_object _ := mret (Err ErrS3NotFound);
|}.
Definition api_inputs : inputs :=
  mkInputs (60 * second)%Z (λ _, zero_time) "e2b-x" "b1" 0%Z "R" (λ l, l) (λ l, l) (λ l, l) (λ l, l) (λ l, l) (λ e, e).
Lemma api_inputs_fair : fair api_inputs.
Proof. by split. Qed.

Definition api_options : Options :=
  mkOptions "" "sandbox.example.com" "" 0 ["k team"] false true ["base ubuntu medium"] "s3" (mkBuildOptions 1 (60 * second) 10 true).
Definition api_server : Server :=
  mkServer (with_defaults api_options) {[ "k" := "team" ]} {[ "base" := mkPoolKey "ubuntu" "" "medium" ]} {[ "ubuntu" := ["base"] ]}.

Lemma NewServer_ok_witness : NewServer true true api_options = Ok api_server ∧ server_ok api_options api_server.
Proof. split; [vm_compute; reflexivity|]. apply (NewServer_ok true true). vm_compute. reflexivity. Defined.


#[local] Instance disk_source : InventorySource disk := {|
  Inventory.ListNodes _ := Ok [];
  Inventory.NodeInventory_of _ _ := Err ErrNotExist;
  Inventory.NodeCapacity _ _ := Err ErrNotExist;
  Inventory.NodeCapacities _ := Ok [];
|}.
Definition disk_guest : GuestHTTP disk := {| exchange _ _ := mret (Ok (204%Z, "")) |}.

Lemma upload_link_served_witness :
  let key := mkUploadKey "team" "app" sample_hash in
  ∃ url p q, request_target url = Some (p, q) ∧
    (@serve disk (toy_store _ kind_sandbox "tok") disk_source disk_fs no_bucket disk_guest
       kind_codec toy_codec empty_bodies toy_hashes ascii_case z_quantity (λ d, d) api_server (Some (DirUploads sample_dir)) api_inputs
       (mkHTTPRequest "PUT" p q "" sample_link sample_upload) (mkApi (mkExecutor ∅ 0) [] (mkDisk ∅ []))).1 = RStatus 200.
Proof.
  cbv zeta. destruct (@upload_link_served (toy_store _ kind_sandbox "tok") disk_source no_bucket disk_guest
    kind_codec toy_codec empty_bodies toy_hashes ascii_case z_quantity (λ d, d) api_server sample_dir api_inputs api_inputs sample_link sample_link "k"
    (mkUploadKey "team" "app" sample_hash) (mkStream "" None) sample_upload (mkExecutor ∅ 0) [] ∅) as (url & p & q & _ & Ht & Hs);
    [reflexivity|vm_compute; reflexivity|vm_compute; reflexivity|repeat split; discriminate|reflexivity|reflexivity|vm_compute; split; reflexivity
    |vm_compute; discriminate|split; [reflexivity|vm_compute; discriminate]|reflexivity|reflexivity|].
  exists url, p, q. split; [exact Ht|]. destruct (serve _ _ _ _ _ _) as [r a]. by destruct Hs as [-> _].
Defined.
