(* ===== verification/E2bWire.v ===== *)
(** * The e2b documents on the wire (pkg/e2bcompat/types.go, http.go)

    Every body and reply of the e2b surface as a JSON document: one table of fields per
    struct, read off its tags.  A request's decoders are those of [E2bApi] at these
    tables; a reply's document is what [writeJSON] encodes. *)

From S2P Require Import Prelude GoStd GoNum GoText GoCodec GoMux GoJSON Api PoolKeys SandboxView Inventory Client StoreRead StoreLifecycle Store SandboxId.
From S2P Require Import E2bServer E2bGuest E2bTemplates E2bSandboxes BuildRecords BuildRun E2bUploads E2bBuilds E2bApi.

Definition maxBodyBytes : Z := (2 ^ 20)%Z.
Definition buildReady : string := "ready".

(** Replies that [document] keeps as constructor arguments. *)
Record template_builds := mkTemplateBuilds {
  tw_TemplateID : string;
  tw_Names : list string;
  tw_CreatedAt : string;
  tw_Builds : list TemplateBuild;
}.
Record build_reply := mkBuildReply {
  rr_TemplateID : string;
  rr_BuildID : string;
  rr_Public : bool;
  rr_Names : list string;
  rr_Tags : list string;
  rr_Aliases : list string;
}.
Record file_upload := mkFileUpload {
  fu_Present : bool;
  fu_URL : string;
  fu_Headers : gmap string string;
}.

Section wire.
Context {T : JSONText}.

(** The whole of a struct that the model keeps as its only field. *)
Definition whole {A} : variable A A := mkVar (λ a, a) (λ v _, v).

Definition autoResume_json : codec bool := struct_codec false [Field "enabled" bool_codec whole false].

Definition eta_NewSandbox (x : NewSandbox) : NewSandbox := mkNewSandbox (nw_TemplateID x) (nw_Timeout x) (nw_Metadata x) (nw_AutoPause x) (nw_EnvVars x) (nw_Secure x) (nw_AllowInternetAccess x) (nw_Network x) (nw_VolumeMounts x) (nw_AutoPauseMemory x) (nw_AutoResume x) (nw_MCP x) (nw_IAM x).
Definition NewSandbox_fields : list (field (NewSandbox)) := [
  Field "templateID" string_codec (&eta_NewSandbox->>nw_TemplateID) false;
  Field "timeout" (ptr_codec int32_codec) (&eta_NewSandbox->>nw_Timeout) true;
  Field "metadata" (map_codec string_codec) (&eta_NewSandbox->>nw_Metadata) true;
  Field "autoPause" (ptr_codec bool_codec) (&eta_NewSandbox->>nw_AutoPause) true;
  Field "envVars" (map_codec string_codec) (&eta_NewSandbox->>nw_EnvVars) true;
  Field "secure" (ptr_codec bool_codec) (&eta_NewSandbox->>nw_Secure) true;
  Field "allow_internet_access" (ptr_codec bool_codec) (&eta_NewSandbox->>nw_AllowInternetAccess) true;
  Field "network" keys_codec (&eta_NewSandbox->>nw_Network) true;
  Field "volumeMounts" (slice_codec raw_codec) (&eta_NewSandbox->>nw_VolumeMounts) true;
  Field "autoPauseMemory" (ptr_codec bool_codec) (&eta_NewSandbox->>nw_AutoPauseMemory) true;
  Field "autoResume" (ptr_codec autoResume_json) (&eta_NewSandbox->>nw_AutoResume) true;
  Field "mcp" keys_codec (&eta_NewSandbox->>nw_MCP) true;
  Field "iam" keys_codec (&eta_NewSandbox->>nw_IAM) true
].
Definition NewSandbox_json : codec (NewSandbox) := struct_codec (mkNewSandbox "" None ∅ None ∅ None None [] [] None None [] []) NewSandbox_fields.

Definition eta_Sandbox (x : SandboxReply) : SandboxReply := mkSandboxReply (sy_TemplateID x) (sy_SandboxID x) (sy_ClientID x) (sy_EnvdVersion x) (sy_EnvdAccessToken x) (sy_Domain x) (sy_Alias x).
Definition Sandbox_fields : list (field (SandboxReply)) := [
  Field "templateID" string_codec (&eta_Sandbox->>sy_TemplateID) false;
  Field "sandboxID" string_codec (&eta_Sandbox->>sy_SandboxID) false;
  Field "clientID" string_codec (&eta_Sandbox->>sy_ClientID) false;
  Field "envdVersion" string_codec (&eta_Sandbox->>sy_EnvdVersion) false;
  Field "envdAccessToken" string_codec (&eta_Sandbox->>sy_EnvdAccessToken) true;
  Field "domain" string_codec (&eta_Sandbox->>sy_Domain) true;
  Field "alias" string_codec (&eta_Sandbox->>sy_Alias) true
].
Definition Sandbox_json : codec (SandboxReply) := struct_codec (mkSandboxReply "" "" "" "" "" "" "") Sandbox_fields.

(** No handler sets envdAccessToken here. *)
Definition eta_SandboxDetail (x : SandboxDetail) : SandboxDetail := mkDetail (sd_TemplateID x) (sd_SandboxID x) (sd_ClientID x) (sd_StartedAt x) (sd_EndAt x) (sd_State x) (sd_EnvdVersion x) (sd_CPUCount x) (sd_MemoryMB x) (sd_Alias x) (sd_Metadata x) (sd_Domain x) (sd_startedAtKey x).
Definition SandboxDetail_fields : list (field (SandboxDetail)) := [
  Field "templateID" string_codec (&eta_SandboxDetail->>sd_TemplateID) false;
  Field "sandboxID" string_codec (&eta_SandboxDetail->>sd_SandboxID) false;
  Field "clientID" string_codec (&eta_SandboxDetail->>sd_ClientID) false;
  Field "startedAt" string_codec (&eta_SandboxDetail->>sd_StartedAt) false;
  Field "endAt" string_codec (&eta_SandboxDetail->>sd_EndAt) false;
  Field "state" string_codec (&eta_SandboxDetail->>sd_State) false;
  Field "envdVersion" string_codec (&eta_SandboxDetail->>sd_EnvdVersion) false;
  Field "cpuCount" int32_codec (&eta_SandboxDetail->>sd_CPUCount) false;
  Field "memoryMB" int32_codec (&eta_SandboxDetail->>sd_MemoryMB) false;
  Fixed "diskSizeMB" (λ _, JInt 0);
  Field "alias" string_codec (&eta_SandboxDetail->>sd_Alias) true;
  Field "metadata" raw_codec (&eta_SandboxDetail->>sd_Metadata) true;
  Field "domain" string_codec (&eta_SandboxDetail->>sd_Domain) true;
  Unexported (&eta_SandboxDetail->>sd_startedAtKey)
].
Definition SandboxDetail_json : codec (SandboxDetail) := struct_codec (mkDetail "" "" "" "" "" "" "" 0 0 "" "" "" "") SandboxDetail_fields.

Definition SandboxTimeoutRequest_fields : list (field (Z)) := [
  Field "timeout" int32_codec whole false
].
Definition SandboxTimeoutRequest_json : codec (Z) := struct_codec 0%Z SandboxTimeoutRequest_fields.

Definition SandboxRefreshRequest_fields : list (field (option Z)) := [
  Field "duration" (ptr_codec int32_codec) whole true
].
Definition SandboxRefreshRequest_json : codec (option Z) := struct_codec None SandboxRefreshRequest_fields.

Definition SandboxPauseRequest_fields : list (field (option bool)) := [
  Field "memory" (ptr_codec bool_codec) whole true
].
Definition SandboxPauseRequest_json : codec (option bool) := struct_codec None SandboxPauseRequest_fields.

Definition eta_ConnectSandbox (x : ConnectSandbox) : ConnectSandbox := mkConnect (cn_Timeout x) (cn_Memory x).
Definition ConnectSandbox_fields : list (field (ConnectSandbox)) := [
  Field "timeout" (ptr_codec int32_codec) (&eta_ConnectSandbox->>cn_Timeout) true;
  Field "memory" (ptr_codec bool_codec) (&eta_ConnectSandbox->>cn_Memory) true
].
Definition ConnectSandbox_json : codec (ConnectSandbox) := struct_codec (mkConnect None None) ConnectSandbox_fields.

Definition eta_ResumedSandbox (x : ResumedSandbox) : ResumedSandbox := mkResumed (re_Connect x) (re_AutoPause x).
Definition ResumedSandbox_fields : list (field (ResumedSandbox)) := [
  Field "timeout" (ptr_codec int32_codec) (within_var (&eta_ResumedSandbox->>re_Connect) (&eta_ConnectSandbox->>cn_Timeout)) true;
  Field "memory" (ptr_codec bool_codec) (within_var (&eta_ResumedSandbox->>re_Connect) (&eta_ConnectSandbox->>cn_Memory)) true;
  Field "autoPause" (ptr_codec bool_codec) (&eta_ResumedSandbox->>re_AutoPause) true
].
Definition ResumedSandbox_json : codec (ResumedSandbox) := struct_codec (mkResumed (mkConnect None None) None) ResumedSandbox_fields.

Definition eta_SandboxForkRequest (x : SandboxForkRequest) : SandboxForkRequest := mkForkRequest (fr_Timeout x) (fr_Count x).
Definition SandboxForkRequest_fields : list (field (SandboxForkRequest)) := [
  Field "timeout" (ptr_codec int32_codec) (&eta_SandboxForkRequest->>fr_Timeout) true;
  Field "count" (ptr_codec int32_codec) (&eta_SandboxForkRequest->>fr_Count) true
].
Definition SandboxForkRequest_json : codec (SandboxForkRequest) := struct_codec (mkForkRequest None None) SandboxForkRequest_fields.

(** No handler sets the error of an entry. *)
Definition SandboxForkResult_fields : list (field (option SandboxReply)) := [
  Field "sandbox" (ptr_codec Sandbox_json) whole true
].
Definition SandboxForkResult_json : codec (option SandboxReply) := struct_codec None SandboxForkResult_fields.

Definition SandboxSnapshotRequest_fields : list (field (string)) := [
  Field "name" string_codec whole true
].
Definition SandboxSnapshotRequest_json : codec (string) := struct_codec "" SandboxSnapshotRequest_fields.

Definition eta_SnapshotInfo (x : SnapshotInfo) : SnapshotInfo := mkSnapshotInfo (si_SnapshotID x) (si_Names x).
Definition SnapshotInfo_fields : list (field (SnapshotInfo)) := [
  Field "snapshotID" string_codec (&eta_SnapshotInfo->>si_SnapshotID) false;
  Field "names" (slice_codec string_codec) (&eta_SnapshotInfo->>si_Names) false
].
Definition SnapshotInfo_json : codec (SnapshotInfo) := struct_codec (mkSnapshotInfo "" []) SnapshotInfo_fields.

Definition eta_SandboxMetric (x : SandboxMetric) : SandboxMetric := mkMetric (mt_Timestamp x) (mt_TimestampUnix x) (mt_CPUCount x) (mt_CPUUsedPct x) (mt_MemUsed x) (mt_MemTotal x) (mt_MemCache x) (mt_DiskUsed x) (mt_DiskTotal x).
Definition SandboxMetric_fields : list (field (SandboxMetric)) := [
  Field "timestamp" string_codec (&eta_SandboxMetric->>mt_Timestamp) false;
  Field "timestampUnix" int64_codec (&eta_SandboxMetric->>mt_TimestampUnix) false;
  Field "cpuCount" int32_codec (&eta_SandboxMetric->>mt_CPUCount) false;
  Field "cpuUsedPct" float32_codec (&eta_SandboxMetric->>mt_CPUUsedPct) false;
  Field "memUsed" int64_codec (&eta_SandboxMetric->>mt_MemUsed) false;
  Field "memTotal" int64_codec (&eta_SandboxMetric->>mt_MemTotal) false;
  Field "memCache" int64_codec (&eta_SandboxMetric->>mt_MemCache) false;
  Field "diskUsed" int64_codec (&eta_SandboxMetric->>mt_DiskUsed) false;
  Field "diskTotal" int64_codec (&eta_SandboxMetric->>mt_DiskTotal) false
].
Definition SandboxMetric_json : codec (SandboxMetric) := struct_codec (mkMetric "" 0 0 0 0 0 0 0 0) SandboxMetric_fields.

Definition SandboxesWithMetrics_fields : list (field (gmap string SandboxMetric)) := [
  Field "sandboxes" (map_codec SandboxMetric_json) whole false
].
Definition SandboxesWithMetrics_json : codec (gmap string SandboxMetric) := struct_codec ∅ SandboxesWithMetrics_fields.

Definition SandboxLogs_fields : list (field (unit)) := [
  Fixed "logs" (λ _, JArray []);
  Fixed "logEntries" (λ _, JArray [])
].
Definition SandboxLogs_json : codec (unit) := struct_codec tt SandboxLogs_fields.

Definition SandboxLogsV2_fields : list (field (unit)) := [
  Fixed "logs" (λ _, JArray [])
].
Definition SandboxLogsV2_json : codec (unit) := struct_codec tt SandboxLogsV2_fields.

Definition eta_Template (x : TemplateInfo) : TemplateInfo := mkTemplateInfo (ti_TemplateID x) (ti_BuildID x) (ti_CPUCount x) (ti_MemoryMB x) (ti_Aliases x) (ti_Names x) (ti_CreatedAt x) (ti_BuildCount x) (ti_EnvdVersion x).
Definition Template_fields : list (field (TemplateInfo)) := [
  Field "templateID" string_codec (&eta_Template->>ti_TemplateID) false;
  Field "buildID" string_codec (&eta_Template->>ti_BuildID) false;
  Field "cpuCount" int32_codec (&eta_Template->>ti_CPUCount) false;
  Field "memoryMB" int32_codec (&eta_Template->>ti_MemoryMB) false;
  Fixed "diskSizeMB" (λ _, JInt 0);
  Fixed "public" (λ _, JBool true);
  Field "aliases" (slice_codec string_codec) (&eta_Template->>ti_Aliases) false;
  Field "names" (slice_codec string_codec) (&eta_Template->>ti_Names) false;
  Field "createdAt" string_codec (&eta_Template->>ti_CreatedAt) false;
  Fixed "updatedAt" (λ t, JString (ti_CreatedAt t));
  Fixed "createdBy" (λ _, JNull);
  Fixed "lastSpawnedAt" (λ _, JNull);
  Fixed "spawnCount" (λ _, JInt 0);
  Field "buildCount" int32_codec (&eta_Template->>ti_BuildCount) false;
  Field "envdVersion" string_codec (&eta_Template->>ti_EnvdVersion) false;
  Fixed "buildStatus" (λ _, JString buildReady)
].
Definition Template_json : codec (TemplateInfo) := struct_codec (mkTemplateInfo "" "" 0 0 [] [] "" 0 "") Template_fields.

Definition eta_TemplateBuild (x : TemplateBuild) : TemplateBuild := mkTemplateBuild (tb_BuildID x) (tb_CreatedAt x) (tb_CPUCount x) (tb_MemoryMB x) (tb_EnvdVersion x).
Definition TemplateBuild_fields : list (field (TemplateBuild)) := [
  Field "buildID" string_codec (&eta_TemplateBuild->>tb_BuildID) false;
  Fixed "status" (λ _, JString buildReady);
  Field "createdAt" string_codec (&eta_TemplateBuild->>tb_CreatedAt) false;
  Fixed "updatedAt" (λ t, JString (tb_CreatedAt t));
  Fixed "finishedAt" (λ t, JString (tb_CreatedAt t));
  Field "cpuCount" int32_codec (&eta_TemplateBuild->>tb_CPUCount) false;
  Field "memoryMB" int32_codec (&eta_TemplateBuild->>tb_MemoryMB) false;
  Field "envdVersion" string_codec (&eta_TemplateBuild->>tb_EnvdVersion) false
].
Definition TemplateBuild_json : codec (TemplateBuild) := struct_codec (mkTemplateBuild "" "" 0 0 "") TemplateBuild_fields.

Definition eta_TemplateWithBuilds (x : template_builds) : template_builds := mkTemplateBuilds (tw_TemplateID x) (tw_Names x) (tw_CreatedAt x) (tw_Builds x).
Definition TemplateWithBuilds_fields : list (field (template_builds)) := [
  Field "templateID" string_codec (&eta_TemplateWithBuilds->>tw_TemplateID) false;
  Fixed "public" (λ _, JBool true);
  Fixed "aliases" (λ t, JArray [JString (tw_TemplateID t)]);
  Field "names" (slice_codec string_codec) (&eta_TemplateWithBuilds->>tw_Names) false;
  Field "createdAt" string_codec (&eta_TemplateWithBuilds->>tw_CreatedAt) false;
  Fixed "updatedAt" (λ t, JString (tw_CreatedAt t));
  Fixed "lastSpawnedAt" (λ _, JNull);
  Fixed "spawnCount" (λ _, JInt 0);
  Field "builds" (slice_codec TemplateBuild_json) (&eta_TemplateWithBuilds->>tw_Builds) false
].
Definition TemplateWithBuilds_json : codec (template_builds) := struct_codec (mkTemplateBuilds "" [] "" []) TemplateWithBuilds_fields.

Definition TemplateUpdateRequest_fields : list (field (option bool)) := [
  Field "public" (ptr_codec bool_codec) whole true
].
Definition TemplateUpdateRequest_json : codec (option bool) := struct_codec None TemplateUpdateRequest_fields.

Definition AssignTemplateTagsRequest_fields : list (field (string * list string)) := [
  Field "target" string_codec (mkVar fst (λ v t, (v, t.2))) false;
  Field "tags" (slice_codec string_codec) (mkVar snd (λ v t, (t.1, v))) false
].
Definition AssignTemplateTagsRequest_json : codec (string * list string) := struct_codec ("", []) AssignTemplateTagsRequest_fields.

Definition AssignedTemplateTags_fields : list (field (list string * string)) := [
  Field "tags" (slice_codec string_codec) (mkVar fst (λ v t, (v, t.2))) false;
  Field "buildID" string_codec (mkVar snd (λ v t, (t.1, v))) false
].
Definition AssignedTemplateTags_json : codec (list string * string) := struct_codec ([], "") AssignedTemplateTags_fields.

Definition DeleteTemplateTagsRequest_fields : list (field (string * list string)) := [
  Field "name" string_codec (mkVar fst (λ v t, (v, t.2))) false;
  Field "tags" (slice_codec string_codec) (mkVar snd (λ v t, (t.1, v))) false
].
Definition DeleteTemplateTagsRequest_json : codec (string * list string) := struct_codec ("", []) DeleteTemplateTagsRequest_fields.

Definition eta_TemplateTag (x : TemplateTag) : TemplateTag := mkTemplateTag (tt_Tag x) (tt_BuildID x) (tt_CreatedAt x).
Definition TemplateTag_fields : list (field (TemplateTag)) := [
  Field "tag" string_codec (&eta_TemplateTag->>tt_Tag) false;
  Field "buildID" string_codec (&eta_TemplateTag->>tt_BuildID) false;
  Field "createdAt" string_codec (&eta_TemplateTag->>tt_CreatedAt) false
].
Definition TemplateTag_json : codec (TemplateTag) := struct_codec (mkTemplateTag "" "" "") TemplateTag_fields.

Definition eta_TemplateBuildRequestV3 (x : TemplateBuildRequestV3) : TemplateBuildRequestV3 := mkTemplateBuildRequestV3 (tr_Name x) (tr_Alias x) (tr_Tags x) (tr_CPUCount x) (tr_MemoryMB x).
Definition TemplateBuildRequestV3_fields : list (field (TemplateBuildRequestV3)) := [
  Field "name" string_codec (&eta_TemplateBuildRequestV3->>tr_Name) false;
  Field "alias" string_codec (&eta_TemplateBuildRequestV3->>tr_Alias) false;
  Field "tags" (slice_codec string_codec) (&eta_TemplateBuildRequestV3->>tr_Tags) false;
  Field "cpuCount" int32_codec (&eta_TemplateBuildRequestV3->>tr_CPUCount) false;
  Field "memoryMB" int32_codec (&eta_TemplateBuildRequestV3->>tr_MemoryMB) false
].
Definition TemplateBuildRequestV3_json : codec (TemplateBuildRequestV3) := struct_codec (mkTemplateBuildRequestV3 "" "" [] 0 0) TemplateBuildRequestV3_fields.

Definition eta_TemplateRequestResponseV3 (x : build_reply) : build_reply := mkBuildReply (rr_TemplateID x) (rr_BuildID x) (rr_Public x) (rr_Names x) (rr_Tags x) (rr_Aliases x).
Definition TemplateRequestResponseV3_fields : list (field (build_reply)) := [
  Field "templateID" string_codec (&eta_TemplateRequestResponseV3->>rr_TemplateID) false;
  Field "buildID" string_codec (&eta_TemplateRequestResponseV3->>rr_BuildID) false;
  Field "public" bool_codec (&eta_TemplateRequestResponseV3->>rr_Public) false;
  Field "names" (slice_codec string_codec) (&eta_TemplateRequestResponseV3->>rr_Names) false;
  Field "tags" (slice_codec string_codec) (&eta_TemplateRequestResponseV3->>rr_Tags) false;
  Field "aliases" (slice_codec string_codec) (&eta_TemplateRequestResponseV3->>rr_Aliases) false
].
Definition TemplateRequestResponseV3_json : codec (build_reply) := struct_codec (mkBuildReply "" "" false [] [] []) TemplateRequestResponseV3_fields.

Definition eta_Step (x : Step) : Step := mkStep (sp_Type x) (sp_Args x) (sp_FilesHash x).
Definition Step_fields : list (field (Step)) := [
  Field "type" string_codec (&eta_Step->>sp_Type) false;
  Field "args" (slice_codec string_codec) (&eta_Step->>sp_Args) false;
  Field "filesHash" string_codec (&eta_Step->>sp_FilesHash) true
].
Definition Step_json : codec (Step) := struct_codec (mkStep "" [] "") Step_fields.

Definition eta_TemplateBuildStartV2 (x : TemplateBuildStartV2) : TemplateBuildStartV2 := mkTemplateBuildStartV2 (ts_FromImage x) (ts_FromTemplate x) (ts_FromImageRegistry x) (ts_Steps x) (ts_StartCmd x) (ts_ReadyCmd x).
Definition TemplateBuildStartV2_fields : list (field (TemplateBuildStartV2)) := [
  Field "fromImage" string_codec (&eta_TemplateBuildStartV2->>ts_FromImage) false;
  Field "fromTemplate" string_codec (&eta_TemplateBuildStartV2->>ts_FromTemplate) false;
  Field "fromImageRegistry" raw_codec (&eta_TemplateBuildStartV2->>ts_FromImageRegistry) false;
  Field "steps" (slice_codec Step_json) (&eta_TemplateBuildStartV2->>ts_Steps) false;
  Field "startCmd" string_codec (&eta_TemplateBuildStartV2->>ts_StartCmd) false;
  Field "readyCmd" string_codec (&eta_TemplateBuildStartV2->>ts_ReadyCmd) false
].
Definition TemplateBuildStartV2_json : codec (TemplateBuildStartV2) := struct_codec (mkTemplateBuildStartV2 "" "" "" [] "" "") TemplateBuildStartV2_fields.

Definition eta_TemplateBuildFileUpload (x : file_upload) : file_upload := mkFileUpload (fu_Present x) (fu_URL x) (fu_Headers x).
Definition TemplateBuildFileUpload_fields : list (field (file_upload)) := [
  Field "present" bool_codec (&eta_TemplateBuildFileUpload->>fu_Present) false;
  Field "url" string_codec (&eta_TemplateBuildFileUpload->>fu_URL) true;
  Field "headers" (map_codec string_codec) (&eta_TemplateBuildFileUpload->>fu_Headers) true
].
Definition TemplateBuildFileUpload_json : codec (file_upload) := struct_codec (mkFileUpload false "" ∅) TemplateBuildFileUpload_fields.

Definition eta_BuildLogEntry (x : BuildLogEntry) : BuildLogEntry := mkBuildLogEntry (bl_Timestamp x) (bl_Message x) (bl_Level x) (bl_Step x).
Definition BuildLogEntry_fields : list (field (BuildLogEntry)) := [
  Field "timestamp" string_codec (&eta_BuildLogEntry->>bl_Timestamp) false;
  Field "message" message_codec (&eta_BuildLogEntry->>bl_Message) false;
  Field "level" string_codec (&eta_BuildLogEntry->>bl_Level) false;
  Field "step" string_codec (&eta_BuildLogEntry->>bl_Step) true
].
Definition BuildLogEntry_json : codec (BuildLogEntry) := struct_codec (mkBuildLogEntry "" [] "" "") BuildLogEntry_fields.

Definition eta_BuildStatusReason (x : BuildStatusReason) : BuildStatusReason := mkBuildStatusReason (br_Message x) (br_Step x) (br_LogEntries x).
Definition BuildStatusReason_fields : list (field (BuildStatusReason)) := [
  Field "message" message_codec (&eta_BuildStatusReason->>br_Message) false;
  Field "step" string_codec (&eta_BuildStatusReason->>br_Step) true;
  Field "logEntries" (slice_codec BuildLogEntry_json) (&eta_BuildStatusReason->>br_LogEntries) false
].
Definition BuildStatusReason_json : codec (BuildStatusReason) := struct_codec (mkBuildStatusReason [] "" []) BuildStatusReason_fields.

Definition eta_TemplateBuildInfo (x : TemplateBuildInfo) : TemplateBuildInfo := mkTemplateBuildInfo (bi_TemplateID x) (bi_BuildID x) (bi_Status x) (bi_LogEntries x) (bi_Reason x).
Definition TemplateBuildInfo_fields : list (field (TemplateBuildInfo)) := [
  Field "templateID" string_codec (&eta_TemplateBuildInfo->>bi_TemplateID) false;
  Field "buildID" string_codec (&eta_TemplateBuildInfo->>bi_BuildID) false;
  Field "status" string_codec (&eta_TemplateBuildInfo->>bi_Status) false;
  Fixed "logs" (λ _, JArray []);
  Field "logEntries" (slice_codec BuildLogEntry_json) (&eta_TemplateBuildInfo->>bi_LogEntries) false;
  Field "reason" (ptr_codec BuildStatusReason_json) (&eta_TemplateBuildInfo->>bi_Reason) true
].
Definition TemplateBuildInfo_json : codec (TemplateBuildInfo) := struct_codec (mkTemplateBuildInfo "" "" "" [] None) TemplateBuildInfo_fields.

Definition TemplateAliasResponse_fields : list (field (string)) := [
  Field "templateID" string_codec whole false;
  Fixed "public" (λ _, JBool true)
].
Definition TemplateAliasResponse_json : codec (string) := struct_codec "" TemplateAliasResponse_fields.

Definition APIError_fields : list (field (Z * list string)) := [
  Field "code" int32_codec (mkVar fst (λ v t, (v, t.2))) false;
  Field "message" message_codec (mkVar snd (λ v t, (t.1, v))) false
].
Definition APIError_json : codec (Z * list string) := struct_codec (0%Z, []) APIError_fields.

(** ** Replies *)

(** The document [writeJSON] encodes, and the envelope of [writeError]. *)
Definition document_json (d : document) : json :=
  match d with
  | DSandbox sb => cd_encode Sandbox_json sb
  | DDetail d => cd_encode SandboxDetail_json d
  | DDetails ds => cd_encode (slice_codec SandboxDetail_json) ds
  | DForks sbs => cd_encode (slice_codec SandboxForkResult_json) (Some <$> sbs)
  | DSnapshot s => cd_encode SnapshotInfo_json s
  | DSnapshots ss => cd_encode (slice_codec SnapshotInfo_json) ss
  | DMetrics ms => cd_encode (slice_codec SandboxMetric_json) ms
  | DMetricsById ms => cd_encode SandboxesWithMetrics_json (list_to_map ms)
  | DLogs => cd_encode SandboxLogs_json tt
  | DLogsV2 => cd_encode SandboxLogsV2_json tt
  | DTemplates ts => cd_encode (slice_codec Template_json) ts
  | DTemplate id names created builds => cd_encode TemplateWithBuilds_json (mkTemplateBuilds id names created builds)
  | DTags ts => cd_encode (slice_codec TemplateTag_json) ts
  | DAlias id => cd_encode TemplateAliasResponse_json id
  | DAssigned tags buildID => cd_encode AssignedTemplateTags_json (tags, buildID)
  | DUpload present url headers => cd_encode TemplateBuildFileUpload_json (mkFileUpload present url headers)
  | DBuild id buildID public names tags aliases => cd_encode TemplateRequestResponseV3_json (mkBuildReply id buildID public names tags aliases)
  | DBuildStatus info => cd_encode TemplateBuildInfo_json info
  end.

Definition reply_json (r : reply) : option json :=
  match r with
  | RError status msg => Some (cd_encode APIError_json (status, msg))
  | RJSON _ _ d => Some (document_json d)
  | RStatus _ | RPanic => None
  end.

(** A client that reads a reply into the struct of its kind. *)
Definition read_as (d : document) (j : json) : result document :=
  let read {A} (c : codec A) (f : A → document) : result document := f <$> cd_decode c (cd_zero c) j in
  match d with
  | DSandbox _ => read Sandbox_json DSandbox
  | DDetail _ => read SandboxDetail_json DDetail
  | DDetails _ => read (slice_codec SandboxDetail_json) DDetails
  | DForks _ => read (slice_codec SandboxForkResult_json) (λ sbs, DForks (omap id sbs))
  | DSnapshot _ => read SnapshotInfo_json DSnapshot
  | DSnapshots _ => read (slice_codec SnapshotInfo_json) DSnapshots
  | DMetrics _ => read (slice_codec SandboxMetric_json) DMetrics
  | DMetricsById _ => read SandboxesWithMetrics_json (λ m, DMetricsById (sorted_entries m))
  | DLogs => read SandboxLogs_json (λ _, DLogs)
  | DLogsV2 => read SandboxLogsV2_json (λ _, DLogsV2)
  | DTemplates _ => read (slice_codec Template_json) DTemplates
  | DTemplate _ _ _ _ => read TemplateWithBuilds_json (λ t, DTemplate (tw_TemplateID t) (tw_Names t) (tw_CreatedAt t) (tw_Builds t))
  | DTags _ => read (slice_codec TemplateTag_json) DTags
  | DAlias _ => read TemplateAliasResponse_json DAlias
  | DAssigned _ _ => read AssignedTemplateTags_json (λ a, DAssigned a.1 a.2)
  | DUpload _ _ _ => read TemplateBuildFileUpload_json (λ u, DUpload (fu_Present u) (fu_URL u) (fu_Headers u))
  | DBuild _ _ _ _ _ _ => read TemplateRequestResponseV3_json
      (λ b, DBuild (rr_TemplateID b) (rr_BuildID b) (rr_Public b) (rr_Names b) (rr_Tags b) (rr_Aliases b))
  | DBuildStatus _ => read TemplateBuildInfo_json DBuildStatus
  end.
End wire.

(** ** Requests *)

(** Reading one value off a body, and rendering one. *)
Class JSONParser := {
  parse_json : stream → body json;
  render_json : json → string;
}.

(** [decodeBody] up to the value: at most [maxBodyBytes], into the zero struct. *)
Definition decoded {P : JSONParser} {A} (c : codec A) (b : stream) : body A :=
  match parse_json (MaxBytesReader maxBodyBytes b) with
  | Malformed why => Malformed why
  | Empty => Empty
  | Decoded j => match cd_decode c (cd_zero c) j with Ok a => Decoded a | Err e => Malformed (error_text e) end
  end.

(** A value that is decoded and not looked at. *)
Definition unused {A} (b : body A) : body unit := match b with Decoded _ => Decoded tt | Empty => Empty | Malformed why => Malformed why end.

#[export] Instance wire_bodies {T : JSONText} {P : JSONParser} : RequestCodec := {|
  decode_create := decoded NewSandbox_json;
  decode_timeout := decoded SandboxTimeoutRequest_json;
  decode_refresh := decoded SandboxRefreshRequest_json;
  decode_pause := decoded SandboxPauseRequest_json;
  decode_connect := decoded ConnectSandbox_json;
  decode_resume := decoded ResumedSandbox_json;
  decode_fork := decoded SandboxForkRequest_json;
  decode_snapshot := decoded SandboxSnapshotRequest_json;
  decode_patch b := unused (decoded TemplateUpdateRequest_json b);
  decode_tags := decoded AssignTemplateTagsRequest_json;
  decode_untags := decoded DeleteTemplateTagsRequest_json;
  decode_build := decoded TemplateBuildRequestV3_json;
  decode_start := decoded TemplateBuildStartV2_json;
|}.

(** ** Specification *)

Definition int32 (z : Z) : Prop := (- 2 ^ 31 ≤ z < 2 ^ 31)%Z.
Definition int64 (z : Z) : Prop := (- 2 ^ 63 ≤ z < 2 ^ 63)%Z.
Definition opt_int32 (z : option Z) : Prop := ∀ v, z = Some v → int32 v.

Definition fits_detail (d : SandboxDetail) : Prop := int32 (sd_CPUCount d) ∧ int32 (sd_MemoryMB d).
Definition fits_metric (m : SandboxMetric) : Prop :=
  int64 (mt_TimestampUnix m) ∧ int32 (mt_CPUCount m) ∧ int64 (mt_MemUsed m) ∧ int64 (mt_MemTotal m) ∧ int64 (mt_MemCache m) ∧
  int64 (mt_DiskUsed m) ∧ int64 (mt_DiskTotal m).
Definition fits_template (t : TemplateInfo) : Prop := int32 (ti_CPUCount t) ∧ int32 (ti_MemoryMB t) ∧ int32 (ti_BuildCount t).
Definition fits_build (b : TemplateBuild) : Prop := int32 (tb_CPUCount b) ∧ int32 (tb_MemoryMB b).

(** The integers of a reply are within the width of their fields, and the samples by
    sandbox are a map's. *)
Definition fits (d : document) : Prop :=
  match d with
  | DDetail d => fits_detail d
  | DDetails ds => Forall fits_detail ds
  | DMetrics ms => Forall fits_metric ms
  | DMetricsById ms => ∃ m, ms = sorted_entries m ∧ map_Forall (λ _, fits_metric) m
  | DTemplates ts => Forall fits_template ts
  | DTemplate _ _ _ bs => Forall fits_build bs
  | _ => True
  end.

(** A detail without the key a page is cut at. *)
Definition published_detail (d : SandboxDetail) : SandboxDetail :=
  mkDetail (sd_TemplateID d) (sd_SandboxID d) (sd_ClientID d) (sd_StartedAt d) (sd_EndAt d) (sd_State d) (sd_EnvdVersion d) (sd_CPUCount d)
    (sd_MemoryMB d) (sd_Alias d) (sd_Metadata d) (sd_Domain d) "".
Definition published (d : document) : document :=
  match d with
  | DDetail d => DDetail (published_detail d)
  | DDetails ds => DDetails (published_detail <$> ds)
  | d => d
  end.

(** ** Lemmas *)

(** [readable_struct] at a table of fields. *)
Ltac unfold_head c := lazymatch c with ?f _ => unfold_head f | _ => try unfold c end.
Ltac solve_value :=
  let H := fresh "Hsp" in intros H; cbn in H |- *;
  first [solve [auto with json | intuition (auto with json)] | apply readable_raw; let E := fresh in intros E; rewrite E in H; discriminate].
Ltac solve_readable :=
  lazymatch goal with
  | |- readable ?c ?o => unfold_head c; lazymatch goal with |- readable (struct_codec _ ?fs) _ => unfold_head fs end; apply readable_struct;
      [ apply (bool_decide_eq_true_1 _); vm_compute; reflexivity
      | once solve_apart
      | repeat (apply Forall_cons; split); [..|apply Forall_nil; exact I];
        first [exact I | reflexivity | symmetry; eassumption | split_and!; [reflexivity|first [discriminate | auto with json]|solve_value|reflexivity]]
      | let x := fresh "x" in let Hx := fresh "Hx" in
        intros x Hx; repeat (apply Forall_cons in Hx as [? Hx]); cbn in *;
        first [done | destruct x, o; cbn in *; subst; reflexivity] ]
  end.

Lemma int32_readable z : int32 z → readable int32_codec z.
Proof. apply (readable_int 32). Qed.
Lemma int64_readable z : int64 z → readable int64_codec z.
Proof. apply (readable_int 64). Qed.
#[export] Hint Resolve int32_readable int64_readable : json.

Lemma Sandbox_readable {T : JSONText} sb : readable Sandbox_json sb.
Proof. solve_readable. Qed.
#[export] Hint Extern 5 (readable (ptr_codec _) (Some _)) => apply readable_some; [|discriminate] : json.
#[export] Hint Extern 6 (readable (slice_codec _) _) => apply readable_slice, Forall_forall; intros : json.
#[export] Hint Extern 7 (readable (map_codec _) _) => apply readable_map; intros ??? : json.
#[export] Hint Extern 8 (readable (ptr_codec _) ?o) => lazymatch o with None => fail | Some _ => fail | _ => destruct o end : json.
#[export] Hint Resolve Sandbox_readable : json.


Lemma SandboxDetail_readable {T : JSONText} d : fits_detail d → cd_decode SandboxDetail_json (cd_zero SandboxDetail_json) (cd_encode SandboxDetail_json d) = Ok (published_detail d).
Proof.
  intros [Hc Hm]. change (cd_encode SandboxDetail_json d) with (cd_encode SandboxDetail_json (published_detail d)).
  change (int32 (sd_CPUCount (published_detail d))) in Hc. change (int32 (sd_MemoryMB (published_detail d))) in Hm.
  assert (sd_startedAtKey (published_detail d) = "") as Hk by done. revert Hc Hm Hk. generalize (published_detail d). clear d.
  intros d Hc Hm Hk. change (readable SandboxDetail_json d). solve_readable.
Qed.

Lemma SandboxForkResult_readable {T : JSONText} r : readable SandboxForkResult_json r.
Proof. destruct r as [sb|]; solve_readable. Qed.
#[export] Hint Resolve SandboxForkResult_readable : json.
Lemma SnapshotInfo_readable {T : JSONText} s : readable SnapshotInfo_json s.
Proof. solve_readable. Qed.
#[export] Hint Resolve SnapshotInfo_readable : json.
Lemma SandboxMetric_readable {T : JSONText} m : fits_metric m → readable SandboxMetric_json m.
Proof. intros (? & ? & ? & ? & ? & ? & ?). solve_readable. Qed.
Lemma SandboxesWithMetrics_readable {T : JSONText} ms : map_Forall (λ _, fits_metric) ms → readable SandboxesWithMetrics_json ms.
Proof.
  intros Hms. assert (readable (map_codec SandboxMetric_json) ms) by (apply readable_map; intros k m Hm; by apply SandboxMetric_readable, (Hms k)).
  solve_readable.
Qed.
Lemma Template_readable {T : JSONText} t : fits_template t → readable Template_json t.
Proof. intros (? & ? & ?). solve_readable. Qed.
Lemma TemplateBuild_readable {T : JSONText} b : fits_build b → readable TemplateBuild_json b.
Proof. intros []. solve_readable. Qed.
Lemma TemplateWithBuilds_readable {T : JSONText} t : Forall fits_build (tw_Builds t) → readable TemplateWithBuilds_json t.
Proof.
  intros Hb. assert (readable (slice_codec TemplateBuild_json) (tw_Builds t)).
  { apply readable_slice. eapply Forall_impl; [exact Hb|apply TemplateBuild_readable]. }
  solve_readable.
Qed.
Lemma AssignedTemplateTags_readable {T : JSONText} a : readable AssignedTemplateTags_json a.
Proof. solve_readable. Qed.
Lemma TemplateTag_readable {T : JSONText} t : readable TemplateTag_json t.
Proof. solve_readable. Qed.
#[export] Hint Resolve TemplateTag_readable : json.
Lemma TemplateRequestResponseV3_readable {T : JSONText} r : readable TemplateRequestResponseV3_json r.
Proof. solve_readable. Qed.
Lemma TemplateBuildFileUpload_readable {T : JSONText} u : readable TemplateBuildFileUpload_json u.
Proof. solve_readable. Qed.
Lemma BuildLogEntry_readable {T : JSONText} e : readable BuildLogEntry_json e.
Proof. solve_readable. Qed.
#[export] Hint Resolve BuildLogEntry_readable : json.
Lemma BuildStatusReason_readable {T : JSONText} r : readable BuildStatusReason_json r.
Proof. solve_readable. Qed.
#[export] Hint Resolve BuildStatusReason_readable : json.
Lemma TemplateBuildInfo_readable {T : JSONText} i : readable TemplateBuildInfo_json i.
Proof. solve_readable. Qed.
Lemma TemplateAliasResponse_readable {T : JSONText} id : readable TemplateAliasResponse_json id.
Proof. solve_readable. Qed.
Lemma APIError_readable {T : JSONText} e : int32 e.1 → readable APIError_json e.
Proof. intros ?. solve_readable. Qed.

(** Many details, each back without its key. *)
Lemma SandboxDetails_readable {T : JSONText} ds : Forall fits_detail ds →
  cd_decode (slice_codec SandboxDetail_json) [] (cd_encode (slice_codec SandboxDetail_json) ds) = Ok (published_detail <$> ds).
Proof.
  unfold slice_codec. cbn [cd_decode cd_encode]. induction 1 as [|d ds Hd Hds IH]; [done|]. rewrite !fmap_cons. cbn [decode_all].
  rewrite (SandboxDetail_readable d Hd). cbn [mbind result_bind]. by rewrite IH.
Qed.

Lemma sorted_entries_map {A} (m : gmap string A) : list_to_map (sorted_entries m) = m.
Proof.
  assert ((sorted_entries m).*1 = sorted_keys m) as Hk.
  { unfold sorted_entries. assert (Forall (λ k, is_Some (m !! k)) (sorted_keys m)) as Hs by (apply Forall_forall; intros k; apply elem_of_sorted_keys).
    induction Hs as [|k ks [a Ha] Hs IH]; [done|]. csimpl. rewrite Ha. csimpl. by rewrite IH. }
  apply map_eq. intros k. apply option_eq. intros a. rewrite <- elem_of_list_to_map by (rewrite Hk; apply sorted_keys_NoDup).
  unfold sorted_entries. rewrite list_elem_of_omap. split.
  - intros (k' & Hk' & Heq). destruct (m !! k') as [b|] eqn:Hb; [|done]. by simplify_eq/=.
  - intros Ha. exists k. rewrite elem_of_sorted_keys, Ha. by eauto.
Qed.

Lemma read_back {A B} (c : codec A) (f : A → B) a : readable c a → f <$> cd_decode c (cd_zero c) (cd_encode c a) = Ok (f a).
Proof. unfold readable. by intros ->. Qed.

Lemma omap_some {A} (l : list A) : omap id (Some <$> l) = l.
Proof. induction l as [|a l IH]; [done|]. csimpl. by rewrite IH. Qed.

(** ** Correctness *)


#[export] Instance example_text : JSONText.
Proof. refine {| json_text j := match j with JRaw t => t | _ => "null" end |}. done. Defined.
Definition example_detail : SandboxDetail :=
  mkDetail "base" "ns--vm-1" "node-a" "2026-01-01T00:00:00Z" "2026-01-01T01:00:00Z" "running" "0.2.0" 4 4096 "" "{}" "sandbox.local" "k".


(** A detail's page key stays out, its metadata goes as it was written. *)
Example detail_on_the_wire : document_json (DDetail example_detail) = JObject [
  ("templateID", JString "base"); ("sandboxID", JString "ns--vm-1"); ("clientID", JString "node-a");
  ("startedAt", JString "2026-01-01T00:00:00Z"); ("endAt", JString "2026-01-01T01:00:00Z"); ("state", JString "running");
  ("envdVersion", JString "0.2.0"); ("cpuCount", JInt 4); ("memoryMB", JInt 4096); ("diskSizeMB", JInt 0);
  ("metadata", JRaw "{}"); ("domain", JString "sandbox.local")].
Proof. reflexivity. Qed.

(** A body's keys are matched whatever their case, a null leaves an option out, an
    unknown key is skipped. *)
Example create_body_read :
  cd_decode NewSandbox_json (cd_zero NewSandbox_json) (JObject [("TemplateId", JString "base"); ("timeout", JNull); ("secure", JBool true);
    ("colour", JInt 1); ("envVars", JObject [("A", JString "1")])]) =
  Ok (mkNewSandbox "base" None ∅ None {[ "A" := "1" ]} (Some true) None [] [] None None [] []).
Proof. vm_compute. reflexivity. Qed.

(** A timeout out of int32 is refused. *)
Example timeout_body_wide :
  cd_decode SandboxTimeoutRequest_json 0%Z (JObject [("timeout", JInt (2 ^ 31))]) = Err (UnmarshalTypeError "int").
Proof. reflexivity. Qed.
