(* ===== verification/E2bFlags.v ===== *)
(** * The e2b flags (pkg/e2bcompat/flags.go)

    What the command line makes of the surface: the key, alias and secret files are
    read, the store of uploaded archives is opened, and the options of the server
    come out.  [CommandLine] registers the flags; the file system, as far as the flags
    use it, and the AWS configuration are parameters. *)

From S2P Require Import Prelude GoStd GoNum GoText GoCodec Api PoolKeys Client StoreRead Store E2bServer E2bUploads E2bApi.

Record s3Config := mkS3Config {
  s3_Bucket : string;
  s3_Prefix : string;
  s3_Endpoint : string;
  s3_Region : string;
  s3_ForcePathStyle : bool;
}.

Record Flags := mkFlags {
  fl_Addr : string;
  fl_Namespace : string;
  fl_Domain : string;
  fl_EnvdVersion : string;
  fl_TimeoutSeconds : Z;
  fl_APIKeyFile : string;
  fl_AllowAnonymous : bool;
  fl_AliasesFile : string;
  fl_EnvdSecretFile : string;
  fl_Builds : bool;
  fl_BuildParallel : Z;
  fl_BuildTimeout : Z;
  fl_BuildLogLines : Z;
  fl_BuildDir : string;
  fl_UploadMax : Z;
  fl_BuildS3 : s3Config;
}.

Definition NewFlags : Flags :=
  mkFlags ":8080" "default" "" "" 0 "" false "" "" false 2 (30 * 60 * second) 10000 "" (2 ^ 30) (mkS3Config "" "" "" "" false).

(** [os.ReadFile], [os.MkdirAll] and [os.OpenRoot], and the AWS configuration. *)
Class FlagFiles (S : Type) := {
  ReadFile (name : string) : io S (result string);
  MkdirAll (name : string) : io S (result unit);
  OpenRoot (name : string) : io S (result unit);
  LoadAWS (cfg : s3Config) : io S (result unit);
}.

(** ** Files *)

(** The lines of a file that are neither blank nor a comment. *)
Definition kept_line (line : string) : bool := negb (bool_decide (line = "")) && negb (has_prefix "#" line).
Definition newline : ascii := "010"%char.
Definition lines_of (content : string) : list string := List.filter kept_line (trim_space <$> split_byte newline content).

Section flags.
Context {S : Type} {FF : FlagFiles S}.

Definition fileLines (name what : string) : io S (result (list string)) :=
  if decide (name = "") then mret (Ok [])
  else
    b ← ReadFile (path_clean name);
    mret match b with
         | Err e => Err (ErrWrap "read e2b %s file %q" [what; name] e)
         | Ok b => Ok (lines_of b)
         end.

Definition EnvdSecret (name : string) : io S (result string) :=
  if decide (name = "") then mret (Err (ErrText "--e2b-envd-secret-file is required" []))
  else
    b ← ReadFile (path_clean name);
    mret match b with
         | Err e => Err (ErrWrap "read e2b envd secret file %q" [name] e)
         | Ok b =>
             if decide (trim_space b = "") then Err (ErrText "e2b envd secret file %q is empty" [name]) else Ok (trim_space b)
         end.

(** The build options with the store of archives they name, if any. *)
Definition buildOptions (f : Flags) (secret : string) : io S (result (BuildOptions * option uploads)) :=
  let opts up := mkBuildOptions (fl_BuildParallel f) (fl_BuildTimeout f) (fl_BuildLogLines f) up in
  if negb (fl_Builds f) then mret (Ok (no_builds, None))
  else if decide (fl_BuildParallel f < 1 ∨ fl_BuildTimeout f ≤ 0)%Z then
    mret (Err (ErrText "--e2b-builds needs --e2b-build-parallel of at least 1 and a positive --e2b-build-timeout" []))
  else if decide (fl_BuildDir f ≠ "" ∧ s3_Bucket (fl_BuildS3 f) ≠ "") then
    mret (Err (ErrText "--e2b-build-dir and --e2b-build-store-s3-bucket are exclusive" []))
  else if decide (fl_BuildDir f ≠ "") then
    made ← MkdirAll (fl_BuildDir f);
    match made with
    | Err e => mret (Err (ErrWrap "create --e2b-build-dir" [] e))
    | Ok _ =>
        root ← OpenRoot (fl_BuildDir f);
        mret match root with
             | Err e => Err (ErrWrap "open --e2b-build-dir" [] e)
             | Ok _ => Ok (opts true, Some (DirUploads (mkDirUploads secret (fl_UploadMax f))))
             end
    end
  else if decide (s3_Bucket (fl_BuildS3 f) ≠ "") then
    loaded ← LoadAWS (fl_BuildS3 f);
    mret match loaded with
         | Err e => Err (ErrWrap "aws config" [] e)
         | Ok _ => Ok (opts true, Some (S3Uploads (newS3Uploads (s3_Prefix (fl_BuildS3 f)))))
         end
  else mret (Ok (opts false, None)).

(** [inv] says whether the binary has an inventory. *)
Definition ServerOptions (f : Flags) (inv : bool) : io S (result (Options * option uploads)) :=
  keys <-? fileLines (fl_APIKeyFile f) "api key";;
  aliases <-? fileLines (fl_AliasesFile f) "template aliases";;
  secret <-? EnvdSecret (fl_EnvdSecretFile f);;
  builds <-? buildOptions f secret;;
  mret (Ok (mkOptions (fl_Namespace f) (fl_Domain f) (fl_EnvdVersion f) (fl_TimeoutSeconds f) keys (fl_AllowAnonymous f) inv
    aliases secret builds.1, builds.2)).
End flags.

(** ** Specification *)

(** The namespace the lines of a key file give a key: its last line's. *)
Inductive keyed_by (default_ns : string) (lines : list string) (k ns : string) : Prop :=
| keyed_here pre line post : lines = pre ++ line :: post →
    fields line = [k; ns] ∨ fields line = [k] ∧ ns = default_ns →
    Forall (λ l, head (fields l) ≠ Some k) post → keyed_by default_ns lines k ns.

Lemma api_keys_last default_ns lines keys keys' k : api_keys default_ns lines keys = Ok keys' →
  (Forall (λ l, head (fields l) ≠ Some k) lines ∧ keys' !! k = keys !! k) ∨
  ∃ ns, keyed_by default_ns lines k ns ∧ keys' !! k = Some ns.
Proof.
  revert keys. induction lines as [|line lines IH]; intros keys; cbn [api_keys]; [intros [= ->]; by left|].
  assert (∀ key ns, fields line = [key; ns] ∨ fields line = [key] ∧ ns = default_ns → api_keys default_ns lines (<[key := ns]> keys) = Ok keys' →
    (Forall (λ l, head (fields l) ≠ Some k) (line :: lines) ∧ keys' !! k = keys !! k) ∨
    ∃ ns, keyed_by default_ns (line :: lines) k ns ∧ keys' !! k = Some ns) as Hline.
  { intros key ns Hf Hk. assert (head (fields line) = Some key) as Hh by (by destruct Hf as [->|[-> _]]).
    destruct (IH _ Hk) as [[Hnone Hl]|(ns' & Hn & Hl)].
    - destruct (decide (key = k)) as [->|Hne].
      + rewrite lookup_insert_eq in Hl. right. exists ns. split; [|done]. by apply (keyed_here _ _ _ _ [] line lines).
      + rewrite lookup_insert_ne in Hl by done. left. split; [|done]. constructor; [congruence|done].
    - right. exists ns'. split; [|done]. destruct Hn as [pre l post -> Hl' Hp]. by apply (keyed_here _ _ _ _ (line :: pre) l post). }
  destruct (fields line) as [|key [|ns [|]]] eqn:Hf; [| | |done].
  - intros Hk. destruct (IH _ Hk) as [[Hnone Hl]|(ns' & Hn & Hl)].
    + left. split; [|done]. constructor; [by rewrite Hf|done].
    + right. exists ns'. split; [|done]. destruct Hn as [pre l post -> Hl' Hp]. by apply (keyed_here _ _ _ _ (line :: pre) l post).
  - apply Hline. by right.
  - apply Hline. by left.
Qed.

Lemma keyed_by_named default_ns lines k ns : keyed_by default_ns lines k ns → ¬ Forall (λ l, head (fields l) ≠ Some k) lines.
Proof.
  intros [pre line post -> Hf _] Hno. rewrite Forall_app, Forall_cons in Hno. destruct Hno as (_ & Hl & _). by destruct Hf as [Hf|[Hf _]]; rewrite Hf in Hl.
Qed.

Lemma keyed_by_nonempty default_ns lines k ns : keyed_by default_ns lines k ns → k ≠ "".
Proof. intros [pre line post _ Hf _]. apply (fields_nonempty line). destruct Hf as [->|[-> _]]; constructor. Qed.

Lemma api_keys_keyed default_ns lines keys keys' k ns : api_keys default_ns lines keys = Ok keys' → keyed_by default_ns lines k ns →
  keys' !! k = Some ns.
Proof.
  intros Hk [pre line post -> Hf Hp]. revert keys Hk. induction pre as [|l pre IH]; intros keys; cbn [app api_keys].
  - intros Hk. assert (api_keys default_ns post (<[k := ns]> keys) = Ok keys') as Hk' by (by destruct Hf as [Hf|[Hf ->]]; rewrite Hf in Hk).
    destruct (api_keys_last _ _ _ _ k Hk') as [[_ ->]|(ns' & Hn & _)]; [by rewrite lookup_insert_eq|]. by apply keyed_by_named in Hn.
  - by destruct (fields l) as [|key [|ns' [|]]]; [apply IH..|].
Qed.

(** What a read file gives: nothing without a name, else its kept lines. *)
Definition lines_read {S} {FF : FlagFiles S} (name : string) (lines : list string) : Prop :=
  (name = "" ∧ lines = []) ∨ ∃ st content, (ReadFile (path_clean name) st).1 = Ok content ∧ lines = lines_of content.

(** What the flags leave open about the options. *)
Record flags_ok {S} {FF : FlagFiles S} (f : Flags) (opts : Options) (up : option uploads) : Prop := {
  fo_keys : lines_read (fl_APIKeyFile f) (op_APIKeys opts);
  fo_aliases : lines_read (fl_AliasesFile f) (op_TemplateAliases opts);
  fo_namespace : op_Namespace opts = fl_Namespace f;
  fo_domain : op_Domain opts = fl_Domain f;
  fo_anonymous : op_AllowAnonymous opts = fl_AllowAnonymous f;
  fo_secret : op_EnvdSecret opts ≠ "" ∧ ∃ st content, (ReadFile (path_clean (fl_EnvdSecretFile f)) st).1 = Ok content ∧
    op_EnvdSecret opts = trim_space content;
  fo_builds : (0 < bo_Parallel (op_Builds opts))%Z ↔ fl_Builds f = true;
  fo_timeout : fl_Builds f = true → (0 < bo_Timeout (op_Builds opts))%Z;
  fo_uploads : bo_Uploads (op_Builds opts) = true ↔ is_Some up;
  fo_served : is_Some up → (0 < bo_Parallel (op_Builds opts))%Z;
  fo_exclusive : fl_BuildDir f ≠ "" → s3_Bucket (fl_BuildS3 f) ≠ "" → fl_Builds f = false;
  fo_store : match up with
             | Some (DirUploads d) => fl_BuildDir f ≠ "" ∧ d = mkDirUploads (op_EnvdSecret opts) (fl_UploadMax f)
             | Some (S3Uploads u) => s3_Bucket (fl_BuildS3 f) ≠ "" ∧ u = newS3Uploads (s3_Prefix (fl_BuildS3 f))
             | None => True
             end;
}.

Section lemmas.
Context {S : Type} {FF : FlagFiles S}.

Lemma fileLines_read name what st lines st' : fileLines name what st = (Ok lines, st') → lines_read name lines.
Proof.
  unfold fileLines. case_decide as Hn; [intros [= <- _]; by left|]. rewrite bind_run.
  destruct (ReadFile (path_clean name) st) as [[content|e] st1] eqn:Hr; [|done]. intros [= <- _]. right. exists st, content. by rewrite Hr.
Qed.

Lemma EnvdSecret_read name st secret st' : EnvdSecret name st = (Ok secret, st') →
  secret ≠ "" ∧ ∃ st content, (ReadFile (path_clean name) st).1 = Ok content ∧ secret = trim_space content.
Proof.
  unfold EnvdSecret. case_decide; [done|]. rewrite bind_run.
  destruct (ReadFile (path_clean name) st) as [[content|e] st1] eqn:Hr; [|done]. cbn [fst snd mret io_ret]. case_decide; [done|].
  intros [= <- _]. split; [done|]. exists st, content. by rewrite Hr.
Qed.

Lemma buildOptions_ok f secret st b up st' : buildOptions f secret st = (Ok (b, up), st') →
  (fl_Builds f = false ∧ b = no_builds ∧ up = None) ∨
  fl_Builds f = true ∧ b = mkBuildOptions (fl_BuildParallel f) (fl_BuildTimeout f) (fl_BuildLogLines f) (bool_decide (is_Some up)) ∧
    (1 ≤ fl_BuildParallel f ∧ 0 < fl_BuildTimeout f)%Z ∧ ¬ (fl_BuildDir f ≠ "" ∧ s3_Bucket (fl_BuildS3 f) ≠ "") ∧
    match up with
    | Some (DirUploads d) => fl_BuildDir f ≠ "" ∧ d = mkDirUploads secret (fl_UploadMax f)
    | Some (S3Uploads u) => s3_Bucket (fl_BuildS3 f) ≠ "" ∧ u = newS3Uploads (s3_Prefix (fl_BuildS3 f))
    | None => True
    end.
Proof.
  unfold buildOptions. destruct (fl_Builds f); cbn [negb]; [|intros [= <- <- _]; by left]. case_decide as Hp; [done|]. case_decide as Hx; [done|].
  intros Hrun. right. split; [done|]. case_decide as Hd.
  - rewrite bind_run in Hrun. destruct (MkdirAll _ st) as [[[]|e] st1]; cbn [fst snd] in Hrun; [|done]. rewrite bind_run in Hrun.
    destruct (OpenRoot _ st1) as [[[]|e] st2]; cbn [fst snd mret io_ret] in Hrun; [|done]. injection Hrun as <- <- _. split_and!; try done; lia.
  - case_decide as Hb; [|injection Hrun as <- <- _; split_and!; try done; lia].
    rewrite bind_run in Hrun. destruct (LoadAWS _ st) as [[[]|e] st1]; cbn [fst snd mret io_ret] in Hrun; [|done].
    injection Hrun as <- <- _. split_and!; try done; lia.
Qed.

Lemma try_Ok {A B} (m : io S (result A)) (k : A → io S (result B)) st b st' : try m k st = (Ok b, st') →
  ∃ a st1, m st = (Ok a, st1) ∧ k a st1 = (Ok b, st').
Proof. unfold try. rewrite bind_run. destruct (m st) as [[a|e] st1]; cbn [fst snd]; [|done]. intros Hk. by exists a, st1. Qed.

Lemma ServerOptions_run f inv st opts up st' : ServerOptions f inv st = (Ok (opts, up), st') → flags_ok f opts up.
Proof.
  unfold ServerOptions. intros (keys & st1 & Hk & (aliases & st2 & Ha & (secret & st3 & Hs & ([b up'] & st4 & Hb & Hrun)%try_Ok)%try_Ok)%try_Ok)%try_Ok.
  cbn [fst snd] in Hrun. injection Hrun as <- <- _. apply fileLines_read in Hk, Ha. apply EnvdSecret_read in Hs as [Hne Hs].
  apply buildOptions_ok in Hb as [(Hoff & -> & ->)|(Hon & -> & Hpos & Hx & Hup)].
  - split; cbn; try done; rewrite ?Hoff; try done; split; try done; by intros [? ?].
  - split; cbn; try done; rewrite ?Hon; try tauto; try lia; try (split; [done|lia]); try (by rewrite bool_decide_eq_true); by split.
Qed.
End lemmas.

(** ** Properties *)

(** the options the flags give are the ones the surface needs: builds are served
    exactly when they are asked for, with a slot, a time bound and at most one store
    of archives, which the options name exactly when there is one; the envd secret
    is never empty, and a directory's links are signed with that same secret; keys
    and aliases are the kept lines of their files. *)
Theorem ServerOptions_ok {S} {FF : FlagFiles S} (f : Flags) (inv : bool) (st st' : S) (opts : Options) (up : option uploads) :
  ServerOptions f inv st = (Ok (opts, up), st') → flags_ok f opts up.
Proof. apply ServerOptions_run. Qed.

(** the keys of the key file are the keys of the surface: a server started from
    flags serves a request in a namespace exactly when the last line of the file
    that names its key names that namespace, or names none and the namespace is the
    flags' own; and it serves everybody, in that namespace, only when the file names
    no key and anonymous access is allowed. *)
Theorem keys_served {S} {FF : FlagFiles S} (f : Flags) (inv : bool) (st st' : S) (opts : Options) (up : option uploads) (s : Server) :
  ServerOptions f inv st = (Ok (opts, up), st') → NewServer true true opts = Ok s →
  let own := str_or (fl_Namespace f) "default" in
  ∃ lines, lines_read (fl_APIKeyFile f) lines ∧
    ((Forall (λ l, fields l = []) lines ∧ fl_AllowAnonymous f = true ∧ ∀ key, caller s key = Some own) ∨
     (Exists (λ l, fields l ≠ []) lines ∧ ∀ key ns, caller s key = Some ns ↔ keyed_by own lines key ns)).
Proof.
  intros Hopts Hs own. apply ServerOptions_run in Hopts as [Hread _ Hns _ Hanon _ _ _ _ _ _ _]. exists (op_APIKeys opts). split; [done|].
  unfold NewServer in Hs. cbn [negb] in Hs. cbv zeta in Hs.
  assert (op_Namespace (with_defaults opts) = own) as Hown by by (cbn; rewrite Hns).
  destruct (api_keys _ _ _) as [keys|e] eqn:Hk; [|done]. rewrite Hown in Hk.
  destruct (bool_decide (keys = ∅) && negb (op_AllowAnonymous (with_defaults opts))) eqn:Hempty; [done|].
  assert (sv_keys s = keys ∧ op_Namespace (sv_opts s) = own) as [Hkeys Hdef] by (repeat case_match; by simplify_eq).
  cbn [op_APIKeys with_defaults] in Hk. pose proof (λ k, api_keys_last own _ _ _ k Hk) as Hlast.
  destruct (decide (keys = ∅)) as [->|Hne].
  - left. rewrite <-Hanon. cbn in Hempty. apply negb_false_iff in Hempty. split_and!; [|done|].
    + apply Forall_forall. intros l Hl. destruct (fields l) as [|k rest] eqn:Hf; [done|].
      destruct (Hlast k) as [[Hno _]|(ns & _ & Hl')]; [|by rewrite lookup_empty in Hl'].
      rewrite Forall_forall in Hno. specialize (Hno l Hl). by rewrite Hf in Hno.
    + intros key. unfold caller. by rewrite Hkeys, decide_True, Hdef.
  - right. split.
    + destruct (map_choose keys) as (k & ns & Hl); [done|]. destruct (Hlast k) as [[_ Hnone]|(ns' & [pre l post -> Hf _] & _)].
      { by rewrite lookup_empty, Hl in Hnone. }
      apply Exists_app. right. left. by destruct Hf as [->|[-> _]].
    + intros key ns. unfold caller, namespaceForKey. rewrite Hkeys, decide_False by done. split.
      * destruct (decide (key = "")); [done|]. intros Hl. destruct (Hlast key) as [[_ Hnone]|(ns' & Hn & Hl')]; [by rewrite lookup_empty, Hl in Hnone|].
        by simplify_eq.
      * intros Hn. assert (key ≠ "") as Hkey by (by apply keyed_by_nonempty in Hn). rewrite decide_False by done. by apply (api_keys_keyed _ _ _ _ _ _ Hk).
Qed.

(** ** Witnesses *)

(** A file system with a key file and a secret. *)
#[local] Instance flag_files : FlagFiles unit := {
  ReadFile name :=
    if decide (name = "/etc/keys") then
      mret (Ok ("# keys" +:+ String newline "alice team-a" +:+ String newline " bob" +:+ String newline "alice team-b"))
    else if decide (name = "/etc/secret") then mret (Ok (String newline "shh ")) else mret (Err (ErrSentinel "fs.ErrNotExist"));
  MkdirAll _ := mret (Ok tt);
  OpenRoot _ := mret (Ok tt);
  LoadAWS _ := mret (Ok tt);
}.

Definition flags_w : Flags :=
  mkFlags ":8080" "default" "sandbox.example" "0.2.0" 0 "/etc//keys" false "" "/etc/secret" true 2 (30 * 60 * second) 10000 "/var/e2b" (2 ^ 30)
    (mkS3Config "" "" "" "" false).

Definition options_w : Options :=
  mkOptions "default" "sandbox.example" "0.2.0" 0 ["alice team-a"; "bob"; "alice team-b"] false false [] "shh"
    (mkBuildOptions 2 (30 * 60 * second) 10000 true).

Lemma ServerOptions_ok_witness : flags_ok flags_w options_w (Some (DirUploads (mkDirUploads "shh" (2 ^ 30)))).
Proof. apply (@ServerOptions_ok unit flag_files flags_w false tt tt). vm_compute. reflexivity. Defined.

Definition server_w : Server :=
  mkServer (with_defaults options_w) (<["alice" := "team-b"]> (<["bob" := "default"]> (<["alice" := "team-a"]> ∅))) ∅ ∅.

Lemma keys_served_witness :
  let own := str_or (fl_Namespace flags_w) "default" in
  ∃ lines, lines_read (FF := flag_files) (fl_APIKeyFile flags_w) lines ∧
    ((Forall (λ l, fields l = []) lines ∧ fl_AllowAnonymous flags_w = true ∧ ∀ key, caller server_w key = Some own) ∨
     (Exists (λ l, fields l ≠ []) lines ∧ ∀ key ns, caller server_w key = Some ns ↔ keyed_by own lines key ns)).
Proof.
  apply (@keys_served unit flag_files flags_w false tt tt options_w (Some (DirUploads (mkDirUploads "shh" (2 ^ 30))))).
  - vm_compute. reflexivity.
  - vm_compute. reflexivity.
Defined.
