(* ===== verification/ServeDrain.v ===== *)
(** * Serving until the context ends (Flags.Serve in pkg/envdproxy/flags.go, Server.Serve in pkg/e2bcompat/server.go)

    Both surfaces run an [http.Server] beside a goroutine that waits for a context,
    shuts the server down under a timeout and then closes a channel somebody waits
    for.  The goroutines, the server's connections and the clock are a step relation:
    one step per action another party can see.

    The server is the standard library's as documented: [Shutdown] marks it, closes
    its listeners, then waits until no connection is active or its context is done;
    [Serve] accepts until then and returns ErrServerClosed once the server is marked.
    Connections a handler hijacked are not the server's any more. *)

From S2P Require Import Prelude GoStd.

(** ** The server and its drainer *)

(** The goroutine that drains: before [<-ctx.Done()], inside [Shutdown], and past
    [close(drained)], with what [Shutdown] returned. *)
Inductive drainer := Waiting | Shutting | Drained (res : result unit).

(** [httpSrv.Serve(ln)]: still accepting, or returned. *)
Inductive serving := Accepting | Served (e : error).

Definition ErrServerClosed : error := ErrSentinel "http: Server closed".
Definition shutdown_expired : error := ErrSentinel "context deadline exceeded".

Record server := mkServer {
  hs_done : bool;              (* the drainer's context has ended *)
  hs_marked : bool;            (* the server is in shutdown, its listeners closed *)
  hs_active : nat;             (* connections that are not idle *)
  hs_drainer : drainer;
  hs_serving : serving;
}.

Definition listening : server := mkServer false false 0 Waiting Accepting.

(** One action: of a client, of the listener, of the drainer, of the clock.  The
    listener may break, or a certificate fail to load, at any time. *)
Inductive server_step : server → server → Prop :=
| step_active d n w sv :
    server_step (mkServer d false n w sv) (mkServer d false (S n) w sv)
| step_idle d m n w sv :
    server_step (mkServer d m (S n) w sv) (mkServer d m n w sv)
| step_broken d m n w e :
    e ≠ ErrServerClosed →
    server_step (mkServer d m n w Accepting) (mkServer d m n w (Served e))
| step_closed d n w :
    server_step (mkServer d true n w Accepting) (mkServer d true n w (Served ErrServerClosed))
| step_shutdown m n sv :
    server_step (mkServer true m n Waiting sv) (mkServer true true n Shutting sv)
| step_drained d m sv :
    server_step (mkServer d m 0 Shutting sv) (mkServer d m 0 (Drained (Ok tt)) sv)
| step_expired d m n sv :
    server_step (mkServer d m n Shutting sv) (mkServer d m n (Drained (Err shutdown_expired)) sv).

(** The context ends. *)
Definition cancel (s : server) : server :=
  mkServer true (hs_marked s) (hs_active s) (hs_drainer s) (hs_serving s).

(** ** envdproxy's Serve: the caller accepts, then waits for the drainer *)

Inductive edge_caller := EdgeServing | EdgeDraining | EdgeReturned (res : result unit).

Record edge := mkEdge { ed_server : server; ed_caller : edge_caller }.

Inductive edge_step : edge → edge → Prop :=
| edge_server s s' c : server_step s s' → edge_step (mkEdge s c) (mkEdge s' c)
| edge_done s c : hs_done s = false → edge_step (mkEdge s c) (mkEdge (cancel s) c)
| edge_closed s : hs_serving s = Served ErrServerClosed → edge_step (mkEdge s EdgeServing) (mkEdge s EdgeDraining)
| edge_failed s e : hs_serving s = Served e → e ≠ ErrServerClosed →
    edge_step (mkEdge s EdgeServing) (mkEdge s (EdgeReturned (Err e)))
| edge_drained s res : hs_drainer s = Drained res → edge_step (mkEdge s EdgeDraining) (mkEdge s (EdgeReturned (Ok tt))).

Definition edge_start : edge := mkEdge listening EdgeServing.

(** ** e2bcompat's Serve: a goroutine accepts, and the caller's stop drains *)

(** The caller of [Serve]: serving whatever it serves, inside [stop] before and after
    it ended the drainer's context, and past it. *)
Inductive e2b_caller := E2bRunning | E2bStopping | E2bStopped.

Record e2b := mkE2b {
  eb_server : server;
  eb_parent : bool;            (* the process's context, which the drainer's derives from *)
  eb_caller : e2b_caller;
}.

Inductive e2b_step : e2b → e2b → Prop :=
| e2b_server s s' p c : server_step s s' → e2b_step (mkE2b s p c) (mkE2b s' p c)
| e2b_done s c : e2b_step (mkE2b s false c) (mkE2b (cancel s) true c)
| e2b_stop s p : e2b_step (mkE2b s p E2bRunning) (mkE2b (cancel s) p E2bStopping)
| e2b_drained s p res : hs_drainer s = Drained res → e2b_step (mkE2b s p E2bStopping) (mkE2b s p E2bStopped).

Definition e2b_start : e2b := mkE2b listening false E2bRunning.

(** ** Invariant and measure *)

(** The server is marked exactly once the drainer left its wait, which takes the end
    of its context; a clean shutdown leaves nothing active. *)
Record server_ok (s : server) : Prop := {
  ok_done : hs_drainer s ≠ Waiting → hs_done s = true;
  ok_marked : hs_marked s = true ↔ hs_drainer s ≠ Waiting;
  ok_closed : hs_serving s = Served ErrServerClosed → hs_marked s = true;
  ok_clean : hs_drainer s = Drained (Ok tt) → hs_active s = 0;
  ok_expired e : hs_drainer s = Drained (Err e) → e = shutdown_expired;
}.

Definition drainer_weight (w : drainer) : nat := match w with Waiting => 2 | Shutting => 1 | Drained _ => 0 end.
Definition serving_weight (sv : serving) : nat := match sv with Accepting => 1 | Served _ => 0 end.
Definition server_weight (s : server) : nat := hs_active s + drainer_weight (hs_drainer s) + serving_weight (hs_serving s).

Definition edge_weight (e : edge) : nat :=
  server_weight (ed_server e) + (if hs_done (ed_server e) then 0 else 1) +
  match ed_caller e with EdgeServing => 2 | EdgeDraining => 1 | EdgeReturned _ => 0 end.

Definition e2b_weight (e : e2b) : nat :=
  server_weight (eb_server e) + (if eb_parent e then 0 else 1) +
  match eb_caller e with E2bRunning => 2 | E2bStopping => 1 | E2bStopped => 0 end.

(** ** Lemmas *)

Lemma server_step_ok s s' : server_step s s' → server_ok s → server_ok s'.
Proof.
  intros Hs [Hd Hm Hc Hcl He]. destruct Hs; cbn in *; split; cbn; try done; try naive_solver.
  all: intros; exfalso; destruct Hm as [Hm1 Hm2]; cbn in *; naive_solver.
Qed.

Lemma cancel_ok s : server_ok s → server_ok (cancel s).
Proof. by intros [Hd Hm Hc Hcl He]; split. Qed.

Lemma listening_ok : server_ok listening.
Proof. by split. Qed.
#[local] Hint Resolve server_step_ok cancel_ok listening_ok : core.

(** Once the server is marked, every action brings it closer to rest. *)
Lemma server_step_weight s s' : server_step s s' → hs_marked s = true → hs_marked s' = true ∧ S (server_weight s') ≤ server_weight s.
Proof. by destruct 1; cbn in *; intros; split; try done; unfold server_weight; cbn; lia. Qed.

Lemma cancel_weight s : server_weight (cancel s) = server_weight s.
Proof. done. Qed.

(** What a server has come to is not undone. *)
Lemma server_step_keeps s s' : server_step s s' →
  (∀ e, hs_serving s = Served e → hs_serving s' = Served e) ∧
  (∀ r, hs_drainer s = Drained r → hs_drainer s' = Drained r).
Proof. destruct 1; cbn; split; naive_solver. Qed.

Lemma server_step_done s s' : server_step s s' → hs_done s' = hs_done s.
Proof. by destruct 1. Qed.

Record edge_ok (e : edge) : Prop := {
  eo_server : server_ok (ed_server e);
  eo_draining : ed_caller e = EdgeDraining → hs_serving (ed_server e) = Served ErrServerClosed;
  eo_returned : ed_caller e = EdgeReturned (Ok tt) → ∃ res, hs_drainer (ed_server e) = Drained res;
  eo_failed err : ed_caller e = EdgeReturned (Err err) → hs_serving (ed_server e) = Served err ∧ err ≠ ErrServerClosed;
}.

Lemma edge_step_ok e e' : edge_step e e' → edge_ok e → edge_ok e'.
Proof.
  intros Hs [Hok Hd Hr Hf]. destruct Hs as [s s' c Hs|s c|s Hc|s err Hc Hne|s res Hres]; cbn in *.
  - pose proof (server_step_keeps _ _ Hs) as [Hk1 Hk2]. split; cbn; [by eauto|by eauto| |].
    + intros Hc. destruct (Hr Hc) as [res Hres]. eauto.
    + intros err Hc. destruct (Hf err Hc). eauto.
  - split; cbn; eauto.
  - by split.
  - split; cbn; [done|done|done|]. by intros err' [= <-].
  - split; cbn; [done|done|by eauto|done].
Qed.

Lemma edge_reachable_ok e : rtc edge_step edge_start e → edge_ok e.
Proof. apply (rtc_ind_r (λ e, edge_ok e)); [by split|]. intros e1 e2 _ Hs Hok. by eapply edge_step_ok. Qed.

Lemma edge_step_weight e e' : edge_step e e' → hs_marked (ed_server e) = true →
  hs_marked (ed_server e') = true ∧ S (edge_weight e') ≤ edge_weight e.
Proof.
  intros Hs Hm. destruct Hs as [s s' c Hs|s c Hdone|s Hc|s err Hc Hne|s res Hres]; unfold edge_weight; cbn [ed_server ed_caller] in *.
  - destruct (server_step_weight _ _ Hs Hm) as [Hm' Hw]. split; [done|].
    rewrite (server_step_done _ _ Hs). lia.
  - rewrite Hdone, cancel_weight. split; [done|]. cbn. lia.
  - split; [done|lia].
  - split; [done|lia].
  - split; [done|lia].
Qed.

Record e2b_ok (e : e2b) : Prop := {
  bo_server : server_ok (eb_server e);
  bo_stopping : eb_caller e ≠ E2bRunning → hs_done (eb_server e) = true;
  bo_stopped : eb_caller e = E2bStopped → ∃ res, hs_drainer (eb_server e) = Drained res;
}.

Lemma e2b_step_ok e e' : e2b_step e e' → e2b_ok e → e2b_ok e'.
Proof.
  intros Hs [Hok Hst Hsd]. destruct Hs as [s s' p c Hs|s c|s p|s p res Hres]; cbn in *.
  - pose proof (server_step_keeps _ _ Hs) as [_ Hk]. split; cbn; [by eauto|by rewrite (server_step_done _ _ Hs)|].
    intros Hc. destruct (Hsd Hc) as [res Hres]. eauto.
  - split; cbn; eauto.
  - split; cbn; eauto. done.
  - split; cbn; eauto.
Qed.

Lemma e2b_reachable_ok e : rtc e2b_step e2b_start e → e2b_ok e.
Proof. apply (rtc_ind_r (λ e, e2b_ok e)); [by split|]. intros e1 e2 _ Hs Hok. by eapply e2b_step_ok. Qed.

Lemma e2b_step_weight e e' : e2b_step e e' → hs_marked (eb_server e) = true →
  hs_marked (eb_server e') = true ∧ S (e2b_weight e') ≤ e2b_weight e.
Proof.
  intros Hs Hm. destruct Hs as [s s' p c Hs|s c|s p|s p res Hres]; unfold e2b_weight; cbn [eb_server eb_parent eb_caller] in *; rewrite ?cancel_weight.
  - destruct (server_step_weight _ _ Hs Hm) as [Hm' Hw]. split; [done|lia].
  - split; [done|lia].
  - split; [done|lia].
  - split; [done|lia].
Qed.

(** A relation with a weight that every step lowers has only runs that long. *)
Lemma weighted_runs {A} (R : relation A) (P : A → Prop) (w : A → nat) :
  (∀ x y, R x y → P x → P y ∧ S (w y) ≤ w x) → ∀ n x y, P x → nsteps R n x y → n + w y ≤ w x ∧ P y.
Proof.
  intros HR n x y Hx Hn. induction Hn as [x|n x y z Hxy Hyz IH]; [split; [lia|done]|].
  destruct (HR x y Hxy Hx) as [Hy Hw]. destruct (IH Hy) as [Hle Hz]. split; [lia|done].
Qed.

(** Once its context has ended, the drainer reaches its end without a client or the
    listener acting. *)
Lemma drainer_ends s : server_ok s → hs_done s = true →
  ∃ s' res, rtc server_step s s' ∧ hs_drainer s' = Drained res ∧ hs_active s' = hs_active s ∧ hs_serving s' = hs_serving s ∧ hs_marked s' = true.
Proof.
  destruct s as [d m n w sv]. intros [_ Hm _ _ _] Hd. cbn in *. subst d. destruct w as [| |res].
  - eexists (mkServer true true n (Drained (Err shutdown_expired)) sv), _. split; [|done].
    eapply rtc_l; [apply step_shutdown|]. apply rtc_once, step_expired.
  - eexists (mkServer true m n (Drained (Err shutdown_expired)) sv), _. split; [apply rtc_once, step_expired|]. cbn.
    split_and!; try done. by apply Hm.
  - eexists _, res. split; [apply rtc_refl|]. cbn. split_and!; try done. by apply Hm.
Qed.

Lemma edge_server_runs s s' c : rtc server_step s s' → rtc edge_step (mkEdge s c) (mkEdge s' c).
Proof. apply (rtc_congruence (λ s, mkEdge s c)). by constructor. Qed.

Lemma e2b_server_runs s s' p c : rtc server_step s s' → rtc e2b_step (mkE2b s p c) (mkE2b s' p c).
Proof. apply (rtc_congruence (λ s, mkE2b s p c)). by constructor. Qed.

(** A caller that waits for the drainer gets past it. *)
Lemma edge_draining_returns s : server_ok s → hs_done s = true →
  ∃ s', rtc edge_step (mkEdge s EdgeDraining) (mkEdge s' (EdgeReturned (Ok tt))) ∧ hs_active s' = hs_active s.
Proof.
  intros Hok Hd. destruct (drainer_ends s Hok Hd) as (s' & res & Hs & Hres & Ha & _). exists s'. split; [|done].
  etrans; [by apply edge_server_runs|]. apply rtc_once. by eapply edge_drained.
Qed.

(** An action only the drainer, the clock or the listener takes is open while the
    drainer has not finished. *)
Lemma drainer_steps s : hs_marked s = true → server_ok s → (∀ r, hs_drainer s ≠ Drained r) → ∃ s', server_step s s'.
Proof.
  destruct s as [d m n w sv]. intros Hm Hok Hw. destruct Hok as [_ Hmw _ _ _]. cbn in *. destruct w as [| |r].
  - by apply Hmw in Hm.
  - eexists. apply step_expired.
  - by destruct (Hw r).
Qed.

Lemma serving_steps s : hs_marked s = true → hs_serving s = Accepting → ∃ s', server_step s s'.
Proof. destruct s as [d m n w sv]. cbn. intros -> ->. eexists. apply step_closed. Qed.

(** ** The proxy *)

(** C25: envdproxy's Serve returns without an error only after its context ended, its
    listener closed and the server was drained, so that no request is in flight
    unless the grace ran out; an error is the listener's own. *)
Theorem edge_serve_drains (e : edge) (res : result unit) : rtc edge_step edge_start e → ed_caller e = EdgeReturned res →
  match res with
  | Ok _ => hs_done (ed_server e) = true ∧ hs_marked (ed_server e) = true ∧
      (hs_drainer (ed_server e) = Drained (Ok tt) ∧ hs_active (ed_server e) = 0 ∨ hs_drainer (ed_server e) = Drained (Err shutdown_expired))
  | Err err => hs_serving (ed_server e) = Served err ∧ err ≠ ErrServerClosed
  end.
Proof.
  intros He Hc. apply edge_reachable_ok in He as [Hok _ Hr Hf]. destruct res as [[]|err]; [|by apply Hf].
  destruct (Hr Hc) as [res Hres]. destruct Hok as [Hd Hm _ Hcl Hex]. rewrite Hres in *.
  split_and!; [by apply Hd|by apply Hm|]. destruct res as [[]|err]; [left; by split; [|apply Hcl]|right]. by rewrite (Hex err).
Qed.

(** once its context has ended Serve can always return, whatever its clients do,
    and once the server is marked every run of it is finite and ends with Serve
    returned: no order of the goroutines deadlocks it. *)
Theorem edge_serve_returns (e : edge) : rtc edge_step edge_start e → hs_done (ed_server e) = true →
  (∃ e' res, rtc edge_step e e' ∧ ed_caller e' = EdgeReturned res ∧ hs_active (ed_server e') = hs_active (ed_server e)) ∧
  (hs_marked (ed_server e) = true → ∀ n e', nsteps edge_step n e e' → n ≤ edge_weight e ∧
    ((∀ e'', ¬ edge_step e' e'') → ∃ res, ed_caller e' = EdgeReturned res)).
Proof.
  intros He Hd. split.
  - apply edge_reachable_ok in He as [Hok Hdr _ _]. destruct e as [s c]. cbn in *. destruct c as [| |res].
    + destruct (hs_serving s) as [|err] eqn:Hsv.
      * destruct (drainer_ends s Hok Hd) as (s1 & res & Hs & Hres & Ha & Hsv1 & Hm).
        rewrite Hsv in Hsv1. destruct s1 as [d m n w sv]. cbn in *. subst.
        eexists (mkEdge (mkServer d true _ _ (Served ErrServerClosed)) (EdgeReturned (Ok tt))), _. split; [|done].
        etrans; [by apply edge_server_runs|]. eapply rtc_l; [apply edge_server, step_closed|].
        eapply rtc_l; [by apply edge_closed|]. apply rtc_once. by eapply edge_drained.
      * destruct (decide (err = ErrServerClosed)) as [->|Hne].
        -- destruct (edge_draining_returns s Hok Hd) as (s' & Hs & Ha). eexists _, _. split; [eapply rtc_l; [by apply edge_closed|exact Hs]|done].
        -- eexists _, _. split; [apply rtc_once; by apply (edge_failed s err)|done].
    + destruct (edge_draining_returns s Hok Hd) as (s' & Hs & Ha). by eexists _, _.
    + by eexists _, _.
  - intros Hm n e' Hn. destruct (weighted_runs edge_step _ edge_weight edge_step_weight n e e' Hm Hn) as [Hle Hm'].
    split; [lia|]. intros Hstuck. assert (rtc edge_step edge_start e') as He' by (etrans; [exact He|apply rtc_nsteps; by exists n]).
    apply edge_reachable_ok in He' as [Hok Hdr _ _]. destruct e' as [s c]. cbn in *. destruct c as [| |res]; [| |by eexists].
    + destruct (hs_serving s) as [|err] eqn:Hsv.
      * destruct (serving_steps s Hm' Hsv) as [s' Hs]. by destruct (Hstuck (mkEdge s' EdgeServing) (edge_server _ _ _ Hs)).
      * destruct (decide (err = ErrServerClosed)) as [->|Hne]; [by destruct (Hstuck _ (edge_closed s Hsv))|by destruct (Hstuck _ (edge_failed s err Hsv Hne))].
    + destruct (hs_drainer s) as [| |r] eqn:Hw; [| |by destruct (Hstuck _ (edge_drained s r Hw))].
      all: destruct (drainer_steps s Hm' Hok) as [s' Hs]; [by rewrite Hw|]; by destruct (Hstuck _ (edge_server _ _ EdgeDraining Hs)).
Qed.

(** ** The e2b surface *)

(** past its stop the e2b surface accepts nothing and no request is in flight
    unless the grace ran out, whether its serving goroutine had failed before or not;
    and from inside the stop it is always reached. *)
Theorem e2b_stop_drains (e : e2b) : rtc e2b_step e2b_start e →
  (eb_caller e = E2bStopped → hs_marked (eb_server e) = true ∧
     (hs_drainer (eb_server e) = Drained (Ok tt) ∧ hs_active (eb_server e) = 0 ∨ hs_drainer (eb_server e) = Drained (Err shutdown_expired))) ∧
  (eb_caller e = E2bStopping → ∃ e', rtc e2b_step e e' ∧ eb_caller e' = E2bStopped ∧ hs_active (eb_server e') = hs_active (eb_server e)) ∧
  (hs_marked (eb_server e) = true → eb_caller e = E2bStopping → ∀ n e', nsteps e2b_step n e e' → n ≤ e2b_weight e ∧
    ((∀ e'', ¬ e2b_step e' e'') → eb_caller e' = E2bStopped)).
Proof.
  intros He. split_and!.
  - intros Hc. apply e2b_reachable_ok in He as [Hok _ Hr]. destruct (Hr Hc) as [res Hres]. destruct Hok as [Hd Hm _ Hcl Hex].
    rewrite Hres in *. split; [by apply Hm|]. destruct res as [[]|err]; [left; by split; [|apply Hcl]|right]. by rewrite (Hex err).
  - intros Hc. apply e2b_reachable_ok in He as [Hok Hst _]. destruct e as [s p c]. cbn in *. subst c.
    destruct (drainer_ends s Hok) as (s' & res & Hs & Hres & Ha & _); [by apply Hst|].
    eexists (mkE2b s' p E2bStopped). split_and!; [|done|done]. etrans; [by apply e2b_server_runs|].
    apply rtc_once. by eapply e2b_drained.
  - intros Hm Hc n e' Hn. destruct (weighted_runs e2b_step _ e2b_weight e2b_step_weight n e e' Hm Hn) as [Hle Hm'].
    split; [lia|]. intros Hstuck. assert (rtc e2b_step e2b_start e') as He' by (etrans; [exact He|apply rtc_nsteps; by exists n]).
    apply e2b_reachable_ok in He' as [Hok _ _]. destruct e' as [s p c]. cbn in *. destruct c; [|  |done].
    + by destruct (Hstuck _ (e2b_stop s p)).
    + destruct (hs_drainer s) as [| |r] eqn:Hw; [| |by destruct (Hstuck _ (e2b_drained s p r Hw))].
      all: destruct (drainer_steps s Hm' Hok) as [s' Hs]; [by rewrite Hw|]; by destruct (Hstuck _ (e2b_server _ _ p E2bStopping Hs)).
Qed.

(** ** Witnesses *)

(** A request is in flight when the context ends, and finishes within the grace. *)
Lemma drained_run : rtc edge_step edge_start
  (mkEdge (mkServer true true 0 (Drained (Ok tt)) (Served ErrServerClosed)) (EdgeReturned (Ok tt))).
Proof.
  eapply rtc_l; [apply edge_server, step_active|]. eapply rtc_l; [by apply edge_done|]. cbn.
  eapply rtc_l; [apply edge_server, step_shutdown|]. eapply rtc_l; [apply edge_server, step_closed|].
  eapply rtc_l; [by apply edge_closed|]. eapply rtc_l; [apply edge_server, step_idle|].
  eapply rtc_l; [apply edge_server, step_drained|]. apply rtc_once. by eapply edge_drained.
Qed.

Lemma edge_serve_drains_witness : hs_done (mkServer true true 0 (Drained (Ok tt)) (Served ErrServerClosed)) = true.
Proof. exact (proj1 (edge_serve_drains _ (Ok tt) drained_run eq_refl)). Defined.

Lemma edge_serve_returns_witness : ∃ e' res, rtc edge_step (mkEdge (cancel listening) EdgeServing) e' ∧ ed_caller e' = EdgeReturned res.
Proof.
  destruct (edge_serve_returns (mkEdge (cancel listening) EdgeServing)) as [(e' & res & Hs & Hc & _) _].
  - apply rtc_once. by apply edge_done.
  - reflexivity.
  - by exists e', res.
Defined.

(** The serving goroutine had failed before the stop. *)
Lemma e2b_stop_drains_witness :
  ∃ e', rtc e2b_step (mkE2b (cancel (mkServer false false 2 Waiting (Served (ErrNetOp "accept")))) false E2bStopping) e' ∧ eb_caller e' = E2bStopped.
Proof.
  destruct (e2b_stop_drains (mkE2b (cancel (mkServer false false 2 Waiting (Served (ErrNetOp "accept")))) false E2bStopping)) as (_ & Hr & _).
  - eapply rtc_l; [apply e2b_server, step_active|]. eapply rtc_l; [apply e2b_server, step_active|].
    eapply rtc_l; [by apply e2b_server, (step_broken _ _ _ _ (ErrNetOp "accept"))|]. apply rtc_once, e2b_stop.
  - destruct (Hr eq_refl) as (e' & Hs & Hc & _). by exists e'.
Defined.
