(* ===== verification/Commands.v ===== *)
(** * The commands (src/cmd, and sandboxd.TokenFrom in pkg/sandboxd/client.go)

    How the three binaries put the library together: what each reads, in which order,
    what it refuses to start with, and what it serves with which configuration.

    The process's surroundings are a parameter: files, listeners, the Kubernetes
    client, its informers and managers, the generic apiserver.  An HTTP server is the
    surface it serves, on its listener. *)

From S2P Require Import Prelude GoStd GoNum GoText GoCodec Api Inventory Client StoreRead StoreLifecycle Store Sandboxd SandboxId E2bServer E2bGuest E2bTemplates E2bSandboxes E2bUploads E2bApi PortRelay EnvdRoute EnvdResolver EnvdEdge E2bFlags.

(** ** Surroundings *)

Abbreviation Listener := Z.
Abbreviation Manager := Z.

(** A surface, with the configuration it is served with. *)
Inductive surface :=
| SurfaceE2B (s : Server) (up : option uploads)
| SurfaceEdge (opts : EnvdRoute.Options) (namespace secret : string) (tls : option (string * string)).

Class Host (B : Type) := {
  host_files :: FlagFiles B;
  Getenv (name : string) : io B string;
  SetupLog (level : string) : io B (result unit);
  Listen (addr : string) : io B (result Listener);
  (** [http.Server.Serve] on a goroutine, and until the context ends *)
  serve_background (ln : Listener) (what : surface) : io B unit;
  serve_until_done (ln : Listener) (what : surface) : io B (result unit);
  Shutdown (ln : Listener) : io B unit;
  wait_done : io B unit;
  (** the inventories: an informer's over the Kubernetes API, or the mesh's *)
  GetConfig : io B (result unit);
  NewCache : io B (result unit);
  kube_inventory (staleAfter : Z) : io B (result unit);
  mesh_inventory (token : string) (seeds : list string) (pollInterval : Z) : io B (result unit);
  mesh_nodes : io B (result (list string));
  (** the driver's manager, and the aggregated apiserver *)
  AddToScheme (group : string) : io B (result unit);
  NewManager (leaderNamespace : string) : io B (result Manager);
  SetupWithManager (m : Manager) (token : string) (interval : Z) : io B (result unit);
  spawn_restarting (m : Manager) : io B unit;
  ApplyTo (what : string) : io B (result unit);
  NewAPIServer : io B (result unit);
  InstallSandboxAPI (token : string) : io B (result unit);
  RunAPIServer : io B (result unit);
}.

Section commands.
Context {B : Type} {H : Host B}.

(** [sandboxd.TokenFrom] *)
Definition TokenFrom (literal file : string) : io B (result string) :=
  if decide (file = "") then mret (Ok literal)
  else
    b ← ReadFile (path_clean file);
    mret match b with
         | Err e => Err (ErrWrap "sandboxd: read token file %q" [file] e)
         | Ok b => Ok (trim_space b)
         end.

(** An error goes out under a message of its own. *)
Definition wrapping {A} (fmt : string) (args : list string) (m : io B (result A)) : io B (result A) := r ← m; mret (map_err (ErrWrap fmt args) r).

Definition setup_log : io B (result unit) :=
  level ← Getenv "OPERATOR_LOG_LEVEL";
  wrapping "setup log" [] (SetupLog (str_or level "info")).

(** [e2bcompat.Server.Serve]: the listener whose shutdown is the stop function. *)
Definition Serve (addr : string) (s : Server) (up : option uploads) : io B (result Listener) :=
  ln <-? wrapping "listen on e2b address %q" [addr] (Listen addr);;
  _ ← serve_background ln (SurfaceE2B s up);
  mret (Ok ln).

(** [envdproxy.Flags.Serve] *)
Definition ServeEdge (f : EnvdEdge.Flags) (ln : Listener) (opts : EnvdRoute.Options) (namespace secret : string) : io B (result unit) :=
  match serve_mode f with
  | Err e => mret (Err e)
  | Ok tls => serve_until_done ln (SurfaceEdge opts namespace secret tls)
  end.

(** ** cmd/sandbox-e2b *)

Record options := mkOptions {
  o_Seeds : list string;
  o_SandboxdToken : string;
  o_SandboxdTokenFile : string;
  o_PollInterval : Z;
  o_E2B : E2bFlags.Flags;
  o_Proxy : EnvdEdge.Flags;
}.

(** What follows once the e2b surface is up: the proxy beside it, if it has an
    address. *)
Definition edge_beside (o : options) (token secret : string) : io B (result unit) :=
  if decide (pf_Addr (o_Proxy o) = "") then _ ← wait_done; mret (Ok tt)
  else
    match NewResolver true true secret with
    | Err e => mret (Err e)
    | Ok _ =>
        match EnvdRoute.NewServer (EnvdRoute.mkOptions (fl_Domain (o_E2B o)) (pf_GuestHTTP2 (o_Proxy o)) token) with
        | Err e => mret (Err e)
        | Ok opts =>
            ln <-? wrapping "listen on envd-proxy address %q" [pf_Addr (o_Proxy o)] (Listen (pf_Addr (o_Proxy o)));;
            ServeEdge (o_Proxy o) ln opts "" secret
        end
    end.

Definition run_e2b (o : options) : io B (result unit) :=
  _ <-? setup_log;;
  token <-? TokenFrom (o_SandboxdToken o) (o_SandboxdTokenFile o);;
  _ <-? mesh_inventory token (o_Seeds o) (o_PollInterval o);;
  _ <-? mesh_nodes;;
  opts <-? ServerOptions (o_E2B o) true;;
  match E2bServer.NewServer true true opts.1 with
  | Err e => mret (Err e)
  | Ok s =>
      ln <-? Serve (fl_Addr (o_E2B o)) s opts.2;;
      r ← edge_beside o token (op_EnvdSecret opts.1);
      _ ← Shutdown ln;
      mret r
  end.

(** ** cmd/sandbox-envd-proxy *)

Record edge_options := mkEdgeOptions {
  eo_Domain : string;
  eo_Namespace : string;
  eo_SandboxdToken : string;
  eo_SandboxdTokenFile : string;
  eo_EnvdSecretFile : string;
  eo_Proxy : EnvdEdge.Flags;
  eo_StaleAfter : Z;
}.

Definition run_edge (o : edge_options) : io B (result unit) :=
  _ <-? wrapping "load kube config" [] GetConfig;;
  _ <-? NewCache;;
  _ <-? kube_inventory (eo_StaleAfter o);;
  token <-? TokenFrom (eo_SandboxdToken o) (eo_SandboxdTokenFile o);;
  secret <-? EnvdSecret (eo_EnvdSecretFile o);;
  match NewResolver true true secret with
  | Err e => mret (Err e)
  | Ok _ =>
      match EnvdRoute.NewServer (EnvdRoute.mkOptions (eo_Domain o) (pf_GuestHTTP2 (eo_Proxy o)) token) with
      | Err e => mret (Err e)
      | Ok opts =>
          ln <-? wrapping "listen on %q" [pf_Addr (eo_Proxy o)] (Listen (pf_Addr (eo_Proxy o)));;
          ServeEdge (eo_Proxy o) ln opts (eo_Namespace o) secret
      end
  end.

(** ** cmd/sandbox-apiserver *)

Record api_options := mkApiOptions {
  ao_SandboxdToken : string;
  ao_SandboxdTokenFile : string;
  ao_WarmPoolDriver : bool;
  ao_WarmPoolInterval : Z;
  ao_E2BAPI : bool;
  ao_E2B : E2bFlags.Flags;
  ao_StaleAfter : Z;
}.

(** [newOptions], up to the generic apiserver's own. *)
Definition newOptions : api_options := mkApiOptions "" "" true 0 false NewFlags 0.

Definition namespace_file : string := "/var/run/secrets/kubernetes.io/serviceaccount/namespace".

Definition currentNamespace : io B string :=
  b ← ReadFile namespace_file;
  mret match b with
       | Ok b => str_or (trim_space b) "sandbox-system"
       | Err _ => "sandbox-system"
       end.

(** [build]: a manager with the driver set up on it. *)
Definition build_manager (token : string) (interval : Z) : io B (result Manager) :=
  ns ← currentNamespace;
  m <-? wrapping "build warm-pool manager" [] (NewManager ns);;
  _ <-? wrapping "set up warm-pool controller" [] (SetupWithManager m token interval);;
  mret (Ok m).

Definition startWarmPoolDriver (token : string) (interval : Z) : io B (result unit) :=
  _ <-? wrapping "register extensions scheme" [] (AddToScheme "extensions");;
  _ <-? wrapping "register node inventory scheme" [] (AddToScheme "cocoon");;
  m <-? build_manager token interval;;
  _ ← spawn_restarting m;
  mret (Ok tt).

Definition startE2BServer (f : E2bFlags.Flags) : io B (result Listener) :=
  opts <-? ServerOptions f true;;
  match E2bServer.NewServer true true opts.1 with
  | Err e => mret (Err e)
  | Ok s => Serve (fl_Addr f) s opts.2
  end.

(** [serverConfig], as the parts it applies in order. *)
Definition serverConfig : io B (result unit) :=
  _ <-? wrapping "create self-signed certificates" [] (ApplyTo "certificates");;
  _ <-? wrapping "apply features" [] (ApplyTo "features");;
  _ <-? wrapping "apply secure serving" [] (ApplyTo "secure serving");;
  _ <-? wrapping "apply authentication" [] (ApplyTo "authentication");;
  wrapping "apply authorization" [] (ApplyTo "authorization").

Definition run_apiserver (o : api_options) : io B (result unit) :=
  _ <-? setup_log;;
  _ <-? wrapping "load kube config" [] GetConfig;;
  _ <-? NewCache;;
  token <-? TokenFrom (ao_SandboxdToken o) (ao_SandboxdTokenFile o);;
  _ <-? kube_inventory (ao_StaleAfter o);;
  _ <-? (if ao_WarmPoolDriver o then startWarmPoolDriver token (ao_WarmPoolInterval o) else mret (Ok tt));;
  e2b <-? (if ao_E2BAPI o then r ← startE2BServer (ao_E2B o); mret (Some <$> r) else mret (Ok None));;
  _ <-? serverConfig;;
  _ <-? wrapping "build generic apiserver" [] NewAPIServer;;
  _ <-? InstallSandboxAPI token;;
  r ← RunAPIServer;
  _ ← match e2b with Some ln => Shutdown ln | None => mret tt end;
  mret r.
End commands.

(** ** runRestarting *)

(** A round of the loop, as its surroundings decide it, once the manager it starts has
    stopped: whether the context has ended before the delay is over, and what the
    next build gives. *)
Record round := mkRound {
  rn_done : bool;
  rn_build : result Manager;
}.

Inductive restart_event :=
| Started (m : Manager)
| BuildFailed (e : error).

Fixpoint runRestarting (r : option Manager) (rounds : list round) : list restart_event :=
  match rounds with
  | [] => []
  | rn :: rounds =>
      (match r with Some m => [Started m] | None => [] end) ++
      (if rn_done rn then []
       else match rn_build rn with
            | Ok m => runRestarting (Some m) rounds
            | Err e => BuildFailed e :: runRestarting None rounds
            end)
  end.

(** ** Recording what is listened on and served *)

Inductive host_event :=
| EvListen (addr : string) (res : result Listener)
| EvServe (ln : Listener) (what : surface)
| EvServed (ln : Listener) (what : surface) (res : result unit)
| EvShutdown (ln : Listener).

Definition recorded_files {B} (F : FlagFiles B) : FlagFiles (list host_event * B) := {|
  ReadFile name := silently (ReadFile name);
  MkdirAll name := silently (MkdirAll name);
  OpenRoot name := silently (OpenRoot name);
  LoadAWS cfg := silently (LoadAWS cfg);
|}.

Definition recorded_host {B} (H : Host B) : Host (list host_event * B) := {|
  host_files := recorded_files host_files;
  Getenv name := silently (Getenv name);
  SetupLog level := silently (SetupLog level);
  Listen addr := logging (Listen addr) (EvListen addr);
  serve_background ln what := logging (serve_background ln what) (λ _, EvServe ln what);
  serve_until_done ln what := logging (serve_until_done ln what) (EvServed ln what);
  Shutdown ln := logging (Shutdown ln) (λ _, EvShutdown ln);
  wait_done := silently wait_done;
  GetConfig := silently GetConfig;
  NewCache := silently NewCache;
  kube_inventory stale := silently (kube_inventory stale);
  mesh_inventory token seeds poll := silently (mesh_inventory token seeds poll);
  mesh_nodes := silently mesh_nodes;
  AddToScheme group := silently (AddToScheme group);
  NewManager ns := silently (NewManager ns);
  SetupWithManager m token interval := silently (SetupWithManager m token interval);
  spawn_restarting m := silently (spawn_restarting m);
  ApplyTo what := silently (ApplyTo what);
  NewAPIServer := silently NewAPIServer;
  InstallSandboxAPI token := silently (InstallSandboxAPI token);
  RunAPIServer := silently RunAPIServer;
|}.

(** ** Specification *)

(** The edge beside an e2b surface shares what the two must agree on: the domain the
    hosts are built from, the secret the access tokens derive from, and a node token
    to relay with. *)
Definition edge_matches (s : Server) (opts : EnvdRoute.Options) (secret : string) : Prop :=
  EnvdRoute.op_Domain opts = E2bServer.op_Domain (sv_opts s) ∧ secret = op_EnvdSecret (sv_opts s) ∧ secret ≠ "" ∧
  trim_space (E2bServer.op_Domain (sv_opts s)) ≠ "" ∧ trim_space (op_NodeToken opts) ≠ "".

(** What is done once the e2b surface is up, before its listener is shut down. *)
Inductive beside (o : options) (s : Server) : list host_event → result unit → Prop :=
| beside_none r : beside o s [] r
| beside_unheard e r : is_ok r = false → beside o s [EvListen (pf_Addr (o_Proxy o)) (Err e)] r
| beside_unserved ln e : serve_mode (o_Proxy o) = Err e → beside o s [EvListen (pf_Addr (o_Proxy o)) (Ok ln)] (Err e)
| beside_served ln opts secret tls r : serve_mode (o_Proxy o) = Ok tls → edge_matches s opts secret →
    beside o s [EvListen (pf_Addr (o_Proxy o)) (Ok ln); EvServed ln (SurfaceEdge opts "" secret tls) r] r.

(** ** Lemmas *)

Lemma NewServer_opts st rs opts s : E2bServer.NewServer st rs opts = Ok s →
  sv_opts s = with_defaults opts ∧ trim_space (E2bServer.op_Domain opts) ≠ "" ∧ op_EnvdSecret opts ≠ "".
Proof.
  unfold E2bServer.NewServer. destruct (negb st); [done|]. destruct (negb rs); [done|]. cbv zeta.
  destruct (api_keys _ _ _) as [keys|]; [|done]. destruct (_ && _); [done|]. case_decide; [done|]. case_decide; [done|].
  destruct (template_aliases _ _ _) as [[aliases images]|]; [|done]. by intros [= <-].
Qed.

Section lemmas.
Context {B : Type} (H : Host B).

Definition still_host {A} (m : io (list host_event * B) A) : Prop := emits m (λ t _, t = []).

Lemma still_host_ret {A} (a : A) : still_host (mret a).
Proof. by apply emits_ret. Qed.
Lemma still_host_bind {A C} (m : io (list host_event * B) A) (k : A → io (list host_event * B) C) : still_host m → (∀ a, still_host (k a)) → still_host (m ≫= k).
Proof. intros Hm Hk. eapply emits_bind; [exact Hm|]. intros t a ->. apply Hk. Qed.
Lemma still_host_silently {A} (m : io B A) : still_host (silently m).
Proof. eapply emits_mono; [apply emits_silently|]. by intros t a [-> _]. Qed.
Lemma still_host_try {A C} (m : io (list host_event * B) (result A)) (k : A → io (list host_event * B) (result C)) :
  still_host m → (∀ a, still_host (k a)) → still_host (try m k).
Proof. intros Hm Hk. apply still_host_bind; [done|]. intros [a|e]; [apply Hk|apply still_host_ret]. Qed.

Ltac still_host_step :=
  match goal with
  | |- still_host (mret _) => apply still_host_ret
  | |- still_host (_ ≫= _) => apply still_host_bind; [|intros ?]
  | |- still_host (try _ _) => apply still_host_try; [|intros ?]
  | |- still_host (silently _) => apply still_host_silently
  | |- still_host (ReadFile _) => apply still_host_silently
  | |- still_host (MkdirAll _) => apply still_host_silently
  | |- still_host (OpenRoot _) => apply still_host_silently
  | |- still_host (LoadAWS _) => apply still_host_silently
  | |- still_host (match ?x with _ => _ end) => destruct x
  end.
Ltac still_host := repeat still_host_step.

#[local] Existing Instance recorded_host.

Lemma still_setup_log : still_host (setup_log (H := recorded_host H)).
Proof. apply still_host_bind; [apply still_host_silently|]. intros level. apply still_host_bind; [apply still_host_silently|]. intros r. still_host. Qed.

Lemma still_TokenFrom literal file : still_host (TokenFrom (H := recorded_host H) literal file).
Proof. unfold TokenFrom. still_host. Qed.

Lemma still_ServerOptions f inv : still_host (ServerOptions (FF := recorded_files host_files) f inv).
Proof. unfold ServerOptions, fileLines, EnvdSecret, buildOptions. cbv zeta. still_host. Qed.

(** A step that opens nothing, before the rest. *)
Lemma emits_still_try {A C} (m : io (list host_event * B) (result A)) (k : A → io (list host_event * B) (result C)) (Q : list host_event → result C → Prop) :
  still_host m → (∀ e, Q [] (Err e)) → (∀ a st, (m st).1 = Ok a → emits (k a) Q) → emits (try m k) Q.
Proof.
  intros Hm He Hk l st. unfold try. rewrite bind_run. destruct (Hm l st) as (t & Hl & ->). rewrite app_nil_r in Hl.
  pose proof (λ a, Hk a (l, st)) as Hk'. destruct (m (l, st)) as [[a|e] [l' st']]; cbn [fst snd] in *; subst l'.
  - by apply Hk'.
  - exists []. rewrite app_nil_r. split; [done|apply He].
Qed.

Lemma emits_edge_beside o token s secret : EnvdRoute.op_Domain (EnvdRoute.mkOptions (fl_Domain (o_E2B o)) false "") = E2bServer.op_Domain (sv_opts s) →
  secret = op_EnvdSecret (sv_opts s) → secret ≠ "" → trim_space (E2bServer.op_Domain (sv_opts s)) ≠ "" →
  emits (edge_beside (H := recorded_host H) o token secret) (beside o s).
Proof.
  cbn [EnvdRoute.op_Domain]. intros Hdom Hsecret Hne Hd. unfold edge_beside. case_decide as Haddr.
  { eapply emits_bind; [apply emits_silently|]. intros t a [-> _]. apply emits_ret. constructor. }
  destruct (NewResolver true true secret) as [c|e]; [|apply emits_ret; constructor].
  destruct (EnvdRoute.NewServer _) as [opts|e] eqn:Hn; [|apply emits_ret; constructor].
  assert (edge_matches s opts secret) as Hm.
  { unfold EnvdRoute.NewServer in Hn. cbn [EnvdRoute.op_Domain op_NodeToken] in Hn. case_decide; [done|]. case_decide as Htok; [done|].
    injection Hn as <-. by split_and!. }
  unfold try, wrapping. eapply emits_bind.
  { eapply (emits_bind _ _ (λ t r, t = [EvListen (pf_Addr (o_Proxy o)) r]) (λ t r, ∃ ln, t = [EvListen (pf_Addr (o_Proxy o)) ln] ∧
      r = map_err (ErrWrap "listen on envd-proxy address %q" [pf_Addr (o_Proxy o)]) ln)); [eapply emits_mono; [apply emits_logging|]; by intros t r [-> _]|].
    intros t r ->. apply emits_ret. by exists r. }
  intros t r (ln & -> & ->). destruct ln as [ln|e]; cbn [map_err]; [|apply emits_ret; by constructor].
  unfold ServeEdge. destruct (serve_mode (o_Proxy o)) as [tls|e] eqn:Hmode; [|apply emits_ret; by constructor].
  eapply emits_mono; [apply emits_logging|]. intros t r [-> _]. by apply (beside_served o s ln opts secret tls r).
Qed.

(** What a run of the binary listens on and serves, and how it ends. *)
Definition e2b_log (o : options) (t : list host_event) (r : result unit) : Prop :=
  (is_ok r = false ∧ (t = [] ∨ ∃ e, t = [EvListen (fl_Addr (o_E2B o)) (Err e)])) ∨
  ∃ ln s up mid opts, t = EvListen (fl_Addr (o_E2B o)) (Ok ln) :: EvServe ln (SurfaceE2B s up) :: mid ++ [EvShutdown ln] ∧ beside o s mid r ∧
    flags_ok (FF := recorded_files host_files) (o_E2B o) opts up ∧ sv_opts s = with_defaults opts.

Lemma emits_run_e2b o : emits (run_e2b (H := recorded_host H) o) (e2b_log o).
Proof.
  assert (∀ e, e2b_log o [] (Err e)) as He by (intros e; left; by split; [|left]).
  unfold run_e2b. apply emits_still_try; [apply still_setup_log|done|]. intros _ _ _.
  apply emits_still_try; [apply still_TokenFrom|done|]. intros token _ _.
  apply emits_still_try; [apply still_host_silently|done|]. intros _ _ _.
  apply emits_still_try; [apply still_host_silently|done|]. intros _ _ _.
  apply emits_still_try; [apply still_ServerOptions|done|]. intros [opts up] st Hopts. cbn [fst snd].
  assert (flags_ok (FF := recorded_files host_files) (o_E2B o) opts up) as Hflags.
  { destruct (ServerOptions _ _ st) as [r st'] eqn:Hrun. cbn [fst] in Hopts. subst r. by eapply ServerOptions_run. }
  destruct (E2bServer.NewServer true true opts) as [s|e] eqn:Hs; [|by apply emits_ret]. apply NewServer_opts in Hs as (Hsv & Hdom & Hsec).
  unfold try at 1. eapply (emits_bind _ _ (λ t r, match r with
      | Ok ln => t = [EvListen (fl_Addr (o_E2B o)) (Ok ln); EvServe ln (SurfaceE2B s up)]
      | Err _ => ∃ e, t = [EvListen (fl_Addr (o_E2B o)) (Err e)] end)).
  { unfold Serve, try, wrapping. eapply (emits_bind _ _ (λ t r, match r with
      | Ok ln => t = [EvListen (fl_Addr (o_E2B o)) (Ok ln)] | Err _ => ∃ e, t = [EvListen (fl_Addr (o_E2B o)) (Err e)] end)).
    - eapply emits_bind; [apply emits_logging|]. intros t r [-> _]. apply emits_ret. destruct r; [done|]. by eexists.
    - intros t [ln|e] Hl; [|apply emits_ret; by rewrite app_nil_r]. subst t. eapply emits_bind; [apply emits_logging|].
      intros t _ [-> _]. by apply emits_ret. }
  intros t [ln|e] Hl; [|apply emits_ret; left; split; [done|]; right; by rewrite app_nil_r]. subst t.
  eapply emits_bind; [apply (emits_edge_beside o token s (op_EnvdSecret opts))|].
  - cbn [EnvdRoute.op_Domain]. rewrite Hsv. cbn [with_defaults E2bServer.op_Domain]. by rewrite (fo_domain _ _ _ Hflags).
  - by rewrite Hsv.
  - done.
  - by rewrite Hsv.
  - intros mid r Hb. eapply emits_bind; [apply emits_logging|]. intros t _ [-> _]. apply emits_ret. right.
    exists ln, s, up, mid, opts. by rewrite !app_nil_r.
Qed.
End lemmas.

(** The surfaces of one run match. *)
Lemma surfaces_match {B} (H : Host B) o t r ln s up ln' opts ns secret tls res : e2b_log H o t r →
  EvServe ln (SurfaceE2B s up) ∈ t → EvServed ln' (SurfaceEdge opts ns secret tls) res ∈ t → edge_matches s opts secret ∧ ns = "".
Proof.
  intros [[_ [->|[e ->]]]|(ln0 & s0 & up0 & mid & opts0 & -> & Hb & _ & _)]; [by intros ?%not_elem_of_nil|by intros ?%list_elem_of_singleton|].
  rewrite !elem_of_cons, !elem_of_app, !list_elem_of_singleton. intros Hs He.
  assert (s = s0) as ->.
  { destruct Hs as [|[|[Hs|]]]; [done|by simplify_eq| |done]. exfalso. destruct Hb; rewrite ?elem_of_cons in Hs;
      repeat (destruct Hs as [Hs|Hs]; [done|]); by apply not_elem_of_nil in Hs. }
  destruct He as [|[|[He|]]]; [done..| |done]. destruct Hb as [| |ln1 e1|ln1 opts1 secret1 tls1 r1 _ Hm]; rewrite ?elem_of_cons in He.
  - by apply not_elem_of_nil in He.
  - destruct He as [|He]; [done|]. by apply not_elem_of_nil in He.
  - destruct He as [|He]; [done|]. by apply not_elem_of_nil in He.
  - destruct He as [|[He|He]]; [done| |by apply not_elem_of_nil in He]. by simplify_eq.
Qed.

Lemma restarts_between rounds r m : Started m ∈ runRestarting r rounds → r = Some m ∨ ∃ rn, rn ∈ rounds ∧ rn_build rn = Ok m.
Proof.
  revert r. induction rounds as [|rn rounds IH]; intros r; cbn [runRestarting]; [by intros ?%not_elem_of_nil|].
  rewrite elem_of_app. intros [Hin|Hin].
  - destruct r as [m'|]; [|by apply not_elem_of_nil in Hin]. apply list_elem_of_singleton in Hin as [= ->]. by left.
  - destruct (rn_done rn); [by apply not_elem_of_nil in Hin|]. right. destruct (rn_build rn) as [m'|e] eqn:Hb.
    + apply IH in Hin as [[= ->]|(rn' & ? & ?)]; [exists rn; split; [by left|done]|exists rn'; split; [by right|done]].
    + apply elem_of_cons in Hin as [|Hin]; [done|]. apply IH in Hin as [|(rn' & ? & ?)]; [done|]. exists rn'. split; [by right|done].
Qed.

(** ** Properties *)

(** the all-in-one binary serves only what fits together and leaves nothing
    behind: whatever fails on the way, either it never listened, or the e2b surface's
    listener is the first thing it opened and the last it shuts down; that surface is
    built from the flags; and the edge it serves beside it, if any, uses the same
    domain and the same envd secret, neither empty, with a node token, over TLS only
    with a certificate and a key. *)
Theorem run_e2b_serves {B : Type} (H : Host B) (o : options) (b : B) :
  let out := run_e2b (H := recorded_host H) o ([], b) in
  e2b_log H o out.2.1 out.1.
Proof. cbv zeta. destruct (emits_run_e2b H o [] b) as (t & -> & Hlog). exact Hlog. Qed.

(** the driver's manager is started once per build: with builds that give
    managers of their own, no manager is started twice - a stopped one cannot be -
    and everything that is started is the first manager or what a later build gave,
    a failed build starting nothing. *)
Theorem runRestarting_fresh (m : Manager) (rounds : list round) :
  NoDup (m :: omap (λ rn, match rn_build rn with Ok m => Some m | Err _ => None end) rounds) →
  NoDup (omap (λ e, match e with Started m => Some m | BuildFailed _ => None end) (runRestarting (Some m) rounds)) ∧
  (∀ m', Started m' ∈ runRestarting (Some m) rounds → m' = m ∨ ∃ rn, rn ∈ rounds ∧ rn_build rn = Ok m').
Proof.
  intros Hnd. split.
  - assert (∀ rounds r, NoDup (option_list r ++ omap (λ rn, match rn_build rn with Ok m => Some m | Err _ => None end) rounds) →
      NoDup (omap (λ e, match e with Started m => Some m | BuildFailed _ => None end) (runRestarting r rounds))) as Hgen.
    { clear. induction rounds as [|rn rounds IH]; intros r Hnd; cbn [runRestarting]; [constructor|]. rewrite omap_app.
      assert (NoDup (omap (λ e, match e with Started m => Some m | BuildFailed _ => None end)
        (if rn_done rn then [] else match rn_build rn with Ok m => runRestarting (Some m) rounds | Err e => BuildFailed e :: runRestarting None rounds end))) as Hrest.
      { destruct (rn_done rn); [constructor|]. csimpl in Hnd. apply NoDup_app in Hnd as (_ & _ & Hnd).
        destruct (rn_build rn) as [m'|e]; [by apply (IH (Some m'))|csimpl; by apply (IH None)]. }
      destruct r as [m0|]; [|done]. csimpl. constructor; [|done]. intros Hin. apply list_elem_of_omap in Hin as ([m1|e1] & Hin & Hm); [|done].
      injection Hm as ->. destruct (rn_done rn); [by apply not_elem_of_nil in Hin|]. csimpl in Hnd. apply NoDup_cons in Hnd as [Hnot _]. apply Hnot.
      assert (∀ m2, Started m2 ∈ runRestarting None rounds → m2 ∈ omap (λ rn, match rn_build rn with Ok m => Some m | Err _ => None end) rounds) as Hel.
      { intros m2 [|(rn' & Hrn & Hb)]%restarts_between; [done|]. apply list_elem_of_omap. exists rn'. by rewrite Hb. }
      destruct (rn_build rn) as [m'|e].
      + apply restarts_between in Hin as [[= ->]|(rn' & Hrn & Hb)]; [left|right]. apply list_elem_of_omap. exists rn'. by rewrite Hb.
      + apply elem_of_cons in Hin as [|Hin]; [done|]. by apply Hel. }
    by apply (Hgen rounds (Some m)).
  - intros m' [[= ->]|?]%restarts_between; [by left|by right].
Qed.

(** C5: what the e2b surface hands out, the edge beside it takes: in any run of the
    all-in-one binary, the reply for a sandbox that a create, connect or fork of the
    served surface renders names a host, under any port, and an access token, and a
    request with these to the served edge is dialed on the sandbox's own node, for
    its claim and its claim token, as long as the fleet holds the claim and the edge
    has not cached another owner for it. *)
Theorem handed_out_reaches {B S W : Type} (H : Host B) {I : InventorySource S} {U : CaseMap} (UL : CaseMapLaws U) {E : EnvdHashes}
    (claims lifecycle : SandboxStore S) {N : Net W} {P : HTTPText} {J : Wire} (o : options) (b : B)
    (ln ln' : Listener) (s : Server) (up : option uploads) (opts : EnvdRoute.Options) (ns secret : string) (tls : option (string * string)) (res : result unit)
    (template hex node address token : string) (port : Z) (rd : readings) (r : edge_request) (c : gmap string recentOwner) (st : S) (w : W) :
  let log := (run_e2b (H := recorded_host H) o ([], b)).2.1 in
  let claimID := "sb_" +:+ hex in
  let handed := sandboxOf s template claimID node (AccessToken (op_EnvdSecret (sv_opts s)) token) in
  let host := format_int port +:+ "-" +:+ sy_SandboxID handed +:+ "." +:+ sy_Domain handed in
  EvServe ln (SurfaceE2B s up) ∈ log → EvServed ln' (SurfaceEdge opts ns secret tls) res ∈ log →
  all_bytes (λ c, within 48 57 c || within 97 102 c) hex = true → all_bytes host_byte (sy_Domain handed) = true → (1 ≤ port ≤ 65535)%Z →
  held_claim claims lifecycle ns claimID node address token st → get (sy_SandboxID handed) (rd_get rd) c = None →
  hr_Host (er_Request r) = host → hr_Header (er_Request r) sandboxIDHeader = "" →
  hr_Header (er_Request r) accessTokenHeader = sy_EnvdAccessToken handed →
  all_bytes visible (sy_EnvdAccessToken handed) = true → sy_EnvdAccessToken handed ≠ "" →
  Handler_route r = ToServe → internalPath (hr_Path (er_Request r)) = false →
  (edge (D := storeResolver claims lifecycle AccessToken ns secret rd) opts r ((c, st), w)).1 =
    match (PortRelay.DialPort address claimID token port w).1 with
    | Ok conn => Exchanged conn (if op_GuestHTTP2 opts then H2 else H1) "http" host (delete apiKeyHeader (er_Headers r))
    | Err e => Refused (writeUpstreamError e).1 (writeUpstreamError e).2
    end.
Proof.
  cbv zeta. intros Hs He Hhex Hdom Hport Hheld Hc Hhost Hid Htok Hvis Hne Hroute Hint.
  destruct (emits_run_e2b H o [] b) as (t & Ht & Hlog). rewrite Ht in Hs, He. cbn [app] in Hs, He.
  destruct (surfaces_match H o t _ _ _ _ _ _ _ _ _ _ Hlog Hs He) as [(Hd & -> & _) ->].
  cbn [sandboxOf sy_SandboxID sy_Domain sy_EnvdAccessToken] in *.
  pose proof (held_dialed UL claims lifecycle AccessToken "" (op_EnvdSecret (sv_opts s)) opts rd r hex node address token port None c st w) as Hheld'.
  cbv zeta in Hheld'. unfold sandboxHost in Hheld'. cbn [rt_port rt_sandboxID] in Hheld'. rewrite Hd in Hheld'. apply Hheld'; try done.
  by rewrite str_app_nil_r.
Qed.

(** ** Witnesses *)

(** A host where everything that is asked for works. *)
Definition ready_host : Host unit := {|
  host_files := flag_files;
  Getenv _ := mret "";
  SetupLog _ := mret (Ok tt);
  Listen addr := mret (Ok (if decide (addr = ":8080") then 1 else 2)%Z);
  serve_background _ _ := mret tt;
  serve_until_done _ _ := mret (Ok tt);
  Shutdown _ := mret tt;
  wait_done := mret tt;
  GetConfig := mret (Ok tt);
  NewCache := mret (Ok tt);
  kube_inventory _ := mret (Ok tt);
  mesh_inventory _ _ _ := mret (Ok tt);
  mesh_nodes := mret (Ok ["n1"]);
  AddToScheme _ := mret (Ok tt);
  NewManager _ := mret (Ok 0%Z);
  SetupWithManager _ _ _ := mret (Ok tt);
  spawn_restarting _ := mret tt;
  ApplyTo _ := mret (Ok tt);
  NewAPIServer := mret (Ok tt);
  InstallSandboxAPI _ := mret (Ok tt);
  RunAPIServer := mret (Ok tt);
|}.

Definition options_all : options := mkOptions ["10.0.0.1:7000"] "root" "" (10 * second) flags_w (EnvdEdge.mkFlags ":8443" "" "" false).

Lemma runRestarting_fresh_witness :
  NoDup (omap (λ e, match e with Started m => Some m | BuildFailed _ => None end)
    (runRestarting (Some 0%Z) [mkRound false (Err (ErrText "no leader" [])); mkRound false (Ok 1%Z); mkRound true (Ok 2%Z)])).
Proof.
  apply (runRestarting_fresh 0%Z [mkRound false (Err (ErrText "no leader" [])); mkRound false (Ok 1%Z); mkRound true (Ok 2%Z)]).
  apply (bool_decide_eq_true_1 (NoDup _)). vm_compute. reflexivity.
Defined.

#[local] Existing Instance Static.source.
#[local] Existing Instance ascii_case.
#[local] Existing Instance E2bUploads.toy_hashes.

Definition guest_request : edge_request :=
  mkEdgeRequest "GET" "/" {[ apiKeyHeader := ["bob"] ]}
    (mkHttpRequest "8080-sb-0fe2.sandbox.example" "/" (λ k, if decide (k = accessTokenHeader) then "shhclaim-token" else "") (λ _, "")).
Definition edge_beside_w : EnvdRoute.Options := EnvdRoute.mkOptions "sandbox.example" false "root".

Definition served_w : Server :=
  mkServer (with_defaults (E2bServer.mkOptions "default" "sandbox.example" "0.2.0" 0 ["alice team-a"; "bob"; "alice team-b"] false true [] "shh"
    (mkBuildOptions 2 (30 * 60 * second) 10000 true))) (sv_keys server_w) ∅ ∅.

Lemma handed_out_reaches_witness :
  (edge (D := storeResolver edge_store edge_store AccessToken "" "shh" edge_readings) (N := scripted) (P := plain_text) (J := toy_wire)
     edge_beside_w guest_request ((∅, sample_world), greeting)).1 =
  match (PortRelay.DialPort (N := scripted) (P := plain_text) (J := toy_wire) "10.0.0.1:7000" "sb_0fe2" "claim-token" 8080 greeting).1 with
  | Ok conn => Exchanged conn (if op_GuestHTTP2 edge_beside_w then H2 else H1) "http" "8080-sb-0fe2.sandbox.example" (delete apiKeyHeader (er_Headers guest_request))
  | Err e => Refused (writeUpstreamError e).1 (writeUpstreamError e).2
  end.
Proof.
  apply (@handed_out_reaches unit _ script ready_host Static.source ascii_case ascii_case_laws E2bUploads.toy_hashes edge_store edge_store scripted plain_text toy_wire
    options_all tt 1%Z 2%Z served_w (Some (DirUploads (mkDirUploads "shh" (2 ^ 30)))) edge_beside_w "" "shh" None (Ok tt)
    "img" "0fe2" "n1" "10.0.0.1:7000" "claim-token" 8080 edge_readings guest_request ∅ sample_world greeting).
  1: (apply (list_elem_of_lookup_2 _ 1); vm_compute; reflexivity).
  1: (apply (list_elem_of_lookup_2 _ 3); vm_compute; reflexivity).
  3: split; discriminate.
  3: (split; [discriminate|]; eexists _, _, _; split_and!; vm_compute; reflexivity).
  8: (vm_compute; discriminate).
  all: vm_compute; reflexivity.
Defined.
