(* ===== verification/CommandLine.v ===== *)
(** * The command lines (AddFlags and main of every binary)

    Each binary registers its flags on a pflag.FlagSet, reads its arguments and runs.
    A flag is a name, a kind and a variable of the options: what is read from it and
    how it is written.  Registering a name twice panics, as pflag documents; how
    arguments split into settings and how a kind reads its text are pflag's, and
    parameters here.  Usage texts are left out. *)

From S2P Require Import Prelude GoStd GoNum GoText GoCodec Api Inventory KubeInventory Client StoreRead Store SandboxId E2bServer E2bUploads E2bApi EnvdRoute EnvdResolver EnvdEdge E2bFlags Commands.

(** ** Flags *)

Inductive kind : Type → Type :=
| KString : kind string
| KBool : kind bool
| KInt : kind Z
| KInt64 : kind Z
| KDuration : kind Z
| KStringSlice : kind (list string).

Record flag (O : Type) := mkFlag {
  fg_type : Type;
  fg_kind : kind fg_type;
  fg_var : variable O fg_type;
  fg_name : string;
  fg_default : O → fg_type;
}.
Arguments mkFlag {O fg_type} _ _ _ _.
Arguments fg_type {O} _.
Arguments fg_kind {O} _.
Arguments fg_var {O} _.
Arguments fg_name {O} _.
Arguments fg_default {O} _ _.

(** [fs.StringVar(p, name, *p, usage)] and its kin: the default is what the variable
    holds. *)
Definition flag_var {O T} (k : kind T) (p : variable O T) (name : string) : flag O := mkFlag k p name (var_get p).
Definition StringVar {O} := @flag_var O _ KString.
Definition BoolVar {O} := @flag_var O _ KBool.
Definition IntVar {O} := @flag_var O _ KInt.
Definition Int64Var {O} := @flag_var O _ KInt64.
Definition DurationVar {O} := @flag_var O _ KDuration.
Definition StringSliceVar {O} := @flag_var O _ KStringSlice.

(** The flags of a part, on the options that hold the part. *)
Definition on {O P} (p : variable O P) (f : flag P) : flag O :=
  mkFlag (fg_kind f) (within_var p (fg_var f)) (fg_name f) (λ o, fg_default f (var_get p o)).

(** ** The flag set *)

(** A boolean flag needs no value. *)
Definition shape {O} (f : flag O) : string * bool := (fg_name f, match fg_kind f with KBool => true | _ => false end).

(** pflag: registering flags, reading arguments into them, and under these the
    settings that arguments make, given the names there are and which may go without
    a value, and a value's text on top of what its flag held. *)
Class Pflag := {
  RegisterFlags {O} (fs : list (flag O)) : result (list (flag O));
  ParseArgs {O} (fs : list (flag O)) (args : list string) (o : O) : result O;
  settings (names : list (string * bool)) (args : list string) : result (list (string * string));
  set_value {T} (k : kind T) (changed : bool) (old : T) (text : string) : result T;
}.

(** [Parse] of the flags a binary registered, on its options. *)
Definition Parse {F : Pflag} {O} (flags : list (flag O)) (args : list string) (o : O) : result O :=
  match RegisterFlags flags with
  | Err e => Err e
  | Ok fs => ParseArgs fs args o
  end.

(** *** As documented *)

(** Registration writes each variable's default. *)
Definition defaulted {O} (fs : list (flag O)) (o : O) : O := fold_left (λ o f, var_put (fg_var f) (fg_default f o) o) fs o.

Definition find_flag {O} (fs : list (flag O)) (name : string) : option (flag O) := snd <$> list_find (λ f, fg_name f = name) fs.

(** A setting sets the flag of its name; the settings are written in order. *)
Fixpoint set_all {F : Pflag} {O} (fs : list (flag O)) (changed : list string) (l : list (string * string)) (o : O) : result O :=
  match l with
  | [] => Ok o
  | (name, text) :: l =>
      match find_flag fs name with
      | None => Err (ErrText "unknown flag: --%s" [name])
      | Some f =>
          match set_value (fg_kind f) (bool_decide (name ∈ changed)) (var_get (fg_var f) o) text with
          | Err e => Err (ErrWrap "invalid argument %q for --%s flag" [text; name] e)
          | Ok v => set_all fs (name :: changed) l (var_put (fg_var f) v o)
          end
      end
  end.

(** Registering panics on a name that is taken, and on nothing else; parsing makes
    the settings of the arguments on the defaults. *)
Class PflagLaws (F : Pflag) : Prop := {
  register_distinct {O} (fs : list (flag O)) : NoDup (fg_name <$> fs) → RegisterFlags fs = Ok fs;
  register_taken {O} (fs : list (flag O)) : ¬ NoDup (fg_name <$> fs) → RegisterFlags fs = Err (ErrPanic "flag redefined");
  parse_sets {O} (fs : list (flag O)) args (o : O) :
    ParseArgs fs args o = match settings (shape <$> fs) args with Ok l => set_all fs [] l (defaulted fs o) | Err e => Err e end;
}.

(** ** The parts' flags *)

Definition eta_Flags (f : E2bFlags.Flags) : E2bFlags.Flags :=
  E2bFlags.mkFlags (fl_Addr f) (fl_Namespace f) (fl_Domain f) (fl_EnvdVersion f) (fl_TimeoutSeconds f) (fl_APIKeyFile f) (fl_AllowAnonymous f)
    (fl_AliasesFile f) (fl_EnvdSecretFile f) (fl_Builds f) (fl_BuildParallel f) (fl_BuildTimeout f) (fl_BuildLogLines f) (fl_BuildDir f)
    (fl_UploadMax f) (fl_BuildS3 f).
Definition eta_s3 (c : s3Config) : s3Config := mkS3Config (s3_Bucket c) (s3_Prefix c) (s3_Endpoint c) (s3_Region c) (s3_ForcePathStyle c).
Definition eta_proxy (f : EnvdEdge.Flags) : EnvdEdge.Flags := EnvdEdge.mkFlags (pf_Addr f) (pf_CertFile f) (pf_KeyFile f) (pf_GuestHTTP2 f).

(** [sandboxd.AddTokenFlags] *)
Definition AddTokenFlags {O} (literal file : variable O string) : list (flag O) :=
  [StringVar literal "sandboxd-token"; StringVar file "sandboxd-token-file"].

(** [e2bcompat.AddEnvdSecretFlag] *)
Definition AddEnvdSecretFlag {O} (path : variable O string) : list (flag O) := [StringVar path "e2b-envd-secret-file"].

(** [e2bcompat.Flags.AddFlags] *)
Definition AddE2bFlags : list (flag E2bFlags.Flags) :=
  let s3 {T} (p : variable s3Config T) := within_var (&eta_Flags->>fl_BuildS3) p in
  [ StringVar (&eta_Flags->>fl_Addr) "e2b-bind-address";
    StringVar (&eta_Flags->>fl_Namespace) "e2b-namespace";
    StringVar (&eta_Flags->>fl_Domain) "e2b-domain";
    StringVar (&eta_Flags->>fl_EnvdVersion) "e2b-envd-version";
    IntVar (&eta_Flags->>fl_TimeoutSeconds) "e2b-default-timeout";
    StringVar (&eta_Flags->>fl_APIKeyFile) "e2b-api-key-file";
    BoolVar (&eta_Flags->>fl_AllowAnonymous) "e2b-allow-anonymous";
    StringVar (&eta_Flags->>fl_AliasesFile) "e2b-template-alias-file" ] ++
  AddEnvdSecretFlag (&eta_Flags->>fl_EnvdSecretFile) ++
  [ BoolVar (&eta_Flags->>fl_Builds) "e2b-builds";
    IntVar (&eta_Flags->>fl_BuildParallel) "e2b-build-parallel";
    DurationVar (&eta_Flags->>fl_BuildTimeout) "e2b-build-timeout";
    IntVar (&eta_Flags->>fl_BuildLogLines) "e2b-build-log-lines";
    StringVar (&eta_Flags->>fl_BuildDir) "e2b-build-dir";
    Int64Var (&eta_Flags->>fl_UploadMax) "e2b-build-upload-max";
    StringVar (s3 (&eta_s3->>s3_Bucket)) "e2b-build-store-s3-bucket";
    StringVar (s3 (&eta_s3->>s3_Prefix)) "e2b-build-store-s3-prefix";
    StringVar (s3 (&eta_s3->>s3_Endpoint)) "e2b-build-store-s3-endpoint";
    StringVar (s3 (&eta_s3->>s3_Region)) "e2b-build-store-s3-region";
    BoolVar (s3 (&eta_s3->>s3_ForcePathStyle)) "e2b-build-store-s3-force-path-style" ].

(** [envdproxy.Flags.AddFlags] *)
Definition AddProxyFlags (prefix : string) : list (flag EnvdEdge.Flags) :=
  [ StringVar (&eta_proxy->>pf_Addr) (prefix +:+ "bind-address");
    StringVar (&eta_proxy->>pf_CertFile) (prefix +:+ "tls-cert-file");
    StringVar (&eta_proxy->>pf_KeyFile) (prefix +:+ "tls-private-key-file");
    BoolVar (&eta_proxy->>pf_GuestHTTP2) (prefix +:+ "guest-http2") ].

(** [kubeinventory.Options.AddFlags]: the one default that is not the variable's. *)
Definition AddInventoryFlags {O} (staleAfter : variable O Z) : list (flag O) :=
  [mkFlag KDuration staleAfter "inventory-stale-after" (λ o, z_or (var_get staleAfter o) defaultStaleAfter)].

(** ** The binaries' flags *)

Definition eta_options (o : options) : options :=
  mkOptions (o_Seeds o) (o_SandboxdToken o) (o_SandboxdTokenFile o) (o_PollInterval o) (o_E2B o) (o_Proxy o).
Definition eta_edge (o : edge_options) : edge_options :=
  mkEdgeOptions (eo_Domain o) (eo_Namespace o) (eo_SandboxdToken o) (eo_SandboxdTokenFile o) (eo_EnvdSecretFile o) (eo_Proxy o) (eo_StaleAfter o).
Definition eta_api (o : api_options) : api_options :=
  mkApiOptions (ao_SandboxdToken o) (ao_SandboxdTokenFile o) (ao_WarmPoolDriver o) (ao_WarmPoolInterval o) (ao_E2BAPI o) (ao_E2B o) (ao_StaleAfter o).

(** cmd/sandbox-e2b *)
Definition e2b_flags : list (flag options) :=
  [StringSliceVar (&eta_options->>o_Seeds) "sandboxd-seeds"] ++
  AddTokenFlags (&eta_options->>o_SandboxdToken) (&eta_options->>o_SandboxdTokenFile) ++
  [DurationVar (&eta_options->>o_PollInterval) "inventory-poll"] ++
  (on (&eta_options->>o_E2B) <$> AddE2bFlags) ++
  (on (&eta_options->>o_Proxy) <$> AddProxyFlags "envd-proxy-").

(** cmd/sandbox-envd-proxy *)
Definition edge_flags : list (flag edge_options) :=
  (on (&eta_edge->>eo_Proxy) <$> AddProxyFlags EmptyString) ++
  AddInventoryFlags (&eta_edge->>eo_StaleAfter) ++
  [StringVar (&eta_edge->>eo_Domain) "domain"] ++
  AddTokenFlags (&eta_edge->>eo_SandboxdToken) (&eta_edge->>eo_SandboxdTokenFile) ++
  AddEnvdSecretFlag (&eta_edge->>eo_EnvdSecretFile) ++
  [StringVar (&eta_edge->>eo_Namespace) "namespace"].

(** cmd/sandbox-apiserver, after the generic apiserver's own *)
Definition api_flags : list (flag api_options) :=
  AddTokenFlags (&eta_api->>ao_SandboxdToken) (&eta_api->>ao_SandboxdTokenFile) ++
  [ BoolVar (&eta_api->>ao_WarmPoolDriver) "enable-warm-pool-driver";
    DurationVar (&eta_api->>ao_WarmPoolInterval) "warm-pool-sync-interval";
    BoolVar (&eta_api->>ao_E2BAPI) "enable-e2b-api" ] ++
  (on (&eta_api->>ao_E2B) <$> AddE2bFlags) ++
  AddInventoryFlags (&eta_api->>ao_StaleAfter).

(** ** main *)

(** [options] before the flags, of cmd/sandbox-e2b and cmd/sandbox-envd-proxy *)
Definition new_e2b_options : options := mkOptions [] "" "" (10 * second) NewFlags (EnvdEdge.mkFlags "" "" "" false).
Definition new_edge_options : edge_options := mkEdgeOptions "" "default" "" "" "" (EnvdEdge.mkFlags ":8443" "" "" false) 0.

Definition ErrHelp : error := ErrSentinel "pflag: help requested".

(** What a flag set in ExitOnError mode leaves with when it cannot be read, and what
    main leaves with after its run. *)
Definition exit_on_error (e : error) : Z := if is_err e ErrHelp then 0 else 2.
Definition exit_code (r : result unit) : Z := if is_ok r then 0 else 1.

Section mains.
Context {F : Pflag} {B : Type} {H : Host B} {G : Type}.

Definition parsed {O} (flags : list (flag O)) (args : list string) (o : O) (run : O → io B (result unit)) : io B Z :=
  match Parse flags args o with
  | Err e => mret (exit_on_error e)
  | Ok o => r ← run o; mret (exit_code r)
  end.

Definition main_e2b (args : list string) : io B Z := parsed e2b_flags args new_e2b_options run_e2b.

(** The log is set up before the flags are read. *)
Definition main_edge (args : list string) : io B Z :=
  r ← setup_log;
  match r with Err _ => mret 1%Z | Ok _ => parsed edge_flags args new_edge_options run_edge end.

(** The generic apiserver brings flags of its own. *)
Definition apiserver_flags (generic : list (flag G)) : list (flag (G * api_options)) :=
  (on (mkVar fst (λ g o, (g, o.2))) <$> generic) ++ (on (mkVar snd (λ a o, (o.1, a))) <$> api_flags).

Definition main_apiserver (generic : list (flag G)) (g : G) (args : list string) : io B Z :=
  parsed (apiserver_flags generic) args (g, newOptions) (λ o, run_apiserver o.2).
End mains.

(** ** Specification *)

(** Two flags that do not touch each other's variable, and flags that are their own. *)
Record apart {O} (f g : flag O) : Prop := {
  ap_get v o : var_get (fg_var f) (var_put (fg_var g) v o) = var_get (fg_var f) o;
  ap_default v o : fg_default f (var_put (fg_var g) v o) = fg_default f o;
}.

Definition owns {O} (f : flag O) : Prop := ∀ v o, var_get (fg_var f) (var_put (fg_var f) v o) = v.

Fixpoint separate {O} (fs : list (flag O)) : Prop :=
  match fs with
  | [] => True
  | f :: fs => owns f ∧ Forall (λ g, apart f g ∧ apart g f) fs ∧ separate fs
  end.

(** The settings of one flag, in order, on what it held. *)
Fixpoint value_of {F : Pflag} {O} (f : flag O) (changed : bool) (v : fg_type f) (l : list (string * string)) : result (fg_type f) :=
  match l with
  | [] => Ok v
  | (name, text) :: l =>
      if decide (name = fg_name f) then
        match set_value (fg_kind f) changed v text with Ok v => value_of f true v l | Err e => Err e end
      else value_of f changed v l
  end.

(** Options read from settings: each flag's variable is what its own settings make of
    its default, and the variables of the flags are all there is to the options. *)
Record read_from {F : Pflag} {O} (fs : list (flag O)) (l : list (string * string)) (o o' : O) : Prop := {
  rf_known name text : (name, text) ∈ l → name ∈ fg_name <$> fs;
  rf_value f : f ∈ fs → value_of f false (fg_default f o) l = Ok (var_get (fg_var f) o');
  rf_all o'' : (∀ f, f ∈ fs → var_get (fg_var f) o'' = var_get (fg_var f) o') → o'' = o';
}.

(** ** Lemmas *)

Section lemmas.
Context {F : Pflag} {L : PflagLaws F} {O : Type}.
Implicit Types (f g : flag O) (fs : list (flag O)).

Lemma separate_owns fs f : separate fs → f ∈ fs → owns f.
Proof.
  induction fs as [|g fs IH]; [by intros _ ?%not_elem_of_nil|]. intros (Ho & _ & Hs) [->|Hin]%elem_of_cons; [done|by apply IH].
Qed.

Lemma separate_apart fs f g : separate fs → f ∈ fs → g ∈ fs → f = g ∨ apart f g.
Proof.
  induction fs as [|h fs IH]; [by intros _ ?%not_elem_of_nil|].
  intros (_ & Ha & Hs) [->|Hf]%elem_of_cons [->|Hg]%elem_of_cons; [by left| | |by apply IH].
  - right. by apply (proj1 (Forall_forall _ _) Ha g Hg).
  - right. by apply (proj1 (Forall_forall _ _) Ha f Hf).
Qed.

Lemma find_flag_name fs name f : find_flag fs name = Some f → f ∈ fs ∧ fg_name f = name.
Proof.
  unfold find_flag. intros ([i g] & Hf & ->)%fmap_Some. apply list_find_Some in Hf as (Hl & Hn & _).
  split; [|done]. by eapply list_elem_of_lookup_2.
Qed.

Lemma named_once fs f g : NoDup (fg_name <$> fs) → f ∈ fs → g ∈ fs → fg_name f = fg_name g → f = g.
Proof.
  intros Hnd (i & Hi)%list_elem_of_lookup (j & Hj)%list_elem_of_lookup He.
  assert (i = j) as ->; [|congruence]. eapply (NoDup_lookup _ i j (fg_name f)); [done|by rewrite list_lookup_fmap, Hi|by rewrite list_lookup_fmap, Hj; cbn; rewrite He].
Qed.

(** One write reaches its own variable and no other. *)
Lemma put_get fs f g v o : separate fs → f ∈ fs → g ∈ fs → f ≠ g → var_get (fg_var f) (var_put (fg_var g) v o) = var_get (fg_var f) o.
Proof. intros Hs Hf Hg Hne. destruct (separate_apart fs f g Hs Hf Hg) as [|[Hget _]]; [done|apply Hget]. Qed.

Lemma defaulted_get fs o : separate fs → ∀ f, f ∈ fs → var_get (fg_var f) (defaulted fs o) = fg_default f o.
Proof.
  unfold defaulted. revert o. induction fs as [|g fs IH]; intros o Hs f Hf; [by apply not_elem_of_nil in Hf|].
  destruct Hs as (Ho & Ha & Hs). cbn. apply elem_of_cons in Hf as [->|Hf].
  - assert (∀ fs' o', Forall (λ h, apart g h) fs' → var_get (fg_var g) (fold_left (λ o f, var_put (fg_var f) (fg_default f o) o) fs' o') = var_get (fg_var g) o') as Hkeep.
    { induction fs' as [|h fs' IH']; [done|]. intros o' Hap. inversion Hap as [|? ? [Hget _] Hap']; subst. cbn. rewrite IH' by done. apply Hget. }
    rewrite Hkeep; [apply Ho|]. eapply Forall_impl; [exact Ha|]. by intros h [? _].
  - rewrite IH by done. by apply (ap_default f g), (proj1 (Forall_forall _ _) Ha f Hf).
Qed.

Lemma set_all_get fs changed l o o' : separate fs → NoDup (fg_name <$> fs) → set_all fs changed l o = Ok o' →
  (∀ name text, (name, text) ∈ l → name ∈ fg_name <$> fs) ∧
  ∀ f, f ∈ fs → value_of f (bool_decide (fg_name f ∈ changed)) (var_get (fg_var f) o) l = Ok (var_get (fg_var f) o').
Proof.
  intros Hs Hnd. revert changed o. induction l as [|[name text] l IH]; intros changed o; cbn.
  { intros [= ->]. split; [by intros ? ? ?%not_elem_of_nil|done]. }
  destruct (find_flag fs name) as [g|] eqn:Hg; [|done]. apply find_flag_name in Hg as [Hg <-].
  destruct (set_value _ _ _ _) as [v|e] eqn:Hv; [|done]. intros [Hk Hval]%IH. split.
  - intros n t [[= -> ->]|Hin]%elem_of_cons; [by apply list_elem_of_fmap_2|by eapply Hk].
  - intros f Hf. specialize (Hval f Hf). destruct (decide (fg_name g = fg_name f)) as [Hn|Hn].
    + assert (g = f) as ->.
      { by apply (named_once fs). }
      rewrite Hv.
      rewrite (bool_decide_eq_true_2 (fg_name f ∈ fg_name f :: changed)) in Hval by apply list_elem_of_here. by rewrite (separate_owns fs f Hs Hf) in Hval.
    + rewrite (put_get fs f g) in Hval; [|done|done|done|by intros ->]. rewrite <- Hval. f_equal.
      apply bool_decide_ext. rewrite elem_of_cons. naive_solver.
Qed.

(** A flag that is not among the settings keeps its default. *)
Lemma value_of_unset f changed v l : (∀ text, (fg_name f, text) ∉ l) → value_of f changed v l = Ok v.
Proof.
  revert changed. induction l as [|[name text] l IH]; [done|]. intros changed Hnot. cbn. rewrite decide_False.
  - apply IH. intros t Ht. apply (Hnot t). by right.
  - intros ->. apply (Hnot text). by left.
Qed.

Lemma Parse_read fs args o o' : NoDup (fg_name <$> fs) → separate fs →
  (∀ o1 o2, (∀ f, f ∈ fs → var_get (fg_var f) o1 = var_get (fg_var f) o2) → o1 = o2) →
  Parse fs args o = Ok o' → ∃ l, settings (shape <$> fs) args = Ok l ∧ read_from fs l o o'.
Proof.
  intros Hnd Hs Hall. unfold Parse. rewrite register_distinct, parse_sets by done.
  destruct (settings _ _) as [l|e]; [|done]. intros Hset. apply set_all_get in Hset as [Hk Hv]; [|done|done].
  exists l. split; [done|]. split; [exact Hk| |by intros o'' Ho; apply Hall].
  intros f Hf. specialize (Hv f Hf). by rewrite defaulted_get in Hv.
Qed.
End lemmas.

(** ** The flags of the binaries are well formed *)

Ltac solve_separate :=
  lazymatch goal with
  | |- separate [] => exact I
  | |- separate (_ :: _) => split; [intros ? ?; reflexivity|split; [repeat constructor; intros; reflexivity|solve_separate]]
  end.

(** Agreement on every flag's variable, one at a time. *)
Ltac flags_agree H :=
  rewrite <- Forall_forall in H; repeat (apply Forall_cons in H as [? H]); clear H; cbn in *; simplify_eq.

Lemma e2b_flags_names : NoDup (fg_name <$> e2b_flags).
Proof. apply (bool_decide_eq_true_1 (NoDup _)). vm_compute. reflexivity. Qed.
Lemma edge_flags_names : NoDup (fg_name <$> edge_flags).
Proof. apply (bool_decide_eq_true_1 (NoDup _)). vm_compute. reflexivity. Qed.
Lemma api_flags_names : NoDup (fg_name <$> api_flags).
Proof. apply (bool_decide_eq_true_1 (NoDup _)). vm_compute. reflexivity. Qed.

Lemma e2b_flags_separate : separate e2b_flags.
Proof. let e := eval cbv [e2b_flags AddTokenFlags AddE2bFlags AddEnvdSecretFlag AddProxyFlags app fmap list_fmap] in e2b_flags in change (separate e). solve_separate. Qed.
Lemma edge_flags_separate : separate edge_flags.
Proof. let e := eval cbv [edge_flags AddTokenFlags AddEnvdSecretFlag AddProxyFlags AddInventoryFlags app fmap list_fmap] in edge_flags in change (separate e). solve_separate. Qed.
Lemma api_flags_separate : separate api_flags.
Proof. let e := eval cbv [api_flags AddTokenFlags AddE2bFlags AddEnvdSecretFlag AddInventoryFlags app fmap list_fmap] in api_flags in change (separate e). solve_separate. Qed.

Lemma e2b_flags_all o1 o2 : (∀ f, f ∈ e2b_flags → var_get (fg_var f) o1 = var_get (fg_var f) o2) → o1 = o2.
Proof. intros Hf. flags_agree Hf. destruct o1 as [? ? ? ? [? ? ? ? ? ? ? ? ? ? ? ? ? ? ? []] []], o2 as [? ? ? ? [? ? ? ? ? ? ? ? ? ? ? ? ? ? ? []] []]. cbn in *. by subst. Qed.
Lemma edge_flags_all o1 o2 : (∀ f, f ∈ edge_flags → var_get (fg_var f) o1 = var_get (fg_var f) o2) → o1 = o2.
Proof. intros Hf. flags_agree Hf. destruct o1 as [? ? ? ? ? [] ?], o2 as [? ? ? ? ? [] ?]. cbn in *. by subst. Qed.
Lemma api_flags_all o1 o2 : (∀ f, f ∈ api_flags → var_get (fg_var f) o1 = var_get (fg_var f) o2) → o1 = o2.
Proof. intros Hf. flags_agree Hf. destruct o1 as [? ? ? ? ? [? ? ? ? ? ? ? ? ? ? ? ? ? ? ? []] ?], o2 as [? ? ? ? ? [? ? ? ? ? ? ? ? ? ? ? ? ? ? ? []] ?]. cbn in *. by subst. Qed.

Section generic.
Context {G : Type}.

Lemma separate_on {O P} (p : variable O P) (fs : list (flag P)) : (∀ v o, var_get p (var_put p v o) = v) → separate fs → separate (on p <$> fs).
Proof.
  intros Hp. induction fs as [|f fs IH]; [done|]. intros (Ho & Ha & Hs). csimpl. split_and!; [|apply Forall_fmap|by apply IH].
  - intros v o. cbn. by rewrite Hp, Ho.
  - eapply Forall_impl; [exact Ha|]. intros g [[H1 H2] [H3 H4]]. cbn. split; split; intros v o; cbn; rewrite Hp; auto.
Qed.

Lemma separate_app {O} (fs gs : list (flag O)) : separate fs → separate gs → (∀ f g, f ∈ fs → g ∈ gs → apart f g ∧ apart g f) → separate (fs ++ gs).
Proof.
  intros Hf Hg. induction fs as [|f fs IH]; [done|]. intros Hap. destruct Hf as (Ho & Ha & Hs). cbn. split_and!; [done| |].
  - apply Forall_app. split; [done|]. apply Forall_forall. intros g Hin. apply Hap; [by left|done].
  - apply IH; [done|]. intros f' g Hin Hin'. apply Hap; [by right|done].
Qed.

Lemma on_names {O P} (p : variable O P) (fs : list (flag P)) : fg_name <$> (on p <$> fs) = fg_name <$> fs.
Proof. rewrite <- list_fmap_compose. by apply list_fmap_ext. Qed.

Lemma apiserver_separate (generic : list (flag G)) : separate generic → separate (apiserver_flags generic).
Proof.
  intros Hg. apply separate_app; [by apply separate_on|apply separate_on; [done|apply api_flags_separate]|].
  intros f g (f' & -> & _)%list_elem_of_fmap (g' & -> & _)%list_elem_of_fmap. by split; split.
Qed.

Lemma apiserver_names (generic : list (flag G)) : NoDup (fg_name <$> generic) → (∀ f, f ∈ generic → fg_name f ∉ fg_name <$> api_flags) →
  NoDup (fg_name <$> apiserver_flags generic).
Proof.
  intros Hnd Hap. unfold apiserver_flags. rewrite fmap_app, !on_names. apply NoDup_app. split_and!; [done| |apply api_flags_names].
  intros n (f & -> & Hf)%list_elem_of_fmap. by apply Hap.
Qed.

Lemma apiserver_all (generic : list (flag G)) : (∀ g1 g2, (∀ f, f ∈ generic → var_get (fg_var f) g1 = var_get (fg_var f) g2) → g1 = g2) →
  ∀ o1 o2, (∀ f, f ∈ apiserver_flags generic → var_get (fg_var f) o1 = var_get (fg_var f) o2) → o1 = o2.
Proof.
  intros Hall [g1 o1] [g2 o2] Hf. f_equal.
  - apply Hall. intros f Hin. apply (Hf (on (mkVar fst (λ g o, (g, o.2))) f)). apply elem_of_app. left. by apply list_elem_of_fmap_2.
  - apply api_flags_all. intros f Hin. apply (Hf (on (mkVar snd (λ a o, (o.1, a))) f)). apply elem_of_app. right. by apply list_elem_of_fmap_2.
Qed.
End generic.

(** ** What must be told before a surface is served *)

Definition told_token (literal file : string) : Prop := file ≠ "" ∨ trim_space literal ≠ "".
Definition told_e2b (f : E2bFlags.Flags) : Prop :=
  trim_space (fl_Domain f) ≠ "" ∧ fl_EnvdSecretFile f ≠ "" ∧ (fl_APIKeyFile f ≠ "" ∨ fl_AllowAnonymous f = true).

(** Which options a binary serves a surface with. *)
Definition e2b_gate (o : options) (ev : host_event) : Prop :=
  match ev with
  | EvServe _ _ => told_e2b (o_E2B o)
  | EvServed _ _ _ => told_e2b (o_E2B o) ∧ pf_Addr (o_Proxy o) ≠ "" ∧ told_token (o_SandboxdToken o) (o_SandboxdTokenFile o)
  | _ => True
  end.
Definition edge_gate (o : edge_options) (ev : host_event) : Prop :=
  match ev with
  | EvServe _ _ => False
  | EvServed _ _ _ => trim_space (eo_Domain o) ≠ "" ∧ eo_EnvdSecretFile o ≠ "" ∧ told_token (eo_SandboxdToken o) (eo_SandboxdTokenFile o)
  | _ => True
  end.
Definition api_gate (o : api_options) (ev : host_event) : Prop :=
  match ev with
  | EvServe _ _ => ao_E2BAPI o = true ∧ told_e2b (ao_E2B o)
  | EvServed _ _ _ => False
  | _ => True
  end.

Lemma ServerOptions_told {S} {FF : FlagFiles S} f st opts up st' s : ServerOptions f true st = (Ok (opts, up), st') →
  E2bServer.NewServer true true opts = Ok s → told_e2b f.
Proof.
  intros Hopts Hs. pose proof (ServerOptions_run _ _ _ _ _ _ Hopts) as Hok. apply NewServer_opts in Hs as Hdom. destruct Hdom as (_ & Hdom & _).
  split_and!.
  - by rewrite <- (fo_domain _ _ _ Hok).
  - unfold ServerOptions in Hopts. apply try_Ok in Hopts as (keys & st1 & _ & (aliases & st2 & _ & (secret & st3 & Hsec & _)%try_Ok)%try_Ok).
    intros He. unfold EnvdSecret in Hsec. by rewrite decide_True in Hsec.
  - destruct (decide (fl_APIKeyFile f = "")) as [He|]; [right|by left].
    unfold ServerOptions in Hopts. apply try_Ok in Hopts as (keys & st2 & Hkeys & (aliases & st3 & _ & (secret & st4 & _ & (b & st5 & _ & Hrun)%try_Ok)%try_Ok)%try_Ok).
    unfold fileLines in Hkeys. rewrite decide_True in Hkeys by done. injection Hkeys as <- <-. injection Hrun as <- _ _.
    unfold E2bServer.NewServer in Hs. cbn [negb] in Hs. cbv zeta in Hs. cbn in Hs. by destruct (fl_AllowAnonymous f).
Qed.

Section gates.
Context {B : Type} (H : Host B).

Definition only {A} (P : host_event → Prop) (m : io (list host_event * B) A) : Prop := emits m (λ t _, Forall P t).

Lemma only_ret {A} P (a : A) : only P (mret a).
Proof. by apply emits_ret. Qed.
Lemma only_still {A} P (m : io (list host_event * B) A) : still_host m → only P m.
Proof. intros Hm. eapply emits_mono; [exact Hm|]. by intros t a ->. Qed.
Lemma only_silently {A} P (m : io B A) : only P (silently m).
Proof. apply only_still, still_host_silently. Qed.
Lemma only_logging {A} P (m : io B A) (c : A → host_event) : (∀ a, P (c a)) → only P (logging m c).
Proof. intros Hc. eapply emits_mono; [apply emits_logging|]. intros t a [-> _]. by repeat constructor. Qed.
Lemma only_bind {A C} P (m : io (list host_event * B) A) (k : A → io (list host_event * B) C) : only P m → (∀ a, only P (k a)) → only P (m ≫= k).
Proof.
  intros Hm Hk. eapply emits_bind; [exact Hm|]. intros t a Ht. eapply emits_mono; [apply Hk|]. intros t' b Ht'. by apply Forall_app.
Qed.
Lemma only_try {A C} P (m : io (list host_event * B) (result A)) (k : A → io (list host_event * B) (result C)) :
  only P m → (∀ a, only P (k a)) → only P (try m k).
Proof. intros Hm Hk. apply only_bind; [done|]. intros [a|e]; [apply Hk|apply only_ret]. Qed.
Lemma only_wrapping {A} P fmt args (m : io (list host_event * B) (result A)) : only P m → only P (wrapping fmt args m).
Proof. intros Hm. apply only_bind; [done|]. intros r. apply only_ret. Qed.

(** After a step that opens nothing, with what it is known to give. *)
Lemma only_still_try {A C} P (m : io (list host_event * B) (result A)) (k : A → io (list host_event * B) (result C)) :
  still_host m → (∀ a st, (m st).1 = Ok a → only P (k a)) → only P (try m k).
Proof. intros Hm Hk. by apply emits_still_try. Qed.

#[local] Existing Instance recorded_host.

Lemma still_EnvdSecret name : still_host (EnvdSecret (FF := recorded_files host_files) name).
Proof. unfold EnvdSecret. case_decide; [apply still_host_ret|]. apply still_host_bind; [apply still_host_silently|]. intros b. apply still_host_ret. Qed.

Lemma still_wrapping {A} fmt args (m : io B (result A)) : still_host (wrapping fmt args (silently m)).
Proof. apply still_host_bind; [apply still_host_silently|]. intros r. apply still_host_ret. Qed.

Lemma still_startWarmPoolDriver token interval : still_host (startWarmPoolDriver (H := recorded_host H) token interval).
Proof.
  do 2 (apply still_host_try; [apply still_wrapping|]; intros _).
  apply still_host_try; [|intros m; apply still_host_bind; [apply still_host_silently|intros _; apply still_host_ret]].
  apply still_host_bind; [apply still_host_bind; [apply still_host_silently|intros b; apply still_host_ret]|]. intros ns.
  apply still_host_try; [apply still_wrapping|]. intros m. apply still_host_try; [apply still_wrapping|]. intros _. apply still_host_ret.
Qed.

Lemma still_serverConfig : still_host (serverConfig (H := recorded_host H)).
Proof. do 4 (apply still_host_try; [apply still_wrapping|]; intros _). apply still_wrapping. Qed.

Lemma TokenFrom_told literal file st token : (TokenFrom (H := recorded_host H) literal file st).1 = Ok token → trim_space token ≠ "" → told_token literal file.
Proof.
  unfold TokenFrom, told_token. destruct (decide (file = "")); [|by left].
  intros Htok. cbn in Htok. injection Htok as ->. by right.
Qed.

Lemma EnvdRoute_NewServer_told opts opts' : EnvdRoute.NewServer opts = Ok opts' → trim_space (EnvdRoute.op_Domain opts) ≠ "" ∧ trim_space (op_NodeToken opts) ≠ "".
Proof. unfold EnvdRoute.NewServer. case_decide; [done|]. by case_decide. Qed.

Lemma only_Listen P (addr : string) fmt args : (∀ r, P (EvListen addr r)) → only P (wrapping fmt args (Listen (Host := recorded_host H) addr)).
Proof. intros HP. by apply only_wrapping, only_logging. Qed.

Lemma only_ServeEdge P f ln opts ns secret : (∀ what r, P (EvServed ln what r)) → only P (ServeEdge (H := recorded_host H) f ln opts ns secret).
Proof. intros HP. unfold ServeEdge. destruct (serve_mode f); [|apply only_ret]. by apply only_logging. Qed.

Lemma only_Serve P addr s up : (∀ r, P (EvListen addr r)) → (∀ ln what, P (EvServe ln what)) → only P (Serve (H := recorded_host H) addr s up).
Proof.
  intros HL HS. apply only_try; [by apply only_Listen|]. intros ln. apply only_bind; [by apply only_logging|]. intros _. apply only_ret.
Qed.

Lemma run_e2b_gated o : only (e2b_gate o) (run_e2b (H := recorded_host H) o).
Proof.
  apply only_still_try; [apply still_setup_log|]. intros _ _ _.
  apply only_still_try; [apply still_TokenFrom|]. intros token st Htoken.
  do 2 (apply only_try; [apply only_silently|]; intros _).
  apply only_still_try; [apply still_ServerOptions|]. intros [opts up] st1 Hopts.
  destruct (ServerOptions _ _ st1) as [r st2] eqn:Hrun. cbn [fst] in Hopts. subst r.
  destruct (E2bServer.NewServer true true (opts, up).1) as [s|e] eqn:Hs; [|apply only_ret]. apply (ServerOptions_told _ _ _ _ _ _ Hrun) in Hs as He2b.
  apply only_try; [by apply only_Serve|]. intros ln.
  apply only_bind; [|intros r; apply only_bind; [by apply only_logging|intros _; apply only_ret]].
  unfold edge_beside. case_decide as Haddr; [apply only_bind; [apply only_silently|intros _; apply only_ret]|].
  destruct (NewResolver _ _ _); [|apply only_ret]. destruct (EnvdRoute.NewServer _) as [eopts|e] eqn:He; [|apply only_ret].
  apply EnvdRoute_NewServer_told in He as [_ Htok]. apply only_try; [by apply only_Listen|]. intros ln'.
  apply only_ServeEdge. intros what r. split_and!; [done|done|]. by apply (TokenFrom_told _ _ st token).
Qed.

Lemma run_edge_gated o : only (edge_gate o) (run_edge (H := recorded_host H) o).
Proof.
  apply only_try; [apply only_wrapping, only_silently|]. intros _.
  do 2 (apply only_try; [apply only_silently|]; intros _).
  apply only_still_try; [apply still_TokenFrom|]. intros token st Htoken.
  apply only_still_try; [apply still_EnvdSecret|]. intros secret st1 Hsecret.
  destruct (NewResolver _ _ _); [|apply only_ret]. destruct (EnvdRoute.NewServer _) as [eopts|e] eqn:He; [|apply only_ret].
  apply EnvdRoute_NewServer_told in He as [Hdom Htok]. apply only_try; [by apply only_Listen|]. intros ln.
  apply only_ServeEdge. intros what r. split_and!; [done| |by apply (TokenFrom_told _ _ st token)].
  intros Hf. unfold EnvdSecret in Hsecret. by rewrite decide_True in Hsecret.
Qed.

Lemma only_startE2BServer P f : (∀ r, P (EvListen (fl_Addr f) r)) → (told_e2b f → ∀ ln what, P (EvServe ln what)) →
  only P (startE2BServer (H := recorded_host H) f).
Proof.
  intros HL HS. apply only_still_try; [apply still_ServerOptions|]. intros [opts up] st Hopts.
  destruct (ServerOptions _ _ st) as [r st1] eqn:Hrun. cbn [fst] in Hopts. subst r.
  destruct (E2bServer.NewServer true true (opts, up).1) as [s|e] eqn:Hs; [|apply only_ret]. apply (ServerOptions_told _ _ _ _ _ _ Hrun) in Hs as He2b.
  apply only_Serve; auto.
Qed.

Lemma run_apiserver_gated o : only (api_gate o) (run_apiserver (H := recorded_host H) o).
Proof.
  apply only_still_try; [apply still_setup_log|]. intros _ _ _.
  apply only_try; [apply only_wrapping, only_silently|]. intros _.
  apply only_try; [apply only_silently|]. intros _.
  apply only_still_try; [apply still_TokenFrom|]. intros token _ _.
  apply only_try; [apply only_silently|]. intros _.
  apply only_try; [destruct (ao_WarmPoolDriver o); [apply only_still, still_startWarmPoolDriver|apply only_ret]|]. intros _.
  apply only_try.
  { destruct (ao_E2BAPI o) eqn:Hon; [|apply only_ret]. apply only_bind; [|intros r; apply only_ret].
    apply only_startE2BServer; [done|]. intros Htold ln what. by split. }
  intros e2b. apply only_try; [apply only_still, still_serverConfig|]. intros _.
  apply only_try; [apply only_wrapping, only_silently|]. intros _.
  apply only_try; [apply only_silently|]. intros _.
  apply only_bind; [apply only_silently|]. intros r. apply only_bind; [|intros _; apply only_ret].
  destruct e2b; [by apply only_logging|apply only_ret].
Qed.
End gates.

Section told.
Context {F : Pflag} {L : PflagLaws F}.

Lemma read_named {O} (fs : list (flag O)) l o o' f : read_from fs l o o' → f ∈ fs → var_get (fg_var f) o' ≠ fg_default f o → fg_name f ∈ l.*1.
Proof.
  intros [_ Hv _] Hf Hne. destruct (decide (fg_name f ∈ l.*1)) as [|Hnot]; [done|]. specialize (Hv f Hf).
  rewrite value_of_unset in Hv; [injection Hv as Hv; by destruct Hne|]. intros text Hin. apply Hnot. apply list_elem_of_fmap. by exists (fg_name f, text).
Qed.

(** What a binary records, it records with the options its arguments give. *)
Lemma emits_parsed {B O} (flags : list (flag O)) args o (run : O → io (list host_event * B) (result unit)) (P : O → host_event → Prop) :
  (∀ o, only (P o) (run o)) → only (λ ev, ∃ o', Parse flags args o = Ok o' ∧ P o' ev) (parsed flags args o run).
Proof.
  intros Hrun. unfold parsed. destruct (Parse flags args o) as [o'|e]; [|apply only_ret].
  apply only_bind; [|intros r; apply only_ret]. eapply emits_mono; [apply Hrun|].
  intros t r Ht. eapply Forall_impl; [exact Ht|]. intros ev Hev. by exists o'.
Qed.

Lemma e2b_read args o : Parse e2b_flags args new_e2b_options = Ok o →
  ∃ l, settings (shape <$> e2b_flags) args = Ok l ∧ read_from e2b_flags l new_e2b_options o.
Proof. apply Parse_read; [apply e2b_flags_names|apply e2b_flags_separate|apply e2b_flags_all]. Qed.

Lemma edge_read args o : Parse edge_flags args new_edge_options = Ok o →
  ∃ l, settings (shape <$> edge_flags) args = Ok l ∧ read_from edge_flags l new_edge_options o.
Proof. apply Parse_read; [apply edge_flags_names|apply edge_flags_separate|apply edge_flags_all]. Qed.

(** The generic apiserver's flags: distinct, independent, its own. *)
Record generic_ok {G} (generic : list (flag G)) : Prop := {
  gk_names : NoDup (fg_name <$> generic);
  gk_separate : separate generic;
  gk_all g1 g2 : (∀ f, f ∈ generic → var_get (fg_var f) g1 = var_get (fg_var f) g2) → g1 = g2;
  gk_apart f : f ∈ generic → fg_name f ∉ fg_name <$> api_flags;
}.

Lemma apiserver_read {G} (generic : list (flag G)) (g : G) args o : generic_ok generic → Parse (apiserver_flags generic) args (g, newOptions) = Ok o →
  ∃ l, settings (shape <$> apiserver_flags generic) args = Ok l ∧ read_from (apiserver_flags generic) l (g, newOptions) o.
Proof.
  intros [Hn Hs Ha Hap]. apply Parse_read; [by apply apiserver_names|by apply apiserver_separate|by apply apiserver_all].
Qed.
End told.

(** ** Specification of what is served *)

Definition is_served (ev : host_event) : Prop := match ev with EvServe _ _ | EvServed _ _ _ => True | _ => False end.

Definition e2b_named (l : list string) : Prop :=
  "e2b-domain" ∈ l ∧ "e2b-envd-secret-file" ∈ l ∧ ("e2b-api-key-file" ∈ l ∨ "e2b-allow-anonymous" ∈ l).
Definition token_named (l : list string) : Prop := "sandboxd-token-file" ∈ l ∨ "sandboxd-token" ∈ l.

(** The flags an operator gave, by what was served. *)
Definition named_for_e2b (l : list string) (ev : host_event) : Prop :=
  match ev with
  | EvServe _ _ => e2b_named l
  | EvServed _ _ _ => e2b_named l ∧ "envd-proxy-bind-address" ∈ l ∧ token_named l
  | _ => True
  end.
Definition named_for_edge (l : list string) (ev : host_event) : Prop :=
  match ev with
  | EvServe _ _ => False
  | EvServed _ _ _ => "domain" ∈ l ∧ "e2b-envd-secret-file" ∈ l ∧ token_named l
  | _ => True
  end.
Definition named_for_api (l : list string) (ev : host_event) : Prop :=
  match ev with
  | EvServe _ _ => "enable-e2b-api" ∈ l ∧ e2b_named l
  | EvServed _ _ _ => False
  | _ => True
  end.

Lemma e2b_named_ok {F : Pflag} l o ev : read_from e2b_flags l new_e2b_options o → e2b_gate o ev → named_for_e2b l.*1 ev.
Proof.
  intros Hr. assert (∀ i f, e2b_flags !! i = Some f → var_get (fg_var f) o ≠ fg_default f new_e2b_options → fg_name f ∈ l.*1) as Hn
    by (intros i f Hf; eapply read_named; [exact Hr|by eapply list_elem_of_lookup_2]).
  assert (told_e2b (o_E2B o) → e2b_named l.*1) as Htold.
  { intros (Hd & Hs & Hk). split_and!; [| |destruct Hk as [Hk|Hk]; [left|right]].
    - apply (Hn 6 _ eq_refl). cbn. intros He. by rewrite He in Hd.
    - by apply (Hn 12 _ eq_refl).
    - by apply (Hn 9 _ eq_refl).
    - apply (Hn 10 _ eq_refl). cbn. by rewrite Hk. }
  destruct ev as [| | |]; try done. intros (He & Ha & Ht). split_and!; [by apply Htold| |destruct Ht as [Ht|Ht]; [left|right]].
  - by apply (Hn 24 _ eq_refl).
  - by apply (Hn 2 _ eq_refl).
  - apply (Hn 1 _ eq_refl). cbn. intros Hl. by rewrite Hl in Ht.
Qed.

Lemma edge_named_ok {F : Pflag} l o ev : read_from edge_flags l new_edge_options o → edge_gate o ev → named_for_edge l.*1 ev.
Proof.
  intros Hr. assert (∀ i f, edge_flags !! i = Some f → var_get (fg_var f) o ≠ fg_default f new_edge_options → fg_name f ∈ l.*1) as Hn
    by (intros i f Hf; eapply read_named; [exact Hr|by eapply list_elem_of_lookup_2]).
  destruct ev as [| | |]; try done. intros (Hd & Hs & Ht). split_and!; [| |destruct Ht as [Ht|Ht]; [left|right]].
  - apply (Hn 5 _ eq_refl). cbn. intros He. by rewrite He in Hd.
  - by apply (Hn 8 _ eq_refl).
  - by apply (Hn 7 _ eq_refl).
  - apply (Hn 6 _ eq_refl). cbn. intros He. by rewrite He in Ht.
Qed.

Lemma api_named_ok {F : Pflag} {G} (generic : list (flag G)) g l o ev : read_from (apiserver_flags generic) l (g, newOptions) o →
  api_gate o.2 ev → named_for_api l.*1 ev.
Proof.
  intros Hr. assert (∀ i f, api_flags !! i = Some f → var_get (fg_var f) o.2 ≠ fg_default f newOptions → fg_name f ∈ l.*1) as Hn.
  { intros i f Hf Hne. apply (read_named _ _ _ _ (on (mkVar snd (λ a o, (o.1, a))) f) Hr); [|done].
    apply elem_of_app. right. apply list_elem_of_fmap_2. by eapply list_elem_of_lookup_2. }
  destruct ev as [| | |]; try done. intros (Hon & Hd & Hs & Hk). unfold named_for_api, e2b_named.
  split_and!; [| | |destruct Hk as [Hk|Hk]; [left|right]].
  - apply (Hn 4 _ eq_refl). cbn. by rewrite Hon.
  - apply (Hn 7 _ eq_refl). cbn. intros He. by rewrite He in Hd.
  - by apply (Hn 13 _ eq_refl).
  - by apply (Hn 10 _ eq_refl).
  - apply (Hn 11 _ eq_refl). cbn. by rewrite Hk.
Qed.

(** The log is set up first. *)
Lemma emits_main_edge {F : Pflag} {B} (H : Host B) args :
  only (λ ev, ∃ o, Parse edge_flags args new_edge_options = Ok o ∧ edge_gate o ev) (main_edge (H := recorded_host H) args).
Proof.
  apply only_bind; [apply only_still, still_setup_log|]. intros [[]|e]; [|apply only_ret]. apply emits_parsed, run_edge_gated.
Qed.

(** ** Properties *)

(** the flags of every binary register without a clash and read back: each
    variable of the options ends as its own flag's settings make of its default, in
    order, whatever the other flags are set to; a flag that is not given leaves its
    default; and there is no option that no flag reads. *)
Theorem command_lines {F : Pflag} {L : PflagLaws F} {G : Type} (generic : list (flag G)) (g : G) (args : list string) : generic_ok generic →
  (RegisterFlags e2b_flags = Ok e2b_flags ∧ ∀ o, Parse e2b_flags args new_e2b_options = Ok o →
     ∃ l, settings (shape <$> e2b_flags) args = Ok l ∧ read_from e2b_flags l new_e2b_options o) ∧
  (RegisterFlags edge_flags = Ok edge_flags ∧ ∀ o, Parse edge_flags args new_edge_options = Ok o →
     ∃ l, settings (shape <$> edge_flags) args = Ok l ∧ read_from edge_flags l new_edge_options o) ∧
  (RegisterFlags (apiserver_flags generic) = Ok (apiserver_flags generic) ∧ ∀ o, Parse (apiserver_flags generic) args (g, newOptions) = Ok o →
     ∃ l, settings (shape <$> apiserver_flags generic) args = Ok l ∧ read_from (apiserver_flags generic) l (g, newOptions) o).
Proof.
  intros Hg. pose proof (apiserver_names generic (gk_names _ Hg) (gk_apart _ Hg)) as Hnd. split_and!.
  - apply register_distinct, e2b_flags_names.
  - apply e2b_read.
  - apply register_distinct, edge_flags_names.
  - apply edge_read.
  - by apply register_distinct.
  - intros o. by apply apiserver_read.
Qed.

(** C6: nothing is served that the operator did not ask for: on any host and for any
    arguments, an e2b surface is served only when the arguments name its domain, its
    envd secret and either its keys or anonymous access (and, in the apiserver, the
    surface itself), and an edge only when they name its domain or its address
    beside the e2b surface, its envd secret and a node token. *)
Theorem served_as_told {F : Pflag} {L : PflagLaws F} {B G : Type} (H : Host B) (generic : list (flag G)) (g : G) (args : list string) (b : B) (ev : host_event) :
  generic_ok generic →
  (ev ∈ (main_e2b (H := recorded_host H) args ([], b)).2.1 → is_served ev →
     ∃ l, settings (shape <$> e2b_flags) args = Ok l ∧ named_for_e2b l.*1 ev) ∧
  (ev ∈ (main_edge (H := recorded_host H) args ([], b)).2.1 → is_served ev →
     ∃ l, settings (shape <$> edge_flags) args = Ok l ∧ named_for_edge l.*1 ev) ∧
  (ev ∈ (main_apiserver (H := recorded_host H) generic g args ([], b)).2.1 → is_served ev →
     ∃ l, settings (shape <$> apiserver_flags generic) args = Ok l ∧ named_for_api l.*1 ev).
Proof.
  intros Hg. split_and!; intros Hev _.
  - destruct (emits_parsed e2b_flags args new_e2b_options _ _ (run_e2b_gated H) [] b) as (t & Ht & Hall).
    unfold main_e2b in Hev. rewrite Ht in Hev. destruct (proj1 (Forall_forall _ _) Hall _ Hev) as (o & (l & Hl & Hr)%e2b_read & Hgate).
    exists l. split; [done|]. by eapply e2b_named_ok.
  - destruct (emits_main_edge H args [] b) as (t & Ht & Hall).
    rewrite Ht in Hev. destruct (proj1 (Forall_forall _ _) Hall _ Hev) as (o & (l & Hl & Hr)%edge_read & Hgate).
    exists l. split; [done|]. by eapply edge_named_ok.
  - destruct (emits_parsed (apiserver_flags generic) args (g, newOptions) _ (λ o, api_gate o.2) (λ o, run_apiserver_gated H o.2) [] b) as (t & Ht & Hall).
    unfold main_apiserver in Hev. rewrite Ht in Hev. destruct (proj1 (Forall_forall _ _) Hall _ Hev) as (o & (l & Hl & Hr)%apiserver_read & Hgate); [|done].
    exists l. split; [done|]. by eapply api_named_ok.
Qed.

(** ** Witnesses *)

(** A reader of [--name=value] arguments. *)
#[local] Instance plain_flags_read : Pflag := {
  RegisterFlags _ fs := Ok fs;
  ParseArgs _ _ _ o := Ok o;
  settings names args :=
    fold_right (λ arg r, match r, str_cut "=" arg with
      | Ok l, Some (name, text) => match cut_prefix "--" name with Some n => if decide (n ∈ names.*1) then Ok ((n, text) :: l) else Err (ErrText "unknown flag" [n]) | None => Err ErrHelp end
      | Ok _, None => Err ErrHelp
      | Err e, _ => Err e end) (Ok []) args;
  set_value T k := match k with
    | KString => λ _ _ text, Ok text
    | KBool => λ _ _ text, Ok (bool_decide (text = "true"))
    | KStringSlice => λ changed old text, Ok ((if changed then old else []) ++ [text])
    | _ => λ _ _ text, match atoi text with Some z => Ok z | None => Err (ErrText "not a number" [text]) end
    end
}.

(** The same reader, parsing with it. *)
#[local] Instance plain_flags : Pflag := {
  RegisterFlags O fs := if decide (NoDup (fg_name <$> fs)) then Ok fs else Err (ErrPanic "flag redefined");
  ParseArgs O fs args o := match settings (shape <$> fs) args with Ok l => set_all fs [] l (defaulted fs o) | Err e => Err e end;
  settings := settings;
  set_value := @set_value plain_flags_read;
}.
#[local] Instance plain_flags_laws : PflagLaws plain_flags.
Proof.
  split; intros O fs; cbn.
  - intros Hnd. by rewrite decide_True.
  - intros Hnd. by rewrite decide_False.
  - intros args o. match goal with |- match ?s with _ => _ end = _ => destruct s as [l|e]; [|done] end.
    generalize ([] : list string) as changed, (defaulted fs o) as o1. clear o.
    induction l as [|[name text] l IH]; [done|]. intros changed o1. cbn. destruct (find_flag fs name); [|done].
    match goal with |- match ?s with _ => _ end = _ => destruct s; [apply IH|done] end.
Qed.

(** A generic apiserver with one flag of its own. *)
Definition port_flags : list (flag Z) := [mkFlag KInt (mkVar id (λ v _, v)) "secure-port" id].
Lemma port_flags_ok : generic_ok port_flags.
Proof.
  split.
  - apply NoDup_singleton.
  - by split_and!.
  - intros g1 g2 Hf. apply (Hf (mkFlag KInt (mkVar id (λ v _, v)) "secure-port" id)). apply list_elem_of_here.
  - intros f ->%list_elem_of_singleton. apply (bool_decide_eq_true_1 (_ ∉ _)). vm_compute. reflexivity.
Qed.

Definition api_args : list string :=
  ["--enable-e2b-api=true"; "--e2b-domain=sandbox.example"; "--e2b-envd-secret-file=/etc/secret"; "--e2b-domain=other.example"; "--secure-port=7443";
   "--e2b-allow-anonymous=true"].

(** A flag given twice, and the generic server's port beside it. *)
Lemma command_lines_witness :
  ∃ o, Parse (apiserver_flags port_flags) api_args (6443%Z, newOptions) = Ok o ∧ fl_Domain (ao_E2B o.2) = "other.example" ∧ o.1 = 7443%Z ∧
  ∃ l, settings (shape <$> apiserver_flags port_flags) api_args = Ok l ∧ read_from (apiserver_flags port_flags) l (6443%Z, newOptions) o.
Proof.
  destruct (command_lines port_flags 6443%Z api_args port_flags_ok) as (_ & _ & _ & Hr).
  destruct (Parse (apiserver_flags port_flags) api_args (6443%Z, newOptions)) as [o|e] eqn:Ho.
  - exists o. split; [reflexivity|]. split_and!; [| |exact (Hr o eq_refl)].
    all: vm_compute in Ho; injection Ho as <-; vm_compute; reflexivity.
  - vm_compute in Ho. discriminate Ho.
Defined.

(** The apiserver, with an e2b surface on its second listener. *)
Lemma served_as_told_witness :
  ∃ ln what, EvServe ln what ∈ (main_apiserver (H := recorded_host ready_host) port_flags 6443%Z api_args ([], tt)).2.1 ∧
  ∃ l, settings (shape <$> apiserver_flags port_flags) api_args = Ok l ∧ "enable-e2b-api" ∈ l.*1 ∧ e2b_named l.*1.
Proof.
  eexists _, _.
  assert (list_elem_of (EvServe _ _) (main_apiserver (H := recorded_host ready_host) port_flags 6443%Z api_args ([], tt)).2.1) as Hev
    by (apply (list_elem_of_lookup_2 _ 1); vm_compute; reflexivity).
  split; [exact Hev|].
  lazymatch type of Hev with list_elem_of ?ev _ =>
    destruct (served_as_told ready_host port_flags 6443%Z api_args tt ev port_flags_ok) as (_ & _ & Hs) end.
  exact (Hs Hev I).
Defined.
