(* ===== verification/Walkthrough.v ===== *)
(** * The acceptance walk-through (examples/lifecycle/example.go)

    A client of both surfaces: it takes a sandbox through every operation over the
    Kubernetes API and then another over the e2b REST API, and stops at the first
    answer that is not the operation's contract.

    The Kubernetes clients, net/http, the process and the text of JSON are parameters;
    what the program prints is kept as a format with its operands. *)

From S2P Require Import Prelude GoStd GoNum GoText GoCodec GoJSON Api PoolKeys SandboxView Client StoreRead Store ApiServer ApiGroup CommandLine.

(** ** Surroundings *)

Abbreviation handle := Z.

(** A request as net/http sends it: headers in the order they are set. *)
Record web_request := mkWebRequest {
  wr_Method : string;
  wr_URL : string;
  wr_Header : list (string * string);
  wr_Body : option json;
}.
Record web_response := mkWebResponse { ws_StatusCode : Z; ws_Body : stream }.

(** [rc.Post()] with what it was told. *)
Record post_request {Q : QuantityOps} := mkPost {
  po_Namespace : string;
  po_Resource : string;
  po_Name : string;
  po_SubResource : string;
  po_Body : object;
}.
Arguments mkPost {Q} _ _ _ _ _.
Arguments po_Namespace {Q} _.
Arguments po_Resource {Q} _.
Arguments po_Name {Q} _.
Arguments po_SubResource {Q} _.
Arguments po_Body {Q} _.

Class Outside {Q : QuantityOps} (W : Type) := {
  getenv (name : string) : io W string;
  clock : io W time;
  print (words : list string) : io W unit;
  eprint (words : list string) : io W unit;
  (** client-go and controller-runtime: configurations, clients and their calls *)
  InClusterConfig : io W (result handle);
  BuildConfigFromFlags (master path : string) : io W (result handle);
  client_New (cfg : handle) (scheme : list registration) : io W (result handle);
  RESTClientFor (cfg : handle) (gv : GroupVersion) (path : string) (scheme : list registration) : io W (result handle);
  client_Create (c : handle) (sb : SandboxObject) : io W (result unit);
  client_Get (c : handle) (ns name : string) : io W (result Api.Sandbox);
  client_List (c : handle) (ns : string) : io W (result (list Api.Sandbox));
  client_ListInventories (c : handle) : io W (result (list Api.NodeInventory));
  client_Delete (c : handle) (sb : Api.Sandbox) : io W (result unit);
  rest_Do (rc : handle) (r : post_request) : io W (result object);
  (** net/http: what [NewRequest] says of a URL, and the exchange *)
  request_error (method url : string) : option error;
  http_Do (r : web_request) : io W (result web_response);
}.

(** Values as text: JSON's, and fmt's of a decoded value and of a duration. *)
Class Texts := {
  Unmarshal : string → result json;
  sprint_other : json → string;
  duration_text : Z → string;
}.

(** Registration: the groups upstream and apimachinery add. *)
Class Registry := {
  registry_machinery :: Machinery;
  upstream_AddToScheme (s : list registration) : result (list registration);
  AddToGroupVersion (gv : GroupVersion) : list registration;
}.

(** ** groupversion_info.go *)

Definition group_version : GroupVersion := ("sandbox.cocoonstack.io", "v1beta1").

Definition AddToScheme {R : Registry} (s : list registration) : result (list registration) :=
  Ok (s ++ AddKnownTypes group_version ["NodeInventory"; "NodeInventoryList"] ++ AddToGroupVersion group_version).

(** ** Values of [map[string]any] *)

Definition any_codec : codec json := mkCodec JNull (λ j, match j with JNull => true | _ => false end) id (λ _ j, Ok j).
Definition object_codec : codec (gmap string json) := map_codec any_codec.
Definition objects_codec : codec (list (gmap string json)) := slice_codec object_codec.

(** [v.(string)], with the zero value when it is not one. *)
Definition as_string (v : option json) : string := match v with Some (JString s) => s | _ => "" end.

(** [fmt.Sprint(v)] *)
Definition Sprint {X : Texts} (v : option json) : string :=
  match v with
  | None | Some JNull => "<nil>"
  | Some (JString s) => s
  | Some (JBool b) => if b then "true" else "false"
  | Some j => sprint_other j
  end.

Definition replyLimit : Z := (2 ^ 20)%Z.

(** [io.ReadAll] of an [io.LimitReader]: what ends the stream past the limit is not seen. *)
Definition ReadAll (limit : Z) (b : stream) : result string :=
  match st_broken b with
  | Some e => if decide (Z.of_nat (String.length (st_bytes b)) < limit)%Z then Err e else Ok (str_take (Z.to_nat limit) (st_bytes b))
  | None => Ok (str_take (Z.to_nat limit) (st_bytes b))
  end.

Definition success (code : Z) : bool := bool_decide (code `quot` 100 = 2)%Z.

Record options := mkOptions {
  o_kubeconfig : string;
  o_namespace : string;
  o_template : string;
  o_e2bURL : string;
  o_e2bKey : string;
  o_keep : bool;
}.

Record e2bClient := mkE2bClient { ec_base : string; ec_key : string }.

Section program.
Context {Q : QuantityOps} {W : Type} {O : Outside W} {X : Texts} {R : Registry}.

Definition wrapping {A} (fmt : string) (m : io W (result A)) : io W (result A) := r ← m; mret (map_err (ErrWrap fmt []) r).
Definition failing {A} (words : list string) : io W (result A) := mret (Err (ErrText (default "" (head words)) (tail words))).

Definition section (name : string) : io W unit := print ["\n=== %s ===\n"; name].
Definition stepf (verb format : string) (args : list string) : io W unit := print ("  %-10s %s\n" :: verb :: format :: args).

(** ** The e2b client *)

Definition new_request (e : e2bClient) (method path : string) (body : option json) : result web_request :=
  match request_error method (ec_base e +:+ path) with
  | Some err => Err err
  | None => Ok (mkWebRequest method (ec_base e +:+ path)
      ((if decide (ec_key e = "") then [] else [("X-API-KEY", ec_key e)]) ++
       (match body with Some _ => [("Content-Type", "application/json")] | None => [] end)) body)
  end.

(** [do], decoding into a variable of the type of [c]. *)
Definition do_into {A} (c : codec A) (e : e2bClient) (method path : string) (body : option json) : io W (result A) :=
  match new_request e method path body with
  | Err err => mret (Err err)
  | Ok req =>
      resp <-? http_Do req;;
      mret match ReadAll replyLimit (ws_Body resp) with
           | Err err => Err err
           | Ok payload =>
               if negb (success (ws_StatusCode resp)) then
                 Err (ErrText "%s %s: HTTP %d: %s" [method; path; format_int (ws_StatusCode resp); trim_space payload])
               else if decide (payload = "") then Ok (cd_zero c)
               else match Unmarshal payload with Err err => Err err | Ok j => cd_decode c (cd_zero c) j end
           end
  end.

Definition status (e : e2bClient) (method path : string) (body : option json) : io W (result Z) :=
  match new_request e method path body with
  | Err err => mret (Err err)
  | Ok req => resp <-? http_Do req;; mret (Ok (ws_StatusCode resp))
  end.

Definition health (e : e2bClient) : io W (result unit) :=
  code <-? status e "GET" "/health" None;;
  if negb (success code) then failing ["health returned %d"; format_int code] else mret (Ok tt).

Fixpoint deleteCheckpoints (e : e2bClient) (ids : list string) : io W (result unit) :=
  match ids with
  | [] => mret (Ok tt)
  | ck :: ids =>
      if decide (ck = "") then deleteCheckpoints e ids
      else
        code <-? status e "DELETE" ("/templates/" +:+ ck) None;;
        if decide (code ≠ 204)%Z then failing ["delete checkpoint %s returned %d, want 204"; ck; format_int code]
        else _ ← stepf "snapshot" "deleted checkpoint %s" [ck]; deleteCheckpoints e ids
  end.

(** ** The e2b half *)

Definition timeout_body (seconds : Z) : option json := Some (JObject [("timeout", JInt seconds)]).

(** A verb whose contract is its status code. *)
Definition expecting (e : e2bClient) (path : string) (body : option json) (want : Z) (otherwise : string)
    (verb line : string) (k : io W (result unit)) : io W (result unit) :=
  code <-? status e "POST" path body;;
  if decide (code ≠ want)%Z then failing [otherwise; format_int code] else _ ← stepf verb line []; k.
Definition succeeding (e : e2bClient) (path : string) (body : option json) (otherwise verb line : string) (k : io W (result unit)) :
    io W (result unit) :=
  code <-? status e "POST" path body;;
  if negb (success code) then failing [otherwise; format_int code] else _ ← stepf verb line []; k.

Definition finishE2B (e : e2bClient) (o : options) (id : string) (snap : gmap string json) (k8sCheckpoint : string) : io W (result unit) :=
  if o_keep o then _ ← stepf "delete" "skipped (-keep)" []; mret (Ok tt)
  else
    _ <-? deleteCheckpoints e [Sprint (snap !! "snapshotID"); k8sCheckpoint];;
    code <-? status e "DELETE" ("/sandboxes/" +:+ id) None;;
    if decide (code ≠ 204)%Z then failing ["delete returned %d, want 204"; format_int code]
    else _ ← stepf "delete" "released %s" [id]; mret (Ok tt).

(** From the repeated verbs on. *)
Definition exerciseE2B (e : e2bClient) (id : string) (k : io W (result unit)) : io W (result unit) :=
  let at_ verb := "/sandboxes/" +:+ id +:+ verb in
  expecting e (at_ "/pause") None 204 "pause returned %d, want 204" "pause" "204" (
  expecting e (at_ "/pause") None 409 "repeated pause returned %d, want 409 (already paused)" "pause" "409 on repeat — the already-paused contract holds" (
  expecting e (at_ "/connect") (timeout_body 600) 201 "connect on a paused sandbox returned %d, want 201" "connect" "201 — restored via the mmap fast path" (
  expecting e (at_ "/connect") (timeout_body 600) 200 "connect on a running sandbox returned %d, want 200" "connect" "200 — already running, no restore" (
  succeeding e (at_ "/timeout") (timeout_body 900) "timeout returned %d" "timeout" "lease renewed on the owning node" (
  succeeding e (at_ "/refreshes") (Some (JObject [("duration", JInt 60)])) "refreshes returned %d" "refreshes" "keepalive accepted" k))))).

Definition runE2B (o : options) (k8sCheckpoint : string) : io W (result unit) :=
  _ ← section "e2b-compatible REST API";
  let e := mkE2bClient (trim_right "/" (o_e2bURL o)) (o_e2bKey o) in
  _ <-? health e;;
  _ ← stepf "health" "reachable" [];
  templates <-? wrapping "list templates: %w" (do_into objects_codec e "GET" "/templates" None);;
  _ ← stepf "templates" "%d available" [format_int (Z.of_nat (length templates))];
  created <-? wrapping "create: %w" (do_into object_codec e "POST" "/sandboxes"
    (Some (JObject [("templateID", JString (o_template o)); ("timeout", JInt 600)])));;
  let id := as_string (created !! "sandboxID") in
  _ ← stepf "create" "sandboxID=%s envdVersion=%v" [id; Sprint (created !! "envdVersion")];
  if has_byte "_" id then failing ["sandboxID %q is not DNS-label safe"; id] else
  listed <-? wrapping "list: %w" (do_into objects_codec e "GET" "/sandboxes" None);;
  _ ← stepf "list" "%d sandbox(es)" [format_int (Z.of_nat (length listed))];
  code <-? status e "GET" ("/sandboxes/" +:+ id) None;;
  if decide (code ≠ 200)%Z then failing ["get returned %d, want 200"; format_int code] else
  _ ← stepf "get" "%s is in the read view" [id];
  metrics <-? wrapping "metrics: %w" (do_into objects_codec e "GET" ("/sandboxes/" +:+ id +:+ "/metrics") None);;
  _ ← match metrics with
      | m :: _ => stepf "metrics" "cpuCount=%v memTotal=%v" [Sprint (m !! "cpuCount"); Sprint (m !! "memTotal")]
      | [] => mret tt
      end;
  snap <-? wrapping "snapshot: %w" (do_into object_codec e "POST" ("/sandboxes/" +:+ id +:+ "/snapshots")
    (Some (JObject [("name", JString "example-e2b-snap")])));;
  _ ← stepf "snapshot" "snapshotID=%v" [Sprint (snap !! "snapshotID")];
  snaps <-? wrapping "list snapshots: %w" (do_into objects_codec e "GET" "/snapshots" None);;
  _ ← stepf "snapshots" "%d checkpoint(s) fleet-wide" [format_int (Z.of_nat (length snaps))];
  forks <-? wrapping "fork: %w" (do_into objects_codec e "POST" ("/sandboxes/" +:+ id +:+ "/fork")
    (Some (JObject [("count", JInt 2); ("timeout", JInt 600)])));;
  _ ← stepf "fork" "%d child sandbox(es)" [format_int (Z.of_nat (length forks))];
  exerciseE2B e id (finishE2B e o id snap k8sCheckpoint).

(** ** The Kubernetes half *)

(** [post]; what is decoded into [out] is the caller's. *)
Definition post (rc : handle) (ns name sub : string) (body : object) : io W (result object) :=
  rest_Do rc (mkPost ns "sandboxes" name sub body).

(** The fields of the [SandboxSnapshotResult] and the [SandboxForkResult] that were
    decoded into. *)
Definition snapshot_of (out : object) : string * string := match out with OSnapshotResult id _ node _ => (id, node) | _ => ("", "") end.
Definition children_of (out : object) : list ForkedSandbox := match out with OForkResult cs => cs | _ => [] end.

Fixpoint print_children (i : Z) (cs : list ForkedSandbox) : io W unit :=
  match cs with
  | [] => mret tt
  | c :: cs =>
      _ ← stepf "fork" "child[%d] sandboxID=%s node=%s" [format_int i; fk_SandboxID c; fk_NodeName c];
      print_children (i + 1) cs
  end.

Definition example_name (now : time) : string := "example-" +:+ format_int (Z.rem (unix_nano now) 1000000000).

Definition example_sandbox (ns name image : string) : SandboxObject :=
  mkSandboxObject (mkSandbox ns name ∅ ∅ "" zero_time "" [] []) "" "" None ∅ [mkContainer image (mkResourceList None None) (mkResourceList None None)].

Definition finishKubernetes (c : handle) (o : options) (name : string) (live : Api.Sandbox) (checkpoint : string) : io W (result string) :=
  if o_keep o then _ ← stepf "delete" "skipped (-keep)" []; mret (Ok checkpoint)
  else
    r ← client_Delete c live;
    match r with
    | Err err => if IsNotFound err then _ ← stepf "delete" "released %s/%s" [o_namespace o; name]; mret (Ok checkpoint)
                 else mret (Err (ErrWrap "delete Sandbox: %w" [] err))
    | Ok _ => _ ← stepf "delete" "released %s/%s" [o_namespace o; name]; mret (Ok checkpoint)
    end.

(** The checkpoint that goes with an error is not looked at. *)
Definition runKubernetes (c rc : handle) (o : options) : io W (result string) :=
  _ ← section "Kubernetes API";
  now ← clock;
  let name := example_name now in
  let ns := o_namespace o in
  _ <-? wrapping "create Sandbox: %w" (client_Create c (example_sandbox ns name (o_template o)));;
  _ ← stepf "create" "Sandbox %s/%s" [ns; name];
  live <-? wrapping "get Sandbox: %w" (client_Get c ns name);;
  _ ← stepf "get" "node=%s claimID=%s" [sb_NodeName live; default "" (sb_Annotations live !! ClaimIDAnnotation)];
  list <-? wrapping "list Sandboxes: %w" (client_List c ns);;
  _ ← stepf "list" "%d sandbox(es) in %s" [format_int (Z.of_nat (length list)); ns];
  snap <-? wrapping "snapshot: %w" (post rc ns name "snapshot" (OSnapshotOptions "example-checkpoint"));;
  let '(checkpoint, node) := snapshot_of snap in
  _ ← stepf "snapshot" "snapshotID=%s on node=%s" [checkpoint; node];
  forked <-? wrapping "fork: %w" (post rc ns name "fork" (OForkOptions 2 600));;
  _ ← print_children 0 (children_of forked);
  start ← clock;
  _ <-? wrapping "pause: %w" (post rc ns name "pause" OPauseOptions);;
  paused ← clock;
  _ ← stepf "pause" "took %s (proportional to guest memory)" [duration_text (time_sub paused start)];
  start ← clock;
  _ <-? wrapping "resume: %w" (post rc ns name "resume" OResumeOptions);;
  resumed ← clock;
  _ ← stepf "resume" "took %s (mmap restore fast path)" [duration_text (time_sub resumed start)];
  finishKubernetes c o name live checkpoint.

(** ** The clients *)

Definition newScheme : result (list registration) := s ← upstream_AddToScheme []; AddToScheme s.

Definition loadConfig (kubeconfig : string) : io W (result handle) :=
  if decide (kubeconfig = "") then InClusterConfig else BuildConfigFromFlags "" kubeconfig.

Definition newClient (kubeconfig : string) (scheme : list registration) : io W (result handle) :=
  cfg <-? loadConfig kubeconfig;; client_New cfg scheme.

Definition newRESTClient (kubeconfig : string) (scheme : list registration) : io W (result handle) :=
  cfg <-? loadConfig kubeconfig;; RESTClientFor cfg sandbox_gv "/apis" scheme.

(** The first pool of the fleet that names a template. *)
Definition discoverTemplate (c : handle) : io W (result string) :=
  invs <-? wrapping "list NodeInventory: %w" (client_ListInventories c);;
  match find_first (λ p, nonempty (pc_Template p)) (concat (ni_Pools <$> invs)) with
  | Some pool => mret (Ok (pc_Template pool))
  | None => failing ["no node advertises a warm pool; pass -template explicitly"]
  end.

Definition with_template (o : options) (template : string) : options :=
  mkOptions (o_kubeconfig o) (o_namespace o) template (o_e2bURL o) (o_e2bKey o) (o_keep o).

Definition chosen (c : handle) (o : options) : io W (result options) :=
  if decide (o_template o = "") then
    template <-? discoverTemplate c;;
    _ ← print ["discovered template from the fleet: %s\n"; template];
    mret (Ok (with_template o template))
  else mret (Ok o).

Definition run (o : options) : io W (result unit) :=
  match newScheme with
  | Err err => mret (Err err)
  | Ok scheme =>
      c <-? wrapping "build Kubernetes client: %w" (newClient (o_kubeconfig o) scheme);;
      rc <-? wrapping "build REST client: %w" (newRESTClient (o_kubeconfig o) scheme);;
      o <-? chosen c o;;
      checkpoint <-? wrapping "kubernetes surface: %w" (runKubernetes c rc o);;
      if decide (o_e2bURL o = "") then
        _ ← print ["\n-e2b-url not set; skipping the e2b surface. Checkpoint %s stays on its node: only the e2b surface deletes checkpoints (DELETE /templates/{id}).\n"; checkpoint];
        mret (Ok tt)
      else wrapping "e2b surface: %w" (runE2B o checkpoint)
  end.

(** ** main *)

Definition eta_options (o : options) : options :=
  mkOptions (o_kubeconfig o) (o_namespace o) (o_template o) (o_e2bURL o) (o_e2bKey o) (o_keep o).

(** A flag with a default of its own, as the flag package registers it. *)
Definition flag_of {T} (k : kind T) (p : variable options T) (name : string) (value : T) : flag options := mkFlag k p name (λ _, value).

Definition main_flags (kubeconfig : string) : list (flag options) :=
  [ flag_of KString (&eta_options->>o_kubeconfig) "kubeconfig" kubeconfig;
    flag_of KString (&eta_options->>o_namespace) "namespace" "default";
    flag_of KString (&eta_options->>o_template) "template" "";
    flag_of KString (&eta_options->>o_e2bURL) "e2b-url" "";
    flag_of KString (&eta_options->>o_e2bKey) "e2b-key" "";
    flag_of KBool (&eta_options->>o_keep) "keep" false ].

(** The exit status; arguments that do not parse end the process with status 2. *)
Definition main {F : Pflag} (args : list string) : io W Z :=
  kubeconfig ← getenv "KUBECONFIG";
  match Parse (main_flags kubeconfig) args (mkOptions "" "" "" "" "" false) with
  | Err e => _ ← eprint (error_text e); mret 2%Z
  | Ok o =>
      r ← run o;
      match r with
      | Err e => _ ← eprint ("FAILED:" :: error_text e); mret 1%Z
      | Ok _ => _ ← print ["\nAll operations completed."]; mret 0%Z
      end
  end.
End program.

(** ** Recording the requests *)

Section recording.
Context {Q : QuantityOps} {W : Type}.

Inductive event :=
| EvInventories (res : result (list Api.NodeInventory))
| EvCreate (c : handle) (sb : SandboxObject) (res : result unit)
| EvGet (c : handle) (ns name : string) (res : result Api.Sandbox)
| EvList (c : handle) (ns : string) (res : result (list Api.Sandbox))
| EvDelete (c : handle) (sb : Api.Sandbox) (res : result unit)
| EvPost (rc : handle) (r : post_request) (res : result object)
| EvWeb (r : web_request) (res : result web_response).

Definition recorded (O : Outside W) : Outside (list event * W) := {|
  getenv name := silently (getenv name);
  clock := silently clock;
  print words := silently (print words);
  eprint words := silently (eprint words);
  InClusterConfig := silently InClusterConfig;
  BuildConfigFromFlags master path := silently (BuildConfigFromFlags master path);
  client_New cfg scheme := silently (client_New cfg scheme);
  RESTClientFor cfg gv path scheme := silently (RESTClientFor cfg gv path scheme);
  client_Create c sb := logging (client_Create c sb) (EvCreate c sb);
  client_Get c ns name := logging (client_Get c ns name) (EvGet c ns name);
  client_List c ns := logging (client_List c ns) (EvList c ns);
  client_ListInventories c := logging (client_ListInventories c) EvInventories;
  client_Delete c sb := logging (client_Delete c sb) (EvDelete c sb);
  rest_Do rc r := logging (rest_Do rc r) (EvPost rc r);
  request_error := request_error;
  http_Do r := logging (http_Do r) (EvWeb r);
|}.

(** ** Specification: the protocol of the walk *)

(** A protocol: the next request, what its answer must be, and what follows. *)
Inductive protocol :=
| Done
| Next (asks : event → Prop) (met : event → Prop) (k : event → protocol).

(** A run keeps to it: it makes the protocol's requests in order and goes on only
    from an answer that meets its contract.  [left] is what is left of the protocol
    where it came to an end of its own, [None] where it stopped short. *)
Fixpoint conforms (p : protocol) (t : list event) (left : option protocol) {struct t} : Prop :=
  match t with
  | [] => match left with Some q => p = q | None => True end
  | ev :: t =>
      match p with
      | Done => False
      | Next asks met k => asks ev ∧ ((t = [] ∧ left = None) ∨ (met ev ∧ conforms (k ev) t left))
      end
  end.

(** A call with its answer, and one that was answered without an error. *)
Definition asking {A} (f : result A → event) (ev : event) : Prop := ∃ res, ev = f res.
Definition granted {A} (f : result A → event) (ev : event) : Prop := ∃ a, ev = f (Ok a).
Definition call {A} (f : result A → event) (k : event → protocol) : protocol := Next (asking f) (granted f) k.

(** *** The Kubernetes half *)

(** The object that was created, got, or replied with. *)
Definition created_name (ev : event) : string := match ev with EvCreate _ sb _ => sb_Name (so_obj sb) | _ => "" end.
Definition got (ev : event) : option Api.Sandbox := match ev with EvGet _ _ _ (Ok sb) => Some sb | _ => None end.
Definition checkpoint_of (ev : event) : string := match ev with EvPost _ _ (Ok out) => (snapshot_of out).1 | _ => "" end.

(** A delete may find that its object is gone. *)
Definition gone (c : handle) (sb : Api.Sandbox) (ev : event) : Prop :=
  ∃ res, ev = EvDelete c sb res ∧ match res with Ok _ => True | Err err => IsNotFound err = true end.

Definition kube_protocol (c rc : handle) (o : options) (k : string → protocol) : protocol :=
  let ns := o_namespace o in
  let posting name sub body := call (EvPost rc (mkPost ns "sandboxes" name sub body)) in
  Next (λ ev, ∃ now, asking (EvCreate c (example_sandbox ns (example_name now) (o_template o))) ev)
       (λ ev, ∃ now, granted (EvCreate c (example_sandbox ns (example_name now) (o_template o))) ev) (λ created, let name := created_name created in
  call (EvGet c ns name) (λ read,
  call (EvList c ns) (λ _,
  posting name "snapshot" (OSnapshotOptions "example-checkpoint") (λ snap,
  posting name "fork" (OForkOptions 2 600) (λ _,
  posting name "pause" OPauseOptions (λ _,
  posting name "resume" OResumeOptions (λ _,
  match got read with
  | Some live => if o_keep o then k (checkpoint_of snap)
                 else Next (asking (EvDelete c live)) (gone c live) (λ _, k (checkpoint_of snap))
  | None => Done
  end))))))).

(** *** The steps of the e2b half *)

(** A request, and the statuses it may be answered with. *)
Record step := mkStep { st_Method : string; st_Path : string; st_Body : option json; st_Want : Z → bool }.

Definition headers (e : e2bClient) (body : option json) : list (string * string) :=
  (if decide (ec_key e = "") then [] else [("X-API-KEY", ec_key e)]) ++
  (match body with Some _ => [("Content-Type", "application/json")] | None => [] end).

Definition step_asks (e : e2bClient) (s : step) (ev : event) : Prop :=
  ∃ res, ev = EvWeb (mkWebRequest (st_Method s) (ec_base e +:+ st_Path s) (headers e (st_Body s)) (st_Body s)) res.
Definition step_met (s : step) (ev : event) : Prop := ∃ r resp, ev = EvWeb r (Ok resp) ∧ st_Want s (ws_StatusCode resp) = true.

Definition answered (n : Z) (code : Z) : bool := bool_decide (code = n).

(** The value of an answer, as the program reads it. *)
Definition value_of {X : Texts} {A} (c : codec A) (ev : event) : A :=
  match ev with
  | EvWeb _ (Ok resp) =>
      match ReadAll replyLimit (ws_Body resp) with
      | Ok payload => if decide (payload = "") then cd_zero c
                      else match Unmarshal payload with Ok j => match cd_decode c (cd_zero c) j with Ok a => a | Err _ => cd_zero c end | Err _ => cd_zero c end
      | Err _ => cd_zero c
      end
  | _ => cd_zero c
  end.

(** A step, and steps in a row. *)
Definition asked (e : e2bClient) (s : step) (k : event → protocol) : protocol := Next (step_asks e s) (step_met s) k.
Definition steps (e : e2bClient) (l : list step) (k : protocol) : protocol := foldr (λ s p, asked e s (λ _, p)) k l.

Section e2b.
Context {X : Texts} (o : options) (k8sCheckpoint : string).

Definition get (path : string) (want : Z → bool) : step := mkStep "GET" path None want.
Definition send (path : string) (body : option json) (want : Z → bool) : step := mkStep "POST" path body want.
Definition discard (path : string) : step := mkStep "DELETE" path None (answered 204).

Definition create : step :=
  send "/sandboxes" (Some (JObject [("templateID", JString (o_template o)); ("timeout", JInt 600)])) success.
Definition looking (id : string) : list step :=
  [ get "/sandboxes" success; get ("/sandboxes/" +:+ id) (answered 200); get ("/sandboxes/" +:+ id +:+ "/metrics") success ].
Definition snapshot (id : string) : step :=
  send ("/sandboxes/" +:+ id +:+ "/snapshots") (Some (JObject [("name", JString "example-e2b-snap")])) success.

(** The verbs, whose contract is their status. *)
Definition acting (id : string) : list step :=
  [ get "/snapshots" success;
    send ("/sandboxes/" +:+ id +:+ "/fork") (Some (JObject [("count", JInt 2); ("timeout", JInt 600)])) success;
    send ("/sandboxes/" +:+ id +:+ "/pause") None (answered 204);
    send ("/sandboxes/" +:+ id +:+ "/pause") None (answered 409);
    send ("/sandboxes/" +:+ id +:+ "/connect") (timeout_body 600) (answered 201);
    send ("/sandboxes/" +:+ id +:+ "/connect") (timeout_body 600) (answered 200);
    send ("/sandboxes/" +:+ id +:+ "/timeout") (timeout_body 900) success;
    send ("/sandboxes/" +:+ id +:+ "/refreshes") (Some (JObject [("duration", JInt 60)])) success ].

(** Both checkpoints and the sandbox go, unless they are to stay. *)
Definition cleaning (id snapshotID : string) : list step :=
  if o_keep o then []
  else ((λ ck, discard ("/templates/" +:+ ck)) <$> List.filter nonempty [snapshotID; k8sCheckpoint]) ++ [discard ("/sandboxes/" +:+ id)].

Definition e2b_protocol : protocol :=
  let e := mkE2bClient (trim_right "/" (o_e2bURL o)) (o_e2bKey o) in
  steps e [get "/health" success; get "/templates" success] (
  asked e create (λ created, let id := as_string (value_of object_codec created !! "sandboxID") in
  steps e (looking id) (
  asked e (snapshot id) (λ snap, let snapshotID := Sprint (value_of object_codec snap !! "snapshotID") in
  steps e (acting id ++ cleaning id snapshotID) Done)))).
End e2b.

(** *** The whole walk *)

(** The first template the fleet's pools name. *)
Definition discovered (ev : event) : option string :=
  match ev with
  | EvInventories (Ok invs) => pc_Template <$> find_first (λ p, nonempty (pc_Template p)) (concat (ni_Pools <$> invs))
  | _ => None
  end.

Definition walk {X : Texts} (c rc : handle) (o : options) : protocol :=
  let both o := kube_protocol c rc o (λ checkpoint, if decide (o_e2bURL o = "") then Done else e2b_protocol o checkpoint) in
  if decide (o_template o = "") then
    Next (asking EvInventories) (λ ev, is_Some (discovered ev)) (λ ev, both (with_template o (default "" (discovered ev))))
  else both o.
End recording.

(** ** Lemmas *)

Section lemmas.
Context {Q : QuantityOps} {W : Type} (O : Outside W) {X : Texts} {R : Registry}.
#[local] Instance rec_outside : Outside (list event * W) := recorded O.

Lemma conforms_app p q t t' left : conforms p t (Some q) → conforms q t' left → conforms p (t ++ t') left.
Proof.
  revert p. induction t as [|ev t IH]; intros p; cbn [conforms app]; [by intros ->|]. destruct p as [|asks met k]; [done|].
  intros (Ha & [[_ ?]|[Hm Ht]]) Ht'; [done|]. split; [done|]. right. split; [done|]. by apply IH.
Qed.
Lemma conforms_short p t t' : conforms p t None → t' = [] → conforms p (t ++ t') None.
Proof. intros Ht ->. by rewrite app_nil_r. Qed.

(** A run of [p] that succeeds with [fin] of its value left. *)
Definition left_of {A} (fin : A → protocol) (r : result A) : option protocol := match r with Ok a => Some (fin a) | Err _ => None end.
Definition follows {A} (fin : A → protocol) (p : protocol) (m : io (list event * W) (result A)) : Prop :=
  emits m (λ t r, conforms p t (left_of fin r)).

Lemma follows_ret {A} (fin : A → protocol) a p : fin a = p → follows fin p (mret (Ok a)).
Proof. intros Hp. by apply emits_ret. Qed.
Lemma follows_fail {A} (fin : A → protocol) p err : follows fin p (mret (Err err)).
Proof. by apply emits_ret. Qed.
Lemma follows_silent {A B} (fin : B → protocol) p (m : io (list event * W) A) (k : A → io (list event * W) (result B)) :
  emits m (λ t _, t = []) → (∀ a, follows fin p (k a)) → follows fin p (m ≫= k).
Proof. intros Hm Hk. eapply emits_bind; [exact Hm|]. intros t a ->. apply Hk. Qed.
Lemma follows_try {A B} (fin : A → protocol) (fin' : B → protocol) p m k :
  follows fin p m → (∀ a, follows fin' (fin a) (k a)) → follows fin' p (try m k).
Proof.
  intros Hm Hk. eapply emits_bind; [exact Hm|]. intros t [a|err] Ht; cbn [left_of] in Ht.
  - eapply emits_mono; [apply Hk|]. intros t' r Ht'. by eapply conforms_app.
  - apply emits_ret. by apply conforms_short.
Qed.
Lemma follows_wrapping {A} (fin : A → protocol) p fmt m : follows fin p m → follows fin p (wrapping fmt m).
Proof.
  intros Hm. eapply emits_bind; [exact Hm|]. intros t r Ht. apply emits_ret. rewrite app_nil_r. by destruct r.
Qed.

Lemma silently_quiet {A} (m : io W A) : emits (C := event) (silently m) (λ t _, t = []).
Proof. eapply emits_mono; [apply emits_silently|]. by intros t a [-> _]. Qed.

Lemma emits_wrapping {A} fmt (m : io (list event * W) (result A)) Q' :
  emits m Q' → emits (wrapping fmt m) (λ t r, ∃ r', Q' t r' ∧ r = map_err (ErrWrap fmt []) r').
Proof. intros Hm. eapply emits_bind; [exact Hm|]. intros t r Ht. apply emits_ret. rewrite app_nil_r. by exists r. Qed.

(** A call that is the next request. *)
Lemma follows_next {A B} (fin : B → protocol) fmt (m : io W (result A)) (f : result A → event) asks met kp k :
  (∀ r, asks (f r)) → (∀ a, (met (f (Ok a)) ∧ follows fin (kp (f (Ok a))) (k a)) ∨ ∃ err, k a = mret (Err err)) →
  follows fin (Next asks met kp) (try (wrapping fmt (logging m f)) k).
Proof.
  intros Ha Hk. eapply emits_bind; [apply emits_wrapping, emits_logging|]. intros t r (r' & [-> _] & ->). destruct r' as [a|err]; cbn [map_err].
  - destruct (Hk a) as [[Hmet Hf]|[err ->]]; [|apply emits_ret; cbn; auto]. eapply emits_mono; [exact Hf|]. intros t r Ht. cbn. auto.
  - apply emits_ret. cbn. auto.
Qed.
Lemma follows_call {A B} (fin : B → protocol) fmt (m : io W (result A)) (f : result A → event) kp k :
  (∀ a, follows fin (kp (f (Ok a))) (k a)) → follows fin (call f kp) (try (wrapping fmt (logging m f)) k).
Proof. intros Hk. apply follows_next; [by eexists|]. intros a. left. split; [by eexists|apply Hk]. Qed.

(** *** Steps *)

Definition web_request_of (e : e2bClient) (s : step) : web_request :=
  mkWebRequest (st_Method s) (ec_base e +:+ st_Path s) (headers e (st_Body s)) (st_Body s).

(** A step that is not made, whose URL is no URL, or its exchange. *)
Lemma exchange_emits {A} (e : e2bClient) (s : step) (k : web_request → io (list event * W) (result A)) Q' :
  (∀ err, Q' [] (Err err)) → emits (k (web_request_of e s)) Q' →
  emits (match new_request e (st_Method s) (st_Path s) (st_Body s) with Err err => mret (Err err) | Ok req => k req end) Q'.
Proof. intros He Hk. unfold new_request. cbn [request_error rec_outside recorded]. destruct (request_error _ _); [by apply emits_ret|done]. Qed.

Lemma follows_status {B} (fin : B → protocol) (e : e2bClient) (s : step) kp k :
  (∀ ev code, st_Want s code = true → follows fin (kp ev) (k code)) → (∀ code, st_Want s code = false → ∃ err, k code = mret (Err err)) →
  follows fin (asked e s kp) (try (status e (st_Method s) (st_Path s) (st_Body s)) k).
Proof.
  intros Hk Hf. unfold status. eapply emits_bind.
  - apply exchange_emits with (Q' := λ t r, (t = [] ∧ is_ok r = false) ∨ ∃ res, t = [EvWeb (web_request_of e s) res] ∧ r = ws_StatusCode <$> res).
    + intros err. by left.
    + eapply emits_bind; [apply emits_logging|]. intros t r [-> _]. destruct r as [resp|err]; apply emits_ret; right; by eexists.
  - intros t r [[-> Hr]|(res & -> & ->)]; [destruct r; [done|by apply emits_ret]|]. destruct res as [resp|err]; cbn [fmap result_fmap].
    + destruct (st_Want s (ws_StatusCode resp)) eqn:Hw.
      * eapply emits_mono; [by apply (Hk (EvWeb (web_request_of e s) (Ok resp)))|]. intros t r Ht. cbn. split; [by eexists|]. right. split; [by do 2 eexists|done].
      * destruct (Hf _ Hw) as [err ->]. apply emits_ret. cbn. split; [by eexists|]. by left.
    + apply emits_ret. cbn. split; [by eexists|]. by left.
Qed.

Lemma follows_do {A B} (fin : B → protocol) fmt (c : codec A) (e : e2bClient) (s : step) kp k : st_Want s = success →
  (∀ ev, follows fin (kp ev) (k (value_of c ev))) →
  follows fin (asked e s kp) (try (wrapping fmt (do_into c e (st_Method s) (st_Path s) (st_Body s))) k).
Proof.
  intros Hs Hk. eapply emits_bind.
  - apply emits_wrapping. unfold do_into. apply exchange_emits with (Q' := λ t r, (t = [] ∧ is_ok r = false) ∨ ∃ res, t = [EvWeb (web_request_of e s) res] ∧
      ∀ a, r = Ok a → step_met s (EvWeb (web_request_of e s) res) ∧ a = value_of c (EvWeb (web_request_of e s) res)).
    + intros err. by left.
    + eapply emits_bind; [apply emits_logging|]. intros t res [-> _]. destruct res as [resp|err]; apply emits_ret; right; eexists; (split; [done|]); [|done].
      intros a Ha. cbn [value_of]. destruct (ReadAll _ _) as [payload|]; [|done]. destruct (negb (success _)) eqn:Hok; [done|].
      split; [do 2 eexists; split; [done|rewrite Hs; by apply negb_false_iff]|].
      case_decide; [congruence|]. destruct (Unmarshal payload) as [j|]; [|done]. by rewrite Ha.
  - intros t r (r' & H & ->). destruct r' as [a|err]; cbn [map_err] in *.
    + destruct H as [[_ ?]|(res & -> & H)]; [done|]. destruct (H a eq_refl) as [Hmet ->].
      eapply emits_mono; [apply Hk|]. intros t r Ht. cbn. split; [by eexists|]. right. by split.
    + apply emits_ret. rewrite app_nil_r. destruct H as [[-> _]|(res & -> & _)]; [done|]. cbn. split; [by eexists|]. by left.
Qed.

Lemma steps_app e l l' p : steps e (l ++ l') p = steps e l (steps e l' p).
Proof. apply foldr_app. Qed.

Lemma expecting_follows fin e path body want otherwise verb line p k : follows fin p k →
  follows fin (asked e (send path body (answered want)) (λ _, p)) (expecting e path body want otherwise verb line k).
Proof.
  intros Hk. apply (follows_status _ e (send path body (answered want))).
  - intros ev code ->%bool_decide_eq_true. rewrite decide_False by auto. apply follows_silent; [apply silently_quiet|done].
  - intros code Hc%bool_decide_eq_false. rewrite decide_True by done. by eexists.
Qed.
Lemma succeeding_follows fin e path body otherwise verb line p k : follows fin p k →
  follows fin (asked e (send path body success) (λ _, p)) (succeeding e path body otherwise verb line k).
Proof.
  intros Hk. apply (follows_status _ e (send path body success)); cbn [st_Want send].
  - intros ev code ->. apply follows_silent; [apply silently_quiet|done].
  - intros code ->. by eexists.
Qed.

Lemma deleteCheckpoints_follows e ids p :
  follows (λ _, p) (steps e ((λ ck, discard ("/templates/" +:+ ck)) <$> List.filter nonempty ids) p) (deleteCheckpoints e ids).
Proof.
  induction ids as [|ck ids IH]; [by apply follows_ret|]. cbn [deleteCheckpoints List.filter]. unfold nonempty at 1. case_decide as Hck.
  - by rewrite bool_decide_eq_true_2.
  - rewrite bool_decide_eq_false_2 by done. cbn [negb]. rewrite fmap_cons. apply (follows_status _ e (discard ("/templates/" +:+ ck))).
    + intros ev code ->%bool_decide_eq_true. rewrite decide_False by auto. apply follows_silent; [apply silently_quiet|done].
    + intros code Hc%bool_decide_eq_false. rewrite decide_True by done. by eexists.
Qed.

Lemma finishE2B_follows e o id snap ck :
  follows (λ _, Done) (steps e (cleaning o ck id (Sprint (snap !! "snapshotID"))) Done) (finishE2B e o id snap ck).
Proof.
  unfold cleaning, finishE2B. destruct (o_keep o); [by apply follows_silent; [apply silently_quiet|intros; apply follows_ret]|].
  rewrite steps_app. eapply follows_try; [apply deleteCheckpoints_follows|]. intros ?. cbn beta. apply (follows_status _ e (discard ("/sandboxes/" +:+ id))).
  - intros ev code ->%bool_decide_eq_true. rewrite decide_False by auto. apply follows_silent; [apply silently_quiet|]. intros _. by apply follows_ret.
  - intros code Hc%bool_decide_eq_false. rewrite decide_True by done. by eexists.
Qed.

Lemma health_follows e p : follows (λ _, p) (asked e (get "/health" success) (λ _, p)) (health e).
Proof.
  apply (follows_status _ e (get "/health" success)); cbn [st_Want get].
  - intros ev code ->. by apply follows_ret.
  - intros code ->. by eexists.
Qed.

(** The next line of a half: a call under its message, or a line printed. *)
Ltac said := apply follows_silent; [apply silently_quiet|intros _].
Ltac done_next s := apply (follows_do _ _ _ _ s); [reflexivity|intros ?ev].

Lemma runE2B_follows o ck : follows (λ _, Done) (e2b_protocol o ck) (runE2B o ck).
Proof.
  unfold runE2B, e2b_protocol. set (e := mkE2bClient _ _). cbv zeta. said. cbn [steps foldr].
  eapply follows_try; [apply health_follows|]. intros ?. cbn beta. said.
  done_next (get "/templates" success). said. done_next (create o).
  set (id := as_string _). said.
  destruct (has_byte "_" id); [apply follows_fail|]. cbn [looking foldr].
  done_next (get "/sandboxes" success). said.
  apply (follows_status _ e (get ("/sandboxes/" +:+ id) (answered 200)));
    [intros ? code ->%bool_decide_eq_true; rewrite decide_False by auto|intros code Hc%bool_decide_eq_false; rewrite decide_True by done; by eexists].
  said. done_next (get ("/sandboxes/" +:+ id +:+ "/metrics") success).
  apply follows_silent; [case_match; [by apply emits_ret|apply silently_quiet]|intros _].
  done_next (snapshot id). said. rewrite steps_app. cbn [acting steps foldr].
  done_next (get "/snapshots" success). said.
  done_next (send ("/sandboxes/" +:+ id +:+ "/fork") (Some (JObject [("count", JInt 2); ("timeout", JInt 600)])) success). said.
  unfold exerciseE2B. repeat first [apply expecting_follows | apply succeeding_follows]. apply finishE2B_follows.
Qed.

Lemma print_children_quiet i cs : emits (C := event) (print_children i cs) (λ t _, t = []).
Proof.
  revert i. induction cs as [|c cs IH]; intros i; [by apply emits_ret|]. eapply emits_bind; [apply silently_quiet|]. intros t a ->. apply IH.
Qed.

Lemma finishKubernetes_follows k c o name live ck :
  follows k (if o_keep o then k ck else Next (asking (EvDelete c live)) (gone c live) (λ _, k ck)) (finishKubernetes c o name live ck).
Proof.
  unfold finishKubernetes. destruct (o_keep o); [said; by apply follows_ret|].
  eapply emits_bind; [apply emits_logging|]. intros t r [-> _].
  assert (∀ r, gone c live (EvDelete c live r) →
    emits (C := event) (S := W) (_ ← stepf "delete" "released %s/%s" [o_namespace o; name]; mret (Ok ck)) (λ t r', conforms (Next (asking (EvDelete c live)) (gone c live) (λ _, k ck)) ([EvDelete c live r] ++ t) (left_of k r'))) as Hgone.
  { intros r' Hg. eapply emits_bind; [apply silently_quiet|]. intros t a ->. apply emits_ret. cbn. split; [by eexists|]. by right. }
  destruct r as [u|err]; [apply Hgone; by eexists|]. destruct (IsNotFound err) eqn:Hn; [apply Hgone; by eexists|].
  apply emits_ret. cbn. split; [by eexists|]. by left.
Qed.

Lemma runKubernetes_follows k c rc o : follows k (kube_protocol c rc o k) (runKubernetes c rc o).
Proof.
  unfold runKubernetes, kube_protocol. cbv zeta. said. apply follows_silent; [apply silently_quiet|]. intros now.
  apply follows_next; [intros r; exists now; by eexists|]. intros []. left. split; [exists now; by eexists|]. said.
  apply follows_call. intros live. said. apply follows_call. intros list. said. apply follows_call. intros snap.
  destruct (snapshot_of snap) as [ck node] eqn:Hsnap. said. apply follows_call. intros forked.
  apply follows_silent; [apply print_children_quiet|intros _].
  apply follows_silent; [apply silently_quiet|intros ?]. apply follows_call. intros ?.
  apply follows_silent; [apply silently_quiet|intros ?]. said.
  apply follows_silent; [apply silently_quiet|intros ?]. apply follows_call. intros ?.
  apply follows_silent; [apply silently_quiet|intros ?]. said.
  cbn [got checkpoint_of]. rewrite Hsnap. cbn [fst]. apply finishKubernetes_follows.
Qed.

(** The clients are made without a request. *)
Lemma loadConfig_quiet path : emits (C := event) (loadConfig path) (λ t _, t = []).
Proof. unfold loadConfig. case_decide; apply silently_quiet. Qed.
Lemma quiet_try {A B} (m : io (list event * W) (result A)) (k : A → io (list event * W) (result B)) :
  emits m (λ t _, t = []) → (∀ a, emits (k a) (λ t _, t = [])) → emits (try m k) (λ t _, t = []).
Proof. intros Hm Hk. eapply emits_bind; [exact Hm|]. intros t [a|err] ->; [apply Hk|by apply emits_ret]. Qed.
Lemma clients_quiet path scheme : emits (C := event) (newClient path scheme) (λ t _, t = []) ∧ emits (C := event) (newRESTClient path scheme) (λ t _, t = []).
Proof. split; (apply quiet_try; [apply loadConfig_quiet|intros; apply silently_quiet]). Qed.

(** A client that is made, or not. *)
Lemma made {A B} fmt (m : io (list event * W) (result A)) (k : A → io (list event * W) (result B)) Q' :
  emits m (λ t _, t = []) → (∀ err, Q' [] (Err err)) → (∀ a, emits (k a) Q') → emits (try (wrapping fmt m) k) Q'.
Proof.
  intros Hm He Hk. eapply emits_bind; [apply emits_wrapping, Hm|]. intros t r (r' & -> & ->). destruct r' as [a|err]; [apply Hk|by apply emits_ret].
Qed.

Lemma discoverTemplate_emits c : emits (discoverTemplate c) (λ t r, ∃ res, t = [EvInventories res] ∧
  ∀ template, r = Ok template → discovered (EvInventories res) = Some template).
Proof.
  unfold discoverTemplate. eapply emits_bind; [apply emits_wrapping, emits_logging|]. intros t r (r' & [-> _] & ->).
  destruct r' as [invs|err]; cbn [map_err]; [|apply emits_ret; by eexists].
  destruct (find_first _ _) as [pool|] eqn:Hf; apply emits_ret; eexists; (split; [done|]); [|done].
  intros template [= <-]. cbn [discovered]. by rewrite Hf.
Qed.

Lemma chosen_follows c o (fin : options → protocol) :
  follows fin (if decide (o_template o = "") then
      Next (asking EvInventories) (λ ev, is_Some (discovered ev)) (λ ev, fin (with_template o (default "" (discovered ev)))) else fin o) (chosen c o).
Proof.
  unfold chosen. case_decide; [|by apply follows_ret]. eapply emits_bind; [apply discoverTemplate_emits|].
  intros t r (res & -> & Hr). destruct r as [template|err]; [|apply emits_ret; cbn; split; [by eexists|]; by left].
  specialize (Hr _ eq_refl). eapply emits_bind; [apply silently_quiet|]. intros t u ->. apply emits_ret. cbn [app conforms left_of].
  split; [by eexists|]. right. split; [by rewrite Hr|]. by rewrite Hr.
Qed.
End lemmas.

(** ** Correctness *)


(** ** A cluster that meets every contract *)

(** The answers that are still to be given. *)
Definition canned {Q : QuantityOps} : Outside (list web_response) := {|
  getenv _ := mret ""; clock := mret 1500000042%Z; print _ := mret tt; eprint _ := mret tt;
  InClusterConfig := mret (Ok 1%Z); BuildConfigFromFlags _ _ := mret (Ok 1%Z);
  client_New _ _ := mret (Ok 2%Z); RESTClientFor _ _ _ _ := mret (Ok 3%Z);
  client_Create _ _ := mret (Ok tt);
  client_Get _ ns name := mret (Ok (mkSandbox ns name ∅ ∅ "" zero_time "n1" [] []));
  client_List _ _ := mret (Ok []);
  client_ListInventories _ := mret (Ok [mkNodeInventory "n1" "n1" [] "" [mkPoolCapacity "" "" "" 1 1; mkPoolCapacity "ubuntu" "" "" 1 1] [] zero_time]);
  client_Delete _ _ := mret (Err (NewNotFound "sandboxes" "example-500000042"));
  rest_Do _ r := mret (Ok (match po_Body r with OSnapshotOptions n => OSnapshotResult "ck-1" n "n1" zero_time | b => b end));
  request_error _ _ := None;
  http_Do _ := λ l, match l with [] => (Err (ErrSentinel "io.EOF"), []) | r :: l => (Ok r, l) end;
|}.
Definition canned_texts : Texts := {|
  Unmarshal t := if decide (t = "[]") then Ok (JArray []) else Ok (JObject [("sandboxID", JString "sb-7"); ("snapshotID", JString t)]);
  sprint_other _ := "";
  duration_text _ := "";
|}.
Definition canned_registry : Registry.
Proof.
  refine {| registry_machinery := {| sandbox_gv := ("agents.x-k8s.io", "v1beta1"); APIVersionInternal := "__internal"; upstream_types := [];
    meta_types := []; ObjectKinds _ _ := [] |}; upstream_AddToScheme s := Ok s; AddToGroupVersion _ := [] |}.
Defined.

Definition answer (code : Z) (payload : string) : web_response := mkWebResponse code (mkStream payload None).
Definition all_met : list web_response :=
  [ answer 204 ""; answer 200 "[]"; answer 201 "x"; answer 200 "[]"; answer 200 ""; answer 200 "[]"; answer 201 "ck-2"; answer 200 "[]"; answer 201 "[]";
    answer 204 ""; answer 409 ""; answer 201 ""; answer 200 ""; answer 204 ""; answer 204 ""; answer 204 ""; answer 204 ""; answer 204 "" ].

(** The e2b requests of a run, by method and URL. *)
Definition requested {Q : QuantityOps} (t : list event) : list (string * string) := omap (λ ev, match ev with EvWeb r _ => Some (wr_Method r, wr_URL r) | _ => None end) t.

Section examples.
#[local] Existing Instance z_quantity.
#[local] Existing Instance canned_texts.
#[local] Existing Instance canned_registry.
#[local] Instance canned_recorded : Outside (list event * list web_response) := recorded canned.

Definition example_options (keep : bool) : options := mkOptions "" "team" "" "http://e2b/" "k" keep.

(** Every step met: both checkpoints and the sandbox are deleted last. *)
Example walk_succeeds : let '(r, (t, rest)) := run (example_options false) ([], all_met) in
  r = Ok tt ∧ rest = [] ∧ length t = 27 ∧
  drop 15 (requested t) = [("DELETE", "http://e2b/templates/ck-2"); ("DELETE", "http://e2b/templates/ck-1"); ("DELETE", "http://e2b/sandboxes/sb-7")].
Proof. vm_compute. split_and!; reflexivity. Qed.

(** A second pause that is not refused ends the walk: nothing is deleted. *)
Example walk_stops : let '(r, (t, _)) := run (example_options false) ([], take 10 all_met ++ [answer 204 ""]) in
  is_ok r = false ∧ last (requested t) = Some ("POST", "http://e2b/sandboxes/sb-7/pause") ∧ length t = 20.
Proof. vm_compute. split_and!; reflexivity. Qed.
End examples.
