(* ===== verification/WalkRoutes.v ===== *)
(** * The walk-through on the operator's own surface

    The e2b half of examples/lifecycle/example.go against the routes of
    pkg/e2bcompat: which handler each of its requests reaches, and on which
    sandbox or checkpoint. *)

From S2P Require Import Prelude GoStd GoText GoCodec GoMux GoJSON PoolKeys Walkthrough.
From S2P Require Import SandboxId E2bServer E2bUploads E2bApi.

(** ** Specification *)

(** A path element that is sent as it is. *)
Definition url_segment (w : string) : Prop := plain_elem w ∧ PathUnescape w = Some w.

(** The handlers of the protocol's steps, with the values of their paths. *)
Definition handlers (keep : bool) (id : string) (checkpoints : list string) : list (handler * gmap string string) :=
  let on ep := (Authed ep, {[ "sandboxID" := id ]}) in
  [(Health, ∅); (Authed ListTemplates, ∅); (Authed CreateSandbox, ∅); (Authed ListSandboxes, ∅); on GetSandbox; on SandboxMetrics; on CreateSnapshot;
   (Authed ListSnapshots, ∅); on ForkSandbox; on PauseSandbox; on PauseSandbox; on ConnectTo; on ConnectTo; on SetTimeout; on Refresh] ++
  if keep then []
  else ((λ ck, (Authed DeleteTemplateOr, {[ "templateID" := ck ]})) <$> List.filter SandboxView.nonempty checkpoints) ++ [on DeleteSandbox].

Definition reaches (s : Server) (up : option uploads) (st : step) (h : handler * gmap string string) : Prop :=
  mux_route (routes s up) (st_Method st) (st_Path st) = Routed h.1 h.2.

(** ** Lemmas *)

Lemma segment_not_slash w : url_segment w → w ≠ "/".
Proof. intros [(_ & _ & _ & Hs) _] ->. done. Qed.

Lemma rooted_path ws w : Forall url_segment (ws ++ [w]) →
  clean_path ("/" +:+ join "/" (ws ++ [w])) = "/" +:+ join "/" (ws ++ [w]) ∧ segments ("/" +:+ join "/" (ws ++ [w])) = ws ++ [w].
Proof.
  intros Hall. assert (Forall plain_elem (ws ++ [w])) as Hp by (eapply Forall_impl; [exact Hall|]; by intros x [? _]).
  split; [by apply clean_path_plain|]. unfold segments.
  assert ("/" +:+ join "/" (ws ++ [w]) = join (String "/" "") ("" :: ws ++ [w])) as -> by by destruct ws.
  rewrite split_byte_join; [|done|].
  2:{ constructor; [done|]. eapply Forall_impl; [exact Hp|]. by intros x (_ & _ & _ & ?). }
  cbn [tail]. clear Hp. induction Hall as [|x l [(Hx & _) Hu] Hl IH]; [done|]. rewrite fmap_cons, IH, decide_False by done. by rewrite Hu.
Qed.

(** The one pattern that takes a path. *)
Lemma route_unique {A} (table : list (string * A)) method ws w p names h ms : method ≠ "CONNECT" → Forall url_segment (ws ++ [w]) →
  (p, (names, h)) ∈ of_method table method → fits p (ws ++ [w]) ms →
  (∀ q b ms', (q, b) ∈ of_method table method → fits q (ws ++ [w]) ms' → b = (names, h) ∧ ms' = ms) →
  mux_route table method ("/" +:+ join "/" (ws ++ [w])) = Routed h (list_to_map (zip names ms)).
Proof.
  intros Hm Hall Hin Hfit Huniq. destruct (rooted_path ws w Hall) as [Hc Hs]. unfold mux_route.
  rewrite !(decide_False (P := method = "CONNECT")) by done. cbv zeta. rewrite Hc. rewrite decide_False by auto. rewrite Hs. unfold match_method.
  by rewrite (match_path_unique _ _ p (names, h) ms).
Qed.

Lemma literal_segment w : bool_decide (PathUnescape w = Some w) && negb (has_byte "/" w) && negb (bool_decide (w ∈ [""; "."; ".."])) = true → url_segment w.
Proof.
  rewrite !andb_true_iff, !negb_true_iff, bool_decide_eq_true, bool_decide_eq_false. intros [[Hu Hs] Hn]. split; [|done].
  split_and!; [intros ->; apply Hn; set_solver..|done].
Qed.

Section routes.
Context (s : Server) (up : option uploads).

(** The patterns of a method, whatever is served. *)
Ltac on_table := unfold routes; destruct (decide (0 < bo_Parallel (op_Builds (sv_opts s)))%Z); [destruct up as [[d|u]|]|].
Ltac no_other :=
  intros q b ms' Hin Hfit; vm_compute in Hin; cbn [app] in Hfit;
  only_pattern Hin; try (split; reflexivity); try (by apply not_elem_of_nil in Hin); exfalso; congruence.

(** The route of a pattern whose wildcard takes [id]. *)
Ltac routed_by ws v p names ms :=
  lazymatch goal with |- mux_route ?t ?m _ = Routed ?h _ =>
    rewrite (route_unique t m ws v p names h ms);
      [done|done|repeat apply Forall_cons_2; try done; apply literal_segment; reflexivity|vm_compute; table_entry|by repeat constructor|no_other] end.

(** A verb on a sandbox. *)
Lemma sandbox_routed method verb h id :
  (method, verb, h) ∈ [("GET", "metrics", SandboxMetrics); ("POST", "snapshots", CreateSnapshot); ("POST", "fork", ForkSandbox);
    ("POST", "pause", PauseSandbox); ("POST", "connect", ConnectTo); ("POST", "timeout", SetTimeout); ("POST", "refreshes", Refresh)] →
  url_segment id → mux_route (routes s up) method ("/sandboxes/" +:+ id +:+ "/" +:+ verb) = Routed (Authed h) {[ "sandboxID" := id ]}.
Proof.
  intros Hh Hid. pose proof (segment_not_slash _ Hid) as Hne.
  change ("/sandboxes/" +:+ id +:+ "/" +:+ verb) with ("/" +:+ join "/" (["sandboxes"; id] ++ [verb])).
  repeat (apply elem_of_cons in Hh as [[= -> -> ->]|Hh]); [..|by apply not_elem_of_nil in Hh]; on_table.
  all: lazymatch goal with |- mux_route _ _ (_ +:+ join _ (_ ++ [?v])) = _ =>
    routed_by ["sandboxes"; id] v [GoMux.Lit "sandboxes"; Wild "sandboxID"; GoMux.Lit v] ["sandboxID"] [id] end.
Qed.

(** A sandbox, under an id that is not the name of its metrics. *)
Lemma by_id_routed method h id : (method, h) ∈ [("GET", GetSandbox); ("DELETE", DeleteSandbox)] → url_segment id → id ≠ "metrics" →
  mux_route (routes s up) method ("/sandboxes/" +:+ id) = Routed (Authed h) {[ "sandboxID" := id ]}.
Proof.
  intros Hh Hid Hm. pose proof (segment_not_slash _ Hid) as Hne. change ("/sandboxes/" +:+ id) with ("/" +:+ join "/" (["sandboxes"] ++ [id])).
  repeat (apply elem_of_cons in Hh as [[= -> ->]|Hh]); [..|by apply not_elem_of_nil in Hh]; on_table.
  all: routed_by ["sandboxes"] id [GoMux.Lit "sandboxes"; Wild "sandboxID"] ["sandboxID"] [id].
Qed.

(** A checkpoint, under an id that is not the name of the tags. *)
Lemma checkpoint_routed ck : url_segment ck → ck ≠ "tags" →
  mux_route (routes s up) "DELETE" ("/templates/" +:+ ck) = Routed (Authed DeleteTemplateOr) {[ "templateID" := ck ]}.
Proof.
  intros Hid Hm. pose proof (segment_not_slash _ Hid) as Hne. change ("/templates/" +:+ ck) with ("/" +:+ join "/" (["templates"] ++ [ck])). on_table.
  all: routed_by ["templates"] ck [GoMux.Lit "templates"; Wild "templateID"] ["templateID"] [ck].
Qed.

(** A path without a sandbox. *)
Lemma plain_routed method path h :
  (method, path, h) ∈ [("GET", "/health", Health); ("GET", "/templates", Authed ListTemplates); ("POST", "/sandboxes", Authed CreateSandbox);
    ("GET", "/sandboxes", Authed ListSandboxes); ("GET", "/snapshots", Authed ListSnapshots)] →
  mux_route (routes s up) method path = Routed h ∅.
Proof.
  intros Hh. repeat (apply elem_of_cons in Hh as [[= -> -> ->]|Hh]); [..|by apply not_elem_of_nil in Hh]; on_table; vm_compute; reflexivity.
Qed.
End routes.

(** ** Correctness *)

(** The walk-through and the server agree on their routes: whichever table a
    server has, every e2b request of the protocol is routed, in order, to the handler
    of its verb, with the id it was told in place of the path's wildcard - the probe
    without a key, the cleanup to the delete of each checkpoint and of the sandbox -
    as long as the ids are sent as they are and are not the names of other routes. *)
Theorem walk_routed (s : Server) (up : option uploads) (o : options) (k8sCheckpoint id snapshotID : string) :
  url_segment id → id ≠ "metrics" → (∀ ck, ck ∈ [snapshotID; k8sCheckpoint] → ck = "" ∨ url_segment ck ∧ ck ≠ "tags") →
  Forall2 (reaches s up)
    ([get "/health" success; get "/templates" success; create o] ++ looking id ++ [snapshot id] ++ acting id ++ cleaning o k8sCheckpoint id snapshotID)
    (handlers (o_keep o) id [snapshotID; k8sCheckpoint]).
Proof.
  intros Hid Hm Hck. unfold handlers, looking, acting. cbn [app].
  do 15 (apply Forall2_cons; split; [first [apply plain_routed; table_entry | apply by_id_routed; [table_entry|done..]
    | unfold reaches, st_Method, st_Path, get, send, snapshot; eapply (sandbox_routed s up); [table_entry|done]]|]).
  unfold cleaning. destruct (o_keep o); [constructor|]. apply Forall2_app.
  - apply Forall2_fmap. apply Forall_Forall2_diag. apply Forall_forall. intros ck Hin.
    apply list_elem_of_In, filter_In in Hin as [Hin Hne]. apply list_elem_of_In in Hin. destruct (Hck ck Hin) as [->|[? ?]]; [done|].
    by apply checkpoint_routed.
  - apply Forall2_cons. split; [|constructor]. apply by_id_routed; [table_entry|done..].
Qed.

(** ** Witness *)

Definition walk_options : options := Walkthrough.mkOptions "" "team" "ubuntu" "http://e2b" "k" false.

Lemma walk_routed_witness :
  Forall2 (reaches api_server None)
    ([get "/health" success; get "/templates" success; create walk_options] ++ looking "sb-7" ++ [snapshot "sb-7"] ++ acting "sb-7" ++ cleaning walk_options "" "sb-7" "ck_2")
    (handlers false "sb-7" ["ck_2"; ""]).
Proof.
  apply (walk_routed api_server None walk_options "" "sb-7" "ck_2"); [apply literal_segment; reflexivity|discriminate|].
  intros ck [->|[->|H]%elem_of_cons]%elem_of_cons; [right; split; [apply literal_segment; reflexivity|discriminate]|by left|].
  by apply not_elem_of_nil in H.
Defined.

(** The id of a sandbox that is called metrics would be another route's. *)
Example metrics_is_taken : mux_route (routes api_server None) "GET" "/sandboxes/metrics" = Routed (Authed SandboxesMetrics) ∅.
Proof. vm_compute. reflexivity. Qed.
